(* ===== verification/_CoqProject ===== *)
-Q . S2P
Prelude.v
Marshall.v
MarshallMap.v
XidWindow.v
TimeSpec.v
Gettime.v
Connection.v
Listener.v
CloseRace.v
Rpcs.v
Serve.v
ReplyBuffers.v
Rpcc.v
Stubs.v
Remote.v
Session.v
Effects.v
CallLoop.v
Unreliable.v
RpcTest.v
TestThreads.v
ScopedLock.v
ThrPool.v
FifoThreads.v
ObjJob.v
MethodThread.v
AioMgr.v
PollMgr.v
LockServer.v
LockLive.v
LockTester.v
LockPool.v
ExtentServer.v
ExtentClient.v
Strings.v
Address.v
TesterMain.v
TesterEnds.v
LockClient.v
YfsClient.v
Concurrent.v
Fuse.v
Deployment.v
FsMain.v
