(* ===== verification/Prelude.v ===== *)
(** * DS2014: the RPC library, the lock service and the YFS file system

    The program is a small distributed file system on top of its own RPC
    library. Clients call servers through [rpcc] and [rpcs] (rpc/rpc.h,
    rpc/rpc.cc), which marshal arguments (rpc/marshall.h), frame them over TCP
    (rpc/connection.cc), wait for sockets in a poll manager (rpc/pollmgr.cc) and
    run handlers in a thread pool (rpc/thr_pool.cc). Two servers use it: the lock
    server (lock_server.cc) and the extent server (extent_server.cc). The file
    system client (yfs_client.cc) keeps files and directories in extents, which
    it reaches through extent_client.cc, and the FUSE server (fuse.cc) offers
    them to the kernel.

    ** Files

    - Prelude: outcomes of C++ code ([Ok], or [Crash] for a failed assertion,
      an exception nobody catches or undefined behaviour), machine integers as
      [Z] with their wrap-around, buffers, tactics and hints.
    - Marshall: rpc/marshall.h and the marshalling half of rpc/rpc.cc. Buffers
      are byte lists with the capacity and index arithmetic of the source; the
      class [Wire] states what a type's operator<< and operator>> promise, with
      an instance per type. MarshallMap: the std::map templates, another
      instance.
    - XidWindow: [rpcc::update_xid_rep]; TimeSpec: the [timespec] functions.
      Gettime: gettime.cc, with its double arithmetic, and the log level of
      rpc/jsl_log.cc.
    - Connection: rpc/connection.cc. Results of read(2) and write(2) are
      arguments; [send] is split at its waits. Listener: class tcpsconn and
      connect_to_dst. CloseRace: a sender, the callbacks and [closeconn]
      interleaved on one connection.
    - Rpcs: the server endpoint. [dispatch] is split at the handler call, which
      is where pool threads interleave; at-most-once execution is proved over
      all interleavings. Serve: what one dispatched request does. ReplyBuffers:
      the malloc'ed buffers of the reply window, as addresses into a heap, with
      dispatch split between its locks.
    - Rpcc: the client endpoint, [call1] split at its waits. Clock readings,
      random() and connect_to_dst are arguments. CallLoop: the whole loop of
      [call1], its sends and its timed waits, with the clock and the other
      threads around it as an argument.
    - Stubs: the overloads of [call] and [reg] in rpc/rpc.h.
    - Remote: client and server together; [exchange] is one call with the network
      delivering request and reply. Session: sequences of calls; the class
      [Environment] has what the world outside supplies.
    - Unreliable: any number of calling threads, pool threads and other clients
      over a network that loses, delays, duplicates and reorders messages, with
      Effects as the lemmas on what one step can have done.
    - RpcTest: rpc/rpctest.cc, the library's own test, as programs over the model.
      TestThreads: its client threads, interleaved on the unreliable network.
    - ScopedLock: rpc/slock.h; threads that run any code in the scope of a lock
      one statement at a time, with condition variables, against the same code
      with each stretch of a scope as one step.
    - ThrPool: rpc/fifo.h and rpc/thr_pool.cc as interleaved steps. FifoThreads:
      rpc/fifo.h statement by statement, on ScopedLock. ObjJob: the
      method jobs of rpc/thr_pool.h; MethodThread: rpc/method_thread.h. Both with
      the heap objects that carry a call from thread to thread.
    - AioMgr: the two back ends of rpc/pollmgr.cc, select and epoll, behind the
      class [AioMgr] (aio_mgr); the kernel's epoll_ctl is the class [EpollKernel].
      PollMgr: the poll manager, its loop thread and the threads that register
      and remove descriptors, interleaved, with waits that may return by
      themselves.
    - LockServer: lock_server.cc, one step per pthread call of each request;
      LockLive: that it does not leave its clients asleep. LockTester: the threads of lock_tester.cc running against it; TesterMain:
      its main, the tests one after another; TesterEnds: that they end. LockPool:
      the lock server's handlers on the ten threads of the dispatch pool.
      LockClient: lock_client.cc over RPC, the main of lock_smain.cc, and
      lock_demo.cc.
    - ExtentServer: extent_server.cc, extent_protocol.h, and the interface
      [ExtentService] for what extent_client.cc promises the file system, with
      the server called directly as one instance. ExtentClient: extent_client.cc
      over RPC as the other, and extent_smain.cc.
    - Strings: the std::string and number functions the program uses.
    - Address: make_sockaddr and the order on addresses (rpc/rpc.cc).
    - YfsClient: yfs_client.cc, written and proved against [ExtentService].
      Concurrent: two clients' [create] calls interleaved on one directory.
    - Fuse: the handlers of fuse.cc with the replies they send.
    - Deployment: the file system over the RPC instance, from the start of both
      processes. FsMain: the mains of extent_smain.cc and fuse.cc; libfuse, with
      its session loop, is an argument.

    ** Theorems

    - The wire: values and headers survive marshalling and never overflow a
      buffer (request_roundtrip, map_on_the_wire, unpack_headers_total), frames
      are written however little the kernel takes at a time (send_writes_frame)
      and put back together from any pieces if the first read gets the four bytes
      of the size, otherwise the connection is given up (read_reassembles); the
      reader stays inside its buffer (read_cb_safe).
    - Calls: a remote call returns what the method returns
      (remote_call_is_local_call, serve_new_request, reply_reaches_its_call),
      runs at most once (at_most_once, duplicate_answer, and the client's half
      in outstanding_not_acknowledged) and, unanswered, ends at its deadline,
      unless the deadline's nanoseconds are exactly 10^9, when it never does
      (unanswered_call_ends); a restarted server refuses its old clients and runs
      nothing for them (restarted_server_refuses_old_client); the library passes
      its own test (rpctest_passes).
    - Calls over an unreliable network: a call that is not timed out returns the
      code and result of the first run of its method, which had exactly its
      arguments, and while it waits there is at most one
      (exactly_once_answers, unreliable_method_call); if no pool thread starts a
      request after one that acknowledges it was started, there is never another
      (prompt_exactly_once), and otherwise there can be (late_start_runs_twice);
      the threads of the library's test only fail by time-outs
      (rpctest_threads_pass).
    - Reply buffers: the window of pointers implements the window of values
      (checkduplicate_refines), frees only what is allocated (frees_are_valid),
      and is neither read after a free nor leaked if clients acknowledge nothing
      the server still works on (patient_memory); otherwise it can be both
      (impatient_acknowledgement).
    - Locks: code in a ScopedLock may be taken for one step (reduction), the
      job queue's statements implement its one-step calls (fifo_refines) and its
      signals leave nobody asleep who could go on (fifo_no_lost_wakeup).
    - Threads: accepted jobs run once in order and the pool shuts down
      (jobs_run_once_in_order, method_jobs_run_once, shutdown_completes), a new
      thread runs its method once on its own arguments
      (threads_run_their_method); locks exclude each other and wake their
      waiters if no two requests race to create one (mutual_exclusion,
      no_lost_wakeup; creation_race_double_grant without that), the lock tester
      passes and ends on a server that has its lock, or if it runs test1 first
      (lock_tester_never_fails, test1_passes, lock_tester_main_passes,
      lock_tester_ends; creation_race_fails_test2 otherwise), and ten pool
      threads are enough for ten clients, not for eleven
      (pool_serves_ten_clients).
    - Polling: both back ends watch alike, and differ in what is_watched says
      (select_epoll_agree, highfds_is_highest); once block_remove_fd returns, woken
      by the loop, no callback for the descriptor runs (block_remove_fd_guarantee),
      removals complete (removal_completes), and the loop never fails unless a wait
      returned by itself (wait_loop_never_crashes, unguarded_wait); the listener
      shuts down (listener_shutdown).
    - Files: sizes are right (sizes_match_contents), directories are lists of
      entries (create_appends_entry, getDirContent_spec, ilookup_spec), what is
      written is read (write_then_read), what is created is found, or the first
      file whose name ends with its name (create_lookup_roundtrip), how often FUSE is answered (reply_counts), and
      what two clients do to one directory (concurrent_creates).
    - The system: the extent service over RPC refines the server called directly
      (rpc_refines_local), so the file system theorems hold of the deployed
      program (file_system_over_rpc), and main of fuse.cc serves them, data up to
      its first NUL (fuse_main_spec); the lock service over RPC refines the lock server
      (lock_rpc_refines), so lock_demo and the tester work on it
      (lock_service_deployed).
    - Time: what clock_gettime stores, and how far its doubles are exact
      (clock_gettime_spec).
    - Where the code falls short of this, the theorem says so for the inputs
      concerned: get_string_spec, readpdu_undersized, process_accept_cases,
      late_duplicate_is_new, stale_request_leaks_reference,
      anonymous_reply_on_dead_connection, creation_race_double_grant,
      stat_is_always_zero, ilookup_matches_suffix, write_past_end_is_appended,
      mkdir_never_succeeds, fuse_write_stops_at_nul,
      put_limit_and_setattr_bypass, add_timespec_spec, make_sockaddr_spec,
      closeconn_abandons_sender, concurrent_creates, method_jobs_run_once,
      is_watched_select_epoll, unguarded_wait, method_thread_error,
      late_start_runs_twice, creation_race_fails_test2.

    ** Bounds and fuel

    Messages are at most [MAX_MSG] bytes (2^30 - 1: beyond that the capacity
    arithmetic overflows an int); an [exchange] also keeps to the [MAX_PDU] its
    readers accept, and [ExtentClient.rpc_limit] is what that leaves for a
    content. [TimeSpec.carry_loop] has [tv_nsec / 10^9] rounds, each of which
    takes off 10^9; [YfsClient.dir_loop] has one more than the content has
    characters, each round passing a colon, and getDirContent_spec shows the
    rounds never run out; [Strings.digits] has the twenty digits of 2^64. The
    client's transaction ids are followed up to 2^31. A request of the lock
    server that runs alone takes at most six steps ([LockTester.call_alone]). The
    loop of [call1] has 22 rounds, enough for a time-out of 10^9 ms because the
    wait doubles from one second (unanswered_call_ends shows that the result is
    reached within them). Doubles have exponents from -500 to 500 where their
    rounding is followed, far more than nanoseconds and their fractions need.

    ** Not modelled

    Socket options, what is printed, the endless sleeps of the mains, main of
    rpctest.cc and how long the loops of its threads run. Malloc is taken to
    succeed, and the wake-up pipe of SelectAIO to have room for a byte. The lock
    server's table is used without a mutex: its operations are single steps here,
    which a data race on std::map need not respect. Outside ScopedLock and
    FifoThreads a critical section is one step, which reduction justifies where
    the members are used under one lock only;
    in [dispatch] the sections before the handler call are one step
    together, since only one of them uses the reply window. Outside
    ReplyBuffers the buffers of the reply window are values. An [exchange] is a
    call whose request and reply arrive before the first wait is over; everything
    else that can happen to a call is in Unreliable, where the calls of one client
    are followed and the others, with nonces of their own, are arbitrary. *)

From stdpp Require Export base tactics option list relations numbers.
From stdpp Require Export gmap.
From Stdlib Require Export ZArith Lia.
From Stdlib Require Ascii String.
Export String.StringSyntax.

Local Open Scope Z_scope.

(** ** Outcomes of running a piece of C++

    [Ok a] is a normal return with result [a]. [Crash w] is the end of the
    process, or behaviour C++ leaves undefined; [w] says which. *)
Inductive crash : Set :=
  | AssertFailed        (** an [assert] that does not hold *)
  | OutOfBounds         (** a read or write outside an allocated buffer *)
  | SignedOverflow      (** an [int] computation that leaves its range *)
  | NullDereference     (** a method call through a NULL pointer *)
  | UncaughtException   (** a C++ exception nobody catches *)
  | UseAfterFree        (** an access to an object already deleted *)
  | Deadlock            (** a wait for something nobody is left to do *)
  | DivideByZero.       (** an integer division by zero *)

Inductive outcome (A : Type) : Type :=
  | Ok (a : A)
  | Crash (w : crash).
Arguments Ok {A} _.
Arguments Crash {A} _.

#[export] Instance outcome_ret : MRet outcome := fun A a => Ok a.
#[export] Instance outcome_bind : MBind outcome := fun A B f m =>
  match m with Ok a => f a | Crash w => Crash w end.
#[export] Instance outcome_fmap : FMap outcome := fun A B f m =>
  match m with Ok a => Ok (f a) | Crash w => Crash w end.
#[export] Instance crash_eq_dec : EqDecision crash.
Proof. solve_decision. Defined.

(** [assert(b)] *)
Definition cassert (b : bool) : outcome unit :=
  if b then Ok tt else Crash AssertFailed.

Definition is_some {A} (o : option A) : bool :=
  match o with Some _ => true | None => false end.

Definition is_ok {A} (o : outcome A) : bool :=
  match o with Ok _ => true | Crash _ => false end.

(** ** Machine integers: [Z] with the wrap-around of each width written out *)
Definition u8 (x : Z) : Z := x mod 2 ^ 8.
Definition u16 (x : Z) : Z := x mod 2 ^ 16.
Definition u32 (x : Z) : Z := x mod 2 ^ 32.
Definition u64 (x : Z) : Z := x mod 2 ^ 64.
(** [char] is a signed 8-bit type on the platforms the Makefile builds for. *)
Definition i8 (x : Z) : Z := (x + 2 ^ 7) mod 2 ^ 8 - 2 ^ 7.
Definition i16 (x : Z) : Z := (x + 2 ^ 15) mod 2 ^ 16 - 2 ^ 15.
Definition i32 (x : Z) : Z := (x + 2 ^ 31) mod 2 ^ 32 - 2 ^ 31.
Definition i64 (x : Z) : Z := (x + 2 ^ 63) mod 2 ^ 64 - 2 ^ 63.

Definition is_u8 (x : Z) : Prop := 0 <= x < 2 ^ 8.
Definition is_u16 (x : Z) : Prop := 0 <= x < 2 ^ 16.
Definition is_u32 (x : Z) : Prop := 0 <= x < 2 ^ 32.
Definition is_u64 (x : Z) : Prop := 0 <= x < 2 ^ 64.
Definition is_i8 (x : Z) : Prop := - 2 ^ 7 <= x < 2 ^ 7.
Definition is_i16 (x : Z) : Prop := - 2 ^ 15 <= x < 2 ^ 15.
Definition is_i32 (x : Z) : Prop := - 2 ^ 31 <= x < 2 ^ 31.

(** The result of a signed [int] operation: undefined outside the range. *)
Definition int_of (x : Z) : outcome Z :=
  if decide (- 2 ^ 31 <= x < 2 ^ 31) then Ok x else Crash SignedOverflow.

(** ** Tactics *)

(** Case analysis on every [match] and [if] of the goal, with stdpp's
    simplification of the equations it leaves. *)
Ltac split_matches := repeat (case_match; simplify_eq/=).

(** Turn boolean comparisons in hypotheses into propositions. *)
Ltac bool_to_prop :=
  repeat match goal with
  | H : (_ =? _) = true |- _ => apply Z.eqb_eq in H
  | H : (_ =? _) = false |- _ => apply Z.eqb_neq in H
  | H : (_ <? _) = true |- _ => apply Z.ltb_lt in H
  | H : (_ <? _) = false |- _ => apply Z.ltb_ge in H
  | H : (_ <=? _) = true |- _ => apply Z.leb_le in H
  | H : (_ <=? _) = false |- _ => apply Z.leb_gt in H
  | H : andb _ _ = true |- _ => apply andb_true_iff in H as [? ?]
  | H : orb _ _ = false |- _ => apply orb_false_iff in H as [? ?]
  | H : negb _ = true |- _ => apply negb_true_iff in H
  | H : negb _ = false |- _ => apply negb_false_iff in H
  end.

(** Linear arithmetic over the width predicates and wrap functions, with
    [/] and [mod] by constants expanded to their defining equations. *)
Ltac word :=
  unfold u8, u16, u32, u64, i8, i16, i32, i64,
         is_u8, is_u16, is_u32, is_u64, is_i8, is_i16, is_i32 in *;
  Z.div_mod_to_equations; lia.

Create HintDb ds discriminated.

(** ** Width lemmas *)
Lemma u8_range x : is_u8 (u8 x).
Proof. word. Qed.
Lemma u16_range x : is_u16 (u16 x).
Proof. word. Qed.
Lemma u32_range x : is_u32 (u32 x).
Proof. word. Qed.
Lemma u64_range x : is_u64 (u64 x).
Proof. word. Qed.
Lemma i32_range x : is_i32 (i32 x).
Proof. word. Qed.
Lemma u8_small x : is_u8 x -> u8 x = x.
Proof. word. Qed.
Lemma u16_small x : is_u16 x -> u16 x = x.
Proof. word. Qed.
Lemma u32_small x : is_u32 x -> u32 x = x.
Proof. word. Qed.
Lemma u64_small x : is_u64 x -> u64 x = x.
Proof. word. Qed.
Lemma i8_small x : is_i8 x -> i8 x = x.
Proof. word. Qed.
Lemma i16_small x : is_i16 x -> i16 x = x.
Proof. word. Qed.
Lemma i32_small x : is_i32 x -> i32 x = x.
Proof. word. Qed.
Lemma u32_i32 x : u32 (i32 x) = u32 x.
Proof. word. Qed.
Lemma i32_u32 x : i32 (u32 x) = i32 x.
Proof. word. Qed.
Lemma int_of_small x : is_i32 x -> int_of x = Ok x.
Proof. intros. unfold int_of. by rewrite decide_True. Qed.

#[export] Hint Resolve u8_range u16_range u32_range u64_range i32_range : ds.

(** A byte of the wire. *)
Definition is_byte (x : Z) : Prop := is_u8 x.
Abbreviation bytes := (list Z).
Definition wf_bytes (b : bytes) : Prop := Forall is_byte b.

#[export] Instance is_byte_dec x : Decision (is_byte x).
Proof. unfold is_byte, is_u8. apply _. Defined.

(** Characters of a literal, for the examples. *)
#[local] Open Scope string_scope.
Definition str (s : String.string) : bytes :=
  map (fun c => Z.of_nat (Ascii.nat_of_ascii c)) (String.list_ascii_of_string s).

#[global] Arguments str s%_string_scope.
#[local] Close Scope string_scope.

(** Length of a list as a [size_t]. *)
Definition zlen {A} (l : list A) : Z := Z.of_nat (length l).

(** A C array: reading and writing outside it is undefined. *)
Definition array_get {A} (l : list A) (i : Z) : outcome A :=
  if i <? 0 then Crash OutOfBounds
  else match l !! Z.to_nat i with Some x => Ok x | None => Crash OutOfBounds end.
Definition array_set {A} (l : list A) (i : Z) (x : A) : outcome (list A) :=
  if (0 <=? i) && (i <? zlen l) then Ok (<[Z.to_nat i := x]> l) else Crash OutOfBounds.

Lemma zlen_nonneg {A} (l : list A) : 0 <= zlen l.
Proof. unfold zlen. lia. Qed.
Lemma zlen_app {A} (l k : list A) : zlen (l ++ k) = zlen l + zlen k.
Proof. unfold zlen. rewrite length_app. lia. Qed.
Lemma zlen_nil {A} : zlen (@nil A) = 0.
Proof. done. Qed.
Lemma zlen_cons {A} (x : A) l : zlen (x :: l) = 1 + zlen l.
Proof. unfold zlen. simpl. lia. Qed.

Lemma array_set_ok {A} (l : list A) i x :
  0 <= i < zlen l -> array_set l i x = Ok (<[Z.to_nat i := x]> l).
Proof. intros. unfold array_set. by rewrite (proj2 (Z.leb_le _ _)), (proj2 (Z.ltb_lt _ _)) by lia. Qed.
Lemma array_get_some {A} (l : list A) i : 0 <= i < zlen l -> exists x, array_get l i = Ok x.
Proof.
  intros Hi. unfold array_get, zlen in *. rewrite (proj2 (Z.ltb_ge _ _)) by lia.
  destruct (lookup_lt_is_Some_2 l (Z.to_nat i)) as [x ->]; [lia|]. by exists x.
Qed.
Lemma array_get_insert {A} (l : list A) i j x :
  0 <= i < zlen l -> array_get (<[Z.to_nat i := x]> l) j = if decide (i = j) then Ok x else array_get l j.
Proof.
  intros Hi. unfold array_get, zlen in *. destruct (decide (i = j)) as [->|Hne].
  - rewrite (proj2 (Z.ltb_ge _ _)) by lia. by rewrite list_lookup_insert_eq by lia.
  - destruct (Z.ltb_spec j 0); [done|]. by rewrite list_lookup_insert_ne by lia.
Qed.
Lemma zlen_insert {A} (l : list A) i x : zlen (<[i := x]> l) = zlen l.
Proof. unfold zlen. by rewrite length_insert. Qed.
Create Rewrite HintDb zlen.
#[export] Hint Rewrite @zlen_app @zlen_nil @zlen_cons : zlen.
#[export] Hint Resolve zlen_nonneg : ds.

(** ** Buffers *)

(** [buf[i] = x] *)
Definition store (buf : bytes) (i x : Z) : outcome bytes :=
  if decide (0 <= i < zlen buf) then Ok (<[Z.to_nat i := x]> buf)
  else Crash OutOfBounds.

(** [buf[i]] *)
Definition load (buf : bytes) (i : Z) : outcome Z :=
  match (if decide (0 <= i) then buf !! Z.to_nat i else None) with
  | Some x => Ok x
  | None => Crash OutOfBounds
  end.

(** [memcpy(buf + i, p, n)] *)
Definition memcpy (buf : bytes) (i : Z) (p : bytes) (n : Z) : outcome bytes :=
  if decide (0 <= n /\ 0 <= i /\ i + n <= zlen buf /\ n <= zlen p)
  then Ok (take (Z.to_nat i) buf ++ take (Z.to_nat n) p
           ++ drop (Z.to_nat (i + n)) buf)
  else Crash OutOfBounds.

(** Reading [n] bytes from [buf + i]. *)
Definition slice (buf : bytes) (i n : Z) : outcome bytes :=
  if decide (0 <= n /\ 0 <= i /\ i + n <= zlen buf)
  then Ok (take (Z.to_nat n) (drop (Z.to_nat i) buf))
  else Crash OutOfBounds.

(** ** Transition systems *)

(** An invariant of the initial state that every step keeps holds in every
    reachable state. *)
Lemma rtc_invariant {S} (R : S -> S -> Prop) (I : S -> Prop) s s' :
  (forall a b, I a -> R a b -> I b) -> rtc R s s' -> I s -> I s'.
Proof. intros HI. induction 1; eauto. Qed.

(** ** Bit operations on bytes *)
Lemma land_255 x : Z.land x 255 = u8 x.
Proof. change 255 with (Z.ones 8). by rewrite Z.land_ones. Qed.

Lemma land_shifted_disjoint x y k : 0 <= k -> 0 <= y < 2 ^ k -> Z.land (x * 2 ^ k) y = 0.
Proof.
  intros Hk Hy. apply Z.bits_inj'. intros n Hn. rewrite Z.land_spec, Z.bits_0.
  destruct (decide (n < k)).
  - by rewrite Z.mul_pow2_bits_low by lia.
  - rewrite <- (Z.mod_small y (2 ^ k)), Z.mod_pow2_bits_high by lia.
    apply andb_false_r.
Qed.

(** Or-ing in a value below bit [k] is an addition. *)
Lemma lor_add x y k : 0 <= k -> 0 <= y < 2 ^ k -> Z.lor (x * 2 ^ k) y = x * 2 ^ k + y.
Proof.
  intros Hk Hy. pose proof (land_shifted_disjoint x y k Hk Hy) as H.
  by rewrite <- (Z.lxor_lor _ _ H), Z.add_nocarry_lxor.
Qed.

(** ** Adding up over a map *)
Definition total {A} (w : A -> nat) (m : gmap nat A) : nat := map_fold (fun _ x n => (w x + n)%nat) O m.

Lemma total_insert_new {A} (w : A -> nat) (m : gmap nat A) k x :
  m !! k = None -> total w (<[k := x]> m) = (w x + total w m)%nat.
Proof. intros Hk. unfold total. rewrite map_fold_insert_L; [done|intros; lia|done]. Qed.

Lemma total_insert {A} (w : A -> nat) (m : gmap nat A) k x y :
  m !! k = Some x -> (total w (<[k := y]> m) + w x = total w m + w y)%nat.
Proof.
  intros Hk. assert (forall z, total w (<[k := z]> m) = w z + total w (delete k m))%nat as Hd.
  { intros z. rewrite <- insert_delete_eq. apply total_insert_new, lookup_delete_eq. }
  pose proof (Hd x) as Hx. rewrite (insert_id m k x Hk) in Hx. rewrite (Hd y), Hx. lia.
Qed.

Lemma total_choose {A} (w : A -> nat) (m : gmap nat A) :
  (0 < total w m)%nat -> exists k x, m !! k = Some x /\ (0 < w x)%nat.
Proof.
  induction m as [|k x m Hk IH] using map_ind; [unfold total; rewrite map_fold_empty; lia|].
  rewrite total_insert_new by done. intros Ht. destruct (decide (0 < w x)%nat) as [Hx|Hx].
  - exists k, x. by rewrite lookup_insert_eq.
  - destruct IH as (k' & x' & Hk' & Hx'); [lia|]. exists k', x'. split; [|done].
    rewrite lookup_insert_ne by congruence. done.
Qed.
