(* ===== verification/Marshall.v ===== *)
(** * Marshalling: rpc/marshall.h and the operators of rpc/rpc.cc

    The growing buffer [marshall] that requests and replies are written to,
    the cursor [unmarshall] they are read from, the request and reply headers,
    and the [operator<<] / [operator>>] pair of each wire type. A wire type is
    a [codec] (the two operators); [Wire] is what the RPC layer relies on: the
    bytes a value is written as, and that reading them back gives the value. *)

From S2P Require Import Prelude.
Local Open Scope Z_scope.

Definition DEFAULT_RPC_SZ : Z := 1024.
Definition sizeof_rpc_sz_t : Z := 4.
Definition sizeof_req_header : Z := 20.
Definition sizeof_reply_header : Z := 8.
(** RPC_CHECKSUMMING is not defined by the Makefile. *)
Definition RPC_HEADER_SZ : Z :=
  (if sizeof_reply_header <? sizeof_req_header
   then sizeof_req_header else sizeof_reply_header) + sizeof_rpc_sz_t.

Record req_header := ReqHeader {
  rq_xid : Z; rq_proc : Z; rq_clt_nonce : Z; rq_srv_nonce : Z; rq_xid_rep : Z }.
(** The constructor takes five [int]s; the nonces are [unsigned int] fields. *)
Definition mk_req_header (x p c s xi : Z) : req_header :=
  ReqHeader (i32 x) (i32 p) (u32 (i32 c)) (u32 (i32 s)) (i32 xi).

Record reply_header := ReplyHeader { rp_xid : Z; rp_ret : Z }.
Definition mk_reply_header (x r : Z) : reply_header := ReplyHeader (i32 x) (i32 r).

#[export] Instance req_header_eq_dec : EqDecision req_header.
Proof. solve_decision. Defined.
#[export] Instance reply_header_eq_dec : EqDecision reply_header.
Proof. solve_decision. Defined.

(** What malloc and realloc leave in memory nobody has written yet: the byte
    at each offset. No theorem depends on it. *)
Class Memory := fresh_byte : nat -> Z.

Definition malloc `{Memory} (n : Z) : bytes := map fresh_byte (seq 0 (Z.to_nat n)).
Definition realloc `{Memory} (b : bytes) (n : Z) : bytes :=
  take (Z.to_nat n) b
  ++ map fresh_byte (seq (length b) (Z.to_nat n - length b)).

(** [m_buf] is [None] for NULL, after [take_buf]. *)
Record marshall := Marshall { m_buf : option bytes; m_capa : Z; m_ind : Z }.
(** [u_buf] may be longer than [u_sz]: connections allocate four bytes more. *)
Record unmarshall := Unmarshall {
  u_buf : option bytes; u_sz : Z; u_ind : Z; u_ok : bool }.

Section Operations.
Context `{Memory}.

Definition marshall_new : marshall :=
  Marshall (Some (malloc DEFAULT_RPC_SZ)) DEFAULT_RPC_SZ RPC_HEADER_SZ.

Definition marshall_size (m : marshall) : Z := m_ind m.

(** [_capa = capa; _buf = realloc(_buf, _capa)], both asserted non-NULL *)
Definition marshall_grow (m : marshall) (capa : Z) : outcome marshall :=
  capa ← int_of capa;
  match m_buf m with
  | None => Crash AssertFailed
  | Some b => Ok (Marshall (Some (realloc b capa)) capa (m_ind m))
  end.

Definition marshall_rawbyte (m : marshall) (x : Z) : outcome marshall :=
  m ← (if m_capa m <=? m_ind m then marshall_grow m (m_capa m * 2) else Ok m);
  match m_buf m with
  | None => Crash NullDereference
  | Some b =>
      b ← store b (m_ind m) x;
      ind ← int_of (m_ind m + 1);
      Ok (Marshall (Some b) (m_capa m) ind)
  end.

Definition marshall_rawbytes (m : marshall) (p : bytes) (n : Z) : outcome marshall :=
  need ← int_of (m_ind m + n);
  m ← (if m_capa m <? need
       then marshall_grow m (if n <? m_capa m then 2 * m_capa m else m_capa m + n)
       else Ok m);
  match m_buf m with
  | None => Crash NullDereference
  | Some b =>
      b ← memcpy b (m_ind m) p n;
      Ok (Marshall (Some b) (m_capa m) need)
  end.

(** [const std::string str() const] *)
Definition marshall_str (m : marshall) : outcome bytes :=
  match m_buf m with
  | None => Crash NullDereference
  | Some b => slice b 0 (m_ind m)
  end.

(** [take_buf(&b, &s)]: the buffer and the size handed over, and what is left. *)
Definition marshall_take_buf (m : marshall) : option bytes * Z * marshall :=
  (m_buf m, m_ind m, Marshall None (m_capa m) 0).

(** *** operator<< *)
Definition put_u8 (m : marshall) (x : Z) : outcome marshall := marshall_rawbyte m x.
Definition put_char (m : marshall) (x : Z) : outcome marshall := put_u8 m (u8 x).
Definition put_u16 (m : marshall) (x : Z) : outcome marshall :=
  m ← marshall_rawbyte m (Z.land (Z.shiftr x 8) 255);
  marshall_rawbyte m (Z.land x 255).
Definition put_i16 (m : marshall) (x : Z) : outcome marshall := put_u16 m (u16 x).
Definition put_u32 (m : marshall) (x : Z) : outcome marshall :=
  m ← marshall_rawbyte m (Z.land (Z.shiftr x 24) 255);
  m ← marshall_rawbyte m (Z.land (Z.shiftr x 16) 255);
  m ← marshall_rawbyte m (Z.land (Z.shiftr x 8) 255);
  marshall_rawbyte m (Z.land x 255).
Definition put_i32 (m : marshall) (x : Z) : outcome marshall := put_u32 m (u32 x).
Definition put_string (m : marshall) (s : bytes) : outcome marshall :=
  m ← put_u32 m (u32 (zlen s));
  marshall_rawbytes m s (i32 (zlen s)).
Definition put_u64 (m : marshall) (x : Z) : outcome marshall :=
  m ← put_u32 m (u32 (Z.shiftr x 32));
  put_u32 m (u32 x).

(** [void pack(int x)] *)
Definition marshall_pack (m : marshall) (x : Z) : outcome marshall :=
  m ← marshall_rawbyte m (Z.land (Z.shiftr x 24) 255);
  m ← marshall_rawbyte m (Z.land (Z.shiftr x 16) 255);
  m ← marshall_rawbyte m (Z.land (Z.shiftr x 8) 255);
  marshall_rawbyte m (Z.land x 255).

Definition set_ind (m : marshall) (i : Z) : marshall := Marshall (m_buf m) (m_capa m) i.

Definition marshall_pack_req_header (m : marshall) (h : req_header) : outcome marshall :=
  let saved_sz := m_ind m in
  let m := set_ind m sizeof_rpc_sz_t in
  m ← marshall_pack m (rq_xid h);
  m ← marshall_pack m (rq_proc h);
  m ← marshall_pack m (i32 (rq_clt_nonce h));
  m ← marshall_pack m (i32 (rq_srv_nonce h));
  m ← marshall_pack m (rq_xid_rep h);
  Ok (set_ind m saved_sz).

Definition marshall_pack_reply_header (m : marshall) (h : reply_header) : outcome marshall :=
  let saved_sz := m_ind m in
  let m := set_ind m sizeof_rpc_sz_t in
  m ← marshall_pack m (rp_xid h);
  m ← marshall_pack m (rp_ret h);
  Ok (set_ind m saved_sz).

End Operations.

(** *** unmarshall *)
Definition unmarshall_empty : unmarshall := Unmarshall None 0 0 false.
Definition unmarshall_new (b : bytes) (sz : Z) : unmarshall := Unmarshall (Some b) sz 0 true.

(** [take_buf(&b, &sz)] *)
Definition unmarshall_take_buf (u : unmarshall) : option bytes * Z * unmarshall :=
  (u_buf u, u_sz u, Unmarshall None 0 0 (u_ok u)).

(** [take_in(another)]: the receiver's new contents and what is left of [another]. *)
Definition unmarshall_take_in (u another : unmarshall) : unmarshall * unmarshall :=
  let '(b, sz, another) := unmarshall_take_buf another in
  (Unmarshall b sz RPC_HEADER_SZ (RPC_HEADER_SZ <=? sz), another).

Definition unmarshall_okdone (u : unmarshall) : bool :=
  u_ok u && (u_ind u =? u_sz u).

(** Returns a [char] converted to [unsigned int]: the byte is sign-extended. *)
Definition unmarshall_rawbyte (u : unmarshall) : outcome (unmarshall * Z) :=
  if u_sz u <=? u_ind u then
    Ok (Unmarshall (u_buf u) (u_sz u) (u_ind u) false, 0)
  else
    match u_buf u with
    | None => Crash NullDereference
    | Some b =>
        c ← load b (u_ind u);
        Ok (Unmarshall (u_buf u) (u_sz u) (u_ind u + 1) (u_ok u), u32 (i8 c))
    end.

(** [rawbytes(ss, n)]: [_ind + n] is computed in 32-bit unsigned arithmetic. *)
Definition unmarshall_rawbytes (u : unmarshall) (ss : bytes) (n : Z)
    : outcome (unmarshall * bytes) :=
  if u32 (u_sz u) <? u32 (u32 (u_ind u) + n) then
    Ok (Unmarshall (u_buf u) (u_sz u) (u_ind u) false, ss)
  else
    match u_buf u with
    | None => Crash NullDereference
    | Some b =>
        ss ← slice b (u_ind u) n;
        Ok (Unmarshall (u_buf u) (u_sz u) (i32 (u32 (u_ind u) + n)) (u_ok u), ss)
    end.

(** *** operator>>: the last argument is the previous value of the variable *)
Definition get_u8 (u : unmarshall) (_ : Z) : outcome (unmarshall * Z) :=
  '(u, b) ← unmarshall_rawbyte u; Ok (u, u8 b).
Definition get_char (u : unmarshall) (_ : Z) : outcome (unmarshall * Z) :=
  '(u, b) ← unmarshall_rawbyte u; Ok (u, i8 b).
Definition get_u16 (u : unmarshall) (_ : Z) : outcome (unmarshall * Z) :=
  '(u, b) ← unmarshall_rawbyte u;
  let x := u16 (Z.shiftl (Z.land b 255) 8) in
  '(u, b) ← unmarshall_rawbyte u;
  Ok (u, u16 (Z.lor x (Z.land b 255))).
Definition get_i16 (u : unmarshall) (_ : Z) : outcome (unmarshall * Z) :=
  '(u, b) ← unmarshall_rawbyte u;
  let x := i16 (Z.shiftl (Z.land b 255) 8) in
  '(u, b) ← unmarshall_rawbyte u;
  Ok (u, i16 (Z.lor (u32 x) (Z.land b 255))).
Definition get_u32 (u : unmarshall) (_ : Z) : outcome (unmarshall * Z) :=
  '(u, b) ← unmarshall_rawbyte u;
  let x := u32 (Z.shiftl (Z.land b 255) 24) in
  '(u, b) ← unmarshall_rawbyte u;
  let x := Z.lor x (u32 (Z.shiftl (Z.land b 255) 16)) in
  '(u, b) ← unmarshall_rawbyte u;
  let x := Z.lor x (u32 (Z.shiftl (Z.land b 255) 8)) in
  '(u, b) ← unmarshall_rawbyte u;
  Ok (u, Z.lor x (Z.land b 255)).
Definition get_i32 (u : unmarshall) (_ : Z) : outcome (unmarshall * Z) :=
  '(u, b) ← unmarshall_rawbyte u;
  let x := i32 (u32 (Z.shiftl (Z.land b 255) 24)) in
  '(u, b) ← unmarshall_rawbyte u;
  let x := i32 (Z.lor (u32 x) (u32 (Z.shiftl (Z.land b 255) 16))) in
  '(u, b) ← unmarshall_rawbyte u;
  let x := i32 (Z.lor (u32 x) (u32 (Z.shiftl (Z.land b 255) 8))) in
  '(u, b) ← unmarshall_rawbyte u;
  Ok (u, i32 (Z.lor (u32 x) (Z.land b 255))).
Definition get_u64 (u : unmarshall) (_ : Z) : outcome (unmarshall * Z) :=
  '(u, h) ← get_u32 u 0;
  '(u, l) ← get_u32 u 0;
  Ok (u, Z.lor l (u64 (Z.shiftl h 32))).
Definition get_string (u : unmarshall) (s : bytes) : outcome (unmarshall * bytes) :=
  '(u, sz) ← get_u32 u 0;
  if u_ok u then unmarshall_rawbytes u s sz else Ok (u, s).

(** [void unpack(int *x)] *)
Definition unmarshall_unpack (u : unmarshall) : outcome (unmarshall * Z) := get_i32 u 0.

Definition set_uind (u : unmarshall) (i : Z) : unmarshall :=
  Unmarshall (u_buf u) (u_sz u) i (u_ok u).

Definition unmarshall_unpack_req_header (u : unmarshall) : outcome (unmarshall * req_header) :=
  let u := set_uind u sizeof_rpc_sz_t in
  '(u, xid) ← unmarshall_unpack u;
  '(u, proc) ← unmarshall_unpack u;
  '(u, clt) ← unmarshall_unpack u;
  '(u, srv) ← unmarshall_unpack u;
  '(u, xid_rep) ← unmarshall_unpack u;
  Ok (set_uind u RPC_HEADER_SZ, ReqHeader xid proc (u32 clt) (u32 srv) xid_rep).

Definition unmarshall_unpack_reply_header (u : unmarshall)
    : outcome (unmarshall * reply_header) :=
  let u := set_uind u sizeof_rpc_sz_t in
  '(u, xid) ← unmarshall_unpack u;
  '(u, ret) ← unmarshall_unpack u;
  Ok (set_uind u RPC_HEADER_SZ, ReplyHeader xid ret).

(** ** What has been written *)

(** The bytes written so far, header room included. *)
Definition contents (m : marshall) : bytes :=
  match m_buf m with Some b => take (Z.to_nat (m_ind m)) b | None => [] end.

(** The buffer is allocated at its recorded capacity, the write head is inside
    it and past the header, and the capacity is at most twice what is needed:
    that keeps every [int] computation in range up to [MAX_MSG] bytes. *)
Definition marshall_wf (m : marshall) : Prop :=
  exists b, m_buf m = Some b /\ zlen b = m_capa m /\
    RPC_HEADER_SZ <= m_ind m <= m_capa m /\
    m_capa m <= Z.max DEFAULT_RPC_SZ (2 * m_ind m).

Definition MAX_MSG : Z := 2 ^ 30 - 1.

(** [m'] is [m] with [bs] appended. *)
Definition extends (m : marshall) (bs : bytes) (m' : marshall) : Prop :=
  marshall_wf m' /\ contents m' = contents m ++ bs.

Ltac header_sz :=
  unfold RPC_HEADER_SZ, DEFAULT_RPC_SZ, MAX_MSG, sizeof_rpc_sz_t, sizeof_req_header,
    sizeof_reply_header in *; simpl in *.

Section Writing.
Context `{Memory}.

Lemma zlen_malloc n : 0 <= n -> zlen (malloc n) = n.
Proof. intros. unfold malloc, zlen. rewrite length_map, length_seq. lia. Qed.

Lemma zlen_realloc b n : zlen b <= n -> zlen (realloc b n) = n.
Proof.
  intros. unfold realloc, zlen in *.
  rewrite length_app, length_take, length_map, length_seq. lia.
Qed.

Lemma take_realloc b n (k : nat) :
  Z.of_nat k <= zlen b -> zlen b <= n -> take k (realloc b n) = take k b.
Proof.
  intros. unfold realloc, zlen in *.
  rewrite (take_ge b) by lia. by rewrite take_app_le by lia.
Qed.

Lemma contents_length m : marshall_wf m -> zlen (contents m) = m_ind m.
Proof.
  intros (b & Hb & Hl & Hi & _). unfold contents, zlen in *. rewrite Hb, length_take.
  header_sz. lia.
Qed.

Lemma marshall_new_wf : marshall_wf marshall_new.
Proof.
  unfold marshall_wf, marshall_new. eexists. split; [done|]. simpl.
  rewrite zlen_malloc; header_sz; lia.
Qed.

Lemma grow_ok m capa :
  marshall_wf m -> m_capa m <= capa < 2 ^ 31 ->
  exists b, marshall_grow m capa = Ok (Marshall (Some b) capa (m_ind m)) /\
    zlen b = capa /\ take (Z.to_nat (m_ind m)) b = contents m.
Proof.
  intros (b & Hb & Hl & Hi & _) Hc. unfold marshall_grow, contents. rewrite Hb.
  assert (0 <= m_ind m) by (header_sz; lia).
  exists (realloc b capa). rewrite int_of_small by (unfold is_i32; lia). simpl.
  split; [done|]. split; [apply zlen_realloc; lia|]. apply take_realloc; lia.
Qed.

Lemma store_ok b i x :
  0 <= i < zlen b ->
  exists b', store b i x = Ok b' /\ zlen b' = zlen b /\
    take (Z.to_nat (i + 1)) b' = take (Z.to_nat i) b ++ [x].
Proof.
  intros Hi. unfold store. rewrite decide_True by done. eexists. split; [done|].
  unfold zlen in *. rewrite length_insert. split; [done|].
  replace (Z.to_nat (i + 1)) with (S (Z.to_nat i)) by lia.
  erewrite take_S_r; [|apply list_lookup_insert_eq; lia].
  by rewrite take_insert_ge by lia.
Qed.

Lemma rawbyte_ok m x :
  marshall_wf m -> m_ind m < MAX_MSG ->
  exists m', marshall_rawbyte m x = Ok m' /\ extends m [x] m'.
Proof.
  intros Hwf Hm. pose proof Hwf as (b & Hb & Hl & Hi & Hc).
  unfold marshall_rawbyte, extends.
  assert (exists b1 c1, (if m_capa m <=? m_ind m then marshall_grow m (m_capa m * 2) else Ok m)
      = Ok (Marshall (Some b1) c1 (m_ind m)) /\ zlen b1 = c1 /\ m_ind m < c1 /\
      c1 <= Z.max DEFAULT_RPC_SZ (2 * (m_ind m + 1)) /\
      take (Z.to_nat (m_ind m)) b1 = contents m) as (b1 & c1 & -> & Hl1 & Hlt & Hc1 & Ht).
  { destruct (m_capa m <=? m_ind m) eqn:E; bool_to_prop.
    - destruct (grow_ok m (m_capa m * 2)) as (b1 & -> & ? & ?); [done|header_sz; lia|].
      exists b1, (m_capa m * 2). header_sz. repeat split; try done; lia.
    - exists b, (m_capa m). unfold contents. rewrite Hb. destruct m; simpl in *. subst.
      repeat split; try done; header_sz; lia. }
  simpl. destruct (store_ok b1 (m_ind m) x) as (b2 & -> & Hl2 & Ht2); [header_sz; lia|].
  simpl. rewrite int_of_small by (header_sz; unfold is_i32; lia). simpl.
  eexists. split; [done|]. split.
  - exists b2. simpl. rewrite Hl2. header_sz. repeat split; try done; lia.
  - unfold contents at 1. simpl. by rewrite Ht2, Ht.
Qed.

Lemma memcpy_ok b i p :
  0 <= i -> i + zlen p <= zlen b ->
  exists b', memcpy b i p (zlen p) = Ok b' /\ zlen b' = zlen b /\
    take (Z.to_nat (i + zlen p)) b' = take (Z.to_nat i) b ++ p.
Proof.
  intros Hi Hp. pose proof (zlen_nonneg p). unfold memcpy. rewrite decide_True by lia.
  eexists. split; [done|]. unfold zlen in *.
  rewrite (take_ge p) by lia. split.
  - rewrite !length_app, length_take, length_drop. lia.
  - rewrite (assoc_L (++)), take_app_length'; [done|].
    rewrite length_app, length_take. lia.
Qed.

Lemma rawbytes_ok m p :
  marshall_wf m -> m_ind m + zlen p <= MAX_MSG ->
  exists m', marshall_rawbytes m p (zlen p) = Ok m' /\ extends m p m'.
Proof.
  intros Hwf Hm. pose proof Hwf as (b & Hb & Hl & Hi & Hc). pose proof (zlen_nonneg p).
  unfold marshall_rawbytes, extends.
  rewrite int_of_small by (header_sz; unfold is_i32; lia). simpl.
  assert (exists b1 c1,
      (if m_capa m <? m_ind m + zlen p
       then marshall_grow m (if zlen p <? m_capa m then 2 * m_capa m else m_capa m + zlen p)
       else Ok m) = Ok (Marshall (Some b1) c1 (m_ind m)) /\ zlen b1 = c1 /\
      m_ind m + zlen p <= c1 /\
      c1 <= Z.max DEFAULT_RPC_SZ (2 * (m_ind m + zlen p)) /\
      take (Z.to_nat (m_ind m)) b1 = contents m) as (b1 & c1 & -> & Hl1 & Hlt & Hc1 & Ht).
  { destruct (m_capa m <? m_ind m + zlen p) eqn:E; bool_to_prop.
    - destruct (grow_ok m (if zlen p <? m_capa m then 2 * m_capa m else m_capa m + zlen p))
        as (b1 & -> & ? & ?); [done|case_match; bool_to_prop; header_sz; lia|].
      eexists b1, _. split; [done|]. case_match; bool_to_prop; header_sz;
        repeat split; try done; lia.
    - exists b, (m_capa m). unfold contents. rewrite Hb. destruct m; simpl in *. subst.
      repeat split; try done; header_sz; lia. }
  simpl. destruct (memcpy_ok b1 (m_ind m) p) as (b2 & -> & Hl2 & Ht2);
    [header_sz; lia|lia|].
  simpl. eexists. split; [done|]. split.
  - exists b2. simpl. rewrite Hl2. header_sz. repeat split; try done; lia.
  - unfold contents at 1. simpl. by rewrite Ht2, Ht.
Qed.

End Writing.

(** ** Writers and readers *)

(** [f] appends exactly [bs] to any well-formed buffer that has room for it
    under [MAX_MSG]. *)
Definition writes `{Memory} (f : marshall -> outcome marshall) (bs : bytes) : Prop :=
  forall m, marshall_wf m -> m_ind m + zlen bs <= MAX_MSG ->
    exists m', f m = Ok m' /\ extends m bs m'.

(** The reader is healthy and has exactly [rest] in front of it. *)
Definition remaining (u : unmarshall) (rest : bytes) : Prop :=
  exists b, u_buf u = Some b /\ u_ok u = true /\
    0 <= u_ind u <= u_sz u /\ u_sz u <= zlen b /\ u_sz u < 2 ^ 31 /\
    take (Z.to_nat (u_sz u - u_ind u)) (drop (Z.to_nat (u_ind u)) b) = rest.

(** [f] consumes exactly [bs] and returns [a], whatever follows. *)
Definition reads {A} (f : unmarshall -> outcome (unmarshall * A)) (bs : bytes) (a : A) : Prop :=
  forall u rest, remaining u (bs ++ rest) ->
    exists u', f u = Ok (u', a) /\ remaining u' rest.

(** Big-endian images. *)
Definition be16 (x : Z) : bytes := [u8 (x / 2 ^ 8); u8 x].
Definition be32 (x : Z) : bytes := [u8 (x / 2 ^ 24); u8 (x / 2 ^ 16); u8 (x / 2 ^ 8); u8 x].
Definition be64 (x : Z) : bytes := be32 (x / 2 ^ 32) ++ be32 x.

#[global] Arguments be16 : simpl never.
#[global] Arguments be32 : simpl never.
#[global] Arguments be64 : simpl never.

Lemma be32_u32 x : be32 (u32 x) = be32 x.
Proof.
  unfold be32. apply list_eq_Forall2. repeat constructor; word.
Qed.

Section Combinators.
Context `{Memory}.

Lemma extends_ind m bs m' : marshall_wf m -> extends m bs m' -> m_ind m' = m_ind m + zlen bs.
Proof.
  intros Hwf [Hwf' Hc]. rewrite <- (contents_length m), <- (contents_length m') by done.
  by rewrite Hc, zlen_app.
Qed.

Lemma extends_trans m bs1 m1 bs2 m2 :
  extends m bs1 m1 -> extends m1 bs2 m2 -> extends m (bs1 ++ bs2) m2.
Proof. intros [_ H1] [W H2]. split; [done|]. by rewrite H2, H1, (assoc_L (++)). Qed.

Lemma writes_seq f g bs1 bs2 :
  writes f bs1 -> writes g bs2 -> writes (fun m => m ← f m; g m) (bs1 ++ bs2).
Proof.
  intros Hf Hg m Hwf Hm. rewrite zlen_app in Hm.
  pose proof (zlen_nonneg bs1); pose proof (zlen_nonneg bs2).
  destruct (Hf m) as (m1 & E1 & X1); [done|lia|].
  destruct (Hg m1) as (m2 & E2 & X2); [apply X1| |].
  { rewrite (extends_ind m bs1 m1) by done. lia. }
  exists m2. rewrite E1. simpl. rewrite E2. eauto using extends_trans.
Qed.

Lemma writes_nil : writes (fun m => Ok m) [].
Proof. intros m Hwf _. exists m. split; [done|]. split; [done|]. by rewrite app_nil_r. Qed.

Lemma writes_rawbyte x : writes (fun m => marshall_rawbyte m x) [x].
Proof. intros m Hwf Hm. apply rawbyte_ok; [done|]. unfold zlen in Hm. simpl in Hm. lia. Qed.

Lemma writes_rawbytes p : writes (fun m => marshall_rawbytes m p (zlen p)) p.
Proof. intros m Hwf Hm. by apply rawbytes_ok. Qed.

Lemma writes_put_u16 x : writes (fun m => put_u16 m x) (be16 x).
Proof.
  unfold put_u16, be16. rewrite !land_255, !Z.shiftr_div_pow2 by lia.
  change [?a; ?b] with ([a] ++ [b]).
  repeat apply writes_seq; apply writes_rawbyte.
Qed.

Lemma writes_pack x : writes (fun m => marshall_pack m x) (be32 x).
Proof.
  unfold marshall_pack, be32. rewrite !land_255, !Z.shiftr_div_pow2 by lia.
  change [?a; ?b; ?c; ?d] with ([a] ++ [b] ++ [c] ++ [d]).
  apply (writes_seq _ _ _ _ (writes_rawbyte _)).
  apply (writes_seq _ _ _ _ (writes_rawbyte _)).
  apply (writes_seq _ _ _ _ (writes_rawbyte _)). apply writes_rawbyte.
Qed.

Lemma writes_put_u32 x : writes (fun m => put_u32 m x) (be32 x).
Proof. apply writes_pack. Qed.

Lemma writes_put_u64 x : is_u64 x -> writes (fun m => put_u64 m x) (be64 x).
Proof.
  intros Hx. unfold put_u64, be64. rewrite Z.shiftr_div_pow2 by lia.
  rewrite <- (be32_u32 x).
  rewrite (u32_small (x / _)) by word.
  apply (writes_seq _ _ _ _ (writes_put_u32 _)), writes_put_u32.
Qed.

Lemma writes_put_string s :
  zlen s < 2 ^ 31 -> writes (fun m => put_string m s) (be32 (zlen s) ++ s).
Proof.
  intros Hs. pose proof (zlen_nonneg s). unfold put_string.
  rewrite u32_small, i32_small by (unfold is_u32, is_i32; lia).
  apply (writes_seq _ _ _ _ (writes_put_u32 _)), writes_rawbytes.
Qed.

Lemma reads_bind {A B} (f : unmarshall -> outcome (unmarshall * A))
    (g : A -> unmarshall -> outcome (unmarshall * B)) bs1 bs2 a b :
  reads f bs1 a -> reads (g a) bs2 b ->
  reads (fun u => '(u, x) ← f u; g x u) (bs1 ++ bs2) b.
Proof.
  intros Hf Hg u rest Hu. rewrite <- (assoc_L (++)) in Hu.
  destruct (Hf u _ Hu) as (u1 & -> & Hu1). apply Hg, Hu1.
Qed.

Lemma reads_ret {A B} (f : unmarshall -> outcome (unmarshall * A)) (h : A -> B) bs a :
  reads f bs a -> reads (fun u => '(u, x) ← f u; Ok (u, h x)) bs (h a).
Proof. intros Hf u rest Hu. destruct (Hf u _ Hu) as (u1 & -> & Hu1). eauto. Qed.

Lemma remaining_skip u bs rest :
  remaining u (bs ++ rest) ->
  remaining (Unmarshall (u_buf u) (u_sz u) (u_ind u + zlen bs) true) rest.
Proof.
  intros (b & Hb & Hok & Hi & Hs & H31 & E). exists b. simpl.
  pose proof (f_equal length E) as El. rewrite length_app, length_take, length_drop in El.
  unfold zlen in *. repeat split; try done; [lia|lia|].
  apply (f_equal (drop (length bs))) in E. rewrite drop_app_length in E. subst rest.
  replace (Z.to_nat (u_ind u + Z.of_nat (length bs)))
    with (Z.to_nat (u_ind u) + length bs)%nat by lia.
  rewrite <- drop_drop, take_drop_commute. do 2 f_equal. lia.
Qed.

Lemma remaining_lookup u bs rest b :
  u_buf u = Some b -> remaining u (bs ++ rest) ->
  take (length bs) (drop (Z.to_nat (u_ind u)) b) = bs.
Proof.
  intros Hb (b' & Hb' & Hok & Hi & Hs & H31 & E). simplify_eq.
  pose proof (f_equal length E) as El. rewrite length_app, length_take, length_drop in El.
  apply (f_equal (take (length bs))) in E. rewrite take_app_length in E.
  rewrite take_take in E. unfold zlen in *. by rewrite Nat.min_l in E by lia.
Qed.
End Combinators.

(** ** Readers of each type *)
Lemma land_rawbyte c : is_byte c -> Z.land (u32 (i8 c)) 255 = c.
Proof. intros. rewrite land_255. unfold is_byte in *. word. Qed.

Lemma reads_rawbyte c : reads unmarshall_rawbyte [c] (u32 (i8 c)).
Proof.
  intros u rest Hu. pose proof Hu as (b & Hb & Hok & Hi & Hs & H31 & E).
  pose proof (remaining_lookup u [c] rest b Hb Hu) as L.
  pose proof (f_equal length E) as El. rewrite length_app, length_take, length_drop in El.
  unfold zlen in *. simpl in El.
  unfold unmarshall_rawbyte. destruct (u_sz u <=? u_ind u) eqn:C; bool_to_prop; [lia|].
  rewrite Hb. unfold load. rewrite decide_True by lia.
  assert (b !! Z.to_nat (u_ind u) = Some c) as ->.
  { rewrite <- (Nat.add_0_r (Z.to_nat _)), <- lookup_drop.
    destruct (drop (Z.to_nat (u_ind u)) b); simplify_eq/=. done. }
  simpl. eexists. split; [done|]. rewrite Hok, <- Hb.
  apply (remaining_skip u [c]). done.
Qed.

Lemma combine4 a b c d :
  is_byte a -> is_byte b -> is_byte c -> is_byte d ->
  Z.lor (Z.lor (Z.lor (u32 (Z.shiftl a 24)) (u32 (Z.shiftl b 16))) (u32 (Z.shiftl c 8))) d
  = a * 2 ^ 24 + b * 2 ^ 16 + c * 2 ^ 8 + d.
Proof.
  unfold is_byte, is_u8. intros. rewrite !Z.shiftl_mul_pow2 by lia.
  rewrite !u32_small by (unfold is_u32; lia).
  rewrite (lor_add a) by lia.
  replace (a * 2 ^ 24 + b * 2 ^ 16) with ((a * 2 ^ 8 + b) * 2 ^ 16) by lia.
  rewrite lor_add by lia.
  replace ((a * 2 ^ 8 + b) * 2 ^ 16 + c * 2 ^ 8) with ((a * 2 ^ 16 + b * 2 ^ 8 + c) * 2 ^ 8) by lia.
  rewrite lor_add by lia. lia.
Qed.

Lemma combine2 a b :
  is_byte a -> is_byte b -> Z.lor (u16 (Z.shiftl a 8)) b = a * 2 ^ 8 + b.
Proof.
  unfold is_byte, is_u8. intros. rewrite Z.shiftl_mul_pow2 by lia.
  rewrite u16_small by (unfold is_u16; lia). by rewrite lor_add by lia.
Qed.

Lemma combine_be32 x :
  u8 (x / 2 ^ 24) * 2 ^ 24 + u8 (x / 2 ^ 16) * 2 ^ 16 + u8 (x / 2 ^ 8) * 2 ^ 8 + u8 x = u32 x.
Proof. word. Qed.

Ltac read_byte :=
  eapply (reads_bind _ (fun b u => _)); [apply reads_rawbyte|cbv beta];
  rewrite land_rawbyte by apply u8_range.
Ltac read_last_byte :=
  eapply (reads_ret _ (fun b => _)); apply reads_rawbyte.

Lemma reads_u32 x d : reads (fun u => get_u32 u d) (be32 x) (u32 x).
Proof.
  unfold get_u32, be32. change [?a; ?b; ?c; ?d] with ([a] ++ [b] ++ [c] ++ [d]).
  rewrite <- combine_be32, <- combine4 by apply u8_range.
  rewrite <- (land_rawbyte (u8 x)) at 2 by apply u8_range.
  do 3 read_byte. read_last_byte.
Qed.

(** Or-ing into an [int] goes through [unsigned] and back: the bits are those
    of the unsigned accumulator. *)
Lemma i32_lor_acc x y : is_u32 x -> Z.lor (u32 (i32 x)) y = Z.lor x y.
Proof. intros. by rewrite u32_i32, u32_small. Qed.

Lemma lor_u32_range x y : is_u32 x -> is_u32 y -> is_u32 (Z.lor x y).
Proof.
  intros Hx Hy.
  assert (u32 (Z.lor x y) = Z.lor x y) as <-; [|apply u32_range].
  rewrite <- (u32_small x Hx) at 2. rewrite <- (u32_small y Hy) at 2.
  unfold u32. rewrite <- !Z.land_ones by lia. by rewrite Z.land_lor_distr_l.
Qed.

Lemma reads_i32 x d : is_i32 x -> reads (fun u => get_i32 u d) (be32 x) x.
Proof.
  intros Hx. unfold get_i32, be32. change [?a; ?b; ?c; ?d] with ([a] ++ [b] ++ [c] ++ [d]).
  assert (i32 (Z.lor (u32 (i32 (Z.lor (u32 (i32 (Z.lor
      (u32 (i32 (u32 (Z.shiftl (u8 (x / 2 ^ 24)) 24))))
      (u32 (Z.shiftl (u8 (x / 2 ^ 16)) 16))))) (u32 (Z.shiftl (u8 (x / 2 ^ 8)) 8)))))
      (u8 x)) = x) as E.
  { rewrite !i32_lor_acc by auto using lor_u32_range, u32_range.
    rewrite combine4, combine_be32, i32_u32 by apply u8_range. by apply i32_small. }
  rewrite <- (land_rawbyte (u8 x)) in E at 1 by apply u8_range.
  rewrite <- E at 5. do 3 read_byte. read_last_byte.
Qed.

Lemma reads_u8 x d : is_u8 x -> reads (fun u => get_u8 u d) [x] x.
Proof.
  intros Hx. unfold get_u8.
  replace x with (u8 (u32 (i8 x))) at 2 by word. apply (reads_ret _ u8), reads_rawbyte.
Qed.

Lemma reads_char x d : is_i8 x -> reads (fun u => get_char u d) [u8 x] x.
Proof.
  intros Hx. unfold get_char.
  replace x with (i8 (u32 (i8 (u8 x)))) at 2 by word. apply (reads_ret _ i8), reads_rawbyte.
Qed.

Lemma reads_u16 x d : is_u16 x -> reads (fun u => get_u16 u d) (be16 x) x.
Proof.
  intros Hx. unfold get_u16, be16. change [?a; ?b] with ([a] ++ [b]).
  assert (u16 (Z.lor (u16 (Z.shiftl (u8 (x / 2 ^ 8)) 8)) (u8 x)) = x) as E.
  { rewrite combine2 by apply u8_range. word. }
  rewrite <- (land_rawbyte (u8 x)) in E at 1 by apply u8_range.
  rewrite <- E at 3. read_byte. read_last_byte.
Qed.

Lemma reads_i16 x d : is_i16 x -> reads (fun u => get_i16 u d) (be16 x) x.
Proof.
  intros Hx. unfold get_i16, be16. change [?a; ?b] with ([a] ++ [b]).
  assert (i16 (Z.lor (u32 (i16 (Z.shiftl (u8 (x / 2 ^ 8)) 8))) (u8 x)) = x) as E.
  { rewrite Z.shiftl_mul_pow2 by lia.
    replace (u32 (i16 (u8 (x / 2 ^ 8) * 2 ^ 8)))
      with (u32 (i16 (u8 (x / 2 ^ 8) * 2 ^ 8)) / 2 ^ 8 * 2 ^ 8) by word.
    rewrite lor_add by word. word. }
  rewrite <- (land_rawbyte (u8 x)) in E at 1 by apply u8_range.
  rewrite <- E at 3. read_byte. read_last_byte.
Qed.

Lemma reads_u64 x d : is_u64 x -> reads (fun u => get_u64 u d) (be64 x) x.
Proof.
  intros Hx. unfold get_u64, be64.
  assert (Z.lor (u32 x) (u64 (Z.shiftl (u32 (x / 2 ^ 32)) 32)) = x) as E.
  { rewrite Z.lor_comm, Z.shiftl_mul_pow2, u64_small by (lia || word).
    rewrite lor_add by word. word. }
  rewrite <- E at 3. eapply (reads_bind _ (fun h u => _)); [apply reads_u32|cbv beta].
  eapply (reads_ret _ (fun l => _)). apply reads_u32.
Qed.

Lemma reads_rawbytes s d : zlen s < 2 ^ 31 -> reads (fun u => unmarshall_rawbytes u d (zlen s)) s s.
Proof.
  intros Hs u rest Hu. pose proof Hu as (b & Hb & Hok & Hi & Hz & H31 & E).
  pose proof (remaining_lookup u s rest b Hb Hu) as L.
  pose proof (f_equal length E) as El. rewrite length_app, length_take, length_drop in El.
  pose proof (zlen_nonneg s).
  assert (u_ind u + zlen s <= u_sz u) by (unfold zlen in *; lia).
  unfold unmarshall_rawbytes. rewrite !u32_small by (unfold is_u32 in *; rewrite ?u32_small; unfold is_u32; lia).
  destruct (u_sz u <? _) eqn:C; bool_to_prop; [lia|]. rewrite Hb. unfold slice.
  rewrite decide_True by lia. simpl. eexists. split.
  { do 2 f_equal. unfold zlen. rewrite Nat2Z.id. exact L. }
  rewrite Hok, i32_small, <- Hb by (unfold is_i32; lia). by apply (remaining_skip u s).
Qed.

Lemma reads_string s d : zlen s < 2 ^ 31 -> reads (fun u => get_string u d) (be32 (zlen s) ++ s) s.
Proof.
  intros Hs. pose proof (zlen_nonneg s). unfold get_string.
  eapply (reads_bind _ (fun sz u => if u_ok u then unmarshall_rawbytes u d sz else Ok (u, d)));
    [apply reads_u32|].
  rewrite u32_small by (unfold is_u32; lia).
  intros u rest Hu. pose proof Hu as (b & Hb & Hok & _). rewrite Hok. by apply reads_rawbytes.
Qed.

(** ** Headers *)
Definition is_req_header (h : req_header) : Prop :=
  is_i32 (rq_xid h) /\ is_i32 (rq_proc h) /\ is_u32 (rq_clt_nonce h) /\
  is_u32 (rq_srv_nonce h) /\ is_i32 (rq_xid_rep h).
Definition is_reply_header (h : reply_header) : Prop :=
  is_i32 (rp_xid h) /\ is_i32 (rp_ret h).

Lemma reads_unpack x : is_i32 x -> reads unmarshall_unpack (be32 x) x.
Proof. apply reads_i32. Qed.

Definition req_header_image (h : req_header) : bytes :=
  be32 (rq_xid h) ++ be32 (rq_proc h) ++ be32 (i32 (rq_clt_nonce h))
  ++ be32 (i32 (rq_srv_nonce h)) ++ be32 (rq_xid_rep h).
Definition reply_header_image (h : reply_header) : bytes :=
  be32 (rp_xid h) ++ be32 (rp_ret h).

(** [bs] written over the bytes at [i]. *)
Definition splice (b : bytes) (i : Z) (bs : bytes) : bytes :=
  take (Z.to_nat i) b ++ bs ++ drop (Z.to_nat (i + zlen bs)) b.

Lemma zlen_splice b i bs : 0 <= i -> i + zlen bs <= zlen b -> zlen (splice b i bs) = zlen b.
Proof.
  unfold splice, zlen. intros. rewrite !length_app, length_take, length_drop. lia.
Qed.

Lemma splice_splice b i bs1 bs2 :
  0 <= i -> i + zlen bs1 + zlen bs2 <= zlen b ->
  splice (splice b i bs1) (i + zlen bs1) bs2 = splice b i (bs1 ++ bs2).
Proof.
  intros Hi Hl. pose proof (zlen_nonneg bs1); pose proof (zlen_nonneg bs2).
  unfold splice at 1 3. rewrite zlen_app.
  assert (take (Z.to_nat (i + zlen bs1)) (splice b i bs1) = take (Z.to_nat i) b ++ bs1) as ->.
  { unfold splice, zlen in *. rewrite (assoc_L (++)), take_app_length'; [done|].
    rewrite length_app, length_take. lia. }
  rewrite <- !(assoc_L (++)). do 3 f_equal. unfold splice, zlen in *.
  rewrite (assoc_L (++)), drop_app_ge by (rewrite length_app, length_take; lia).
  rewrite drop_drop, length_app, length_take. f_equal. lia.
Qed.

Lemma drop_splice b i bs n :
  0 <= i -> i + zlen bs <= n -> n <= zlen b ->
  drop (Z.to_nat n) (splice b i bs) = drop (Z.to_nat n) b.
Proof.
  intros. pose proof (zlen_nonneg bs). unfold splice, zlen in *.
  rewrite (assoc_L (++)), drop_app_ge by (rewrite length_app, length_take; lia).
  rewrite drop_drop, length_app, length_take. f_equal. lia.
Qed.

(** [f] overwrites the bytes at the write head with [bs] without growing. *)
Definition overwrites (f : marshall -> outcome marshall) (bs : bytes) : Prop :=
  forall b capa i, zlen b = capa -> 0 <= i -> i + zlen bs <= capa -> capa < 2 ^ 31 ->
    f (Marshall (Some b) capa i)
    = Ok (Marshall (Some (splice b i bs)) capa (i + zlen bs)).

Section Headers.
Context `{Memory}.

Lemma overwrites_seq f g bs1 bs2 :
  overwrites f bs1 -> overwrites g bs2 ->
  overwrites (fun m => m ← f m; g m) (bs1 ++ bs2).
Proof.
  intros Hf Hg b capa i Hb Hi Hl H31. rewrite zlen_app in Hl.
  pose proof (zlen_nonneg bs1); pose proof (zlen_nonneg bs2).
  rewrite Hf by lia. simpl. rewrite Hg by (rewrite ?zlen_splice; lia).
  rewrite splice_splice, zlen_app by lia. by rewrite Z.add_assoc.
Qed.

Lemma overwrites_rawbyte x : overwrites (fun m => marshall_rawbyte m x) [x].
Proof.
  intros b capa i Hb Hi Hl H31. unfold marshall_rawbyte. simpl.
  autorewrite with zlen in Hl. subst capa.
  destruct (zlen b <=? i) eqn:C; bool_to_prop; [lia|]. simpl. unfold store.
  rewrite decide_True by lia. simpl. rewrite int_of_small by (unfold is_i32; lia). simpl.
  do 3 f_equal. unfold splice, zlen in *. simpl.
  rewrite insert_take_drop by lia. do 3 f_equal. lia.
Qed.

Lemma overwrites_pack x : overwrites (fun m => marshall_pack m x) (be32 x).
Proof.
  unfold marshall_pack, be32. rewrite !land_255, !Z.shiftr_div_pow2 by lia.
  change [?a; ?b; ?c; ?d] with ([a] ++ [b] ++ [c] ++ [d]).
  apply (overwrites_seq _ _ _ _ (overwrites_rawbyte _)).
  apply (overwrites_seq _ _ _ _ (overwrites_rawbyte _)).
  apply (overwrites_seq _ _ _ _ (overwrites_rawbyte _)). apply overwrites_rawbyte.
Qed.

(** Filling in a header of at most 20 bytes at offset 4 and restoring the
    write head keeps the rest of the message. *)
Lemma header_ok f image m :
  overwrites f image -> zlen image <= sizeof_req_header ->
  marshall_wf m -> m_ind m <= MAX_MSG ->
  exists m', (m' ← f (set_ind m sizeof_rpc_sz_t); Ok (set_ind m' (m_ind m))) = Ok m' /\
    marshall_wf m' /\ m_ind m' = m_ind m /\ contents m' = splice (contents m) 4 image.
Proof.
  intros Hf Hs (b & Hb & Hl & Hi & Hc) Hm. destruct m as [ob capa ind]; simpl in *.
  subst ob. pose proof (zlen_nonneg image). unfold set_ind; simpl.
  rewrite (Hf b capa) by (header_sz; lia). simpl. eexists. split; [done|].
  unfold sizeof_rpc_sz_t. split; [|split; [done|]].
  - exists (splice b 4 image). simpl. rewrite zlen_splice by (header_sz; lia). done.
  - unfold contents; simpl. unfold splice, zlen in *. header_sz.
    rewrite take_take, Nat.min_l, (assoc_L (++)) by lia.
    rewrite take_app_ge by (rewrite length_app, length_take; lia).
    rewrite <- (assoc_L (++)). do 2 f_equal.
    rewrite take_drop_commute. f_equal. f_equal. rewrite length_app, length_take. lia.
Qed.

Lemma pack_req_header_ok m h :
  marshall_wf m -> m_ind m <= MAX_MSG ->
  exists m', marshall_pack_req_header m h = Ok m' /\ marshall_wf m' /\
    m_ind m' = m_ind m /\ contents m' = splice (contents m) 4 (req_header_image h).
Proof.
  intros Hwf Hm.
  assert (overwrites (fun m => m ← marshall_pack m (rq_xid h); m ← marshall_pack m (rq_proc h);
    m ← marshall_pack m (i32 (rq_clt_nonce h)); m ← marshall_pack m (i32 (rq_srv_nonce h));
    marshall_pack m (rq_xid_rep h)) (req_header_image h)) as W.
  { unfold req_header_image. do 4 apply (overwrites_seq _ _ _ _ (overwrites_pack _)).
    apply overwrites_pack. }
  destruct (header_ok _ _ m W) as (m' & E & ?); [done|done|done|].
  exists m'. split; [|done]. rewrite <- E. unfold marshall_pack_req_header.
  by repeat (destruct (marshall_pack _ _); [|done]; simpl).
Qed.

Lemma pack_reply_header_ok m h :
  marshall_wf m -> m_ind m <= MAX_MSG ->
  exists m', marshall_pack_reply_header m h = Ok m' /\ marshall_wf m' /\
    m_ind m' = m_ind m /\ contents m' = splice (contents m) 4 (reply_header_image h).
Proof.
  intros Hwf Hm.
  assert (overwrites (fun m => m ← marshall_pack m (rp_xid h); marshall_pack m (rp_ret h))
    (reply_header_image h)) as W.
  { apply (overwrites_seq _ _ _ _ (overwrites_pack _)), overwrites_pack. }
  destruct (header_ok _ _ m W) as (m' & E & ?); [done|done|done|].
  exists m'. split; [|done]. rewrite <- E. unfold marshall_pack_reply_header.
  by repeat (destruct (marshall_pack _ _); [|done]; simpl).
Qed.
End Headers.

(** ** Messages on the wire *)

(** Four bytes for the channel, the header, then the marshalled values. *)
Definition is_request (msg : bytes) (h : req_header) (body : bytes) : Prop :=
  RPC_HEADER_SZ <= zlen msg < 2 ^ 31 /\ take 20 (drop 4 msg) = req_header_image h /\
  drop 24 msg = body.
Definition is_reply (msg : bytes) (h : reply_header) (body : bytes) : Prop :=
  RPC_HEADER_SZ <= zlen msg < 2 ^ 31 /\ take 8 (drop 4 msg) = reply_header_image h /\
  drop 24 msg = body.

(** A received buffer: [sz] bytes of [b] (which may be longer) are [msg]. *)
Definition holds (b : bytes) (sz : Z) (msg : bytes) : Prop :=
  sz = zlen msg /\ take (Z.to_nat sz) b = msg.

Lemma holds_self msg : holds msg (zlen msg) msg.
Proof. split; [done|]. apply take_ge. unfold zlen. lia. Qed.

Lemma remaining_at b sz msg i :
  holds b sz msg -> 0 <= i <= sz -> sz < 2 ^ 31 ->
  remaining (Unmarshall (Some b) sz i true) (drop (Z.to_nat i) msg).
Proof.
  intros [-> E] Hi H31. exists b. simpl.
  assert (zlen msg <= zlen b) by (apply (f_equal length) in E;
    rewrite length_take in E; unfold zlen in *; lia).
  repeat split; try done; try lia. rewrite <- E at 2.
  rewrite take_drop_commute. do 2 f_equal. lia.
Qed.

(** What reading leaves alone: the buffer, its size and a healthy flag. *)
Definition same_buffer (u u' : unmarshall) : Prop :=
  u_buf u' = u_buf u /\ u_sz u' = u_sz u.

Lemma rawbyte_same u u' x : unmarshall_rawbyte u = Ok (u', x) -> same_buffer u u'.
Proof.
  unfold unmarshall_rawbyte. intros. split_matches; [done|].
  destruct (load _ _); simplify_eq/=. done.
Qed.

Lemma get_i32_same u d u' x : get_i32 u d = Ok (u', x) -> same_buffer u u'.
Proof.
  unfold get_i32, same_buffer. intros E.
  repeat match type of E with
  | context [unmarshall_rawbyte ?v] =>
      destruct (unmarshall_rawbyte v) as [[? ?]|] eqn:?; simplify_eq/=
  end.
  repeat match goal with
  | H : unmarshall_rawbyte _ = Ok _ |- _ => apply rawbyte_same in H as [? ?]
  end. split; congruence.
Qed.

Lemma unpack_same u u' x : unmarshall_unpack u = Ok (u', x) -> same_buffer u u'.
Proof. apply get_i32_same. Qed.

(** After the header is read from a healthy buffer the cursor is at the body. *)
Lemma remaining_body b sz msg u :
  holds b sz msg -> RPC_HEADER_SZ <= sz < 2 ^ 31 ->
  u_buf u = Some b -> u_sz u = sz -> u_ok u = true ->
  remaining (set_uind u RPC_HEADER_SZ) (drop 24 msg).
Proof.
  intros Hh Hs Hb Hz Hok. unfold set_uind. rewrite Hb, Hz, Hok.
  apply (remaining_at b sz msg 24); header_sz; [done|lia|lia].
Qed.

Ltac unpack_field E :=
  match type of E with remaining ?u (be32 ?y ++ _) =>
    let u' := fresh "u" in let H1 := fresh "U" in let H2 := fresh "R" in
    destruct (reads_unpack y ltac:(assumption) u _ E) as (u' & H1 & H2);
    rewrite H1; simpl; apply unpack_same in H1 as [? ?]; clear E; rename H2 into E
  end.

Lemma unpack_req_header_ok b sz msg h body :
  holds b sz msg -> is_req_header h -> is_request msg h body ->
  exists u, unmarshall_unpack_req_header (unmarshall_new b sz) = Ok (u, h) /\
    remaining u body.
Proof.
  intros Hm (H1 & H2 & H3 & H4 & H5) (Hs & Hh & Hb). pose proof Hm as [Hz _].
  assert (remaining (Unmarshall (Some b) sz 4 true) (req_header_image h ++ body)) as R.
  { rewrite <- Hh, <- Hb. replace (drop 24 msg) with (drop 20 (drop 4 msg)) by (by rewrite drop_drop).
    rewrite take_drop. apply (remaining_at b sz msg 4); [done|header_sz; lia|lia]. }
  pose proof (i32_range (rq_clt_nonce h)). pose proof (i32_range (rq_srv_nonce h)).
  unfold req_header_image in R. rewrite <- !(assoc_L (++)) in R.
  unfold unmarshall_unpack_req_header, set_uind, unmarshall_new, sizeof_rpc_sz_t. simpl.
  unpack_field R. unpack_field R. unpack_field R. unpack_field R. unpack_field R.
  simpl in *. eexists. split.
  - do 2 f_equal. destruct h; simpl in *. by rewrite !u32_i32, !u32_small.
  - destruct R as (b' & Hbuf & Hok & _). rewrite <- Hb.
    eapply remaining_body; try done; try congruence; lia.
Qed.

Lemma unpack_reply_header_ok b sz msg h body :
  holds b sz msg -> is_reply_header h -> is_reply msg h body ->
  exists u, unmarshall_unpack_reply_header (unmarshall_new b sz) = Ok (u, h) /\
    u_buf u = Some b /\ u_sz u = sz /\ remaining u body.
Proof.
  intros Hm (H1 & H2) (Hs & Hh & Hb). pose proof Hm as [Hz _].
  assert (remaining (Unmarshall (Some b) sz 4 true)
    (reply_header_image h ++ drop 12 msg)) as R.
  { rewrite <- Hh. replace (drop 12 msg) with (drop 8 (drop 4 msg)) by (by rewrite drop_drop).
    rewrite take_drop. apply (remaining_at b sz msg 4); [done|header_sz; lia|lia]. }
  unfold reply_header_image in R. rewrite <- !(assoc_L (++)) in R.
  unfold unmarshall_unpack_reply_header, set_uind, unmarshall_new, sizeof_rpc_sz_t. simpl.
  unpack_field R. unpack_field R. simpl in *. eexists. split.
  - do 2 f_equal. by destruct h.
  - simpl. split_and!; [congruence|congruence|].
    destruct R as (b' & Hbuf & Hok & _). rewrite <- Hb.
    eapply remaining_body; try done; try congruence; lia.
Qed.

Lemma header_in_place c image (k : nat) :
  k = length image -> zlen c >= 4 + zlen image -> take k (drop 4 (splice c 4 image)) = image.
Proof.
  intros -> Hl. unfold splice, zlen in *.
  rewrite drop_app_length' by (rewrite length_take; lia). by rewrite take_app_length.
Qed.

(** ** Wire types *)

(** The two operators of a type. *)
Record codec (A : Type) := Codec {
  put : marshall -> A -> outcome marshall;
  get : unmarshall -> A -> outcome (unmarshall * A) }.
Arguments Codec {A} _ _.
Arguments put {A} _ _ _.
Arguments get {A} _ _ _.

(** What the RPC layer relies on: each representable value has a wire image,
    [put] appends it, and [get] into a freshly declared variable reads it back. *)
Class Wire `{Memory} {A} (c : codec A) := {
  image : A -> bytes;
  representable : A -> Prop;
  declared : A -> Prop;
  wire_put a : representable a -> writes (fun m => put c m a) (image a);
  wire_get a d : representable a -> declared d -> reads (fun u => get c u d) (image a) a }.
Arguments image {_ A} c {_} _.
Arguments representable {_ A} c {_} _.
Arguments declared {_ A} c {_} _.

Section Codecs.
Context `{Memory}.

Definition u8_c : codec Z := Codec put_u8 get_u8.
Definition char_c : codec Z := Codec put_char get_char.
Definition u16_c : codec Z := Codec put_u16 get_u16.
Definition i16_c : codec Z := Codec put_i16 get_i16.
Definition u32_c : codec Z := Codec put_u32 get_u32.
Definition i32_c : codec Z := Codec put_i32 get_i32.
Definition u64_c : codec Z := Codec put_u64 get_u64.
Definition string_c : codec bytes := Codec put_string get_string.

(** [m << a1; m << a2] and [u >> a1; u >> a2] *)
Definition pair_c {A B} (ca : codec A) (cb : codec B) : codec (A * B) := Codec
  (fun m ab => m ← put ca m ab.1; put cb m ab.2)
  (fun u ab => '(u, a) ← get ca u ab.1; '(u, b) ← get cb u ab.2; Ok (u, (a, b))).

(** [std::vector<C>]; [z0] is what a fresh [C z;] holds. *)
Fixpoint put_elems {C} (c : codec C) (m : marshall) (v : list C) : outcome marshall :=
  match v with
  | [] => Ok m
  | x :: v => m ← put c m x; put_elems c m v
  end.
Definition put_vector {C} (c : codec C) (m : marshall) (v : list C) : outcome marshall :=
  m ← put_u32 m (u32 (zlen v)); put_elems c m v.
Fixpoint get_elems {C} (c : codec C) (z0 : C) (n : nat) (u : unmarshall) (v : list C)
    : outcome (unmarshall * list C) :=
  match n with
  | O => Ok (u, v)
  | S n => '(u, z) ← get c u z0; get_elems c z0 n u (v ++ [z])
  end.
Definition get_vector {C} (c : codec C) (z0 : C) (u : unmarshall) (v : list C)
    : outcome (unmarshall * list C) :=
  '(u, n) ← get_u32 u 0; get_elems c z0 (Z.to_nat n) u v.
Definition vector_c {C} (c : codec C) (z0 : C) : codec (list C) :=
  Codec (put_vector c) (get_vector c z0).

#[export] Program Instance u8_wire : Wire u8_c := {|
  image x := [x]; representable := is_u8; declared _ := True |}.
Next Obligation. intros. apply writes_rawbyte. Qed.
Next Obligation. intros. by apply reads_u8. Qed.

#[export] Program Instance char_wire : Wire char_c := {|
  image x := [u8 x]; representable := is_i8; declared _ := True |}.
Next Obligation. intros. apply writes_rawbyte. Qed.
Next Obligation. intros. by apply reads_char. Qed.

#[export] Program Instance u16_wire : Wire u16_c := {|
  image := be16; representable := is_u16; declared _ := True |}.
Next Obligation. intros. apply writes_put_u16. Qed.
Next Obligation. intros. by apply reads_u16. Qed.

Lemma be16_u16 x : be16 (u16 x) = be16 x.
Proof. unfold be16. apply list_eq_Forall2. repeat constructor; word. Qed.

#[export] Program Instance i16_wire : Wire i16_c := {|
  image := be16; representable := is_i16; declared _ := True |}.
Next Obligation. intros. rewrite <- be16_u16. apply writes_put_u16. Qed.
Next Obligation. intros. by apply reads_i16. Qed.

#[export] Program Instance u32_wire : Wire u32_c := {|
  image := be32; representable := is_u32; declared _ := True |}.
Next Obligation. intros. apply writes_put_u32. Qed.
Next Obligation. intros a d Ha _. rewrite <- (u32_small a) at 2 by done. apply reads_u32. Qed.

#[export] Program Instance i32_wire : Wire i32_c := {|
  image := be32; representable := is_i32; declared _ := True |}.
Next Obligation. intros. rewrite <- be32_u32. apply writes_put_u32. Qed.
Next Obligation. intros. by apply reads_i32. Qed.

#[export] Program Instance u64_wire : Wire u64_c := {|
  image := be64; representable := is_u64; declared _ := True |}.
Next Obligation. intros. by apply writes_put_u64. Qed.
Next Obligation. intros. by apply reads_u64. Qed.

#[export] Program Instance string_wire : Wire string_c := {|
  image s := be32 (zlen s) ++ s; representable s := zlen s < 2 ^ 31; declared _ := True |}.
Next Obligation. intros. by apply writes_put_string. Qed.
Next Obligation. intros. by apply reads_string. Qed.

#[export] Program Instance pair_wire {A B} (ca : codec A) (cb : codec B) `{!Wire ca, !Wire cb} :
  Wire (pair_c ca cb) := {|
  image ab := image ca ab.1 ++ image cb ab.2;
  representable ab := representable ca ab.1 /\ representable cb ab.2;
  declared ab := declared ca ab.1 /\ declared cb ab.2 |}.
Next Obligation. intros A B ca cb ?? [a b] [Ha Hb]. apply writes_seq; by apply wire_put. Qed.
Next Obligation.
  intros A B ca cb ?? [a b] d [Ha Hb] [Da Db]. simpl.
    eapply (reads_bind _ (fun a' u => '(u, b') ← get cb u d.2; Ok (u, (a', b')))).
    - by apply wire_get.
    - eapply (reads_ret _ (fun b' => (a, b'))). by apply wire_get.
Qed.

Lemma writes_elems {C} (c : codec C) `{!Wire c} v :
  Forall (representable c) v ->
  writes (fun m => put_elems c m v) (concat (map (image c) v)).
Proof.
  induction 1 as [|x v Hx _ IH]; simpl; [apply writes_nil|].
  apply (writes_seq (fun m => put c m x)); [by apply wire_put|done].
Qed.

Lemma reads_elems {C} (c : codec C) `{!Wire c} z0 v acc :
  declared c z0 -> Forall (representable c) v ->
  reads (fun u => get_elems c z0 (length v) u acc) (concat (map (image c) v)) (acc ++ v).
Proof.
  intros Hz Hv. revert acc. induction Hv as [|x v Hx _ IH]; intros acc; simpl.
  - intros u rest Hu. rewrite app_nil_r. eauto.
  - eapply (reads_bind _ (fun z u => get_elems c z0 (length v) u (acc ++ [z]))).
    + by apply wire_get.
    + rewrite (cons_middle x acc v), (assoc_L (++)). apply IH.
Qed.

#[export] Program Instance vector_wire {C} (c : codec C) (z0 : C) `{!Wire c} :
  Wire (vector_c c z0) := {|
  image v := be32 (zlen v) ++ concat (map (image c) v);
  representable v := zlen v < 2 ^ 32 /\ declared c z0 /\ Forall (representable c) v;
  declared v := v = [] |}.
Next Obligation.
  intros C c z0 ? v (Hl & Hz & Hv). pose proof (zlen_nonneg v). simpl. unfold put_vector.
    rewrite u32_small by (unfold is_u32; lia).
    apply (writes_seq _ _ _ _ (writes_put_u32 _)). by apply writes_elems.
Qed.
Next Obligation.
  intros C c z0 ? v d (Hl & Hz & Hv) ->. pose proof (zlen_nonneg v).
    apply (reads_bind (fun u => get_u32 u 0) (fun n u => get_elems c z0 (Z.to_nat n) u [])
      (be32 (zlen v)) (concat (map (image c) v)) (u32 (zlen v))); [apply reads_u32|].
    rewrite u32_small by (unfold is_u32; lia).
    unfold zlen. rewrite Nat2Z.id. by apply (reads_elems c z0 v []).
Qed.
End Codecs.

(** ** Whole messages *)
Section Messages.
Context `{Memory} {A} (c : codec A) `{!Wire c}.

(** Every value that fits is marshalled into a fresh buffer without overflow. *)
Lemma put_fresh a :
  representable c a -> RPC_HEADER_SZ + zlen (image c a) <= MAX_MSG ->
  exists m, put c marshall_new a = Ok m /\ marshall_wf m /\
    m_ind m = RPC_HEADER_SZ + zlen (image c a) /\ drop 24 (contents m) = image c a.
Proof.
  intros Ha Hs. destruct (wire_put a Ha marshall_new) as (m & E & W & Hc).
  { apply marshall_new_wf. } { exact Hs. }
  exists m. split; [done|]. split; [done|].
  rewrite <- (contents_length m) by done. rewrite Hc, zlen_app.
  rewrite (contents_length marshall_new) by apply marshall_new_wf. split; [done|].
  rewrite drop_app_length'; [done|].
  pose proof (contents_length marshall_new marshall_new_wf) as L. unfold zlen in L.
  simpl in L. header_sz. lia.
Qed.

Lemma splice_request m h body :
  marshall_wf m -> drop 24 (contents m) = body -> m_ind m < 2 ^ 31 ->
  is_request (splice (contents m) 4 (req_header_image h)) h body.
Proof.
  intros Hwf Hd Hm. pose proof (contents_length m Hwf) as L.
  destruct Hwf as (b & _ & _ & Hi & _). unfold is_request. header_sz.
  assert (zlen (req_header_image h) = 20) as E20 by done.
  rewrite zlen_splice by lia. split; [lia|]. split.
  - apply header_in_place; [done|lia].
  - rewrite <- Hd. apply (drop_splice _ 4 _ 24); lia.
Qed.

Lemma wf_holds m :
  marshall_wf m -> exists b, m_buf m = Some b /\ holds b (m_ind m) (contents m).
Proof.
  intros Hwf. pose proof (contents_length m Hwf) as L. destruct Hwf as (b & Hb & _).
  exists b. split; [done|]. split; [done|]. unfold contents. by rewrite Hb.
Qed.

(** Reading a value that is all that is left finishes the buffer. *)
Lemma remaining_nil_okdone u : remaining u [] -> unmarshall_okdone u = true.
Proof.
  intros (b & Hb & Hok & Hi & Hs & H31 & E). unfold unmarshall_okdone. rewrite Hok. simpl.
  apply (f_equal length) in E. rewrite length_take, length_drop in E. unfold zlen in *.
  simpl in E. apply Z.eqb_eq. lia.
Qed.

Lemma get_body u a d :
  representable c a -> declared c d -> remaining u (image c a) ->
  exists u', get c u d = Ok (u', a) /\ unmarshall_okdone u' = true.
Proof.
  intros Ha Hd Hu. rewrite <- (app_nil_r (image c a)) in Hu.
  destruct (wire_get a d Ha Hd u [] Hu) as (u' & E & Hu').
  eauto using remaining_nil_okdone.
Qed.
End Messages.

(** C5. A request survives the wire: marshalling any representable argument
    tuple into a fresh buffer and packing any header into it succeeds (no int
    overflow, no write outside the buffer, for messages up to [MAX_MSG] bytes,
    whatever the allocator leaves in fresh memory), and unpacking the buffer
    handed over by [take_buf] gives back exactly the header and the arguments,
    with nothing left over. *)
Theorem request_roundtrip `{Memory} {A} (c : codec A) `{!Wire c} h (a d : A) :
  is_req_header h -> representable c a -> declared c d ->
  RPC_HEADER_SZ + zlen (image c a) <= MAX_MSG ->
  exists m m' b u u',
    put c marshall_new a = Ok m /\ marshall_pack_req_header m h = Ok m' /\
    (marshall_take_buf m').1 = (Some b, RPC_HEADER_SZ + zlen (image c a)) /\
    unmarshall_unpack_req_header (unmarshall_new b (RPC_HEADER_SZ + zlen (image c a)))
      = Ok (u, h) /\
    get c u d = Ok (u', a) /\ unmarshall_okdone u' = true.
Proof.
  intros Hh Ha Hd Hs. destruct (put_fresh c a Ha Hs) as (m & E1 & W1 & I1 & D1).
  destruct (pack_req_header_ok m h W1) as (m' & E2 & W2 & I2 & C2); [lia|].
  destruct (wf_holds m' W2) as (b & Hb & Hold).
  rewrite I2, I1, C2 in Hold.
  destruct (unpack_req_header_ok b _ _ h (image c a) Hold Hh) as (u & E3 & R).
  { apply splice_request; [done|done|]. unfold MAX_MSG in *. lia. }
  destruct (get_body c u a d Ha Hd R) as (u' & E4 & Hdone).
  exists m, m', b, u, u'. unfold marshall_take_buf. rewrite Hb, I2, I1. done.
Qed.

(** The arguments of the library's own self test (rpctest.cc, testmarshall):
    an int, an unsigned long long and a string. *)
Definition zero_memory : Memory := fun _ => 0.
#[local] Existing Instance zero_memory.
Definition testmarshall_c : codec (Z * (Z * bytes)) := pair_c i32_c (pair_c u64_c string_c).

Lemma request_roundtrip_witness :
  exists m m' b u u',
    put testmarshall_c marshall_new (12345, (1223344455, str "hallo....")) = Ok m /\
    marshall_pack_req_header m (mk_req_header 1 2 3 4 5) = Ok m' /\
    (marshall_take_buf m').1 = (Some b, 49) /\
    unmarshall_unpack_req_header (unmarshall_new b 49) = Ok (u, mk_req_header 1 2 3 4 5) /\
    get testmarshall_c u (0, (0, [])) = Ok (u', (12345, (1223344455, str "hallo....")))
    /\ unmarshall_okdone u' = true.
Proof.
  replace 49 with (RPC_HEADER_SZ + zlen (image (pair_c i32_c (pair_c u64_c string_c))
    (12345, (1223344455, str "hallo....")))) by (vm_compute; reflexivity).
  apply (request_roundtrip (pair_c i32_c (pair_c u64_c string_c))).
  - repeat split; vm_compute; congruence.
  - repeat split; vm_compute; congruence.
  - repeat split.
  - vm_compute. congruence.
Defined.

(** ** Reading bytes nobody vouches for *)

(** A received buffer with the cursor anywhere at or after its start. *)
Definition unmarshall_wf (u : unmarshall) : Prop :=
  exists b, u_buf u = Some b /\ 0 <= u_ind u /\ u_sz u <= zlen b /\ u_sz u < 2 ^ 31.

(** [f] never reads outside the buffer; it takes [n] bytes if they are there
    and clears the flag if they are not. *)
Definition consumes {A} (f : unmarshall -> outcome (unmarshall * A)) (n : Z) : Prop :=
  forall u, unmarshall_wf u ->
    exists u' a, f u = Ok (u', a) /\ unmarshall_wf u' /\ same_buffer u u' /\
      u_ok u' = u_ok u && (u_ind u + n <=? u_sz u) /\
      (u_ind u + n <= u_sz u -> u_ind u' = u_ind u + n).

Lemma consumes_rawbyte : consumes unmarshall_rawbyte 1.
Proof.
  intros u (b & Hb & Hi & Hs & H31). unfold unmarshall_rawbyte.
  destruct (u_sz u <=? u_ind u) eqn:C; bool_to_prop.
  - eexists _, _. split; [done|]. split; [by exists b|]. split; [done|]. simpl.
    split; [|lia]. symmetry. rewrite (proj2 (Z.leb_gt _ _)) by lia. apply andb_false_r.
  - rewrite Hb. unfold load. rewrite decide_True by done.
    destruct (lookup_lt_is_Some_2 b (Z.to_nat (u_ind u))) as [x ->]; [unfold zlen in *; lia|].
    eexists _, _. split; [done|]. split; [exists b; simpl; repeat split; try done; lia|].
    split; [by rewrite <- Hb|]. simpl. split; [|done].
    symmetry. rewrite (proj2 (Z.leb_le _ _)) by lia. apply andb_true_r.
Qed.

Lemma consumes_bind {A B} (f : unmarshall -> outcome (unmarshall * A))
    (g : A -> unmarshall -> outcome (unmarshall * B)) n1 n2 :
  0 <= n1 -> 0 <= n2 -> consumes f n1 -> (forall a, consumes (g a) n2) ->
  consumes (fun u => '(u, x) ← f u; g x u) (n1 + n2).
Proof.
  intros H1 H2 Hf Hg u Hu. destruct (Hf u Hu) as (u1 & a & -> & W1 & [B1 S1] & O1 & I1).
  destruct (Hg a u1 W1) as (u2 & b & E & W2 & [B2 S2] & O2 & I2). simpl.
  exists u2, b. split; [done|]. split; [done|]. split; [split; congruence|].
  destruct (Z.leb_spec (u_ind u + n1) (u_sz u)) as [L|L].
  - rewrite I1 in * by done. rewrite S1 in *. split; [|lia].
    rewrite O2, O1, andb_true_r. do 2 f_equal. lia.
  - rewrite O2, O1, andb_false_r. split; [|lia].
    rewrite (proj2 (Z.leb_gt (u_ind u + (n1 + n2)) _)) by lia. by rewrite andb_false_r.
Qed.

Lemma consumes_ret {A B} (f : unmarshall -> outcome (unmarshall * A)) (h : A -> B) n :
  consumes f n -> consumes (fun u => '(u, x) ← f u; Ok (u, h x)) n.
Proof. intros Hf u Hu. destruct (Hf u Hu) as (u1 & a & -> & ?). simpl. eauto. Qed.

Ltac consume_byte :=
  apply (consumes_bind unmarshall_rawbyte (fun b u => _) 1); [lia|lia|apply consumes_rawbyte|].

Lemma consumes_get_u32 d : consumes (fun u => get_u32 u d) 4.
Proof.
  unfold get_u32. change 4 with (1 + (1 + (1 + 1))).
  consume_byte. intros a. consume_byte. intros b. consume_byte. intros c.
  apply (consumes_ret _ (fun b => _)), consumes_rawbyte.
Qed.

Lemma consumes_get_i32 d : consumes (fun u => get_i32 u d) 4.
Proof.
  unfold get_i32. change 4 with (1 + (1 + (1 + 1))).
  consume_byte. intros a. consume_byte. intros b. consume_byte. intros c.
  apply (consumes_ret _ (fun b => _)), consumes_rawbyte.
Qed.

Lemma consumes_get_u64 d : consumes (fun u => get_u64 u d) 8.
Proof.
  unfold get_u64.
  apply (consumes_bind (fun u => get_u32 u 0) (fun h u => _) 4 4);
    [lia|lia|apply consumes_get_u32|].
  intros h. apply (consumes_ret _ (fun l => _)), consumes_get_u32.
Qed.

Lemma consumes_unpack : consumes unmarshall_unpack 4.
Proof. apply consumes_get_i32. Qed.

(** [get_string] on every path: a length field that makes [_ind + n] wrap
    around in 32 bits passes the bounds check and reads outside the buffer; a
    length longer than what is left clears the flag and leaves the variable
    alone; otherwise exactly [n] bytes are taken. *)
Lemma get_string_cases u n rest d :
  is_u32 n -> remaining u (be32 n ++ rest) ->
  (forall b, u_buf u = Some b -> zlen b < 2 ^ 32) ->
  let i := u_ind u + 4 in
  get_string u d =
    if 2 ^ 32 <=? i + n then Crash OutOfBounds
    else if zlen rest <? n then Ok (Unmarshall (u_buf u) (u_sz u) i false, d)
    else Ok (Unmarshall (u_buf u) (u_sz u) (i + n) true, take (Z.to_nat n) rest).
Proof.
  intros Hn Hu Hlen i. unfold get_string.
  assert (exists u1, get_u32 u 0 = Ok (u1, n) /\ remaining u1 rest /\ same_buffer u u1 /\
    u_ind u1 = i) as (u1 & -> & R1 & [B1 S1] & I1).
  { destruct (reads_u32 n 0 u rest Hu) as (u1 & E & R1).
    rewrite (u32_small n Hn) in E. exists u1. split; [done|]. split; [done|].
    pose proof Hu as (b & Hb & Hok & Hi & Hs & H31 & T).
    destruct (consumes_get_u32 0 u) as (u1' & n' & E' & _ & HS & _ & HI);
      [exists b; repeat split; try done; lia|].
    rewrite E in E'. simplify_eq. split; [done|]. apply HI.
    apply (f_equal length) in T. rewrite length_app, length_take, length_drop in T.
    unfold zlen in *. simpl in T. lia. }
  simpl. destruct R1 as (b & Hb & Hok & Hi & Hs & H31 & T). rewrite Hok.
  rewrite B1 in Hb. specialize (Hlen b Hb). rewrite S1, I1 in *.
  assert (zlen rest = u_sz u - i) as Hrest.
  { apply (f_equal length) in T. rewrite length_take, length_drop in T. unfold zlen in *. lia. }
  unfold unmarshall_rawbytes. rewrite I1, S1, B1, Hb, Hok. unfold is_u32 in Hn.
  rewrite (u32_small (u_sz u)), (u32_small i) by (unfold is_u32; lia).
  destruct (Z.leb_spec (2 ^ 32) (i + n)) as [W|W].
  - replace (u32 (i + n)) with (i + n - 2 ^ 32) by word.
    rewrite (proj2 (Z.ltb_ge _ _)) by lia. unfold slice. by rewrite decide_False by lia.
  - rewrite u32_small by (unfold is_u32; lia).
    destruct (Z.ltb_spec (zlen rest) n).
    + rewrite (proj2 (Z.ltb_lt _ _)) by lia. done.
    + rewrite (proj2 (Z.ltb_ge _ _)) by lia. unfold slice. rewrite decide_True by lia. simpl.
      rewrite i32_small by (unfold is_i32; lia). do 2 f_equal.
      rewrite <- T, take_take. f_equal. lia.
Qed.

(** Unmarshalling strings, on every branch. On a healthy buffer whose next
    field is a string length [n], [operator>>] either takes exactly the [n]
    bytes that follow, or (fewer than [n] left) clears the flag without moving,
    or -- when the cursor plus [n] passes 2^32 -- the 32-bit bounds check wraps
    around and the read leaves the buffer. *)
Theorem get_string_spec u n rest d :
  is_u32 n -> remaining u (be32 n ++ rest) ->
  (forall b, u_buf u = Some b -> zlen b < 2 ^ 32) ->
  (u_ind u + 4 + n < 2 ^ 32 -> n <= zlen rest ->
     get_string u d = Ok (Unmarshall (u_buf u) (u_sz u) (u_ind u + 4 + n) true,
                          take (Z.to_nat n) rest)) /\
  (u_ind u + 4 + n < 2 ^ 32 -> zlen rest < n ->
     get_string u d = Ok (Unmarshall (u_buf u) (u_sz u) (u_ind u + 4) false, d)) /\
  (2 ^ 32 <= u_ind u + 4 + n -> get_string u d = Crash OutOfBounds).
Proof.
  intros Hn Hu Hlen. pose proof (get_string_cases u n rest d Hn Hu Hlen) as E. simpl in E.
  rewrite E. split_and!; intros.
  - by rewrite (proj2 (Z.leb_gt _ _)), (proj2 (Z.ltb_ge _ _)) by lia.
  - by rewrite (proj2 (Z.leb_gt _ _)), (proj2 (Z.ltb_lt _ _)) by lia.
  - by rewrite (proj2 (Z.leb_le _ _)) by lia.
Qed.

(** A 28-byte reply whose string length field is 0xfffffffc. *)
Lemma get_string_spec_witness :
  get_string (Unmarshall (Some (replicate 24 0 ++ be32 4294967292)) 28 24 true) [] = Crash OutOfBounds.
Proof.
  apply (get_string_spec _ 4294967292 [] []).
  - unfold is_u32. lia.
  - eexists. split; [done|]. vm_compute. repeat split; congruence.
  - intros b Hb. injection Hb as <-. vm_compute. done.
  - vm_compute. congruence.
Defined.

(** Reading a header never leaves the buffer, however short or long the
    received data is: the request header is accepted exactly when 24 bytes are
    there, the reply header exactly when 12 are. *)
Theorem unpack_headers_total b sz :
  0 <= sz <= zlen b -> sz < 2 ^ 31 ->
  (exists u h, unmarshall_unpack_req_header (unmarshall_new b sz) = Ok (u, h) /\
     u_ok u = (24 <=? sz)) /\
  (exists u h, unmarshall_unpack_reply_header (unmarshall_new b sz) = Ok (u, h) /\
     u_ok u = (12 <=? sz)).
Proof.
  intros Hs H31.
  assert (unmarshall_wf (Unmarshall (Some b) sz 4 true)) as W
    by (exists b; simpl; repeat split; try done; lia).
  unfold unmarshall_unpack_req_header, unmarshall_unpack_reply_header, set_uind,
    unmarshall_new, sizeof_rpc_sz_t. simpl.
  split.
  - destruct (consumes_bind unmarshall_unpack
      (fun xid u => '(u, proc) ← unmarshall_unpack u; '(u, clt) ← unmarshall_unpack u;
        '(u, srv) ← unmarshall_unpack u; '(u, xr) ← unmarshall_unpack u;
        Ok (u, ReqHeader xid proc (u32 clt) (u32 srv) xr)) 4 16) with (3 := consumes_unpack)
      (u := Unmarshall (Some b) sz 4 true) as (u & h & E & _ & _ & O & _); [lia|lia| |done|].
    { intros xid. change 16 with (4 + (4 + (4 + 4))).
      do 3 (apply (consumes_bind unmarshall_unpack (fun x u => _) 4);
        [lia|lia|apply consumes_unpack|intros ?]).
      apply (consumes_ret _ (fun x => _)), consumes_unpack. }
    exists (Unmarshall (u_buf u) (u_sz u) RPC_HEADER_SZ (u_ok u)), h. split; [|exact O].
    repeat (destruct (unmarshall_unpack _) as [[? ?]|]; [|done]; simpl in * ).
    by simplify_eq.
  - destruct (consumes_bind unmarshall_unpack
      (fun xid u => '(u, r) ← unmarshall_unpack u; Ok (u, ReplyHeader xid r)) 4 4)
      with (3 := consumes_unpack)
      (u := Unmarshall (Some b) sz 4 true) as (u & h & E & _ & _ & O & _); [lia|lia| |done|].
    { intros xid. apply (consumes_ret _ (fun x => _)), consumes_unpack. }
    exists (Unmarshall (u_buf u) (u_sz u) RPC_HEADER_SZ (u_ok u)), h. split; [|exact O].
    repeat (destruct (unmarshall_unpack _) as [[? ?]|]; [|done]; simpl in * ).
    by simplify_eq.
Qed.

Lemma unpack_headers_total_witness :
  (exists u h, unmarshall_unpack_req_header (unmarshall_new (replicate 20 7) 16) = Ok (u, h) /\
     u_ok u = false) /\
  (exists u h, unmarshall_unpack_reply_header (unmarshall_new (replicate 20 7) 16) = Ok (u, h) /\
     u_ok u = true).
Proof. apply (unpack_headers_total (replicate 20 7) 16); vm_compute; split; congruence. Defined.
