(* ===== verification/MarshallMap.v ===== *)
(** * std::map on the wire: the map templates of rpc/marshall.h

    A std::map is its list of entries in key order; [map_assign] is d[a] = b.
    The templates are another instance of [Wire], so maps can be arguments and
    results of RPCs like every other type. *)

From S2P Require Import Prelude Marshall.
Local Open Scope Z_scope.

(** The operator< of a key type: a strict order, total up to equality. *)
Class MapKey (A : Type) := {
  key_lt : A -> A -> bool;
  key_lt_irrefl a : key_lt a a = false;
  key_lt_trans a b c : key_lt a b = true -> key_lt b c = true -> key_lt a c = true;
  key_lt_total a b : key_lt a b = false -> key_lt b a = false -> a = b }.

#[export] Program Instance int_key : MapKey Z := {| key_lt := Z.ltb |}.
Next Obligation. intros. apply Z.ltb_irrefl. Qed.
Next Obligation. intros a b c Hab%Z.ltb_lt Hbc%Z.ltb_lt. apply Z.ltb_lt. lia. Qed.
Next Obligation. intros a b Hab%Z.ltb_ge Hba%Z.ltb_ge. lia. Qed.

Section Maps.
Context {A B : Type} `{MapKey A}.

Fixpoint map_assign (d : list (A * B)) (a : A) (b : B) : list (A * B) :=
  match d with
  | [] => [(a, b)]
  | (a', b') :: rest =>
      if key_lt a a' then (a, b) :: d
      else if key_lt a' a then (a', b') :: map_assign rest a b
      else (a', b) :: rest
  end.

Definition map_find (d : list (A * B)) (a : A) : option B :=
  match filter (fun e => key_lt e.1 a = false /\ key_lt a e.1 = false) d with
  | [] => None
  | e :: _ => Some e.2
  end.

(** Keys strictly increase. *)
Fixpoint map_sorted (d : list (A * B)) : Prop :=
  match d with
  | [] => True
  | (a, _) :: rest => Forall (fun e => key_lt a e.1 = true) rest /\ map_sorted rest
  end.

Lemma map_assign_below d a b k :
  Forall (fun e => key_lt k e.1 = true) d -> key_lt k a = true ->
  Forall (fun e => key_lt k e.1 = true) (map_assign d a b).
Proof.
  intros Hd Ha. induction Hd as [|[a' b'] d He Hd IH]; cbn [map_assign]; [by constructor|].
  cbn [fst] in He. destruct (key_lt a a'); [by repeat constructor|].
  destruct (key_lt a' a); by constructor.
Qed.

Lemma map_assign_sorted d a b : map_sorted d -> map_sorted (map_assign d a b).
Proof.
  induction d as [|[a' b'] d IH]; [done|]. intros [Ha Hs]. cbn [map_assign].
  destruct (key_lt a a') eqn:E1.
  - split; [|done]. constructor; [done|]. eapply Forall_impl; [exact Ha|].
    intros e. by apply key_lt_trans.
  - destruct (key_lt a' a) eqn:E2; [|done]. split; [by apply map_assign_below|by apply IH].
Qed.

(** A key above all others goes to the end. *)
Lemma map_assign_last d a b :
  Forall (fun e => key_lt e.1 a = true) d -> map_assign d a b = d ++ [(a, b)].
Proof.
  induction 1 as [|[a' b'] d He Hd IH]; [done|]. cbn [map_assign app fst] in *.
  destruct (key_lt a a') eqn:E; [|by rewrite He, IH].
  pose proof (key_lt_trans a a' a E He) as Hc. by rewrite key_lt_irrefl in Hc.
Qed.

(** d[a] = b is the update of a finite map. *)
Lemma map_find_head a' b' d a :
  map_find ((a', b') :: d) a =
    if negb (key_lt a' a) && negb (key_lt a a') then Some b' else map_find d a.
Proof.
  unfold map_find. rewrite filter_cons. cbn [fst].
  destruct (key_lt a' a), (key_lt a a'); cbn [negb andb];
    first [rewrite decide_False by naive_solver|rewrite decide_True by done]; done.
Qed.

Lemma map_find_assign d a b k :
  map_find (map_assign d a b) k =
    if negb (key_lt a k) && negb (key_lt k a) then Some b else map_find d k.
Proof.
  induction d as [|[a' b'] d IH]; cbn [map_assign]; [by rewrite map_find_head|].
  destruct (key_lt a a') eqn:E1; [by rewrite map_find_head|].
  destruct (key_lt a' a) eqn:E2; rewrite !map_find_head.
  - rewrite IH. destruct (key_lt a k) eqn:E3, (key_lt k a) eqn:E4; cbn [negb andb]; try done.
    rewrite <- (key_lt_total a k E3 E4), E2. done.
  - rewrite (key_lt_total a a' E1 E2). by destruct (key_lt a' k), (key_lt k a').
Qed.

Section Templates.
Context (ca : codec A) (cb : codec B).

(** operator<<(marshall &, const std::map<A,B> &) *)
Definition put_map `{Memory} (m : marshall) (d : list (A * B)) : outcome marshall :=
  m ← put_u32 m (u32 (zlen d)); put_elems (pair_c ca cb) m d.

(** operator>>(unmarshall &, std::map<A,B> &); [a0], [b0] are what A a; B b; hold. *)
Fixpoint get_entries (a0 : A) (b0 : B) (n : nat) (u : unmarshall) (d : list (A * B))
    : outcome (unmarshall * list (A * B)) :=
  match n with
  | O => Ok (u, d)
  | S n =>
      '(u, a) ← get ca u a0;
      '(u, b) ← get cb u b0;
      get_entries a0 b0 n u (map_assign d a b)
  end.
Definition get_map (a0 : A) (b0 : B) (u : unmarshall) (d : list (A * B))
    : outcome (unmarshall * list (A * B)) :=
  '(u, n) ← get_u32 u 0;
  get_entries a0 b0 (Z.to_nat n) u [].

Definition map_c `{Memory} (a0 : A) (b0 : B) : codec (list (A * B)) :=
  Codec put_map (get_map a0 b0).
End Templates.
End Maps.

Section MapWire.
Context `{Memory} {A B : Type} `{MapKey A} (ca : codec A) (cb : codec B) `{!Wire ca, !Wire cb}.

Lemma reads_entries a0 b0 d acc :
  declared ca a0 -> declared cb b0 -> Forall (representable (pair_c ca cb)) d ->
  map_sorted (acc ++ d) ->
  reads (fun u => get_entries ca cb a0 b0 (length d) u acc)
    (concat (map (image (pair_c ca cb)) d)) (acc ++ d).
Proof.
  intros Ha Hb Hd. revert acc. induction Hd as [|[a b] d [Ra Rb] _ IH]; intros acc Hs; simpl.
  { intros u rest Hu. rewrite app_nil_r. eauto. }
  rewrite <- (assoc_L (++)).
  eapply (reads_bind _ (fun a' u => '(u, b') ← get cb u b0; get_entries ca cb a0 b0 (length d) u (map_assign acc a' b'))).
  { by apply wire_get. }
  eapply (reads_bind _ (fun b' u => get_entries ca cb a0 b0 (length d) u (map_assign acc a b'))).
  { by apply wire_get. }
  assert (Forall (fun e => key_lt e.1 a = true) acc) as Hlast.
  { clear -Hs. induction acc as [|[a' b'] acc IH]; [done|]. destruct Hs as [Hf Hs].
    constructor; [|by apply IH]. apply Forall_app in Hf as [_ Hf%Forall_cons]. exact (proj1 Hf). }
  rewrite map_assign_last by done. rewrite (cons_middle (a, b) acc d), (assoc_L (++)). apply IH.
  by rewrite <- (assoc_L (++)).
Qed.

#[export] Program Instance map_wire a0 b0 : Wire (map_c ca cb a0 b0) := {|
  image d := be32 (zlen d) ++ concat (map (image (pair_c ca cb)) d);
  representable d := zlen d < 2 ^ 32 /\ declared ca a0 /\ declared cb b0 /\
    Forall (representable (pair_c ca cb)) d /\ map_sorted d;
  declared _ := True |}.
Next Obligation.
  intros a0 b0 d (Hl & _ & _ & Hd & _). pose proof (zlen_nonneg d). simpl. unfold put_map.
  rewrite u32_small by (unfold is_u32; lia).
  exact (writes_seq _ _ _ _ (writes_put_u32 _) (writes_elems (pair_c ca cb) d Hd)).
Qed.
Next Obligation.
  intros a0 b0 d d0 (Hl & Ha & Hb & Hd & Hs) _. pose proof (zlen_nonneg d).
  apply (reads_bind (fun u => get_u32 u 0) (fun n u => get_entries ca cb a0 b0 (Z.to_nat n) u [])
    (be32 (zlen d)) (concat (map (image (pair_c ca cb)) d)) (u32 (zlen d))); [apply reads_u32|].
  rewrite u32_small by (unfold is_u32; lia).
  unfold zlen. rewrite Nat2Z.id. by apply (reads_entries a0 b0 d []).
Qed.

(** Whatever bytes arrive, the map read from them is a map. *)
Lemma get_entries_sorted a0 b0 n u d u' d' :
  map_sorted d -> get_entries ca cb a0 b0 n u d = Ok (u', d') -> map_sorted d'.
Proof.
  revert u d. induction n as [|n IH]; intros u d Hd; cbn [get_entries]; [by intros [= <- <-]|].
  destruct (get ca u a0) as [[u1 a]|]; [|done]. cbn [mbind outcome_bind].
  destruct (get cb u1 b0) as [[u2 b]|]; [|done]. cbn [mbind outcome_bind].
  apply IH. by apply map_assign_sorted.
Qed.

(** Maps survive the wire, whatever their key and value types: a map that is
    marshalled as the arguments of a request is read back equal, and whatever
    bytes are unmarshalled into a map variable, the keys of the result are in
    strict order; nothing of the variable's old contents is left. *)
Theorem map_on_the_wire a0 b0 :
  (forall d old, representable (map_c ca cb a0 b0) d ->
     RPC_HEADER_SZ + zlen (image (map_c ca cb a0 b0) d) <= MAX_MSG ->
     exists m, put_map ca cb marshall_new d = Ok m /\
       drop 24 (contents m) = image (map_c ca cb a0 b0) d /\
       forall u, remaining u (drop 24 (contents m)) ->
         exists u', get_map ca cb a0 b0 u old = Ok (u', d) /\ unmarshall_okdone u' = true) /\
  (forall u old u' d, get_map ca cb a0 b0 u old = Ok (u', d) -> map_sorted d).
Proof.
  split.
  - intros d old Hd Hsz. destruct (put_fresh (map_c ca cb a0 b0) d Hd Hsz) as (m & E & _ & _ & Hc).
    exists m. split; [exact E|]. split; [exact Hc|]. intros u Hu. rewrite Hc in Hu.
    exact (get_body (map_c ca cb a0 b0) u d old Hd I Hu).
  - intros u old u' d. unfold get_map. destruct (get_u32 u 0) as [[u1 n]|]; [|done].
    cbn [mbind outcome_bind]. by apply get_entries_sorted.
Qed.
End MapWire.

(** A map from ints to strings. *)
#[local] Existing Instance zero_memory.
Module Demo.
Definition d : list (Z * bytes) := map_assign (map_assign [] 3 (str "bc")) (-1) (str "a").

Lemma d_representable : representable (map_c i32_c string_c 0 []) d.
Proof.
  split; [done|]. split; [done|]. split; [done|].
  split; [repeat constructor; cbn; unfold is_i32; lia|]. by repeat constructor.
Qed.
End Demo.

Lemma map_on_the_wire_witness :
  exists m, put_map i32_c string_c marshall_new Demo.d = Ok m /\
    drop 24 (contents m) = be32 2 ++ be32 (2 ^ 32 - 1) ++ be32 1 ++ str "a" ++ be32 3 ++ be32 2 ++ str "bc".
Proof.
  destruct (proj1 (map_on_the_wire i32_c string_c 0 []) Demo.d []) as (m & E & Hc & _).
  - exact Demo.d_representable.
  - by vm_compute.
  - exists m. split; [exact E|]. rewrite Hc. reflexivity.
Defined.
