(* ===== verification/XidWindow.v ===== *)
(** * The client's reply window: rpcc::update_xid_rep of rpc/rpc.cc

    [xid_rep_window_] is the ascending list of transaction ids whose replies
    have arrived (or whose calls are over), compressed so that its front is the
    largest id below which every id has been seen. The front travels in every
    request as [xid_rep] and lets the server forget the replies up to it.
    Its abstract meaning is a set of ids, [acked]. *)

From S2P Require Import Prelude.
From stdpp Require Import sorting.
Local Open Scope Z_scope.

Definition window_front (w : list Z) : outcome Z :=
  match w with [] => Crash OutOfBounds | x :: _ => Ok x end.

(** The loop that inserts [xid] before the first larger element. *)
Fixpoint window_insert (xid : Z) (w : list Z) : list Z :=
  match w with
  | [] => [xid]
  | y :: w' => if xid <? y then xid :: w else y :: window_insert xid w'
  end.

(** [while (xid_rep_window_.front() + 1 == *it) xid_rep_window_.pop_front();]
    where [pre] is the list up to, not including, [it]. When [pre] runs out the
    front is [*it] itself and the condition [*it + 1 == *it] is false. *)
Fixpoint compress_while (pre : list Z) (cur : Z) : list Z :=
  match pre with
  | [] => []
  | x :: pre' => if u32 (x + 1) =? cur then compress_while pre' cur else pre
  end.

(** The outer loop: [pre] lies before the iterator, [suf] from it on. *)
Fixpoint compress (pre suf : list Z) : list Z :=
  match suf with
  | [] => pre
  | cur :: suf' => compress (compress_while pre cur ++ [cur]) suf'
  end.

Definition update_xid_rep (w : list Z) (xid : Z) : outcome (list Z) :=
  front ← window_front w;
  if xid <=? front then Ok w
  else match window_insert xid w with
       | [] => Crash OutOfBounds
       | x :: rest => Ok (compress [x] rest)
       end.

(** ** The set of ids the window stands for *)
Definition acked (w : list Z) (x : Z) : Prop :=
  match w with [] => False | f :: w' => x <= f \/ x ∈ w' end.

(** Ascending, in range, and compressed: the front's successor is missing. *)
Definition window_ok (w : list Z) : Prop :=
  StronglySorted Z.le w /\ Forall is_u32 w /\
  match w with [] => False | f :: w' => f + 1 ∉ w' end.

Lemma window_init_ok : window_ok [0].
Proof. repeat split; repeat constructor; unfold is_u32; try lia. set_solver. Qed.

Lemma window_insert_elem x xid w : x ∈ window_insert xid w <-> x = xid \/ x ∈ w.
Proof.
  induction w as [|y w IH]; simpl; [set_solver|].
  destruct (xid <? y); rewrite !elem_of_cons, ?IH; naive_solver.
Qed.

Lemma window_insert_sorted xid w :
  StronglySorted Z.le w -> StronglySorted Z.le (window_insert xid w).
Proof.
  induction 1 as [|y w Hs IH Hy]; simpl; [repeat constructor|].
  destruct (xid <? y) eqn:E; bool_to_prop.
  - constructor; [by constructor|]. constructor; [lia|].
    eapply Forall_impl; [exact Hy|]. simpl. lia.
  - constructor; [done|]. rewrite Forall_forall in *. intros x Hx.
    apply window_insert_elem in Hx as [->|Hx]; [done|]. by apply Hy.
Qed.

(** The head of the insertion, when [xid] is larger than the front. *)
Lemma window_insert_head xid f w :
  f < xid -> window_insert xid (f :: w) = f :: window_insert xid w.
Proof. intros. simpl. by rewrite (proj2 (Z.ltb_ge _ _)) by lia. Qed.

(** What holds of the list before the iterator. *)
Definition prefix_ok (pre : list Z) : Prop :=
  match pre with [] => False | f :: pre' => Forall is_u32 pre /\ f + 1 ∉ pre end.

Lemma compress_while_all f pre cur :
  Forall is_u32 (f :: pre) -> cur = f + 1 -> is_u32 cur ->
  Forall (fun x => x = f) pre -> compress_while (f :: pre) cur = [].
Proof.
  intros Hu -> Hc Hall. unfold is_u32 in Hc. rewrite Forall_cons in Hu.
  simpl. rewrite u32_small, Z.eqb_refl by done. destruct Hu as [_ _].
  induction Hall as [|x pre -> _ IH]; simpl; [done|].
  by rewrite u32_small, Z.eqb_refl by done.
Qed.

(** One round of the outer loop: either nothing is popped, or everything
    before the iterator is. *)
Lemma compress_while_cases pre cur :
  prefix_ok pre -> is_u32 cur -> StronglySorted Z.le (pre ++ [cur]) ->
  compress_while pre cur = pre /\ (forall f, head pre = Some f -> f + 1 <> cur) \/
  compress_while pre cur = [] /\ (forall x, x ∈ pre -> x + 1 = cur).
Proof.
  destruct pre as [|f pre]; [done|]. intros [Hu Hn] Hc Hs.
  assert (forall x, x ∈ pre -> f <= x <= cur) as Hb.
  { simpl in Hs. inversion_clear Hs as [|? ? Hs' Hf]. rewrite Forall_app, Forall_forall in Hf.
    destruct Hf as [Hf Hfc]. intros x Hx. split; [by apply Hf|].
    clear -Hs' Hx. induction pre as [|y pre IH]; [by apply not_elem_of_nil in Hx|].
    simpl in Hs'. inversion_clear Hs' as [|? ? Hs Hy].
    apply elem_of_cons in Hx as [->|Hx]; [|by apply IH].
    rewrite Forall_app in Hy. destruct Hy as [_ Hy]. by inversion_clear Hy. }
  assert (f <= cur) as Hfc.
  { simpl in Hs. inversion_clear Hs as [|? ? _ Hf]. rewrite Forall_app in Hf.
    destruct Hf as [_ Hf]. by inversion_clear Hf. }
  assert (is_u32 f) as Hf by by inversion_clear Hu.
  destruct (decide (f + 1 = cur)) as [E|E].
  - right. assert (Forall (fun x => x = f) pre) as Hall.
    { rewrite Forall_forall. intros x Hx. specialize (Hb x Hx).
      assert (x <> f + 1) by (intros ->; apply Hn; set_solver). lia. }
    split; [by apply compress_while_all|]. rewrite Forall_forall in Hall.
    intros x [->|Hx]%elem_of_cons; [done|]. rewrite (Hall x Hx). done.
  - left. split; [|intros g [= <-]; done]. simpl.
    rewrite (proj2 (Z.eqb_neq _ _)); [done|]. unfold is_u32 in *.
    destruct (decide (f + 1 < 2 ^ 32)); [rewrite u32_small by (unfold is_u32; lia); lia|].
    replace (f + 1) with (2 ^ 32) by lia. unfold u32. rewrite Z.mod_same by lia. lia.
Qed.

(** The compression loop keeps the order and the set, and ends compressed. *)
Lemma compress_spec suf pre :
  prefix_ok pre -> Forall is_u32 suf -> StronglySorted Z.le (pre ++ suf) ->
  window_ok (compress pre suf) /\
  (forall x, acked (compress pre suf) x <-> acked (pre ++ suf) x).
Proof.
  revert pre. induction suf as [|cur suf IH]; intros pre Hp Hu Hs; simpl.
  - rewrite app_nil_r in *. destruct pre as [|f pre]; [done|]. destruct Hp as [Hu' Hn].
    split; [|done]. repeat split; [done|done|set_solver].
  - apply Forall_cons in Hu as [Hc Hu].
    assert (StronglySorted Z.le (pre ++ [cur])) as Hs1.
    { replace (pre ++ cur :: suf) with ((pre ++ [cur]) ++ suf) in Hs by (by rewrite <- (assoc_L (++))).
      clear -Hs. induction (pre ++ [cur]) as [|x l IH]; [constructor|].
      simpl in Hs. inversion_clear Hs as [|? ? Hs' Hf]. rewrite Forall_app in Hf.
      constructor; [by apply IH|apply Hf]. }
    destruct (compress_while_cases pre cur Hp Hc Hs1) as [[-> Hne]|[-> Hall]].
    + destruct pre as [|f pre]; [done|]. destruct Hp as [Hup Hn].
      destruct (IH ((f :: pre) ++ [cur])) as [Hok Hack].
      * split; [by apply Forall_app; split; [|constructor]|].
        specialize (Hne f eq_refl). set_solver.
      * done.
      * by rewrite <- (assoc_L (++)).
      * split; [done|]. intros x. rewrite Hack. by rewrite <- (assoc_L (++)).
    + destruct (IH [cur]) as [Hok Hack].
      * split; [by constructor|]. rewrite list_elem_of_singleton. lia.
      * done.
      * simpl. clear -Hs. induction pre as [|x pre IH]; [done|].
        simpl in Hs. inversion_clear Hs. by apply IH.
      * split; [done|]. intros x. rewrite Hack. simpl.
        destruct pre as [|f pre]; [done|]. simpl.
        assert (f + 1 = cur) by (apply Hall; set_solver).
        rewrite elem_of_app, elem_of_cons. split.
        -- intros [?|?]; [|tauto]. destruct (decide (x <= f)); [tauto|]. right; right; left. lia.
        -- intros [?|[Hx|[->|?]]]; [lia| |lia|tauto].
           left. specialize (Hall x ltac:(set_solver)). lia.
Qed.

(** Adding an id on a well-formed window. *)
Lemma update_xid_rep_ok w xid :
  window_ok w -> is_u32 xid ->
  exists w', update_xid_rep w xid = Ok w' /\ window_ok w' /\
    (forall x, 0 <= x -> acked w' x <-> acked w x \/ x = xid).
Proof.
  intros Hw Hx. pose proof Hw as (Hs & Hu & Hn). destruct w as [|f w]; [done|].
  unfold update_xid_rep. simpl.
  destruct (xid <=? f) eqn:E; bool_to_prop.
  - exists (f :: w). split; [done|]. split; [done|].
    intros x Hx0. simpl. naive_solver lia.
  - rewrite (proj2 (Z.ltb_ge _ _)) by lia.
    destruct (compress_spec (window_insert xid w) [f]) as [Hok Hack].
    + split; [apply Forall_cons in Hu as [? _]; by constructor|].
      rewrite list_elem_of_singleton. lia.
    + rewrite Forall_forall. intros x [->|Hin]%window_insert_elem; [done|].
      rewrite Forall_forall in Hu. apply Hu. set_solver.
    + apply (window_insert_sorted xid) in Hs. by rewrite window_insert_head in Hs by lia.
    + eexists. split; [done|]. split; [done|].
      intros x Hx0. rewrite Hack. simpl. rewrite window_insert_elem. naive_solver.
Qed.

(** The front is the largest id below which everything is acknowledged. *)
Lemma window_front_spec w f :
  window_ok w -> window_front w = Ok f ->
  (forall x, 0 <= x <= f -> acked w x) /\ ~ acked w (f + 1).
Proof.
  destruct w as [|g w]; [done|]. intros (_ & _ & Hg) [= ->]. simpl.
  split; [intros; left; lia|]. intros [?|?]; [lia|done].
Qed.

(** The reply window computes the set of finished ids: on a well-formed
    window [update_xid_rep] succeeds, keeps the window well formed and adds
    exactly [xid] to the set of acknowledged ids; in particular doing it twice,
    as [call1] and [got_pdu] do, is harmless, and the new front is the largest
    id below which everything has been acknowledged. *)
Theorem update_xid_rep_spec w xid :
  window_ok w -> is_u32 xid ->
  exists w', update_xid_rep w xid = Ok w' /\ window_ok w' /\
    (forall x, 0 <= x -> acked w' x <-> acked w x \/ x = xid) /\
    (forall f, window_front w' = Ok f ->
       (forall x, 0 <= x <= f -> acked w' x) /\ ~ acked w' (f + 1)).
Proof.
  intros Hw Hx. destruct (update_xid_rep_ok w xid Hw Hx) as (w' & E & Hw' & Ha).
  exists w'. split; [done|]. split; [done|]. split; [done|]. intros f. by apply window_front_spec.
Qed.

(** Replies 3 and 1 arrive, then 2: the front jumps from 1 to 3. *)
Lemma update_xid_rep_spec_witness :
  exists w', update_xid_rep [1; 3] 2 = Ok w' /\ window_ok w' /\
    (forall x, 0 <= x -> acked w' x <-> acked [1; 3] x \/ x = 2) /\
    (forall f, window_front w' = Ok f ->
       (forall x, 0 <= x <= f -> acked w' x) /\ ~ acked w' (f + 1)).
Proof.
  apply update_xid_rep_spec.
  - split; [|split].
    + repeat constructor; lia.
    + repeat constructor; unfold is_u32; lia.
    + set_solver by lia.
  - unfold is_u32. lia.
Defined.
