(* ===== verification/TimeSpec.v ===== *)
(** * Time stamps: cmp_timespec, add_timespec and diff_timespec of rpc/rpc.cc

    The client's deadlines are [struct timespec]s. [total] is the abstract
    meaning of one, in nanoseconds. *)

From S2P Require Import Prelude.
Local Open Scope Z_scope.

Record timespec := Timespec { tv_sec : Z; tv_nsec : Z }.

Definition cmp_timespec (a b : timespec) : Z :=
  if tv_sec b <? tv_sec a then 1
  else if tv_sec a <? tv_sec b then -1
  else if tv_nsec b <? tv_nsec a then 1
  else if tv_nsec a <? tv_nsec b then -1
  else 0.

(** [while (result->tv_nsec > 1000000000) { ... }], at most [fuel] rounds. *)
Fixpoint carry_loop (fuel : nat) (t : timespec) : timespec :=
  match fuel with
  | O => t
  | S fuel =>
      if 1000000000 <? tv_nsec t
      then carry_loop fuel (Timespec (tv_sec t + 1) (tv_nsec t - 1000000000))
      else t
  end.

(** Each round takes off 10^9, so [tv_nsec / 10^9] rounds always do. *)
Definition carry (t : timespec) : timespec :=
  carry_loop (Z.to_nat (tv_nsec t / 1000000000)) t.

(** [b/1000] and [b % 1000] truncate towards zero. *)
Definition add_timespec (a : timespec) (b : Z) : outcome timespec :=
  let result := Timespec (tv_sec a + Z.quot b 1000)
                         (tv_nsec a + Z.rem b 1000 * 1000000) in
  _ ← cassert (0 <=? tv_nsec result);
  Ok (carry result).

(** [diff] is an [int]. *)
Definition diff_timespec (en start : timespec) : outcome Z :=
  let diff := if tv_sec start <? tv_sec en
              then i32 ((tv_sec en - tv_sec start) * 1000) else 0 in
  _ ← cassert (negb (diff =? 0) || (tv_sec en =? tv_sec start));
  if tv_nsec start <? tv_nsec en
  then Ok (i32 (diff + Z.quot (tv_nsec en - tv_nsec start) 1000000))
  else Ok (i32 (diff - Z.quot (tv_nsec start - tv_nsec en) 1000000)).

(** ** Meaning *)
Definition total (t : timespec) : Z := tv_sec t * 1000000000 + tv_nsec t.

(** A stamp as [clock_gettime] returns it, and as [pthread_cond_timedwait]
    requires it. *)
Definition valid (t : timespec) : Prop := 0 <= tv_nsec t < 1000000000.

(** What [add_timespec] guarantees: one nanosecond too loose. *)
Definition almost_valid (t : timespec) : Prop := 0 <= tv_nsec t <= 1000000000.

Lemma carry_loop_spec fuel t :
  0 <= tv_nsec t <= Z.of_nat fuel * 1000000000 + 1000000000 ->
  total (carry_loop fuel t) = total t /\ almost_valid (carry_loop fuel t) /\
  tv_sec t <= tv_sec (carry_loop fuel t).
Proof.
  revert t. induction fuel as [|fuel IH]; intros t Ht; simpl; [by split; [|split; [split|]; lia]|].
  destruct (Z.ltb_spec 1000000000 (tv_nsec t)); [|by split; [|split; [split|]; lia]].
  destruct (IH (Timespec (tv_sec t + 1) (tv_nsec t - 1000000000))) as (E & V & S); [simpl; lia|].
  simpl in S. split; [|split; [done|lia]]. rewrite E. unfold total. simpl. lia.
Qed.

(** More rounds than needed change nothing, so [carry] is the whole loop. *)
Lemma carry_loop_done fuel t : tv_nsec t <= 1000000000 -> carry_loop fuel t = t.
Proof.
  intros Ht. destruct fuel; simpl; [done|]. by rewrite (proj2 (Z.ltb_ge _ _)).
Qed.

Lemma carry_spec t :
  0 <= tv_nsec t ->
  total (carry t) = total t /\ almost_valid (carry t) /\ tv_sec t <= tv_sec (carry t).
Proof. intros Ht. apply carry_loop_spec. Z.div_mod_to_equations. lia. Qed.

Lemma add_timespec_ok a b :
  valid a -> 0 <= b ->
  exists t, add_timespec a b = Ok t /\ total t = total a + b * 1000000 /\ almost_valid t /\
    tv_sec a <= tv_sec t.
Proof.
  intros [Ha1 Ha2] Hb. unfold add_timespec. simpl.
  pose proof (Z.quot_rem' b 1000). pose proof (Z.rem_bound_pos b 1000 Hb ltac:(lia)).
  rewrite (proj2 (Z.leb_le _ _)) by lia. simpl. eexists. split; [done|].
  match goal with |- total (carry ?t) = _ /\ _ => destruct (carry_spec t) as (-> & V & S) end.
  { simpl. lia. }
  simpl in S. split; [|split; [done|lia]]. unfold total. simpl. lia.
Qed.

(** A later instant compares greater, whichever of the two stamps carries. *)
Lemma cmp_timespec_gt a b :
  valid a -> almost_valid b -> total b < total a -> cmp_timespec a b = 1.
Proof.
  unfold valid, almost_valid, total, cmp_timespec. intros.
  destruct (Z.ltb_spec (tv_sec b) (tv_sec a)); [done|].
  destruct (Z.ltb_spec (tv_sec a) (tv_sec b)); [lia|].
  destruct (Z.ltb_spec (tv_nsec b) (tv_nsec a)); [done|]. lia.
Qed.

Lemma add_seconds a b :
  valid a -> 0 <= b -> add_timespec a (b * 1000) = Ok (Timespec (tv_sec a + b) (tv_nsec a)).
Proof.
  intros [Ha1 Ha2] Hb. unfold add_timespec. simpl.
  rewrite Z.quot_mul, Z.rem_mul by lia. rewrite Z.mul_0_l, Z.add_0_r.
  rewrite (proj2 (Z.leb_le _ _)) by lia. simpl. f_equal. apply carry_loop_done. simpl. lia.
Qed.

(** [add_timespec] adds [b] milliseconds exactly and [diff_timespec] gets
    them back; but the carry loop tests with [>], so the sum has
    [tv_nsec = 10^9], which pthread_cond_timedwait refuses with EINVAL, exactly
    when the nanoseconds add up to 10^9. *)
Theorem add_timespec_spec a b :
  valid a -> 0 <= b < 2 ^ 30 ->
  exists t, add_timespec a b = Ok t /\ total t = total a + b * 1000000 /\
    diff_timespec t a = Ok b /\
    (~ valid t <-> tv_nsec a + b mod 1000 * 1000000 = 1000000000).
Proof.
  intros Ha Hb. pose proof Ha as [Ha1 Ha2].
  destruct (add_timespec_ok a b Ha) as (t & E & Ht & [Hv1 Hv2] & Hsec); [lia|].
  exists t. split; [done|]. split; [done|]. unfold total in Ht. split.
  - unfold diff_timespec. destruct (Z.ltb_spec (tv_sec a) (tv_sec t)) as [Hlt|Hge].
    + assert (tv_sec t - tv_sec a <= 1073743) by lia.
      rewrite (i32_small ((tv_sec t - tv_sec a) * 1000)) by (unfold is_i32; lia).
      rewrite (proj2 (Z.eqb_neq _ 0)) by lia. simpl.
      destruct (Z.ltb_spec (tv_nsec a) (tv_nsec t)); f_equal;
        rewrite Z.quot_div_nonneg by lia; rewrite i32_small; unfold is_i32; Z.div_mod_to_equations; lia.
    + assert (tv_sec t = tv_sec a) as Hs by lia. rewrite Hs. simpl. rewrite Z.eqb_refl. simpl.
      destruct (Z.ltb_spec (tv_nsec a) (tv_nsec t)); f_equal;
        rewrite Z.quot_div_nonneg by lia; rewrite i32_small; unfold is_i32; Z.div_mod_to_equations; lia.
  - unfold add_timespec in E. simpl in E. destruct (cassert _); simplify_eq/=.
    rewrite Z.rem_mod_nonneg, Z.quot_div_nonneg in * by lia.
    unfold valid. split.
    + intros Hn. destruct (Z.le_gt_cases (tv_nsec a + b mod 1000 * 1000000) 1000000000).
      * unfold carry in Hn. rewrite carry_loop_done in Hn by (simpl; lia). simpl in Hn.
        Z.div_mod_to_equations. lia.
      * assert (tv_nsec (carry (Timespec (tv_sec a + b / 1000)
          (tv_nsec a + b mod 1000 * 1000000))) = 1000000000) as E by lia.
        rewrite E in Ht. Z.div_mod_to_equations. lia.
    + intros E Hn. unfold carry in Hn. rewrite carry_loop_done in Hn by (simpl; lia). simpl in Hn. lia.
Qed.

(** 0.7 s past the second plus a timeout of 1300 ms. *)
Lemma add_timespec_spec_witness :
  exists t, add_timespec (Timespec 5 700000000) 1300 = Ok t /\ ~ valid t.
Proof.
  destruct (add_timespec_spec (Timespec 5 700000000) 1300) as (t & E & _ & _ & Hv).
  - split; simpl; lia.
  - lia.
  - exists t. split; [done|]. by apply Hv.
Defined.
