(* ===== verification/Gettime.v ===== *)
(** * The clock: gettime.cc, and the level of rpc/jsl_log.cc

    clock_gettime for systems that have none. The Mach kernel it asks is an
    argument. The CPU-time clocks convert nanoseconds to a [timespec] in double
    arithmetic, which is the standard library's specification of it; when that
    gives the right numbers, and when not, is the point of this file. *)

From Stdlib Require Import Floats.SpecFloat.
From S2P Require Import Prelude TimeSpec.
Local Open Scope Z_scope.

(** ** Doubles *)
Definition prec : Z := 53.
Definition emax : Z := 1024.

(** A conversion from an integer; the literals 1e-9 and 1e9. *)
Definition double_of (n : Z) : spec_float := binary_normalize prec emax n 0 false.
Definition nine_zeros : spec_float := double_of 1000000000.
Definition nano_unit : spec_float := S754_finite false 4835703278458517 (-82).

(** A conversion to [long], towards zero; of a value [long] has no room for it
    is undefined. *)
Definition long_of (f : spec_float) : outcome Z :=
  match f with
  | S754_zero _ => Ok 0
  | S754_finite s m e =>
      let a := if 0 <=? e then Zpos m * 2 ^ e else Zpos m / 2 ^ (- e) in
      let v := if s : bool then - a else a in
      if (- 2 ^ 63 <=? v) && (v <? 2 ^ 63) then Ok v else Crash SignedOverflow
  | _ => Crash SignedOverflow
  end.

(** ** clock_gettime *)
Inductive clockid_t := CLOCK_REALTIME | CLOCK_MONOTONIC | CLOCK_PROCESS_CPUTIME_ID | CLOCK_THREAD_CPUTIME_ID.

Definition KERN_SUCCESS : Z := 0.
Definition SYSTEM_CLOCK : Z := 0.
Definition CALENDAR_CLOCK : Z := 1.
Definition EINVAL : Z := 22.

(** __clock_gettime_inf, zero until first used *)
Record timebase := Timebase { numer : Z; denom : Z }.

Section Clock.
(** Mach: the service for a clock, the time it gives, the ticks at two readings
    and the ratio of nanoseconds to ticks. *)
Context (host_get_clock_service : Z -> Z * Z) (clock_get_time : Z -> Z * timespec)
  (mach_timebase_info : timebase).

(** The return value, errno if it is set, the time stored and the time base. *)
Record clock_result := ClockResult {
  c_ret : Z; c_errno : option Z; c_tp : timespec; c_inf : timebase }.

Definition clock_wall (clk_id : clockid_t) (inf : timebase) (tp : timespec) : clock_result :=
  let clk_serv_id := match clk_id with CLOCK_REALTIME => CALENDAR_CLOCK | _ => SYSTEM_CLOCK end in
  let '(ret, clk) := host_get_clock_service clk_serv_id in
  let '(ret, retval, tp) :=
    if ret =? KERN_SUCCESS then
      let '(ret, tm) := clock_get_time clk in
      if ret =? KERN_SUCCESS then (ret, 0, tm) else (ret, -1, tp)
    else (ret, -1, tp) in
  if negb (ret =? KERN_SUCCESS) then ClockResult (-1) (Some EINVAL) tp inf else ClockResult retval None tp inf.

(** [tp->tv_sec = nano * 1e-9; tp->tv_nsec = nano - (tp->tv_sec * 1e9);] *)
Definition split_nano (nano : Z) : outcome timespec :=
  sec ← long_of (SFmul prec emax (double_of nano) nano_unit);
  nsec ← long_of (SFsub prec emax (double_of nano) (SFmul prec emax (double_of sec) nine_zeros));
  Ok (Timespec sec nsec).

(** What is timed is the call of getpid or sched_yield between [start] and
    [finish]. *)
Definition clock_cpu (start finish : Z) (inf : timebase) : outcome clock_result :=
  let delta := u64 (finish - start) in
  let inf := if 0 =? denom inf then mach_timebase_info else inf in
  if denom inf =? 0 then Crash DivideByZero
  else
    let nano := u64 (delta * numer inf) / denom inf in
    tp ← split_nano nano;
    Ok (ClockResult 0 None tp inf).

Definition clock_gettime (clk_id : clockid_t) (start finish : Z) (inf : timebase) (tp : timespec)
    : outcome clock_result :=
  match clk_id with
  | CLOCK_REALTIME | CLOCK_MONOTONIC => Ok (clock_wall clk_id inf tp)
  | CLOCK_PROCESS_CPUTIME_ID | CLOCK_THREAD_CPUTIME_ID => clock_cpu start finish inf
  end.
End Clock.

(** ** jsl_log.cc *)
Definition jsl_set_debug (level : Z) (JSL_DEBUG_LEVEL : Z) : Z := level.
(** Whether [jsl_log(level, ...)] prints. *)
Definition jsl_logs (JSL_DEBUG_LEVEL level : Z) : bool := negb (JSL_DEBUG_LEVEL <? Z.abs level).

(** ** Rounding *)

(** The number of binary digits. *)
Lemma digits_bounds p : 2 ^ (Zpos (digits2_pos p) - 1) <= Zpos p < 2 ^ Zpos (digits2_pos p).
Proof.
  induction p as [p IH|p IH|]; cbn [digits2_pos]; [| |done];
    rewrite Pos2Z.inj_succ; replace (Z.succ _ - 1) with (Z.pos (digits2_pos p)) by lia;
    rewrite Z.pow_succ_r by lia; replace (Zpos (digits2_pos p)) with (Z.succ (Zpos (digits2_pos p) - 1)) at 1 by lia;
    rewrite Z.pow_succ_r by (pose proof (Pos2Z.is_pos (digits2_pos p)); lia); lia.
Qed.

Lemma digits_unique p d : 0 < d -> 2 ^ (d - 1) <= Zpos p < 2 ^ d -> Zpos (digits2_pos p) = d.
Proof.
  intros Hd Hp. pose proof (digits_bounds p) as Hb. pose proof (Pos2Z.is_pos (digits2_pos p)).
  assert (d - 1 < Zpos (digits2_pos p)) by (apply (Z.pow_lt_mono_r_iff 2); lia).
  assert (Zpos (digits2_pos p) - 1 < d) by (apply (Z.pow_lt_mono_r_iff 2); lia). lia.
Qed.

(** What is known of [mx] after [j] bits have been shifted out. *)
Definition shifted (mx j : Z) (r : shr_record) : Prop :=
  0 <= j /\ shr_m r = mx / 2 ^ j /\
  let rem := mx mod 2 ^ j in
  match shr_r r, shr_s r with
  | false, false => rem = 0
  | false, true => 0 < 2 * rem < 2 ^ j
  | true, false => 2 * rem = 2 ^ j
  | true, true => 2 ^ j < 2 * rem
  end.

Lemma shr_1_nonneg m r s : 0 <= m -> shr_1 (Build_shr_record m r s) = Build_shr_record (m / 2) (Z.odd m) (r || s).
Proof. intros Hm. destruct m as [|[p|p|]|]; cbn; try lia; f_equal; Z.div_mod_to_equations; lia. Qed.

Lemma shifted_step mx j r : 0 <= mx -> shifted mx j r -> shifted mx (j + 1) (shr_1 r).
Proof.
  intros Hmx (Hj & Hm & Hrem). destruct r as [m rb sb]. cbn [shr_m shr_r shr_s] in *.
  assert (0 < 2 ^ j) as Hpos by (apply Z.pow_pos_nonneg; lia).
  rewrite shr_1_nonneg by (subst m; apply Z.div_pos; lia).
  assert (2 ^ (j + 1) = 2 ^ j * 2) as Hp by (rewrite Z.pow_add_r by lia; lia).
  assert (mx mod 2 ^ (j + 1) = mx mod 2 ^ j + 2 ^ j * (m mod 2)) as Hrem'
    by (rewrite Hp, Z.rem_mul_r by lia; by subst m).
  pose proof (Z.mod_pos_bound mx (2 ^ j) Hpos) as Hb. pose proof (Zmod_odd m) as Hodd.
  split; [lia|]. cbn [shr_m shr_r shr_s]. split; [by rewrite Hp, <- Z.div_div, Hm by lia|].
  cbv zeta in *. rewrite Hrem', Hp, Hodd. destruct (Z.odd m), rb, sb; cbn [orb] in *; lia.
Qed.

Lemma iter_pos_shifted mx p : forall j r, 0 <= mx -> shifted mx j r -> shifted mx (j + Zpos p) (SpecFloat.iter_pos shr_1 p r).
Proof.
  induction p as [p IH|p IH|]; intros j r Hmx Hr; cbn [SpecFloat.iter_pos].
  - replace (j + Zpos p~1) with (j + 1 + Zpos p + Zpos p) by lia. apply IH; [done|]. apply IH; [done|].
    by apply shifted_step.
  - replace (j + Zpos p~0) with (j + Zpos p + Zpos p) by lia. apply IH; [done|]. by apply IH.
  - by apply shifted_step.
Qed.

(** A mantissa of at most 53 digits is taken as it is. *)
Lemma fexp_normal x : -1000 <= x -> fexp prec emax x = x - 53.
Proof. intros Hx. unfold fexp, emin, prec, emax. lia. Qed.

Lemma shr_fexp_fits p e :
  -500 <= e -> Zpos (digits2_pos p) <= 53 ->
  shr_fexp prec emax (Zpos p) e loc_Exact = (Build_shr_record (Zpos p) false false, e).
Proof.
  intros He Hd. unfold shr_fexp. cbn [shr_record_of_loc Zdigits2]. rewrite fexp_normal by lia.
  unfold shr. destruct (Zpos (digits2_pos p) + e - 53 - e) eqn:E; [done|lia|done].
Qed.

Lemma round_fits p e :
  -500 <= e <= 500 -> Zpos (digits2_pos p) <= 53 ->
  binary_round_aux prec emax false (Zpos p) e loc_Exact = S754_finite false p e.
Proof.
  intros He Hd. unfold binary_round_aux. rewrite shr_fexp_fits by lia. cbn [shr_m loc_of_shr_record round_nearest_even].
  rewrite shr_fexp_fits by lia. cbn [shr_m]. unfold emax, prec. by rewrite (proj2 (Z.leb_le _ _)) by lia.
Qed.

(** A longer one is cut to 53 digits: to the nearest of the two numbers with as
    many, and exactly if it is one of them. *)
Lemma round_cuts p e k :
  -500 <= e <= 0 -> Zpos (digits2_pos p) = 53 + k -> 0 <= k <= 200 ->
  exists q m e', Zpos p / 2 ^ k <= q <= Zpos p / 2 ^ k + 1 /\ 2 * q * 2 ^ k <= 2 * Zpos p + 2 ^ k /\
    (Zpos p mod 2 ^ k = 0 -> q = Zpos p / 2 ^ k /\ e' = e + k) /\
    e + k <= e' <= e + k + 1 /\ Zpos m * 2 ^ (e' - (e + k)) = q /\
    binary_round_aux prec emax false (Zpos p) e loc_Exact = S754_finite false m e'.
Proof.
  intros He Hd Hk. pose proof (digits_bounds p) as Hb. rewrite Hd in Hb.
  destruct (decide (k = 0)) as [->|Hk0].
  { exists (Zpos p), p, e. rewrite Z.pow_0_r, Z.div_1_r, Z.add_0_r, Z.sub_diag. split_and!; try lia. apply round_fits; lia. }
  assert (0 < 2 ^ k) as Hpos by (apply Z.pow_pos_nonneg; lia).
  set (q0 := Zpos p / 2 ^ k) in *.
  assert (2 ^ 52 <= q0 < 2 ^ 53) as Hq0.
  { unfold q0. replace (53 + k - 1) with (52 + k) in Hb by lia. rewrite !Z.pow_add_r in Hb by lia.
    split; [apply Z.div_le_lower_bound; lia|apply Z.div_lt_upper_bound; lia]. }
  destruct k as [|kp|]; [lia| |lia].
  unfold binary_round_aux. unfold shr_fexp at 1. cbn [shr_record_of_loc Zdigits2]. rewrite fexp_normal by lia.
  rewrite Hd. replace (53 + Zpos kp + e - 53 - e) with (Zpos kp) by lia. cbn [shr].
  pose proof (iter_pos_shifted (Zpos p) kp 0 (Build_shr_record (Zpos p) false false) ltac:(lia)) as Hsh.
  destruct Hsh as (_ & Hm & Hrem).
  { split; [lia|]. cbn [shr_m shr_r shr_s]. rewrite Z.pow_0_r, Z.div_1_r. split; [done|apply Z.mod_1_r]. }
  change (0 + Zpos kp) with (Zpos kp) in *. cbv zeta in Hrem. fold q0 in Hm.
  set (r := SpecFloat.iter_pos shr_1 kp (Build_shr_record (Zpos p) false false)) in *.
  assert (Zpos p = q0 * 2 ^ Zpos kp + Zpos p mod 2 ^ Zpos kp) as Hdm by (pose proof (Z.div_mod (Zpos p) (2 ^ Zpos kp)); lia).
  pose proof (Z.mod_pos_bound (Zpos p) (2 ^ Zpos kp) Hpos) as Hmb.
  set (q := round_nearest_even (shr_m r) (loc_of_shr_record r)).
  assert (q0 <= q <= q0 + 1 /\ 2 * q * 2 ^ Zpos kp <= 2 * Zpos p + 2 ^ Zpos kp /\
    (Zpos p mod 2 ^ Zpos kp = 0 -> q = q0)) as (Hq1 & Hq2 & Hq3).
  { unfold q. destruct r as [rm rb rs]. cbn [shr_m shr_r shr_s] in *. subst rm.
    destruct rb, rs; cbn [loc_of_shr_record round_nearest_even]; try destruct (Z.even q0); split_and!; lia. }
  destruct q as [|qp|] eqn:Eq; [lia| |lia]. exists (Zpos qp).
  destruct (decide (Zpos qp = 2 ^ 53)) as [H53|H53].
  - exists 4503599627370496%positive, (e + Zpos kp + 1).
    split_and!; try lia. { replace (e + Z.pos kp + 1 - (e + Z.pos kp)) with 1 by lia. lia. }
    assert (qp = 9007199254740992%positive) as -> by lia.
    unfold shr_fexp. cbn [shr_record_of_loc Zdigits2]. change (Zpos (digits2_pos 9007199254740992)) with 54.
    rewrite fexp_normal by lia. replace (54 + (e + Zpos kp) - 53 - (e + Zpos kp)) with 1 by lia.
    cbn [shr SpecFloat.iter_pos shr_1 shr_m]. unfold emax, prec. by rewrite (proj2 (Z.leb_le _ _)) by lia.
  - exists qp, (e + Zpos kp). assert (Zpos (digits2_pos qp) = 53) as Hdq by (apply digits_unique; lia).
    split_and!; try lia. { rewrite Z.sub_diag. lia. }
    rewrite shr_fexp_fits by lia. cbn [shr_m]. unfold emax, prec. by rewrite (proj2 (Z.leb_le _ _)) by lia.
Qed.

(** ** Exact results *)

(** [f] is the integer [n], with an exponent from [lo] to 0. *)
Definition is_int (lo : Z) (f : spec_float) (n : Z) : Prop :=
  exists m e, f = S754_finite false m e /\ lo <= e <= 0 /\ Zpos m = n * 2 ^ (- e).

Lemma pow_split a b : 0 <= a -> 0 <= b -> 2 ^ (a + b) = 2 ^ a * 2 ^ b.
Proof. intros. by rewrite Z.pow_add_r by lia. Qed.

Lemma digits_scaled p n j :
  0 < n -> 0 <= j -> Zpos p = n * 2 ^ j -> Zpos (digits2_pos p) = Zpos (digits2_pos (Z.to_pos n)) + j.
Proof.
  intros Hn Hj Hp. pose proof (digits_bounds (Z.to_pos n)) as Hb. rewrite Z2Pos.id in Hb by lia.
  set (d := Zpos (digits2_pos (Z.to_pos n))) in *. assert (0 < d) by (unfold d; lia).
  assert (0 < 2 ^ j) by (apply Z.pow_pos_nonneg; lia).
  apply digits_unique; [lia|]. rewrite Hp. replace (d + j - 1) with (d - 1 + j) by lia.
  rewrite !pow_split by lia. nia.
Qed.

Lemma digits_at_most n d : 0 < n < 2 ^ d -> Zpos (digits2_pos (Z.to_pos n)) <= d.
Proof.
  intros Hn. pose proof (digits_bounds (Z.to_pos n)) as Hb. rewrite Z2Pos.id in Hb by lia.
  assert (Zpos (digits2_pos (Z.to_pos n)) - 1 < d); [|lia]. apply (Z.pow_lt_mono_r_iff 2); [lia| |lia].
  destruct (Z_lt_le_dec d 0); [rewrite Z.pow_neg_r in Hn by lia; lia|lia].
Qed.

Lemma round_exact p n e :
  0 < n < 2 ^ 53 -> -200 <= e <= 0 -> Zpos p = n * 2 ^ (- e) ->
  is_int e (binary_round_aux prec emax false (Zpos p) e loc_Exact) n.
Proof.
  intros Hn He Hp. pose proof (digits_at_most n 53 Hn) as Hdn.
  pose proof (digits_scaled p n (- e) ltac:(lia) ltac:(lia) Hp) as Hd.
  destruct (Z_lt_le_dec (Zpos (digits2_pos p)) 53) as [Hle|Hgt].
  - rewrite round_fits by lia. exists p, e. split; [done|]. split; [lia|done].
  - set (k := Zpos (digits2_pos p) - 53). assert (0 <= k <= - e) as Hk by (unfold k; lia).
    destruct (round_cuts p e k) as (q & m & e' & _ & _ & Hex & _ & Hm & E); [lia|unfold k; lia|lia|].
    assert (Zpos p = n * 2 ^ (- e - k) * 2 ^ k) as Hpk
      by (rewrite Hp, <- Z.mul_assoc, <- pow_split by lia; do 2 f_equal; lia).
    assert (0 < 2 ^ k) by (apply Z.pow_pos_nonneg; lia).
    destruct Hex as [Hq ->]; [rewrite Hpk; apply Z.mod_mul; lia|].
    rewrite E. exists m, (e + k). split; [done|]. split; [lia|].
    rewrite Z.sub_diag, Z.pow_0_r, Z.mul_1_r in Hm. rewrite Hm, Hq, Hpk, Z.div_mul by lia. do 2 f_equal. lia.
Qed.

Lemma iter_xO p j : Zpos (Pos.iter xO p j) = Zpos p * 2 ^ Zpos j.
Proof.
  revert p. induction j as [|j IH] using Pos.peano_ind; intros p; [cbn; lia|].
  rewrite Pos.iter_succ, Pos2Z.inj_succ, Z.pow_succ_r by lia.
  rewrite Pos2Z.inj_xO, IH. lia.
Qed.

Lemma normalize_exact n e :
  0 < n < 2 ^ 53 -> -200 <= e <= 0 ->
  is_int (Z.min e (-52)) (binary_normalize prec emax (n * 2 ^ (- e)) e false) n.
Proof.
  intros Hn He. assert (0 < 2 ^ (- e)) by (apply Z.pow_pos_nonneg; lia).
  destruct (n * 2 ^ (- e)) as [|p|] eqn:Ep; [nia| |nia]. cbn [binary_normalize]. unfold binary_round.
  pose proof (digits_at_most n 53 Hn) as Hdn.
  pose proof (digits_scaled p n (- e) ltac:(lia) ltac:(lia) (eq_sym Ep)) as Hd.
  rewrite fexp_normal by lia. unfold shl_align.
  destruct (Zpos (digits2_pos p) + e - 53 - e) as [|j|j] eqn:Ej;
    try (destruct (round_exact p n e) as (m & e1 & E1 & He1 & Hm1); [done|done|done|];
         exists m, e1; split; [done|]; split; [lia|done]).
  assert (Zpos (Pos.iter xO p j) = n * 2 ^ (- (Zpos (digits2_pos p) + e - 53))) as Hit.
  { rewrite iter_xO, <- Ep, <- Z.mul_assoc, <- pow_split by lia. do 2 f_equal. lia. }
  destruct (round_exact _ n (Zpos (digits2_pos p) + e - 53) Hn ltac:(lia) Hit) as (m & e1 & E1 & He1 & Hm1).
  exists m, e1. split; [exact E1|]. split; [lia|done].
Qed.

Lemma double_of_int n : 0 < n < 2 ^ 53 -> is_int (-52) (double_of n) n.
Proof.
  intros Hn. pose proof (normalize_exact n 0 Hn ltac:(lia)) as H.
  rewrite Z.pow_0_r, Z.mul_1_r in H. exact H.
Qed.

Lemma shl_align_int n m e ez :
  Zpos m = n * 2 ^ (- e) -> ez <= e -> e <= 0 -> Zpos (fst (shl_align m e ez)) = n * 2 ^ (- ez).
Proof.
  intros Hm Hez He. unfold shl_align. destruct (ez - e) as [|j|j] eqn:Ej; cbn [fst].
  - by replace ez with e by lia.
  - lia.
  - rewrite iter_xO, Hm, <- Z.mul_assoc, <- pow_split by lia. do 2 f_equal. lia.
Qed.

Lemma long_of_int lo f n : is_int lo f n -> 0 <= n < 2 ^ 53 -> long_of f = Ok n.
Proof.
  intros (m & e & -> & He & Hm) Hn. unfold long_of. rewrite Hm.
  assert ((if 0 <=? e then n * 2 ^ (- e) * 2 ^ e else n * 2 ^ (- e) / 2 ^ (- e)) = n) as ->.
  { destruct (Z.leb_spec 0 e); [replace e with 0 by lia; lia|]. apply Z.div_mul, Z.pow_nonzero; lia. }
  by rewrite (proj2 (Z.leb_le _ _)), (proj2 (Z.ltb_lt _ _)) by lia.
Qed.

(** The difference and the product of integers that 53 digits can hold. *)
Lemma sub_int lo f g a b :
  -200 <= lo -> is_int lo f a -> is_int lo g b -> 0 < b <= a -> a < 2 ^ 53 ->
  long_of (SFsub prec emax f g) = Ok (a - b).
Proof.
  intros Hlo (m & e & -> & He & Hm) (m' & e' & -> & He' & Hm') Hab Ha. cbn [SFsub cond_Zopp].
  rewrite (shl_align_int a), (shl_align_int b) by (done || lia). rewrite <- Z.mul_sub_distr_r.
  destruct (decide (a - b = 0)) as [->|Hne]; [done|].
  eapply long_of_int; [apply normalize_exact; lia|lia].
Qed.

Lemma mul_int lo f g a b :
  -100 <= lo -> is_int lo f a -> is_int lo g b -> 0 < a -> 0 < b -> a * b < 2 ^ 53 ->
  is_int (2 * lo) (SFmul prec emax f g) (a * b).
Proof.
  intros Hlo (m & e & -> & He & Hm) (m' & e' & -> & He' & Hm') Ha Hb Hab. cbn [SFmul xorb].
  assert (Zpos (m * m') = a * b * 2 ^ (- (e + e'))) as Hp.
  { rewrite Pos2Z.inj_mul, Hm, Hm'. replace (- (e + e')) with (- e + - e') by lia. rewrite pow_split by lia. lia. }
  destruct (round_exact _ (a * b) (e + e') ltac:(nia) ltac:(lia) Hp) as (m1 & e1 & E1 & He1 & Hm1).
  exists m1, e1. split; [exact E1|]. split; [lia|done].
Qed.

(** ** Nanoseconds to seconds *)

(** The literal 1e-9 is a little more than that. *)
Lemma nano_unit_error : 4835703278458517 * 1000000000 = 2 ^ 82 + 301175296.
Proof. done. Qed.

Lemma trunc_scaled m e ex : ex < 0 -> ex <= e ->
  (if 0 <=? e then m * 2 ^ e else m / 2 ^ (- e)) = m * 2 ^ (e - ex) / 2 ^ (- ex).
Proof.
  intros Hex He. assert (0 < 2 ^ (- ex)) by (apply Z.pow_pos_nonneg; lia).
  destruct (Z.leb_spec 0 e).
  - replace (e - ex) with (e + - ex) by lia. rewrite pow_split, Z.mul_assoc, Z.div_mul by lia. done.
  - assert (0 < 2 ^ (e - ex)) by (apply Z.pow_pos_nonneg; lia).
    replace (- ex) with (- e + (e - ex)) by lia. rewrite pow_split, Z.div_mul_cancel_r by lia. done.
Qed.

Definition safe_nano : Z := 2 ^ 23 * 1000000000.

(** The rounded product lies in the second its exact value is in. *)
Lemma product_second n m e q k P :
  0 < n < safe_nano -> e <= 0 -> 0 <= k <= 52 - e -> m = n * 2 ^ (- e) -> P = m * 4835703278458517 ->
  P / 2 ^ k <= q -> 2 * q * 2 ^ k <= 2 * P + 2 ^ k ->
  q * 2 ^ k / 2 ^ (82 - e) = n / 1000000000.
Proof.
  intros Hn He Hk -> HP Hlo Hhi. unfold safe_nano in Hn. set (K := n / 1000000000). set (T := 2 ^ (- e)) in *.
  assert (0 < T) as HT by (apply Z.pow_pos_nonneg; lia).
  assert (2 ^ (82 - e) = 2 ^ 82 * T) as HD by (unfold T; rewrite <- pow_split by lia; f_equal; lia).
  assert (2 ^ k <= 2 ^ 52 * T) as Hkb.
  { unfold T. rewrite <- pow_split by lia. apply Z.pow_le_mono_r; lia. }
  assert (0 < 2 ^ k) as Hk0 by (apply Z.pow_pos_nonneg; lia).
  assert (K * 1000000000 <= n < (K + 1) * 1000000000) as HK
    by (unfold K; pose proof (Z.div_mod n 1000000000); pose proof (Z.mod_pos_bound n 1000000000); lia).
  assert (P * 1000000000 = n * T * 2 ^ 82 + n * T * 301175296) as HP9.
  { rewrite HP, <- Z.mul_assoc, nano_unit_error. lia. }
  assert (K * 2 ^ (82 - e) <= q * 2 ^ k) as Hlow.
  { assert (2 ^ (82 - e) = 2 ^ (82 - e - k) * 2 ^ k) as Hsp by (rewrite <- pow_split by lia; f_equal; lia).
    rewrite Hsp, Z.mul_assoc. apply Z.mul_le_mono_nonneg_r; [lia|]. etrans; [|exact Hlo].
    apply Z.div_le_lower_bound; [lia|].
    replace (2 ^ k * (K * 2 ^ (82 - e - k))) with (K * (2 ^ (82 - e - k) * 2 ^ k)) by lia. rewrite <- Hsp, HD. nia. }
  assert (q * 2 ^ k < (K + 1) * 2 ^ (82 - e)) as Hhigh.
  { rewrite HD. assert ((n + 1) * T <= (K + 1) * 1000000000 * T) as H1 by (apply Z.mul_le_mono_nonneg_r; lia).
    assert (n * T * 301175296 * 2 + 1000000000 * (2 ^ 52 * T) < 2 * (2 ^ 82 * T)) as H2 by nia. nia. }
  symmetry. apply (Z.div_unique_pos _ _ _ (q * 2 ^ k - K * 2 ^ (82 - e))); lia.
Qed.

Lemma seconds_of_nano n :
  0 < n < safe_nano -> long_of (SFmul prec emax (double_of n) nano_unit) = Ok (n / 1000000000).
Proof.
  intros Hn. destruct (double_of_int n) as (m & e & -> & He & Hm); [unfold safe_nano in Hn; lia|].
  unfold nano_unit. cbn [SFmul xorb]. set (p := (m * 4835703278458517)%positive).
  assert (Zpos p = Zpos m * 4835703278458517) as Hp by (unfold p; lia).
  assert (0 < 2 ^ (- e)) as HT by (apply Z.pow_pos_nonneg; lia).
  assert (Zpos p < 2 ^ (105 - e)) as Hpb.
  { rewrite Hp, Hm. replace (105 - e) with (105 + - e) by lia. rewrite pow_split by lia. unfold safe_nano in Hn. nia. }
  pose proof (digits_bounds p) as Hb. set (d := Zpos (digits2_pos p)) in *.
  assert (53 <= d) as Hd1.
  { assert (52 < d); [|lia]. apply (Z.pow_lt_mono_r_iff 2); lia. }
  assert (d <= 105 - e) as Hd2.
  { assert (d - 1 < 105 - e); [|lia]. apply (Z.pow_lt_mono_r_iff 2); lia. }
  destruct (round_cuts p (e + -82) (d - 53)) as (q & m' & e' & Hq1 & Hq2 & _ & He' & Hm' & E); [lia|unfold d; lia|lia|].
  rewrite E. unfold long_of. rewrite (trunc_scaled (Zpos m') e' (e + -82)) by lia.
  replace (e' - (e + -82)) with (e' - (e + -82 + (d - 53)) + (d - 53)) by lia.
  rewrite pow_split, Z.mul_assoc, Hm' by lia. replace (- (e + -82)) with (82 - e) by lia.
  rewrite (product_second n (Zpos m) e q (d - 53) (Zpos p)) by (done || lia).
  assert (0 <= n / 1000000000 < 2 ^ 23) as Hs.
  { unfold safe_nano in Hn. split; [apply Z.div_pos; lia|apply Z.div_lt_upper_bound; lia]. }
  by rewrite (proj2 (Z.leb_le _ _)), (proj2 (Z.ltb_lt _ _)) by lia.
Qed.

Lemma split_nano_exact n :
  0 <= n < safe_nano -> split_nano n = Ok (Timespec (n / 1000000000) (n mod 1000000000)).
Proof.
  intros Hn. destruct (decide (n = 0)) as [->|Hn0]; [done|].
  assert (n < 2 ^ 53) as H53 by (unfold safe_nano in Hn; lia).
  unfold split_nano. rewrite seconds_of_nano by lia. cbn [mbind outcome_bind].
  pose proof (Z.div_mod n 1000000000 ltac:(lia)) as Hdm. pose proof (Z.mod_pos_bound n 1000000000 ltac:(lia)) as Hmb.
  set (K := n / 1000000000) in *. pose proof (double_of_int n ltac:(lia)) as Hdn.
  assert (long_of (SFsub prec emax (double_of n) (SFmul prec emax (double_of K) nine_zeros)) = Ok (n mod 1000000000)) as ->;
    [|done].
  assert (0 <= K) as HK by (apply Z.div_pos; lia). destruct (decide (K = 0)) as [->|HK0].
  - replace (n mod 1000000000) with n by lia. destruct Hdn as (m & e & Ed & He & Hm). rewrite Ed.
    change (long_of (S754_finite false m e) = Ok n). rewrite <- Ed. apply (long_of_int (-52)); [|lia].
    exists m, e. done.
  - replace (n mod 1000000000) with (n - K * 1000000000) by lia.
    apply (sub_int (-104)); [lia| | |lia|lia].
    + destruct Hdn as (m & e & Ed & He & Hm). exists m, e. split; [done|]. split; [lia|done].
    + apply (mul_int (-52)); [lia|apply double_of_int; lia| |lia|lia|lia].
      unfold nine_zeros. apply double_of_int. lia.
Qed.

(** C37. What clock_gettime stores. The wall clocks give the time Mach gives, or
    fail with EINVAL and leave the argument alone. The CPU clocks convert the
    nanoseconds between two readings of the tick counter: as long as these are
    fewer than 2^23 seconds the double arithmetic is exact, seconds and
    nanoseconds are quotient and remainder, and the result is a valid timespec;
    one second less a nanosecond later it is not: the seconds are rounded up and
    the nanoseconds are -1. *)
Theorem clock_gettime_spec host_get_clock_service clock_get_time mach_timebase_info start finish inf tp :
  let run := clock_gettime host_get_clock_service clock_get_time mach_timebase_info in
  (forall clk id, (clk, id) ∈ [(CLOCK_REALTIME, CALENDAR_CLOCK); (CLOCK_MONOTONIC, SYSTEM_CLOCK)] ->
     run clk start finish inf tp = Ok (
       if ((host_get_clock_service id).1 =? KERN_SUCCESS) &&
          ((clock_get_time (host_get_clock_service id).2).1 =? KERN_SUCCESS)
       then ClockResult 0 None (clock_get_time (host_get_clock_service id).2).2 inf
       else ClockResult (-1) (Some EINVAL) tp inf)) /\
  (forall clk, clk ∈ [CLOCK_PROCESS_CPUTIME_ID; CLOCK_THREAD_CPUTIME_ID] ->
     let base := if 0 =? denom inf then mach_timebase_info else inf in
     let nano := u64 (u64 (finish - start) * numer base) / denom base in
     0 < denom base -> nano < safe_nano ->
     run clk start finish inf tp =
       Ok (ClockResult 0 None (Timespec (nano / 1000000000) (nano mod 1000000000)) base) /\
     valid (Timespec (nano / 1000000000) (nano mod 1000000000))) /\
  split_nano (safe_nano + 999999999) = Ok (Timespec (2 ^ 23 + 1) (-1)).
Proof.
  intros run. unfold run, clock_gettime. split; [|split; [|by vm_compute]].
  - intros clk id Hin. assert (clock_wall host_get_clock_service clock_get_time clk inf tp =
      let '(ret, c) := host_get_clock_service id in
      let '(ret, retval, tp) := if ret =? KERN_SUCCESS then
          let '(ret, tm) := clock_get_time c in if ret =? KERN_SUCCESS then (ret, 0, tm) else (ret, -1, tp)
        else (ret, -1, tp) in
      if negb (ret =? KERN_SUCCESS) then ClockResult (-1) (Some EINVAL) tp inf else ClockResult retval None tp inf) as E.
    { rewrite !elem_of_cons, elem_of_nil in Hin. destruct Hin as [[= -> ->]|[[= -> ->]|[]]]; reflexivity. }
    assert (clk = CLOCK_REALTIME \/ clk = CLOCK_MONOTONIC) as Hclk
      by (rewrite !elem_of_cons, elem_of_nil in Hin; naive_solver).
    assert (forall x : outcome clock_result, match clk with CLOCK_REALTIME | CLOCK_MONOTONIC =>
      Ok (clock_wall host_get_clock_service clock_get_time clk inf tp) | _ => x end =
      Ok (clock_wall host_get_clock_service clock_get_time clk inf tp)) as -> by (by destruct Hclk as [-> | ->]).
    rewrite E. f_equal. destruct (host_get_clock_service id) as [r1 c]. cbn [fst snd].
    destruct (r1 =? KERN_SUCCESS) eqn:E1; cbn [andb]; [|by rewrite E1].
    destruct (clock_get_time c) as [r2 tm]. cbn [fst snd]. by destruct (r2 =? KERN_SUCCESS) eqn:E2; rewrite E2.
  - intros clk Hin. set (base := if 0 =? denom inf then mach_timebase_info else inf).
    set (nano := u64 (u64 (finish - start) * numer base) / denom base). intros Hden Hn.
    assert (0 <= nano) as Hn0 by (apply Z.div_pos; [apply u64_range|lia]).
    split; [|unfold valid; cbn; apply Z.mod_pos_bound; lia].
    assert (clock_cpu mach_timebase_info start finish inf =
      Ok (ClockResult 0 None (Timespec (nano / 1000000000) (nano mod 1000000000)) base)) as <-.
    { unfold clock_cpu. fold base. rewrite (proj2 (Z.eqb_neq _ _)) by lia. fold nano.
      by rewrite (split_nano_exact nano) by lia. }
    rewrite !elem_of_cons, elem_of_nil in Hin. by destruct Hin as [-> | [-> | []]].
Qed.

(** Ticks of a nanosecond each; 2.5 seconds between the readings. *)
Lemma clock_gettime_spec_witness :
  clock_gettime (fun _ => (0, 1)) (fun _ => (0, Timespec 5 6)) (Timebase 1 1) CLOCK_THREAD_CPUTIME_ID
    100 2500000100 (Timebase 0 0) (Timespec 0 0) = Ok (ClockResult 0 None (Timespec 2 500000000) (Timebase 1 1)) /\
  clock_gettime (fun _ => (0, 1)) (fun _ => (0, Timespec 5 6)) (Timebase 1 1) CLOCK_REALTIME
    0 0 (Timebase 0 0) (Timespec 0 0) = Ok (ClockResult 0 None (Timespec 5 6) (Timebase 0 0)).
Proof.
  pose proof (clock_gettime_spec (fun _ => (0, 1)) (fun _ => (0, Timespec 5 6)) (Timebase 1 1)
    100 2500000100 (Timebase 0 0) (Timespec 0 0)) as (_ & Hcpu & _).
  pose proof (clock_gettime_spec (fun _ => (0, 1)) (fun _ => (0, Timespec 5 6)) (Timebase 1 1)
    0 0 (Timebase 0 0) (Timespec 0 0)) as (Hwall & _ & _).
  split.
  - destruct (Hcpu CLOCK_THREAD_CPUTIME_ID) as [E _]; [right; left|done|by vm_compute|exact E].
  - exact (Hwall CLOCK_REALTIME CALENDAR_CLOCK ltac:(left)).
Defined.
