(* ===== verification/Connection.v ===== *)
(** * Connections: rpc/connection.h and rpc/connection.cc

    A [connection] frames messages over a non-blocking socket: [send] writes a
    message with its length in the first four bytes, [read_cb] puts one back
    together from whatever pieces the kernel returns and hands it to the
    channel manager. It is reference counted. [tcpsconn] keeps the server's
    connections and collects dead ones when a new one is accepted.

    Results of read(2) and write(2) are arguments of the operations; each
    operation that can block is split at its [pthread_cond_wait]s. *)

From S2P Require Import Prelude Marshall.
Local Open Scope Z_scope.

Definition MAX_PDU : Z := Z.shiftl 10 20.

Record charbuf := Charbuf { cb_buf : option bytes; cb_sz : Z; cb_solong : Z }.
Definition charbuf_empty : charbuf := Charbuf None 0 0.

Record connection := Connection {
  c_fd : Z; c_dead : bool; c_wpdu : charbuf; c_rpdu : charbuf;
  c_waiters : Z; c_refno : Z; c_lossy : Z }.

Definition connection_new (fd lossy : Z) : connection :=
  Connection fd false charbuf_empty charbuf_empty 0 1 lossy.

Definition set_dead (c : connection) (d : bool) : connection :=
  Connection (c_fd c) d (c_wpdu c) (c_rpdu c) (c_waiters c) (c_refno c) (c_lossy c).
Definition set_wpdu (c : connection) (w : charbuf) : connection :=
  Connection (c_fd c) (c_dead c) w (c_rpdu c) (c_waiters c) (c_refno c) (c_lossy c).
Definition set_rpdu (c : connection) (r : charbuf) : connection :=
  Connection (c_fd c) (c_dead c) (c_wpdu c) r (c_waiters c) (c_refno c) (c_lossy c).
Definition set_waiters (c : connection) (n : Z) : connection :=
  Connection (c_fd c) (c_dead c) (c_wpdu c) (c_rpdu c) n (c_refno c) (c_lossy c).
Definition set_refno (c : connection) (n : Z) : connection :=
  Connection (c_fd c) (c_dead c) (c_wpdu c) (c_rpdu c) (c_waiters c) n (c_lossy c).

(** ** Reference counting *)
Definition incref (c : connection) : connection := set_refno c (c_refno c + 1).
Definition ref (c : connection) : Z := c_refno c.
Definition isdead (c : connection) : bool := c_dead c.

(** The destructor's assertions. *)
Definition connection_delete (c : connection) : outcome unit :=
  _ ← cassert (c_dead c);
  cassert (match cb_buf (c_wpdu c) with None => true | Some _ => false end).

(** [None] when the object has been deleted. *)
Definition decref (c : connection) : outcome (option connection) :=
  let c := set_refno c (c_refno c - 1) in
  _ ← cassert (0 <=? c_refno c);
  if c_refno c =? 0 then
    if c_dead c then _ ← connection_delete c; Ok None else Ok (Some c)
  else Ok (Some c).

(** [closeconn]; the flag says whether [block_remove_fd] is then called. *)
Definition closeconn (c : connection) : connection * bool :=
  if negb (c_dead c) then (set_dead c true, true) else (c, false).

(** ** Reading *)

(** read(2): some bytes, end of file (leaving [errno] as it was), or an error. *)
Inductive rdres := RdBytes (bs : bytes) | RdEof (errno_eagain : bool) | RdErr (eagain : bool).

(** [ntohl] of four bytes in memory order, as an [int]. *)
Definition ntohl_int (bs : bytes) : Z :=
  match bs with
  | [a; b; c; d] => i32 (a * 2 ^ 24 + b * 2 ^ 16 + c * 2 ^ 8 + d)
  | _ => 0
  end.

Section Reading.
Context `{Memory}.

(** The size field: read it, allocate and store it. *)
Definition readpdu_size (r : charbuf) (r1 : rdres) : outcome (charbuf * bool) :=
  match r1 with
  | RdEof _ => Ok (r, false)
  | RdErr eagain => _ ← cassert (negb eagain); Ok (r, false)
  | RdBytes sz1 =>
      if negb (zlen sz1 =? 4) then Ok (r, false)
      else
        let sz := ntohl_int sz1 in
        if MAX_PDU <? sz then Ok (r, false)
        else
          _ ← cassert (match cb_buf r with None => true | Some _ => false end);
          (* malloc(sz + sizeof(sz)): size_t arithmetic, refused past PTRDIFF_MAX *)
          let n := u64 (sz + 4) in
          _ ← cassert (n <? 2 ^ 63);
          b ← memcpy (malloc n) 0 sz1 4;
          Ok (Charbuf (Some b) sz 4, true)
  end.

Definition readpdu (r : charbuf) (r1 r2 : rdres) : outcome (charbuf * bool) :=
  '(r, ok) ← (if cb_sz r =? 0 then readpdu_size r r1 else Ok (r, true));
  if negb ok then Ok (r, false)
  else
    let drop_pdu := Ok (charbuf_empty, false) in
    match r2 with
    | RdBytes bs =>
        match cb_buf r with
        | None => Crash NullDereference
        | Some b =>
            b ← memcpy b (cb_solong r) bs (zlen bs);
            Ok (Charbuf (Some b) (cb_sz r) (cb_solong r + zlen bs), true)
        end
    | RdEof eagain | RdErr eagain =>
        if eagain then Ok (r, true) else drop_pdu
    end.

(** What one call of [read_cb] does besides changing the connection. *)
Record read_effect := ReadEffect {
  re_conn : connection;
  re_pdu : option (bytes * Z);     (** offered to [mgr_->got_pdu] *)
  re_unwatch : bool;               (** [del_callback(fd_, CB_RDWR)] *)
  re_signal : bool }.              (** [send_complete_] signalled *)

(** [accept] is what [got_pdu] returns. *)
Definition read_cb (c : connection) (s : Z) (r1 r2 : rdres) (accept : bool)
    : outcome read_effect :=
  _ ← cassert (c_fd c =? s);
  if c_dead c then Ok (ReadEffect c None false false)
  else
    let unfinished := match cb_buf (c_rpdu c) with None => true | Some _ => false end
                      || (cb_solong (c_rpdu c) <? cb_sz (c_rpdu c)) in
    '(r, succ) ← (if unfinished then readpdu (c_rpdu c) r1 r2 else Ok (c_rpdu c, true));
    let c := set_rpdu c r in
    let c := if succ : bool then c else set_dead c true in
    match cb_buf r with
    | Some b =>
        if cb_sz r =? cb_solong r then
          Ok (ReadEffect (if accept then set_rpdu c charbuf_empty else c)
                (Some (b, cb_sz r)) (negb succ) (negb succ))
        else Ok (ReadEffect c None (negb succ) (negb succ))
    | None => Ok (ReadEffect c None (negb succ) (negb succ))
    end.
End Reading.

(** ** Writing *)

(** write(2): how many bytes were taken, or an error. *)
Inductive wrres := WrBytes (n : Z) | WrErr (eagain : bool).

(** The new write buffer, the result and the bytes handed to the kernel. *)
Definition writepdu (w : charbuf) (wr : wrres) : outcome (charbuf * bool * bytes) :=
  _ ← cassert (0 <=? cb_solong w);
  if cb_solong w =? cb_sz w then Ok (w, true, [])
  else
    match cb_buf w with
    | None => Crash NullDereference
    | Some b =>
        b ← (if cb_solong w =? 0 then memcpy b 0 (be32 (cb_sz w)) 4 else Ok b);
        match wr with
        | WrErr eagain =>
            if eagain then Ok (Charbuf (Some b) (cb_sz w) (cb_solong w), true, [])
            else Ok (Charbuf (Some b) 0 (-1), false, [])
        | WrBytes n =>
            out ← slice b (cb_solong w) n;
            Ok (Charbuf (Some b) (cb_sz w) (cb_solong w + n), true, out)
        end
    end.

(** [send] up to its first wait: announce the waiter. *)
Definition send_enter (c : connection) : connection := set_waiters c (c_waiters c + 1).
(** The condition [send] waits for on [send_wait_]. *)
Definition send_may_proceed (c : connection) : bool :=
  c_dead c || match cb_buf (c_wpdu c) with None => true | Some _ => false end.

(** Where [send] is after it got past [send_wait_]. *)
Inductive send_state :=
  | SendFailed            (** returned false: the connection was dead *)
  | SendRemoving          (** write failed: in [block_remove_fd] *)
  | SendWaiting           (** partly written: waiting on [send_complete_] *)
  | SendWritten           (** everything written at once *).

Definition send_start (c : connection) (b : bytes) (sz : Z) (wr : wrres)
    : outcome (connection * send_state * bytes) :=
  let c := set_waiters c (c_waiters c - 1) in
  if c_dead c then Ok (c, SendFailed, [])
  else
    '(w, ok, out) ← writepdu (Charbuf (Some b) sz 0) wr;
    let c := set_wpdu c w in
    if negb ok then Ok (set_dead c true, SendRemoving, out)
    else if cb_solong w =? cb_sz w then Ok (c, SendWritten, out)
    else Ok (c, SendWaiting, out).

(** The condition [send] leaves its wait on [send_complete_] for. *)
Definition send_done_waiting (c : connection) : bool :=
  negb (negb (c_dead c) && (0 <=? cb_solong (c_wpdu c))
        && (cb_solong (c_wpdu c) <? cb_sz (c_wpdu c))).

(** The end of [send]: its result, and whether [send_wait_] is broadcast. *)
Definition send_finish (c : connection) : connection * bool * bool :=
  let ret := negb (c_dead c) && (cb_solong (c_wpdu c) =? cb_sz (c_wpdu c)) in
  (set_wpdu c charbuf_empty, ret, 0 <? c_waiters c).

(** What one call of [write_cb] does besides changing the connection. *)
Inductive unwatch := UnwatchNone | UnwatchWr | UnwatchRdWr.
Record write_effect := WriteEffect {
  we_conn : connection; we_out : bytes; we_unwatch : unwatch; we_signal : bool }.

Definition write_cb (c : connection) (s : Z) (wr : wrres) : outcome write_effect :=
  _ ← cassert (negb (c_dead c));
  _ ← cassert (c_fd c =? s);
  if cb_sz (c_wpdu c) =? 0 then Ok (WriteEffect c [] UnwatchWr false)
  else
    '(w, ok, out) ← writepdu (c_wpdu c) wr;
    let c := set_wpdu c w in
    if negb ok then Ok (WriteEffect (set_dead c true) out UnwatchRdWr true)
    else
      _ ← cassert (0 <=? cb_solong w);
      if cb_solong w <? cb_sz w then Ok (WriteEffect c out UnwatchNone false)
      else Ok (WriteEffect c out UnwatchNone true).

(** ** The server's connections *)

(** [tcpsconn::process_accept], collecting every dead connection nobody else
    references. [conns_.erase(i)] invalidates [i], which the loop then
    increments. *)
Fixpoint gc_loop (conns : list (Z * connection)) : outcome (list (Z * connection)) :=
  match conns with
  | [] => Ok []
  | (fd, c) :: rest =>
      if isdead c && (ref c =? 1) then _ ← decref c; Crash UseAfterFree
      else rest ← gc_loop rest; Ok ((fd, c) :: rest)
  end.

(** [conns_[fd] = ch] on a map kept in key order *)
Fixpoint map_set (conns : list (Z * connection)) (fd : Z) (c : connection)
    : list (Z * connection) :=
  match conns with
  | [] => [(fd, c)]
  | (fd', c') :: rest =>
      if fd =? fd' then (fd, c) :: rest
      else if fd <? fd' then (fd, c) :: conns
      else (fd', c') :: map_set rest fd c
  end.

Definition process_accept (conns : list (Z * connection)) (s1 lossy : Z)
    : outcome (list (Z * connection)) :=
  let ch := connection_new s1 lossy in
  conns ← gc_loop conns;
  Ok (map_set conns (c_fd ch) ch).

(** ** Properties of reading *)

(** The read buffer: idle, or a message of [sz] bytes of which [solong] have
    arrived, in an allocation four bytes longer. *)
Definition rpdu_ok (r : charbuf) : Prop :=
  r = charbuf_empty \/
  exists b, cb_buf r = Some b /\ 4 <= cb_sz r <= MAX_PDU /\
    zlen b = cb_sz r + 4 /\ 4 <= cb_solong r <= cb_sz r.

(** The kernel returns at least one byte and no more than was asked for; the
    count [sz - solong] is converted to [size_t]. *)
Definition read_fits (sz solong : Z) (r : rdres) : Prop :=
  match r with RdBytes bs => 0 < zlen bs <= u64 (sz - solong) | _ => True end.

Lemma MAX_PDU_val : MAX_PDU = 10485760.
Proof. done. Qed.

Section ReadingProofs.
Context `{Memory}.

Lemma memcpy_inv b i p n b' :
  memcpy b i p n = Ok b' ->
  0 <= n /\ 0 <= i /\ i + n <= zlen b /\ n <= zlen p /\
  b' = take (Z.to_nat i) b ++ take (Z.to_nat n) p ++ drop (Z.to_nat (i + n)) b.
Proof. unfold memcpy. case_decide; intros; simplify_eq. naive_solver. Qed.

(** Reading the size field of a message of legal length. *)
Lemma readpdu_size_ok sz1 :
  zlen sz1 = 4 -> 4 <= ntohl_int sz1 <= MAX_PDU ->
  exists b, readpdu_size charbuf_empty (RdBytes sz1)
      = Ok (Charbuf (Some b) (ntohl_int sz1) 4, true) /\
    zlen b = ntohl_int sz1 + 4 /\ take 4 b = sz1.
Proof.
  intros Hl Hs. rewrite MAX_PDU_val in *. unfold readpdu_size. rewrite Hl. simpl.
  rewrite (proj2 (Z.ltb_ge _ _)) by (rewrite MAX_PDU_val; lia). simpl.
  rewrite u64_small by (unfold is_u64; lia). rewrite (proj2 (Z.ltb_lt _ _)) by lia. simpl.
  destruct (memcpy_ok (malloc (ntohl_int sz1 + 4)) 0 sz1) as (b & E & Lb & T);
    [lia|rewrite zlen_malloc; lia|].
  rewrite Hl in E, T. rewrite E. simpl. exists b. split; [done|].
  rewrite Lb, zlen_malloc by lia. done.
Qed.

(** A piece of a message in progress. *)
Lemma readpdu_more r r1 bs b :
  cb_buf r = Some b -> 4 <= cb_sz r -> zlen b = cb_sz r + 4 -> 4 <= cb_solong r ->
  cb_solong r + zlen bs <= cb_sz r ->
  exists b', readpdu r r1 (RdBytes bs)
      = Ok (Charbuf (Some b') (cb_sz r) (cb_solong r + zlen bs), true) /\
    zlen b' = zlen b /\
    take (Z.to_nat (cb_solong r + zlen bs)) b' = take (Z.to_nat (cb_solong r)) b ++ bs.
Proof.
  intros Hb Hs Hl Hg Hf. unfold readpdu. rewrite (proj2 (Z.eqb_neq _ _)) by lia. simpl.
  rewrite Hb. destruct (memcpy_ok b (cb_solong r) bs) as (b' & -> & ? & ?); [lia|lia|].
  simpl. eauto.
Qed.

(** What the kernel and a well-behaved peer may return: no EAGAIN on the first
    read of a socket select(2) reported readable, a size field of at least 4. *)
Definition legal_read (r : charbuf) (r1 r2 : rdres) : Prop :=
  if cb_sz r =? 0 then
    match r1 with
    | RdErr eagain => eagain = false
    | RdEof _ => True
    | RdBytes sz1 =>
        zlen sz1 = 4 -> 4 <= ntohl_int sz1 /\ read_fits (ntohl_int sz1) 4 r2
    end
  else read_fits (cb_sz r) (cb_solong r) r2.

Lemma readpdu_body r r2 b :
  cb_buf r = Some b -> 4 <= cb_sz r <= MAX_PDU -> zlen b = cb_sz r + 4 ->
  4 <= cb_solong r <= cb_sz r -> read_fits (cb_sz r) (cb_solong r) r2 ->
  exists r' ok, readpdu r r2 r2 = Ok (r', ok) /\ rpdu_ok r'.
Proof.
  intros Hb Hs Hl Hg Hf. destruct r2 as [bs|eagain|eagain].
  - simpl in Hf. rewrite u64_small in Hf by (rewrite MAX_PDU_val in *; unfold is_u64; lia).
    destruct (readpdu_more r (RdBytes bs) bs b) as (b' & E & Hl' & _); try done; try lia.
    eexists _, _. split; [exact E|]. right. exists b'. simpl. repeat split; try done; lia.
  - unfold readpdu. rewrite (proj2 (Z.eqb_neq _ _)) by lia. simpl.
    destruct eagain; eexists _, _; split; try done; [right; eauto 10|by left].
  - unfold readpdu. rewrite (proj2 (Z.eqb_neq _ _)) by lia. simpl.
    destruct eagain; eexists _, _; split; try done; [right; eauto 10|by left].
Qed.

(** Only the first read of a message looks at the size field. *)
Lemma readpdu_skip_size r r1 r1' r2 :
  cb_sz r <> 0 -> readpdu r r1 r2 = readpdu r r1' r2.
Proof. intros. unfold readpdu. by rewrite (proj2 (Z.eqb_neq _ _)). Qed.

Lemma readpdu_after_size sz1 r2 r :
  readpdu_size charbuf_empty (RdBytes sz1) = Ok (r, true) -> cb_sz r <> 0 ->
  readpdu charbuf_empty (RdBytes sz1) r2 = readpdu r r2 r2.
Proof.
  intros E Hr. unfold readpdu at 1. rewrite E. cbn -[readpdu_size].
  unfold readpdu. by rewrite (proj2 (Z.eqb_neq _ _)).
Qed.

Lemma readpdu_safe r r1 r2 :
  rpdu_ok r -> legal_read r r1 r2 ->
  exists r' ok, readpdu r r1 r2 = Ok (r', ok) /\ rpdu_ok r'.
Proof.
  intros [->|(b & Hb & Hs & Hl & Hg)] Hlegal; unfold legal_read in Hlegal.
  - simpl in Hlegal. destruct r1 as [sz1|eagain|eagain].
    + destruct (decide (zlen sz1 = 4 /\ ntohl_int sz1 <= MAX_PDU)) as [[Hz Hm]|Hn].
      * destruct (Hlegal Hz) as [H4 Hf].
        destruct (readpdu_size_ok sz1) as (b & E & Hl & _); [done|lia|].
        rewrite (readpdu_after_size _ _ _ E) by (simpl; lia).
        apply (readpdu_body _ _ b); simpl; try done; lia.
      * exists charbuf_empty, false. split; [|by left]. unfold readpdu. simpl.
        destruct (Z.eqb_spec (zlen sz1) 4); simpl; [|done].
        by rewrite (proj2 (Z.ltb_lt _ _)) by (apply Decidable.not_and in Hn;
          [lia|unfold Decidable.decidable; lia]).
    + exists charbuf_empty, false. split; [done|by left].
    + subst. exists charbuf_empty, false. split; [done|by left].
  - rewrite (proj2 (Z.eqb_neq _ _)) in Hlegal by lia.
    rewrite (readpdu_skip_size r r1 r2) by lia. by apply (readpdu_body r r2 b).
Qed.

(** [read_cb] never reads or writes outside the receive buffer, for any
    state of it, any split of the data by the kernel and any size field of at
    least 4: it returns, keeps the buffer well formed, and a message it hands
    to the channel manager is complete and within [MAX_PDU]. *)
Theorem read_cb_safe c r1 r2 accept :
  rpdu_ok (c_rpdu c) -> legal_read (c_rpdu c) r1 r2 ->
  exists e, read_cb c (c_fd c) r1 r2 accept = Ok e /\ rpdu_ok (c_rpdu (re_conn e)) /\
    (forall b sz, re_pdu e = Some (b, sz) -> 4 <= sz <= MAX_PDU /\ zlen b = sz + 4).
Proof.
  intros Hok Hl. unfold read_cb. rewrite Z.eqb_refl. simpl.
  destruct (c_dead c); [by eexists|].
  assert (exists r ok, (if match cb_buf (c_rpdu c) with None => true | Some _ => false end
      || (cb_solong (c_rpdu c) <? cb_sz (c_rpdu c))
     then readpdu (c_rpdu c) r1 r2 else Ok (c_rpdu c, true)) = Ok (r, ok) /\ rpdu_ok r)
    as (r & ok & -> & Hr).
  { case_match; [by apply readpdu_safe|eauto]. }
  simpl. destruct Hr as [->|(b & Hb & Hs & Hlen & Hg)].
  - simpl. eexists. split; [done|]. destruct ok; simpl; (split; [by left|done]).
  - rewrite Hb. destruct (cb_sz r =? cb_solong r) eqn:E; bool_to_prop.
    + eexists. split; [done|]. simpl. split.
      * destruct accept, ok; simpl; try (by left); right; eauto 10.
      * intros ? ? [= <- <-]. lia.
    + eexists. split; [done|]. simpl. split; [|done]. destruct ok; simpl; right; eauto 10.
Qed.
End ReadingProofs.

Lemma read_cb_safe_witness :
  exists e, @read_cb zero_memory (connection_new 5 0) 5 (RdBytes [0; 0; 0; 6]) (RdBytes [1; 2]) true
      = Ok e /\ rpdu_ok (c_rpdu (re_conn e)) /\
    (forall b sz, re_pdu e = Some (b, sz) -> 4 <= sz <= MAX_PDU /\ zlen b = sz + 4).
Proof.
  apply (@read_cb_safe zero_memory (connection_new 5 0)).
  - by left.
  - unfold legal_read. simpl. intros _. vm_compute. repeat split; congruence.
Defined.

(** A size field below 4 defeats the bounds check, which only compares with
    [MAX_PDU]: the rest of the message is requested with a negative count, and
    as soon as the kernel returns more than [sz] bytes (any amount is within
    the request) they are written past the end of the allocation. *)
Theorem readpdu_undersized `{Memory} sz1 bs :
  zlen sz1 = 4 -> 0 <= ntohl_int sz1 < 4 -> ntohl_int sz1 < zlen bs < 2 ^ 31 ->
  read_fits (ntohl_int sz1) 4 (RdBytes bs) /\
  readpdu charbuf_empty (RdBytes sz1) (RdBytes bs) = Crash OutOfBounds.
Proof.
  intros Hl Hs Hb. split; [simpl; word|]. unfold readpdu. simpl. rewrite Hl. simpl.
  rewrite (proj2 (Z.ltb_ge _ _)) by (rewrite MAX_PDU_val; lia). simpl.
  rewrite u64_small by (unfold is_u64; lia). rewrite (proj2 (Z.ltb_lt _ _)) by lia. simpl.
  destruct (memcpy_ok (malloc (ntohl_int sz1 + 4)) 0 sz1) as (b & E & Lb & T);
    [lia|rewrite zlen_malloc; lia|].
  rewrite Hl in E. rewrite E. simpl. rewrite zlen_malloc in Lb by lia.
  unfold memcpy. by rewrite decide_False by lia.
Qed.

(** Eight zero bytes: a size field of 0 and four bytes after it. *)
Lemma readpdu_undersized_witness :
  read_fits 0 4 (RdBytes [0; 0; 0; 0]) /\
  @readpdu zero_memory charbuf_empty (RdBytes [0; 0; 0; 0]) (RdBytes [0; 0; 0; 0])
  = Crash OutOfBounds.
Proof.
  apply (@readpdu_undersized zero_memory [0; 0; 0; 0] [0; 0; 0; 0]); vm_compute;
    try split; congruence.
Defined.

(** ** Reassembly *)

(** The callbacks of a live connection, one per readable event; [got_pdu]
    accepts everything it is offered. *)
Fixpoint run_reads `{Memory} (c : connection) (evs : list (rdres * rdres))
    : outcome (connection * list (bytes * Z)) :=
  match evs with
  | [] => Ok (c, [])
  | (r1, r2) :: evs =>
      e ← read_cb c (c_fd c) r1 r2 true;
      '(c, pdus) ← run_reads (re_conn e) evs;
      Ok (c, match re_pdu e with Some p => p :: pdus | None => pdus end)
  end.

(** A piece the kernel returns; the empty piece stands for EAGAIN. *)
Definition piece (bs : bytes) : rdres :=
  match bs with [] => RdErr true | _ => RdBytes bs end.

(** [msg] carries its own length in its first four bytes. *)
Definition framed (msg : bytes) : Prop :=
  4 < zlen msg <= MAX_PDU /\ take 4 msg = be32 (zlen msg).

Section Reassembly.
Context `{Memory}.

Lemma ntohl_be32 n : is_i32 n -> ntohl_int (be32 n) = n.
Proof. intros Hn. unfold ntohl_int, be32. word. Qed.

(** The connection with [sofar] of [msg] received. *)
Definition receiving (c : connection) (msg sofar : bytes) (c' : connection) : Prop :=
  exists b, c' = set_rpdu c (Charbuf (Some b) (zlen msg) (zlen sofar)) /\
    zlen b = zlen msg + 4 /\ take (length sofar) b = sofar /\ 4 <= zlen sofar.

(** One more piece: either the message is still incomplete, or it is handed
    over and the connection is idle again. *)
Lemma read_cb_piece c c' msg sofar bs r1 :
  c_dead c = false -> c_rpdu c = charbuf_empty -> framed msg ->
  receiving c msg sofar c' -> zlen sofar < zlen msg -> zlen (sofar ++ bs) <= zlen msg ->
  exists e, read_cb c' (c_fd c') r1 (piece bs) true = Ok e /\
    (zlen (sofar ++ bs) < zlen msg ->
       re_pdu e = None /\ receiving c msg (sofar ++ bs) (re_conn e)) /\
    (zlen (sofar ++ bs) = zlen msg ->
       re_conn e = c /\ exists b, re_pdu e = Some (b, zlen msg) /\ holds b (zlen msg) (sofar ++ bs)).
Proof.
  intros Hd Hr [Hm Hfr] (b & -> & Hl & Ht & H4) Hlt Hle. rewrite zlen_app in *.
  pose proof (zlen_nonneg bs).
  assert (exists b', readpdu (Charbuf (Some b) (zlen msg) (zlen sofar)) r1 (piece bs)
      = Ok (Charbuf (Some b') (zlen msg) (zlen (sofar ++ bs)), true) /\
      zlen b' = zlen b /\ take (length (sofar ++ bs)) b' = sofar ++ bs)
    as (b' & E & Hl' & Ht').
  { destruct bs as [|x bs].
    - exists b. rewrite app_nil_r. unfold readpdu. cbn [cb_sz].
      by rewrite (proj2 (Z.eqb_neq _ _)) by lia.
    - destruct (readpdu_more (Charbuf (Some b) (zlen msg) (zlen sofar)) r1 (x :: bs) b)
        as (b' & E & Hl' & Ht'); simpl; try done; try lia.
      simpl in E, Ht'. exists b'. rewrite zlen_app. split; [done|]. split; [done|].
      rewrite length_app. unfold zlen in Ht'. rewrite <- Nat2Z.inj_add, !Nat2Z.id in Ht'.
      rewrite Ht', Ht. done. }
  unfold read_cb. rewrite Z.eqb_refl. simpl. rewrite Hd.
  rewrite (proj2 (Z.ltb_lt (zlen sofar) _)) by lia. rewrite E. simpl. rewrite zlen_app.
  destruct (Z.eqb_spec (zlen msg) (zlen sofar + zlen bs)).
  - eexists. split; [done|]. simpl. split; [lia|]. intros _. split.
    + destruct c; simpl in *. by subst.
    + exists b'. split; [done|]. split; [rewrite zlen_app; lia|].
      rewrite <- Ht' at 1. f_equal. rewrite length_app. unfold zlen in *. lia.
  - eexists. split; [done|]. simpl. split; [|lia]. intros _. split; [done|].
    exists b'. unfold set_rpdu; simpl. rewrite zlen_app. repeat split; try done; lia.
Qed.

Lemma run_reads_rest c msg chunks : 
  c_dead c = false -> c_rpdu c = charbuf_empty -> framed msg ->
  forall sofar c', receiving c msg sofar c' -> zlen sofar < zlen msg ->
    sofar ++ concat chunks = msg ->
    (forall chunks' bs, chunks = chunks' ++ [bs] -> bs <> []) ->
    exists b, run_reads c' (map (fun bs => (RdEof false, piece bs)) chunks)
      = Ok (c, [(b, zlen msg)]) /\ holds b (zlen msg) msg.
Proof.
  intros Hd Hr Hf. induction chunks as [|bs chunks IH]; intros sofar c' Hc Hlt Hm Hlast.
  - simpl in Hm. rewrite app_nil_r in Hm. subst. lia.
  - simpl in Hm. rewrite (assoc_L (++)) in Hm.
    assert (zlen (sofar ++ bs) <= zlen msg) as Hle.
    { rewrite <- Hm. rewrite (zlen_app (sofar ++ bs)).
      pose proof (zlen_nonneg (concat chunks)). lia. }
    destruct (read_cb_piece c c' msg sofar bs (RdEof false)) as (e & E & Hmore & Hdone);
      try done.
    cbn [map run_reads]. rewrite E. simpl.
    destruct (decide (zlen (sofar ++ bs) < zlen msg)) as [Hlt'|Hge].
    + destruct (Hmore Hlt') as [-> Hc']. 
      destruct (IH (sofar ++ bs) (re_conn e) Hc' Hlt' Hm) as (b & -> & Hh).
      { intros ch x ->. apply (Hlast (bs :: ch) x). done. }
      simpl. eauto.
    + destruct (Hdone ltac:(lia)) as [-> (b & -> & Hh)].
      assert (concat chunks = []) as Hnil.
      { apply length_zero_iff_nil. rewrite <- Hm in Hge. rewrite (zlen_app (sofar ++ bs)) in Hge.
        unfold zlen in *. lia. }
      assert (chunks = []) as ->.
      { destruct chunks as [|x ch _] using rev_ind; [done|].
        rewrite concat_app in Hnil. simpl in Hnil. rewrite app_nil_r in Hnil.
        apply app_eq_nil in Hnil as [_ ->]. by destruct (Hlast (bs :: ch) []). }
      simpl. exists b. rewrite Hnil, app_nil_r in Hm. rewrite Hm in Hh. done.
Qed.

Lemma reassembles c msg first chunks :
  c_dead c = false -> c_rpdu c = charbuf_empty -> framed msg -> first ++ concat chunks = drop 4 msg ->
  (forall chunks' bs, first :: chunks = chunks' ++ [bs] -> bs <> []) ->
  exists b, run_reads c ((RdBytes (take 4 msg), piece first)
                          :: map (fun bs => (RdEof false, piece bs)) chunks)
    = Ok (c, [(b, zlen msg)]) /\ holds b (zlen msg) msg.
Proof.
  intros Hd Hr Hf Hm Hlast. pose proof Hf as [Hsz H4].
  assert (is_i32 (zlen msg)) as Hi by (rewrite MAX_PDU_val in *; unfold is_i32; lia).
  destruct (readpdu_size_ok (take 4 msg)) as (b0 & E & Hl & Ht).
  { rewrite H4. done. } { rewrite H4, ntohl_be32 by done. lia. }
  rewrite H4, ntohl_be32 in E, Hl by done.
  set (c0 := set_rpdu c (Charbuf (Some b0) (zlen msg) 4)).
  assert (receiving c msg (take 4 msg) c0) as Hc0.
  { exists b0. assert (zlen (take 4 msg) = 4) as -> by (rewrite H4; done).
    split; [done|]. split; [done|]. split; [|lia].
    rewrite <- Ht at 2. f_equal. rewrite H4. done. }
  assert (read_cb c (c_fd c) (RdBytes (take 4 msg)) (piece first) true
    = read_cb c0 (c_fd c0) (RdEof false) (piece first) true) as Efirst.
  { unfold read_cb. rewrite !Z.eqb_refl. simpl. rewrite Hd, Hr.
    rewrite (proj2 (Z.ltb_lt 4 _)) by lia.
    rewrite H4, (readpdu_after_size _ _ _ E) by (simpl; lia).
    by rewrite (readpdu_skip_size _ (RdEof false) (piece first)) by (simpl; lia). }
  cbn [run_reads]. rewrite Efirst.
  apply (run_reads_rest c msg (first :: chunks) Hd Hr Hf (take 4 msg) c0 Hc0); [| |done].
  - rewrite H4. change (zlen (be32 (zlen msg))) with 4. lia.
  - simpl. by rewrite Hm, take_drop.
Qed.

(** C12. A framed message is reassembled if the first read gets its size field
    whole, whatever way the kernel splits the rest: any sequence of pieces (with
    EAGAINs in between) that add up to it makes the callbacks offer exactly one
    PDU to the channel manager, with exactly the message's bytes, when the last
    piece arrives, and leaves the connection idle for the next one. If the first
    read stops inside the size field the callback gives the connection up: it is
    dead, no longer watched, and nothing more is read from it. *)
Theorem read_reassembles c msg :
  c_dead c = false -> c_rpdu c = charbuf_empty -> framed msg ->
  (forall first chunks, first ++ concat chunks = drop 4 msg ->
     (forall chunks' bs, first :: chunks = chunks' ++ [bs] -> bs <> []) ->
     exists b, run_reads c ((RdBytes (take 4 msg), piece first)
                             :: map (fun bs => (RdEof false, piece bs)) chunks)
       = Ok (c, [(b, zlen msg)]) /\ holds b (zlen msg) msg) /\
  (forall n r2 accept evs, (0 < n < 4)%nat ->
     read_cb c (c_fd c) (RdBytes (take n msg)) r2 accept = Ok (ReadEffect (set_dead c true) None true true) /\
     run_reads (set_dead c true) evs = Ok (set_dead c true, [])).
Proof.
  intros Hd Hr Hf. split; [by intros; apply reassembles|]. intros n r2 accept evs Hn. split.
  - unfold read_cb. rewrite Z.eqb_refl. cbn [cassert mbind outcome_bind]. rewrite Hd, Hr. cbn.
    destruct Hf as [Hsz _]. assert (zlen (take n msg) <> 4) as Hne.
    { unfold zlen in *. rewrite length_take. lia. }
    rewrite (proj2 (Z.eqb_neq _ _) Hne). cbn. destruct c. cbn in *. by subst.
  - induction evs as [|[r1 r2'] evs IH]; [done|]. cbn [run_reads]. unfold read_cb.
    rewrite Z.eqb_refl. cbn. by rewrite IH.
Qed.
End Reassembly.

Lemma read_reassembles_witness :
  (exists b, @run_reads zero_memory (connection_new 3 0)
      [(RdBytes [0; 0; 0; 8], RdBytes [1]); (RdEof false, RdErr true);
       (RdEof false, RdBytes [2; 3]); (RdEof false, RdBytes [4])]
    = Ok (connection_new 3 0, [(b, 8)]) /\ holds b 8 [0; 0; 0; 8; 1; 2; 3; 4]) /\
  exists e, @read_cb zero_memory (connection_new 3 0) 3 (RdBytes [0; 0]) (RdErr true) true = Ok e /\ c_dead (re_conn e) = true.
Proof.
  destruct (@read_reassembles zero_memory (connection_new 3 0) [0; 0; 0; 8; 1; 2; 3; 4]) as [H1 H2]; try done.
  split.
  - apply (H1 [1] [[]; [2; 3]; [4]]); try done.
    intros [|? [|? [|? [|? ?]]]] bs E; simplify_eq/=; try done. by destruct l3.
  - eexists. split; [apply (H2 2%nat (RdErr true) true []); lia|done].
Defined.

(** ** Properties of writing *)

(** The bytes on the wire for a message [msg]. *)
Definition wire (msg : bytes) : bytes := be32 (zlen msg) ++ drop 4 msg.

(** What the kernel takes of a write; zero stands for EAGAIN. *)
Definition accepted (n : Z) : wrres := if n =? 0 then WrErr true else WrBytes n.

(** [write_cb] called once per writable event, and what reaches the kernel. *)
Fixpoint run_writes (c : connection) (ns : list Z) : outcome (connection * bytes) :=
  match ns with
  | [] => Ok (c, [])
  | n :: ns =>
      e ← write_cb c (c_fd c) (accepted n);
      '(c, out) ← run_writes (we_conn e) ns;
      Ok (c, we_out e ++ out)
  end.

(** The length field is stored, and the rest of the buffer is the message. *)
Definition stored (b msg : bytes) : Prop := holds b (zlen msg) (wire msg).

Lemma zlen_wire msg : 4 <= zlen msg -> zlen (wire msg) = zlen msg.
Proof.
  intros. unfold wire. rewrite zlen_app. unfold zlen in *. rewrite length_drop.
  change (length (be32 _)) with 4%nat. lia.
Qed.

Lemma memcpy_be32 b n :
  4 <= zlen b -> memcpy b 0 (be32 n) 4 = Ok (be32 n ++ drop 4 b).
Proof. intros. unfold memcpy. by rewrite decide_True. Qed.

Lemma stored_first b msg :
  4 <= zlen msg -> holds b (zlen msg) msg \/ stored b msg ->
  4 <= zlen b /\ stored (be32 (zlen msg) ++ drop 4 b) msg.
Proof.
  intros H4 Hb.
  assert (zlen msg <= zlen b /\ drop 4 (take (Z.to_nat (zlen msg)) b) = drop 4 msg) as [Hl Hd].
  { destruct Hb as [[_ E]|[_ E]]; pose proof (f_equal length E) as El;
      rewrite length_take in El.
    - split; [unfold zlen in *; lia|]. by rewrite E.
    - pose proof (zlen_wire msg H4). split; [unfold zlen in *; lia|]. rewrite E.
      unfold wire. by rewrite drop_app_length'. }
  split; [lia|]. split; [by rewrite zlen_wire|]. unfold wire.
  rewrite take_app_ge by (change (length (be32 _)) with 4%nat; unfold zlen in *; lia).
  f_equal. rewrite <- Hd, take_drop_commute.
  change (length (be32 _)) with 4%nat. do 2 f_equal. unfold zlen in *. lia.
Qed.

(** One write: the next [n] bytes of the frame go out. *)
Lemma writepdu_ok b msg pos n :
  4 < zlen msg -> 0 <= pos < zlen msg -> 0 <= n -> pos + n <= zlen msg ->
  stored b msg \/ pos = 0 /\ holds b (zlen msg) msg ->
  exists b', writepdu (Charbuf (Some b) (zlen msg) pos) (accepted n)
      = Ok (Charbuf (Some b') (zlen msg) (pos + n), true,
            take (Z.to_nat n) (drop (Z.to_nat pos) (wire msg))) /\ stored b' msg.
Proof.
  intros H4 Hp Hn Hle Hb. unfold writepdu. cbn [cb_solong cb_sz cb_buf].
  rewrite (proj2 (Z.leb_le _ _)) by lia. simpl. rewrite (proj2 (Z.eqb_neq pos _)) by lia.
  assert (exists b', (if pos =? 0 then memcpy b 0 (be32 (zlen msg)) 4 else Ok b) = Ok b' /\
    stored b' msg) as (b' & -> & Hst).
  { destruct (Z.eqb_spec pos 0) as [->|].
    - destruct (stored_first b msg) as [? ?]; [lia|tauto|]. rewrite memcpy_be32 by done. eauto.
    - destruct Hb as [?|[? _]]; [eauto|done]. }
  simpl. exists b'. split; [|done]. unfold accepted.
  destruct (Z.eqb_spec n 0) as [->|].
  - rewrite Z.add_0_r. by rewrite take_0.
  - destruct Hst as [Hz Ht]. assert (zlen msg <= zlen b').
    { apply (f_equal length) in Ht. rewrite length_take in Ht. unfold zlen in *. lia. }
    unfold slice. rewrite decide_True by lia. simpl. do 2 f_equal.
    rewrite <- Ht. rewrite !take_drop_commute. f_equal. rewrite take_take. f_equal. lia.
Qed.

(** The connection while [pos] bytes of [msg] have been written. *)
Definition sending (c : connection) (msg : bytes) (pos : Z) (c' : connection) : Prop :=
  exists b, c' = set_wpdu c (Charbuf (Some b) (zlen msg) pos) /\ stored b msg.

Lemma run_writes_rest c msg ns :
  c_dead c = false -> 4 < zlen msg ->
  forall pos c', sending c msg pos c' -> 0 <= pos -> Forall (fun n => 0 <= n) ns ->
    pos + foldr Z.add 0 ns = zlen msg ->
    (forall ns' n, ns = ns' ++ [n] -> 0 < n) ->
    exists b, run_writes c' ns
      = Ok (set_wpdu c (Charbuf (Some b) (zlen msg) (zlen msg)), drop (Z.to_nat pos) (wire msg)).
Proof.
  intros Hd H4. pose proof (zlen_wire msg ltac:(lia)) as Hw.
  induction ns as [|n ns IH]; intros pos c' (b & -> & Hst) Hp Hall Hsum Hlast.
  - simpl in *. assert (pos = zlen msg) as -> by lia. exists b.
    rewrite (drop_ge (wire msg)); [done|]. unfold zlen in *. lia.
  - apply Forall_cons in Hall as [Hn Hall]. simpl in Hsum.
    assert (0 <= foldr Z.add 0 ns) as Hge by (clear -Hall; induction Hall; simpl; lia).
    assert (pos < zlen msg) as Hlt.
    { destruct (decide (pos < zlen msg)); [done|].
      destruct ns as [|n' ns _] using rev_ind.
      - specialize (Hlast [] n eq_refl). simpl in *. lia.
      - specialize (Hlast (n :: ns) n' eq_refl). rewrite foldr_app in Hsum. simpl in Hsum.
        assert (0 <= foldr Z.add 0 ns) by (apply Forall_app in Hall as [Hall _];
          clear -Hall; induction Hall; simpl; lia).
        assert (forall l a, foldr Z.add a l = a + foldr Z.add 0 l) as Hf
          by (clear; induction l; intros; simpl; [lia|]; rewrite IHl; lia).
        rewrite Hf in Hsum. lia. }
    destruct (writepdu_ok b msg pos n) as (b' & E & Hst'); try done; try lia; [by left|].
    cbn [run_writes]. unfold write_cb. simpl. rewrite Hd. simpl. rewrite Z.eqb_refl. simpl.
    rewrite (proj2 (Z.eqb_neq (zlen msg) 0)) by lia. rewrite E. simpl.
    rewrite (proj2 (Z.leb_le 0 (pos + n))) by lia. simpl.
    destruct (IH (pos + n) (set_wpdu c (Charbuf (Some b') (zlen msg) (pos + n))))
      as (b'' & E''); try done; try lia; [by exists b'|..].
    { intros ns' x ->. apply (Hlast (n :: ns') x). done. }
    exists b''.
    change (set_wpdu (set_wpdu c ?x) ?y) with (set_wpdu c y).
    destruct (pos + n <? zlen msg); simpl; rewrite E''; simpl; do 2 f_equal;
      (replace (Z.to_nat (pos + n)) with (Z.to_nat pos + Z.to_nat n)%nat by lia;
       rewrite <- drop_drop; apply take_drop).
Qed.

(** C13. [send] puts exactly one frame on the wire: however few bytes the kernel
    takes per write, once it has taken them all the bytes written are the
    message with its length in the first four bytes, [send] leaves its wait and
    returns true, and the write buffer is free for the next sender. *)
Theorem send_writes_frame c b msg n0 ns :
  c_dead c = false -> 4 < zlen msg -> holds b (zlen msg) msg ->
  0 < n0 -> Forall (fun n => 0 <= n) ns -> n0 + foldr Z.add 0 ns = zlen msg ->
  (forall ns' n, ns = ns' ++ [n] -> 0 < n) ->
  exists c1 st out1 c2 out2,
    send_start (send_enter c) b (zlen msg) (accepted n0) = Ok (c1, st, out1) /\
    run_writes c1 ns = Ok (c2, out2) /\ out1 ++ out2 = wire msg /\
    send_done_waiting c2 = true /\
    send_finish c2 = (set_wpdu c charbuf_empty, true, 0 <? c_waiters c).
Proof.
  intros Hd H4 Hb Hn0 Hall Hsum Hlast. pose proof (zlen_wire msg ltac:(lia)) as Hw.
  assert (0 <= foldr Z.add 0 ns) by (clear -Hall; induction Hall; simpl; lia).
  destruct (writepdu_ok b msg 0 n0) as (b' & E & Hst); try lia; [by right|].
  rewrite Z.add_0_l in E.
  assert (set_waiters (send_enter c) (c_waiters (send_enter c) - 1) = c) as Ec.
  { destruct c; unfold send_enter, set_waiters; simpl. f_equal. lia. }
  destruct (run_writes_rest c msg ns Hd H4 n0
    (set_wpdu c (Charbuf (Some b') (zlen msg) n0))) as (b'' & E2); try done; try lia;
    [by exists b'|].
  eexists _, (if n0 =? zlen msg then SendWritten else SendWaiting), _, _, _.
  split.
  { unfold send_start. rewrite Ec, Hd, E. simpl. by destruct (n0 =? zlen msg). }
  split; [exact E2|]. split; [|split].
  - apply take_drop.
  - unfold send_done_waiting. simpl. rewrite Z.ltb_irrefl. by rewrite !andb_false_r.
  - unfold send_finish. simpl. by rewrite Hd, Z.eqb_refl.
Qed.

Lemma send_writes_frame_witness :
  exists c1 st out1 c2 out2,
    send_start (send_enter (connection_new 3 0)) [9; 9; 9; 9; 1; 2; 3; 4] 8 (WrBytes 3)
      = Ok (c1, st, out1) /\
    run_writes c1 [0; 2; 3] = Ok (c2, out2) /\ out1 ++ out2 = [0; 0; 0; 8; 1; 2; 3; 4] /\
    send_done_waiting c2 = true /\
    send_finish c2 = (connection_new 3 0, true, false).
Proof.
  apply (send_writes_frame (connection_new 3 0) [9; 9; 9; 9; 1; 2; 3; 4]
    [9; 9; 9; 9; 1; 2; 3; 4] 3 [0; 2; 3]); try done.
  - repeat constructor; lia.
  - intros [|? [|? [|? [|? ?]]]] n E; simplify_eq/=; lia.
Defined.

(** ** Properties of accepting *)
Definition collectable (c : connection) : bool := isdead c && (ref c =? 1).

(** Accepting a connection, on both branches: while no dead connection is
    left to the listener alone, the new one is entered in the table and nothing
    else changes; as soon as there is one, the collection loop erases it and
    then increments the erased iterator, which is undefined behaviour. *)
Theorem process_accept_cases conns s1 lossy :
  Forall (fun p => cb_buf (c_wpdu p.2) = None) conns ->
  process_accept conns s1 lossy =
    if existsb (fun p => collectable p.2) conns then Crash UseAfterFree
    else Ok (map_set conns s1 (connection_new s1 lossy)).
Proof.
  intros Hw. unfold process_accept.
  enough (gc_loop conns = if existsb (fun p => collectable p.2) conns
                          then Crash UseAfterFree else Ok conns) as ->
    by (by destruct (existsb _ _)).
  induction Hw as [|[fd c] conns Hc _ IH]; [done|]. simpl in *. unfold collectable at 1.
  destruct (isdead c && (ref c =? 1)) eqn:E.
  - apply andb_true_iff in E as [Hd Hr%Z.eqb_eq]. unfold isdead, ref, decref in *.
    destruct c; simpl in *. subst. simpl. unfold connection_delete. simpl. by rewrite Hc.
  - rewrite IH. simpl. by destruct (existsb _ _).
Qed.

Lemma process_accept_cases_witness :
  process_accept [(4, set_dead (connection_new 4 0) true)] 5 0 = Crash UseAfterFree.
Proof.
  apply (process_accept_cases [(4, set_dead (connection_new 4 0) true)] 5 0).
  repeat constructor.
Defined.
