(* ===== verification/Listener.v ===== *)
(** * The listener: class tcpsconn and connect_to_dst (rpc/connection.cc)

    A thread waits in select(2) for new connections and for the pipe that tells
    it to stop; the destructor closes the pipe's write end, joins the thread and
    lets go of all connections. Results of system calls are arguments. *)

From S2P Require Import Prelude Marshall Connection.
Local Open Scope Z_scope.

(** Where the thread of accept_conn is: in its loop, returned, or ended by
    pthread_exit() in process_accept. *)
Inductive accept_pc := Accepting | Returned | Exited.

Record tcpsconn := Tcpsconn {
  tc_conns : list (Z * connection);
  tc_lossy : Z;
  tc_pc : accept_pc;
  tc_stopping : bool;       (** pipe_[1] is closed *)
  tc_sockets : bool }.      (** pipe_[0] and tcp_ are open *)

(** The constructor; [None] for a system call that fails. *)
Definition tcpsconn_new (lossy : Z) (socket bind listen pipe : bool) : outcome tcpsconn :=
  _ ← cassert socket;
  _ ← cassert bind;
  _ ← cassert listen;
  _ ← cassert pipe;
  Ok (Tcpsconn [] lossy Accepting false true).

(** What select() gives: an error, EINTR or another, or which of the pipe and
    the socket are readable. *)
Inductive selected := SelError (eintr : bool) | SelReady (pipe tcp : bool).

(** One round of the loop of accept_conn; [s1] is what accept() returns. *)
Definition accept_conn (t : tcpsconn) (sel : selected) (s1 : Z) : outcome tcpsconn :=
  match sel with
  | SelError true => Ok t
  | SelError false => Crash AssertFailed
  | SelReady true _ => Ok (Tcpsconn (tc_conns t) (tc_lossy t) Returned (tc_stopping t) false)
  | SelReady false true =>
      if s1 <? 0 then Ok (Tcpsconn (tc_conns t) (tc_lossy t) Exited (tc_stopping t) (tc_sockets t))
      else conns ← process_accept (tc_conns t) s1 (tc_lossy t);
           Ok (Tcpsconn conns (tc_lossy t) Accepting (tc_stopping t) (tc_sockets t))
  | SelReady false false => Crash AssertFailed
  end.

(** The destructor: first the pipe, then, the thread having ended, the
    connections. A connection that is not deleted stays with its other owners. *)
Definition stop (t : tcpsconn) : tcpsconn :=
  Tcpsconn (tc_conns t) (tc_lossy t) (tc_pc t) true (tc_sockets t).

Fixpoint close_all (conns : list (Z * connection)) : outcome (list (Z * option connection)) :=
  match conns with
  | [] => Ok []
  | (fd, c) :: rest =>
      c ← decref (closeconn c).1;
      rest ← close_all rest;
      Ok ((fd, c) :: rest)
  end.

(** connect_to_dst; [s] is the socket. *)
Definition connect_to_dst (s : Z) (connected : bool) (lossy : Z) : option connection :=
  if connected then Some (connection_new s lossy) else None.

(** ** Runs of the thread *)

(** select() only reports what is there: the pipe is readable exactly when its
    other end is closed, and select() does not return without a reason. *)
Definition may_select (t : tcpsconn) (sel : selected) : Prop :=
  match sel with SelError eintr => eintr = true | SelReady p s => p = tc_stopping t /\ (p || s) = true end.

Inductive listen_step : tcpsconn -> tcpsconn -> Prop :=
  | ls_round t sel s1 t' :
      tc_pc t = Accepting -> may_select t sel -> accept_conn t sel s1 = Ok t' -> listen_step t t'
  | ls_stop t : listen_step t (stop t)
  | ls_conns t conns :     (* connections change in other threads *)
      map fst conns = map fst (tc_conns t) ->
      listen_step t (Tcpsconn conns (tc_lossy t) (tc_pc t) (tc_stopping t) (tc_sockets t)).

(** What the table holds: the listener's own reference to each connection. *)
Definition owned (c : connection) : Prop :=
  1 <= c_refno c /\ (c_refno c = 1 -> cb_buf (c_wpdu c) = None).

Lemma close_one_ok c :
  owned c ->
  exists r, decref (closeconn c).1 = Ok r /\
    match r with
    | None => c_refno c = 1
    | Some c' => c_dead c' = true /\ c_refno c' = c_refno c - 1 /\ 1 <= c_refno c'
    end.
Proof.
  intros [Hr Hw]. destruct c as [fd dead w rp wt n l]. cbn [c_refno c_wpdu] in *.
  assert ((closeconn (Connection fd dead w rp wt n l)).1 = Connection fd true w rp wt n l) as ->
    by (by destruct dead).
  unfold decref, set_refno. cbn [c_refno c_dead c_fd c_wpdu c_rpdu c_waiters c_lossy].
  rewrite (proj2 (Z.leb_le _ _)) by lia. cbn [cassert mbind outcome_bind].
  destruct (Z.eqb_spec (n - 1) 0).
  - exists None. split; [|lia]. unfold connection_delete. cbn [c_dead c_wpdu cassert mbind outcome_bind].
    by rewrite Hw by lia.
  - eexists. split; [reflexivity|]. cbn. split; [done|lia].
Qed.

Lemma close_all_ok conns :
  Forall (fun e => owned e.2) conns ->
  exists l, close_all conns = Ok l /\
    Forall2 (fun e r => e.1 = r.1 /\ match r.2 with
      | None => c_refno e.2 = 1
      | Some c' => c_dead c' = true /\ c_refno c' = c_refno e.2 - 1 /\ 1 <= c_refno c'
      end) conns l.
Proof.
  induction 1 as [|[fd c] conns Hc _ IH]; [by exists []|]. cbn [snd] in Hc. cbn [close_all].
  destruct (close_one_ok c Hc) as (r & -> & Hr). cbn [mbind outcome_bind].
  destruct IH as (l & -> & Hl). cbn [mbind outcome_bind]. exists ((fd, r) :: l).
  split; [reflexivity|]. by constructor.
Qed.

Lemma stopping_kept t t' : listen_step t t' -> tc_stopping t = true -> tc_stopping t' = true.
Proof.
  destruct 1 as [t sel s1 t' _ _ E| |]; [|done|done]. unfold accept_conn in E.
  destruct sel as [[]|[] []]; try done; try (by injection E as <-).
  destruct (s1 <? 0); [by injection E as <-|].
  destruct (process_accept _ _ _); [|done]. by injection E as <-.
Qed.

(** Stopping the listener: after the destructor has closed the pipe, no
    connection is accepted any more, the thread's next wait in select() that is
    not interrupted makes it close its sockets and return, and closing the
    connections fails no assertion: every connection is closed, deleted if the
    listener's reference was the last one, and left to its other owners with one
    reference less otherwise. *)
Theorem listener_shutdown t t' :
  rtc listen_step (stop t) t' ->
  map fst (tc_conns t') = map fst (tc_conns t) /\
  (tc_pc t' = Accepting -> forall sel s1, may_select t' sel -> sel <> SelError true ->
     exists t2, accept_conn t' sel s1 = Ok t2 /\ tc_pc t2 = Returned /\ tc_sockets t2 = false /\
       tc_conns t2 = tc_conns t') /\
  (Forall (fun e => owned e.2) (tc_conns t') ->
     exists l, close_all (tc_conns t') = Ok l /\
       Forall2 (fun e r => e.1 = r.1 /\ match r.2 with
         | None => c_refno e.2 = 1
         | Some c' => c_dead c' = true /\ c_refno c' = c_refno e.2 - 1 /\ 1 <= c_refno c'
         end) (tc_conns t') l).
Proof.
  intros Hr. assert (tc_stopping t' = true /\ map fst (tc_conns t') = map fst (tc_conns t)) as [Hs Hc].
  { apply (rtc_ind_r (R := listen_step) (fun u => tc_stopping u = true /\ map fst (tc_conns u) = map fst (tc_conns t)) (stop t));
      [done| |exact Hr].
    intros u v _ Hst [Hu Hm]. split; [by apply (stopping_kept u)|].
    destruct Hst as [u sel s1 v _ Hsel E| |u conns Hcs]; [|done|by rewrite <- Hm].
    destruct sel as [[]|p s]; [by injection E as <-|done|]. destruct Hsel as [-> _].
    rewrite Hu in E. by injection E as <-. }
  split; [exact Hc|]. split.
  - intros _ [[]|p s] s1 Hsel Hne; [done|done|]. destruct Hsel as [-> _]. rewrite Hs. by eexists.
  - apply close_all_ok.
Qed.

(** A listener with one connection of its own and one a request is using. *)
Lemma listener_shutdown_witness :
  let t := Tcpsconn [(4, connection_new 4 0); (6, incref (connection_new 6 0))] 0 Accepting false true in
  exists t2 l, accept_conn (stop t) (SelReady true true) 7 = Ok t2 /\ tc_pc t2 = Returned /\
    close_all (tc_conns t2) = Ok l /\ map fst l = [4; 6].
Proof.
  intros t. destruct (listener_shutdown t (stop t)) as (_ & H2 & H3); [done|].
  destruct (H2 eq_refl (SelReady true true) 7) as (t2 & E & Hp & _ & Hcs); [done|done|].
  destruct H3 as (l & El & Hl).
  { repeat constructor; cbn; lia. }
  exists t2, l. split; [exact E|]. split; [exact Hp|]. rewrite Hcs. split; [exact El|].
  cbn [tc_conns stop t] in Hl. apply Forall2_cons_inv_l in Hl as ([f1 r1] & l1 & [E1 _] & Hl & ->).
  apply Forall2_cons_inv_l in Hl as ([f2 r2] & l2 & [E2 _] & Hl & ->). apply Forall2_nil_inv_l in Hl as ->.
  cbn in E1, E2 |- *. by rewrite <- E1, <- E2.
Defined.
