(* ===== verification/CloseRace.v ===== *)
(** * A sender, the poll loop and closeconn on one connection (rpc/connection.cc)

    A thread sleeps in [send] on send_complete_ because the kernel took only part
    of its message; the poll loop's callbacks write the rest and signal it, and
    another thread may close the connection. Each callback and each half of
    [closeconn] is one step; pthread_cond_wait is taken not to wake up without
    a signal. *)

From S2P Require Import Prelude Marshall Connection.
Local Open Scope Z_scope.

(** Where the closing thread is: before closeconn, between setting dead_ and
    block_remove_fd, after it. *)
Inductive closer_pc := C_idle | C_marked | C_done.

Record send_world := SendWorld {
  w_conn : connection;
  w_asleep : bool;         (** the sender is in pthread_cond_wait(&send_complete_) *)
  w_watched : bool;        (** the poll manager may call the connection *)
  w_closer : closer_pc }.

Section Closing.
Context `{Memory}.

Definition is_rdwr (u : unwatch) : bool := match u with UnwatchRdWr => true | _ => false end.

(** The callbacks, without the closing thread. *)
Inductive callback_step : send_world -> send_world -> Prop :=
  | cb_write s wr e :
      w_watched s = true -> write_cb (w_conn s) (c_fd (w_conn s)) wr = Ok e ->
      callback_step s (SendWorld (we_conn e) (w_asleep s && negb (we_signal e))
                         (negb (is_rdwr (we_unwatch e))) (w_closer s))
  | cb_read s r1 r2 accept e :
      w_watched s = true -> read_cb (w_conn s) (c_fd (w_conn s)) r1 r2 accept = Ok e ->
      callback_step s (SendWorld (re_conn e) (w_asleep s && negb (re_signal e))
                         (negb (re_unwatch e)) (w_closer s)).

Inductive sending_step : send_world -> send_world -> Prop :=
  | ss_callback s s' : callback_step s s' -> sending_step s s'
  | ss_mark s :
      w_closer s = C_idle ->
      sending_step s (SendWorld (closeconn (w_conn s)).1 (w_asleep s) (w_watched s)
                        (if (closeconn (w_conn s)).2 then C_marked else C_done))
  | ss_removed s :
      w_closer s = C_marked -> sending_step s (SendWorld (w_conn s) (w_asleep s) false C_done).

(** While callbacks run: a sender that sleeps has a reason to. *)
Definition justified (s : send_world) : Prop :=
  w_asleep s = true -> send_done_waiting (w_conn s) = false.

Lemma write_cb_wakes c wr e :
  write_cb c (c_fd c) wr = Ok e -> send_done_waiting c = false ->
  we_signal e = true \/ send_done_waiting (we_conn e) = false.
Proof.
  unfold write_cb. destruct (c_dead c) eqn:Hd; [done|]. cbn [cassert negb mbind outcome_bind].
  rewrite Z.eqb_refl. cbn [cassert mbind outcome_bind].
  destruct (cb_sz (c_wpdu c) =? 0); [intros [= <-]; by right|].
  destruct (writepdu (c_wpdu c) wr) as [[[w ok] out]|]; [|done]. cbn [mbind outcome_bind].
  destruct ok; [|intros [= <-]; by left]. cbn [negb].
  destruct (Z.leb_spec 0 (cb_solong w)); [|done]. cbn [cassert mbind outcome_bind].
  destruct (Z.ltb_spec (cb_solong w) (cb_sz w)); intros [= <-] _; [right|by left].
  unfold send_done_waiting. cbn [we_conn set_wpdu c_dead c_wpdu]. rewrite Hd.
  by rewrite (proj2 (Z.leb_le _ _)), (proj2 (Z.ltb_lt _ _)) by lia.
Qed.

Lemma read_cb_wakes c r1 r2 accept e :
  read_cb c (c_fd c) r1 r2 accept = Ok e -> send_done_waiting c = false ->
  re_signal e = true \/ send_done_waiting (re_conn e) = false.
Proof.
  unfold read_cb. rewrite Z.eqb_refl. cbn [cassert mbind outcome_bind].
  destruct (c_dead c) eqn:Hd; [intros [= <-]; by right|].
  match goal with |- context [mbind _ ?m] => destruct m as [[r succ]|]; [|done] end.
  cbn [mbind outcome_bind]. intros E Hw.
  destruct succ; destruct (cb_buf r); try destruct (cb_sz r =? cb_solong r); try destruct accept;
    injection E as <-; ((right; exact Hw) || (left; reflexivity)).
Qed.

Lemma justified_step s s' : callback_step s s' -> justified s -> justified s'.
Proof.
  intros Hst. unfold justified. destruct Hst as [s wr e Hw E|s r1 r2 accept e Hw E]; cbn [w_conn w_asleep];
    intros Hs [Ha Hn]%andb_true_iff; specialize (Hs Ha).
  - destruct (write_cb_wakes _ _ _ E Hs) as [Hsig|?]; [by rewrite Hsig in Hn|done].
  - destruct (read_cb_wakes _ _ _ _ _ E Hs) as [Hsig|?]; [by rewrite Hsig in Hn|done].
Qed.

(** A connection that was closed under a sleeping sender. *)
Definition abandoned (s : send_world) : Prop :=
  c_dead (w_conn s) = true /\ w_asleep s = true /\ w_closer s <> C_idle.

Lemma abandoned_step s s' : sending_step s s' -> abandoned s -> abandoned s'.
Proof.
  intros Hst (Hd & Ha & Hc). destruct Hst as [s s' Hcb|s Hi|s Hm].
  - destruct Hcb as [s wr e Hw E|s r1 r2 accept e Hw E].
    + unfold write_cb in E. by rewrite Hd in E.
    + unfold read_cb in E. rewrite Z.eqb_refl, Hd in E. injection E as <-.
      split; [done|]. split; [|done]. cbn [w_asleep re_signal]. by rewrite Ha.
  - by destruct Hc.
  - done.
Qed.

(** Who wakes a sender. As long as nobody closes the connection, every
    interleaving of the callbacks leaves a sleeping sender with a reason to
    sleep: the callback that makes its condition true also signals it. But
    closeconn signals nobody: from the moment it marks a connection dead under a
    sleeping sender, that sender never wakes again, whatever the callbacks do,
    although its condition now holds; and a write callback that comes before
    block_remove_fd fails its assertion. *)
Theorem closeconn_abandons_sender s s' :
  w_asleep s = true -> c_dead (w_conn s) = false -> send_done_waiting (w_conn s) = false ->
  (rtc callback_step s s' -> w_asleep s' = true -> send_done_waiting (w_conn s') = false) /\
  (w_closer s = C_idle ->
   let marked := SendWorld (closeconn (w_conn s)).1 true (w_watched s) C_marked in
   sending_step s marked /\
   (rtc sending_step marked s' -> w_asleep s' = true /\ send_done_waiting (w_conn s') = true /\
      forall wr, write_cb (w_conn s') (c_fd (w_conn s')) wr = Crash AssertFailed)).
Proof.
  intros Ha Hd Hw. split.
  - intros Hr. apply (rtc_invariant callback_step justified s s'); [|exact Hr|by intros _].
    intros u v Hu Huv. by apply (justified_step u v).
  - intros Hc marked. assert (closeconn (w_conn s) = (set_dead (w_conn s) true, true)) as Ec
      by (unfold closeconn; by rewrite Hd).
    split.
    { pose proof (ss_mark s Hc) as Hst. rewrite Ec, Ha in Hst. unfold marked. rewrite Ec. exact Hst. }
    intros Hr. assert (abandoned s') as (Hd' & Ha' & _).
    { apply (rtc_invariant sending_step abandoned marked s'); [|exact Hr|].
      - intros u v Hu Huv. by apply (abandoned_step u v).
      - unfold marked. rewrite Ec. by split_and!. }
    split; [exact Ha'|]. unfold send_done_waiting, write_cb. rewrite Hd'. done.
Qed.
End Closing.

#[local] Existing Instance zero_memory.

(** Half of an eight-byte message is written when the connection is closed. *)
Lemma closeconn_abandons_sender_witness :
  let c := set_wpdu (connection_new 5 0) (Charbuf (Some (replicate 8 0)) 8 4) in
  let stuck := SendWorld (set_dead c true) true false C_done in
  w_asleep stuck = true /\ send_done_waiting (w_conn stuck) = true.
Proof.
  intros c stuck. destruct (closeconn_abandons_sender (SendWorld c true true C_idle) stuck) as [_ H];
    [reflexivity|reflexivity|reflexivity|].
  destruct (H eq_refl) as [_ H2]. destruct H2 as (H3 & H4 & _).
  - apply rtc_once. exact (ss_removed (SendWorld (set_dead c true) true true C_marked) eq_refl).
  - split; [exact H3|exact H4].
Defined.
