(* ===== verification/Rpcs.v ===== *)
(** * The RPC server endpoint: class rpcs of rpc/rpc.h and rpc/rpc.cc

    Dispatching a received request to its registered handler, with the reply
    window that gives each client at-most-once execution: per client nonce, the
    list of requests seen and not yet acknowledged, with their replies once
    they are known.

    The application behind the handlers is a state [St]; a handler is a function
    on it. Connections are objects with a reference count; what is sent on them
    is logged. [dispatch] is split at the handler call ([dispatch_begin], the
    handler, [dispatch_finish]), the points at which pool threads interleave. *)

From S2P Require Import Prelude Marshall Connection.
Local Open Scope Z_scope.

(** class rpc_const *)
Definition rpc_bind : Z := 1.
Definition timeout_failure : Z := -1.
Definition unmarshal_args_failure : Z := -2.
Definition unmarshal_reply_failure : Z := -3.
Definition atmostonce_failure : Z := -4.
Definition oldsrv_failure : Z := -5.
Definition bind_failure : Z := -6.

Inductive rpcstate_t := NEW | INPROGRESS | DONE | FORGOTTEN.
#[export] Instance rpcstate_eq_dec : EqDecision rpcstate_t.
Proof. solve_decision. Defined.

Record reply_t := Reply {
  r_xid : Z; r_cb_present : bool; r_buf : option bytes; r_sz : Z }.
Definition reply_new (xid : Z) : reply_t := Reply xid false None 0.

(** ** The reply window *)
Abbreviation window := (gmap Z (list reply_t)).

(** [reply_window_[clt_nonce]] *)
Definition replies_of (rw : window) (clt : Z) : list reply_t := default [] (rw !! clt).

(** The loop over one client's replies: drop those up to [xid_rep], remember
    the entry of [xid] (the iterator [it_xid]). *)
Fixpoint prune (xid xid_rep : Z) (l : list reply_t) (it_xid : option reply_t)
    : list reply_t * option reply_t :=
  match l with
  | [] => ([], it_xid)
  | it :: l =>
      let it_xid := if (r_xid it =? xid) && (xid_rep <? xid) then Some it else it_xid in
      if r_xid it <=? xid_rep then prune xid xid_rep l it_xid
      else let '(l', f) := prune xid xid_rep l it_xid in (it :: l', f)
  end.

(** The state of the request and, for DONE, the stored reply. *)
Definition checkduplicate_and_update (rw : window) (clt_nonce xid xid_rep : Z)
    : window * rpcstate_t * (option bytes * Z) :=
  let reply_list := replies_of rw clt_nonce in
  match reply_list with
  | [] => (<[clt_nonce := [reply_new xid]]> rw, NEW, (None, 0))
  | _ :: _ =>
      let '(l, it_xid) := prune xid xid_rep reply_list None in
      match it_xid with
      | Some it =>
          if r_cb_present it then (<[clt_nonce := l]> rw, DONE, (r_buf it, r_sz it))
          else (<[clt_nonce := l]> rw, INPROGRESS, (None, 0))
      | None =>
          if xid <=? xid_rep then (<[clt_nonce := l]> rw, FORGOTTEN, (None, 0))
          else (<[clt_nonce := l ++ [reply_new xid]]> rw, NEW, (None, 0))
      end
  end.

Definition set_reply (xid : Z) (b : option bytes) (sz : Z) (it : reply_t) : reply_t :=
  if r_xid it =? xid then Reply (r_xid it) true b sz else it.

Definition add_reply (rw : window) (clt_nonce xid : Z) (b : option bytes) (sz : Z) : window :=
  <[clt_nonce := map (set_reply xid b sz) (replies_of rw clt_nonce)]> rw.

Definition free_reply_window (rw : window) : window := ∅.

(** ** Handlers *)

(** [int fn(unmarshall &, marshall &)] on an application state *)
Definition handler (St : Type) : Type :=
  unmarshall -> marshall -> St -> outcome (St * marshall * Z).

Section Handlers.
Context `{Memory} {St : Type}.

(** The wrapper class [h1] of [rpcs::reg]: [a0] and [r0] are what the freshly
    declared argument and result variables hold. *)
Definition h1_fn {A R} (ca : codec A) (cr : codec R) (a0 : A) (r0 : R)
    (meth : A -> R -> St -> outcome (St * R * Z)) : handler St := fun args ret s =>
  '(args, a) ← get ca args a0;
  if negb (unmarshall_okdone args) then Ok (s, ret, unmarshal_args_failure)
  else
    '(s, r, b) ← meth a r0 s;
    ret ← put cr ret r;
    Ok (s, ret, b).
End Handlers.

(** ** The server *)
Record rpcs (St : Type) := Rpcs {
  s_nonce : Z;
  s_reply_window : window;
  s_conns : gmap Z Z;                 (** client nonce to connection object *)
  s_counting : Z; s_curr_counts : Z; s_counts : gmap Z Z;
  s_procs : gmap Z (handler St);
  s_app : St;                         (** the objects behind the handlers *)
  s_objs : gmap Z connection;         (** live connection objects *)
  s_sent : list (Z * bytes) }.        (** what went out on which connection *)
Arguments Rpcs {St} _ _ _ _ _ _ _ _ _ _.
Arguments s_nonce {St} _. Arguments s_reply_window {St} _. Arguments s_conns {St} _.
Arguments s_counting {St} _. Arguments s_curr_counts {St} _. Arguments s_counts {St} _.
Arguments s_procs {St} _. Arguments s_app {St} _. Arguments s_objs {St} _.
Arguments s_sent {St} _.

Section Server.
Context `{Memory} {St : Type}.
Abbreviation server := (rpcs St).

Definition rpcs_new (nonce count : Z) (app : St) : server :=
  Rpcs (u32 nonce) ∅ ∅ count count ∅ ∅ app ∅ [].

Definition with_window (s : server) (w : window) : server :=
  Rpcs (s_nonce s) w (s_conns s) (s_counting s) (s_curr_counts s) (s_counts s)
    (s_procs s) (s_app s) (s_objs s) (s_sent s).
Definition with_conns (s : server) (k : gmap Z Z) : server :=
  Rpcs (s_nonce s) (s_reply_window s) k (s_counting s) (s_curr_counts s) (s_counts s)
    (s_procs s) (s_app s) (s_objs s) (s_sent s).
Definition with_counts (s : server) (n : Z) (k : gmap Z Z) : server :=
  Rpcs (s_nonce s) (s_reply_window s) (s_conns s) (s_counting s) n k
    (s_procs s) (s_app s) (s_objs s) (s_sent s).
Definition with_procs (s : server) (p : gmap Z (handler St)) : server :=
  Rpcs (s_nonce s) (s_reply_window s) (s_conns s) (s_counting s) (s_curr_counts s)
    (s_counts s) p (s_app s) (s_objs s) (s_sent s).
Definition with_app (s : server) (a : St) : server :=
  Rpcs (s_nonce s) (s_reply_window s) (s_conns s) (s_counting s) (s_curr_counts s)
    (s_counts s) (s_procs s) a (s_objs s) (s_sent s).
Definition with_objs (s : server) (o : gmap Z connection) : server :=
  Rpcs (s_nonce s) (s_reply_window s) (s_conns s) (s_counting s) (s_curr_counts s)
    (s_counts s) (s_procs s) (s_app s) o (s_sent s).
Definition with_sent (s : server) (l : list (Z * bytes)) : server :=
  Rpcs (s_nonce s) (s_reply_window s) (s_conns s) (s_counting s) (s_curr_counts s)
    (s_counts s) (s_procs s) (s_app s) (s_objs s) l.

Definition reg1 (s : server) (proc : Z) (h : handler St) : outcome server :=
  match s_procs s !! i32 proc with
  | Some _ => Crash AssertFailed
  | None => Ok (with_procs s (<[i32 proc := h]> (s_procs s)))
  end.

(** *** Calls on connection objects *)
Definition obj (s : server) (c : Z) : outcome connection :=
  match s_objs s !! c with Some k => Ok k | None => Crash UseAfterFree end.
Definition conn_incref (s : server) (c : Z) : outcome server :=
  k ← obj s c; Ok (with_objs s (<[c := incref k]> (s_objs s))).
Definition conn_decref (s : server) (c : Z) : outcome server :=
  k ← obj s c;
  r ← decref k;
  match r with
  | Some k => Ok (with_objs s (<[c := k]> (s_objs s)))
  | None => Ok (with_objs s (delete c (s_objs s)))
  end.
(** [c->send(b, sz)]: nothing goes out on a dead connection. *)
Definition conn_send (s : server) (c : Z) (b : option bytes) (sz : Z) : outcome server :=
  k ← obj s c;
  if isdead k then Ok s
  else match b with
       | None => Crash NullDereference
       | Some b => out ← slice b 0 sz; Ok (with_sent s (s_sent s ++ [(c, out)]))
       end.

(** [updatestat]: the counters are [int]s in a map from [int]; the dump it prints
    has no other effect. *)
Definition updatestat (s : server) (proc : Z) : server :=
  let counts := <[i32 proc := i32 (default 0 (s_counts s !! i32 proc) + 1)]> (s_counts s) in
  let curr := i32 (s_curr_counts s - 1) in
  with_counts s (if curr =? 0 then s_counting s else curr) counts.

(** *** Dispatch *)
Record djob_t := Djob { j_buf : bytes; j_sz : Z; j_conn : Z }.

(** [got_pdu]: take a reference and queue the job; [succ] is what the thread
    pool's non-blocking [addObjJob] returns. *)
Definition got_pdu (s : server) (c : Z) (b : bytes) (sz : Z) (succ : bool)
    : outcome (server * option djob_t * bool) :=
  s ← conn_incref s c;
  if succ then Ok (s, Some (Djob b sz c), true)
  else s ← conn_decref s c; Ok (s, None, false).

(** A request whose handler is about to run. *)
Record running := Running {
  run_conn : Z; run_req : unmarshall; run_h : req_header; run_f : handler St }.

(** "save the latest good connection to the client" *)
Definition save_conn (s : server) (clt c : Z) : outcome server :=
  match s_conns s !! clt with
  | None =>
      s ← conn_incref s c; Ok (with_conns s (<[clt := c]> (s_conns s)))
  | Some c' =>
      if c' =? c then Ok s
      else
        s ← conn_decref s c';
        s ← conn_incref s c;
        Ok (with_conns s (<[clt := c]> (s_conns s)))
  end.

(** A reply that carries only a header. *)
Definition send_error (s : server) (c xid ret : Z) : outcome server :=
  rep ← marshall_pack_reply_header marshall_new (mk_reply_header xid ret);
  conn_send s c (m_buf rep) (marshall_size rep).

(** [dispatch] up to the handler call. [None] when the request is finished. *)
Definition dispatch_begin (s : server) (j : djob_t) : outcome (server * option running) :=
  let c := j_conn j in
  '(req, h) ← unmarshall_unpack_req_header (unmarshall_new (j_buf j) (j_sz j));
  if negb (u_ok req) then s ← conn_decref s c; Ok (s, None)
  else if negb (rq_srv_nonce h =? 0) && negb (rq_srv_nonce h =? s_nonce s) then
    s ← send_error s c (rq_xid h) oldsrv_failure; Ok (s, None)
  else
    match s_procs s !! rq_proc h with
    | None => s ← conn_decref s c; Ok (s, None)
    | Some f =>
        '(s, stat, rb) ←
          (if negb (rq_clt_nonce h =? 0) then
             let s := match s_reply_window s !! rq_clt_nonce h with
                      | Some _ => s
                      | None => with_window s (<[rq_clt_nonce h := []]> (s_reply_window s))
                      end in
             s ← save_conn s (rq_clt_nonce h) c;
             let '(w, stat, rb) := checkduplicate_and_update (s_reply_window s)
                 (rq_clt_nonce h) (u32 (rq_xid h)) (u32 (rq_xid_rep h)) in
             Ok (with_window s w, stat, rb)
           else Ok (s, NEW, (None, 0)));
        match stat with
        | NEW =>
            let s := if negb (s_counting s =? 0) then updatestat s (rq_proc h) else s in
            Ok (s, Some (Running c req h f))
        | INPROGRESS => s ← conn_decref s c; Ok (s, None)
        | DONE => s ← conn_send s c rb.1 rb.2; s ← conn_decref s c; Ok (s, None)
        | FORGOTTEN =>
            s ← send_error s c (rq_xid h) atmostonce_failure;
            s ← conn_decref s c; Ok (s, None)
        end
    end.

(** "get the latest connection to the client"; [conns_[0]] is a NULL pointer. *)
Definition latest_conn (s : server) (c clt : Z) : outcome (server * Z) :=
  k ← obj s c;
  if isdead k && negb (bool_decide (s_conns s !! clt = Some c)) then
    s ← conn_decref s c;
    match s_conns s !! clt with
    | None => Crash NullDereference
    | Some c' => s ← conn_incref s c'; Ok (s, c')
    end
  else Ok (s, c).

(** [dispatch] from the return of the handler. *)
Definition dispatch_finish (s : server) (r : running) (rep : marshall) (ret : Z)
    : outcome server :=
  let h := run_h r in
  _ ← cassert ((0 <=? ret) || (ret =? unmarshal_args_failure));
  rep ← marshall_pack_reply_header rep (ReplyHeader (i32 (rq_xid h)) ret);
  let '(b1, sz1, _) := marshall_take_buf rep in
  let s := if 0 <? rq_clt_nonce h
           then with_window s (add_reply (s_reply_window s) (rq_clt_nonce h)
                                 (u32 (rq_xid h)) b1 sz1)
           else s in
  '(s, c) ← latest_conn s (run_conn r) (rq_clt_nonce h);
  s ← conn_send s c b1 sz1;
  conn_decref s c.

(** One request dispatched without interleaving. *)
Definition dispatch (s : server) (j : djob_t) : outcome server :=
  '(s, next) ← dispatch_begin s j;
  match next with
  | None => Ok s
  | Some r =>
      '(a, rep, ret) ← run_f r (run_req r) marshall_new (s_app s);
      dispatch_finish (with_app s a) r rep ret
  end.

(** [rpcbind], the handler the constructor registers: the server's nonce as an
    [int]. *)
Definition rpcbind (nonce : Z) (a r : Z) (s : St) : outcome (St * Z * Z) :=
  Ok (s, i32 nonce, 0).

(** The constructor: a nonce and [rpcbind] registered; [a0] and [r0] are what
    the uninitialised [int]s of its handler hold. *)
Definition rpcs_start (random count : Z) (a0 r0 : Z) (app : St) : outcome server :=
  let s := rpcs_new random count app in
  reg1 s rpc_bind (h1_fn i32_c i32_c a0 r0 (rpcbind (s_nonce s))).
End Server.

(** ** The window as a table *)

(** What the server knows of request [x] of client [clt]. *)
Definition entry (l : list reply_t) (x : Z) : option reply_t :=
  last (filter (fun e => r_xid e = x) l).

(** Two windows with the same lists; an absent client is one with no replies. *)
Definition window_equiv (w w' : window) : Prop :=
  forall clt, replies_of w clt = replies_of w' clt.

#[export] Instance window_equiv_equivalence : Equivalence window_equiv.
Proof.
  unfold window_equiv. split; [by intros ? ?|by intros ? ? ? ?|].
  intros ??? H1 H2 c. by rewrite H1.
Qed.

Lemma replies_of_insert w clt l clt' :
  replies_of (<[clt := l]> w) clt' = if decide (clt = clt') then l else replies_of w clt'.
Proof. unfold replies_of. rewrite lookup_insert. by repeat case_decide. Qed.

Lemma window_create w clt :
  w !! clt = None -> window_equiv (<[clt := []]> w) w.
Proof.
  intros Hw c. rewrite replies_of_insert. case_decide; [|done]. subst.
  unfold replies_of. by rewrite Hw.
Qed.

Lemma prune_spec xid xid_rep l it :
  prune xid xid_rep l it =
    (filter (fun e => xid_rep < r_xid e) l,
     if xid_rep <? xid then match entry l xid with Some e => Some e | None => it end else it).
Proof.
  revert it. induction l as [|e l IH]; intros it; simpl.
  { by case_match. }
  rewrite !filter_cons. unfold entry. rewrite filter_cons.
  destruct (Z.ltb_spec xid_rep xid) as [Hlt|Hge];
    destruct (Z.leb_spec (r_xid e) xid_rep) as [Hle|Hgt].
  - rewrite (decide_False (P := xid_rep < r_xid e)) by lia.
    rewrite (proj2 (Z.eqb_neq _ _)), (decide_False (P := r_xid e = xid)) by lia. simpl.
    by rewrite IH.
  - rewrite (decide_True (P := xid_rep < r_xid e)) by lia. rewrite IH. f_equal. rewrite andb_true_r.
    destruct (Z.eqb_spec (r_xid e) xid) as [->|Hne].
    + rewrite (decide_True (P := xid = xid)) by done. unfold entry.
      rewrite last_cons. by destruct (last _).
    + by rewrite (decide_False (P := r_xid e = xid)) by done.
  - rewrite (decide_False (P := xid_rep < r_xid e)) by lia.
    by rewrite andb_false_r, IH.
  - rewrite (decide_True (P := xid_rep < r_xid e)) by lia.
    by rewrite andb_false_r, IH.
Qed.

(** The answer to a request, from the table alone. *)
Definition verdict (l : list reply_t) (xid xid_rep : Z) : rpcstate_t * (option bytes * Z) :=
  if xid_rep <? xid then
    match entry l xid with
    | None => (NEW, (None, 0))
    | Some e => if r_cb_present e then (DONE, (r_buf e, r_sz e)) else (INPROGRESS, (None, 0))
    end
  else match l with [] => (NEW, (None, 0)) | _ => (FORGOTTEN, (None, 0)) end.

(** The client's list after it. *)
Definition updated (l : list reply_t) (xid xid_rep : Z) : list reply_t :=
  filter (fun e => xid_rep < r_xid e) l
  ++ (if decide ((verdict l xid xid_rep).1 = NEW) then [reply_new xid] else []).

Lemma checkduplicate_verdict rw clt xid xid_rep :
  checkduplicate_and_update rw clt xid xid_rep =
    (<[clt := updated (replies_of rw clt) xid xid_rep]> rw,
     (verdict (replies_of rw clt) xid xid_rep).1, (verdict (replies_of rw clt) xid xid_rep).2).
Proof.
  unfold checkduplicate_and_update, updated, verdict.
  destruct (replies_of rw clt) as [|e l] eqn:E.
  { by destruct (xid_rep <? xid). }
  rewrite <- E. rewrite prune_spec. destruct (Z.ltb_spec xid_rep xid) as [Hlt|Hge].
  - destruct (entry _ xid) as [e'|].
    + destruct (r_cb_present e'); simpl; by rewrite app_nil_r.
    + simpl. by rewrite (proj2 (Z.leb_gt _ _)) by lia.
  - rewrite (proj2 (Z.leb_le _ _)) by lia. rewrite E. simpl. by rewrite app_nil_r.
Qed.

#[export] Instance replies_of_proper : Proper (window_equiv ==> eq ==> eq) replies_of.
Proof. intros w w' Hw clt ? <-. apply Hw. Qed.

#[export] Instance checkduplicate_proper :
  Proper (window_equiv ==> eq ==> eq ==> eq ==>
          fun r r' => window_equiv r.1.1 r'.1.1 /\ r.1.2 = r'.1.2 /\ r.2 = r'.2)
    checkduplicate_and_update.
Proof.
  intros w w' Hw clt ? <- x ? <- r ? <-. rewrite !checkduplicate_verdict. simpl.
  rewrite (Hw clt). split; [|done]. intros c. rewrite !replies_of_insert.
  by case_decide.
Qed.

#[export] Instance add_reply_proper :
  Proper (window_equiv ==> eq ==> eq ==> eq ==> eq ==> window_equiv) add_reply.
Proof.
  intros w w' Hw clt ? <- x ? <- b ? <- sz ? <- c. unfold add_reply.
  rewrite !replies_of_insert. by rewrite !Hw.
Qed.

(** *** How the operations change one entry *)
Lemma entry_app l k x :
  entry (l ++ k) x = match entry k x with Some e => Some e | None => entry l x end.
Proof. unfold entry. rewrite filter_app, last_app. done. Qed.

Lemma entry_filter l x xid_rep :
  xid_rep < x -> entry (filter (fun e => xid_rep < r_xid e) l) x = entry l x.
Proof.
  intros Hx. unfold entry. rewrite list_filter_filter. f_equal. apply list_filter_iff.
  intros e. split; [tauto|]. intros ->. done.
Qed.

Lemma entry_pruned l x xid_rep :
  x <= xid_rep -> entry (filter (fun e => xid_rep < r_xid e) l) x = None.
Proof.
  intros Hx. unfold entry. rewrite list_filter_filter.
  induction l as [|e l IH]; [done|]. rewrite filter_cons.
  rewrite decide_False by lia. done.
Qed.

Lemma entry_reply_new y x : entry [reply_new y] x = if decide (y = x) then Some (reply_new y) else None.
Proof. unfold entry. rewrite filter_cons. simpl. by repeat case_decide. Qed.

(** A request leaves another one's entry alone unless it acknowledges it. *)
Lemma entry_updated_other l y xid_rep x :
  y <> x -> xid_rep < x -> entry (updated l y xid_rep) x = entry l x.
Proof.
  intros Hy Hx. unfold updated. rewrite entry_app.
  destruct (decide _).
  - rewrite entry_reply_new, decide_False by done. by apply entry_filter.
  - by apply entry_filter.
Qed.

(** A request that is known stays as it is. *)
Lemma entry_updated_known l xid xid_rep e :
  xid_rep < xid -> entry l xid = Some e -> entry (updated l xid xid_rep) xid = Some e.
Proof.
  intros Hx He. unfold updated, verdict. rewrite (proj2 (Z.ltb_lt _ _)), He by done.
  destruct (r_cb_present e); simpl; rewrite app_nil_r; by rewrite entry_filter.
Qed.

Lemma entry_updated_new l xid xid_rep :
  (verdict l xid xid_rep).1 = NEW -> entry (updated l xid xid_rep) xid = Some (reply_new xid).
Proof.
  intros Hv. unfold updated. rewrite decide_True by done.
  by rewrite entry_app, entry_reply_new, decide_True.
Qed.

(** An acknowledgement forgets everything up to it. *)
Lemma entry_updated_acked l y xid_rep x :
  y <> x -> x <= xid_rep -> entry (updated l y xid_rep) x = None.
Proof.
  intros Hy Hx. unfold updated. rewrite entry_app.
  destruct (decide _); [rewrite entry_reply_new, decide_False by done|]; by apply entry_pruned.
Qed.

Lemma entry_set_reply l xid b sz x :
  entry (map (set_reply xid b sz) l) x = set_reply xid b sz <$> entry l x.
Proof.
  unfold entry. induction l as [|e l IH]; [done|]. cbn [map].
  assert (r_xid (set_reply xid b sz e) = r_xid e) as Hx
    by (unfold set_reply; by case_match).
  rewrite !filter_cons, Hx. case_decide; [|done].
  rewrite !last_cons, IH. by destruct (last (filter (fun e => r_xid e = x) l)).
Qed.

(** A request already in the table is not new. *)
Lemma verdict_known l xid xid_rep :
  xid_rep < xid -> entry l xid <> None -> (verdict l xid xid_rep).1 <> NEW.
Proof.
  intros Hx He. unfold verdict. rewrite (proj2 (Z.ltb_lt _ _)) by done.
  destruct (entry l xid) as [e|]; [|done]. by destruct (r_cb_present e).
Qed.

(** ** At most once, over all interleavings *)
Section AtMostOnce.
Context `{Memory} {St : Type}.

(** The server, the requests whose handlers are running in pool threads, and
    two histories: the requests whose handlers were started, and the
    acknowledgements ([xid_rep]) the requests carried. *)
Record world := World {
  w_srv : rpcs St;
  w_running : list (@running St);
  w_started : list (Z * Z);
  w_acks : list (Z * Z) }.

(** The header a job starts with. *)
Definition job_header (j : djob_t) : outcome req_header :=
  '(_, h) ← unmarshall_unpack_req_header (unmarshall_new (j_buf j) (j_sz j)); Ok h.

Definition job_key (h : req_header) : Z * Z := (rq_clt_nonce h, u32 (rq_xid h)).
Definition job_ack (h : req_header) : Z * Z := (rq_clt_nonce h, u32 (rq_xid_rep h)).

(** A pool thread starts on a job or finishes one whose handler has returned. *)
Inductive world_step : world -> world -> Prop :=
  | step_begin w j h s' next :
      job_header j = Ok h ->
      dispatch_begin (w_srv w) j = Ok (s', next) ->
      world_step w (World s' (match next with Some r => r :: w_running w | None => w_running w end)
        (match next with Some _ => job_key h :: w_started w | None => w_started w end)
        (job_ack h :: w_acks w))
  | step_finish w l1 r l2 a rep ret s' :
      w_running w = l1 ++ r :: l2 ->
      run_f r (run_req r) marshall_new (s_app (w_srv w)) = Ok (a, rep, ret) ->
      dispatch_finish (with_app (w_srv w) a) r rep ret = Ok s' ->
      world_step w (World s' (l1 ++ l2) (w_started w) (w_acks w)).

(** Nobody has acknowledged request [x] of [clt] yet. *)
Definition unacked (w : world) (clt x : Z) : Prop :=
  forall r, (clt, r) ∈ w_acks w -> r < x.

Definition times_started (w : world) (clt x : Z) : nat :=
  length (filter (fun k => k = (clt, x)) (w_started w)).

Definition once_inv (w : world) : Prop :=
  forall clt x, clt <> 0 -> unacked w clt x ->
    (times_started w clt x <= 1)%nat /\
    (times_started w clt x = 1%nat -> entry (replies_of (s_reply_window (w_srv w)) clt) x <> None).

(** *** What [dispatch_begin] does to the window *)
Lemma conn_incref_window (s s' : rpcs St) c :
  conn_incref s c = Ok s' -> s_reply_window s' = s_reply_window s.
Proof. unfold conn_incref. intros. destruct (obj s c); simplify_eq/=. done. Qed.

Lemma conn_decref_window (s s' : rpcs St) c :
  conn_decref s c = Ok s' -> s_reply_window s' = s_reply_window s.
Proof.
  unfold conn_decref. intros. destruct (obj s c); simplify_eq/=.
  destruct (decref _) as [[]|]; simplify_eq/=; done.
Qed.

Lemma conn_send_window (s s' : rpcs St) c b sz :
  conn_send s c b sz = Ok s' -> s_reply_window s' = s_reply_window s.
Proof.
  unfold conn_send. intros. destruct (obj s c); simplify_eq/=.
  destruct (isdead _), b; simplify_eq/=; try done.
  destruct (slice _ _ _); simplify_eq/=. done.
Qed.

Lemma send_error_window (s s' : rpcs St) c xid ret :
  send_error s c xid ret = Ok s' -> s_reply_window s' = s_reply_window s.
Proof.
  unfold send_error. intros. destruct (marshall_pack_reply_header _ _); simplify_eq/=.
  by eapply conn_send_window.
Qed.

Lemma save_conn_window (s s' : rpcs St) clt c :
  save_conn s clt c = Ok s' -> s_reply_window s' = s_reply_window s.
Proof.
  unfold save_conn. intros Hs. destruct (s_conns s !! clt) as [c'|].
  - destruct (c' =? c); simplify_eq; [done|].
    destruct (conn_decref s c') as [s1|] eqn:E1; simplify_eq/=.
    destruct (conn_incref s1 c) as [s2|] eqn:E2; simplify_eq/=.
    by rewrite (conn_incref_window _ _ _ E2), (conn_decref_window _ _ _ E1).
  - destruct (conn_incref s c) as [s1|] eqn:E1; simplify_eq/=.
    by rewrite (conn_incref_window _ _ _ E1).
Qed.

(** The first half of a dispatch either leaves the window alone, or is one
    table lookup for the request's key; it starts the handler exactly when the
    table says NEW (a client with nonce 0 always gets NEW). *)
Lemma dispatch_begin_window (s s' : rpcs St) j h next :
  job_header j = Ok h -> dispatch_begin s j = Ok (s', next) ->
  (window_equiv (s_reply_window s') (s_reply_window s) /\ (next = None \/ rq_clt_nonce h = 0)) \/
  (let '(clt, x) := job_key h in let '(_, r) := job_ack h in
   let l := replies_of (s_reply_window s) clt in
   window_equiv (s_reply_window s') (<[clt := updated l x r]> (s_reply_window s)) /\
   (next = None <-> (verdict l x r).1 <> NEW)).
Proof.
  unfold job_header, dispatch_begin.
  destruct (unmarshall_unpack_req_header _) as [[req h']|] eqn:E; simpl; [|done].
  intros [= ->] Hb. destruct (u_ok req); simpl in Hb; [|left].
  2: { destruct (conn_decref s _) eqn:D; simplify_eq/=.
       rewrite (conn_decref_window _ _ _ D). split; [done|by left]. }
  destruct (negb (rq_srv_nonce h =? 0) && _); simpl in Hb; [left|].
  { destruct (send_error s _ _ _) eqn:D; simplify_eq/=.
    rewrite (send_error_window _ _ _ _ _ D). split; [done|by left]. }
  destruct (s_procs s !! rq_proc h) as [f|]; [|left].
  2: { destruct (conn_decref s _) eqn:D; simplify_eq/=.
       rewrite (conn_decref_window _ _ _ D). split; [done|by left]. }
  destruct (Z.eqb_spec (rq_clt_nonce h) 0) as [Hz|Hz]; simpl in Hb.
  { left. simplify_eq. split; [|by right]. by destruct (negb (s_counting s =? 0)). }
  right. simpl. set (s1 := match s_reply_window s !! rq_clt_nonce h with Some _ => s | None => _ end) in Hb.
  assert (window_equiv (s_reply_window s1) (s_reply_window s)) as He.
  { subst s1. destruct (s_reply_window s !! rq_clt_nonce h) eqn:L; [done|].
    simpl. by apply window_create. }
  destruct (save_conn s1 _ _) as [s2|] eqn:Hs; simpl in Hb; [|done].
  apply save_conn_window in Hs. rewrite Hs, checkduplicate_verdict, He in Hb.
  set (clt := rq_clt_nonce h) in *. set (x := u32 (rq_xid h)) in *.
  set (r := u32 (rq_xid_rep h)) in *. set (l := replies_of (s_reply_window s) clt) in *.
  assert (window_equiv (<[clt := updated l x r]> (s_reply_window s1))
            (<[clt := updated l x r]> (s_reply_window s))) as Hu.
  { intros c. rewrite !replies_of_insert. case_decide; [done|]. apply He. }
  destruct (verdict l x r) as [st [b sz]]. simpl in Hb |- *. destruct st; simpl in Hb.
  - simplify_eq. split; [|done]. rewrite <- Hu. by destruct (negb _).
  - destruct (conn_decref _ _) eqn:D; simplify_eq/=.
    rewrite (conn_decref_window _ _ _ D). done.
  - destruct (conn_send _ _ _ _) eqn:D1; simplify_eq/=. destruct (conn_decref _ _) eqn:D; simplify_eq/=.
    rewrite (conn_decref_window _ _ _ D), (conn_send_window _ _ _ _ _ D1). done.
  - destruct (send_error _ _ _ _) eqn:D1; simplify_eq/=. destruct (conn_decref _ _) eqn:D; simplify_eq/=.
    rewrite (conn_decref_window _ _ _ D), (send_error_window _ _ _ _ _ D1). done.
Qed.

Lemma latest_conn_window (s s' : rpcs St) c clt c' :
  latest_conn s c clt = Ok (s', c') -> s_reply_window s' = s_reply_window s.
Proof.
  unfold latest_conn. intros Hl. destruct (obj s c); simplify_eq/=.
  destruct (isdead _ && _); simplify_eq; [|done].
  destruct (conn_decref s c) as [s1|] eqn:D; simplify_eq/=.
  destruct (s_conns s1 !! clt) as [c1|]; simplify_eq/=.
  destruct (conn_incref s1 c1) as [s2|] eqn:I; simplify_eq/=.
  by rewrite (conn_incref_window _ _ _ I), (conn_decref_window _ _ _ D).
Qed.

(** The second half fills in the reply of the request's own entry. *)
Lemma dispatch_finish_window (s s' : rpcs St) r rep ret :
  dispatch_finish s r rep ret = Ok s' ->
  exists b sz, s_reply_window s' =
    if 0 <? rq_clt_nonce (run_h r)
    then add_reply (s_reply_window s) (rq_clt_nonce (run_h r)) (u32 (rq_xid (run_h r))) b sz
    else s_reply_window s.
Proof.
  unfold dispatch_finish. intros Hf. destruct (cassert _); simplify_eq/=.
  destruct (marshall_pack_reply_header _ _) as [m|]; simplify_eq/=.
  destruct (latest_conn _ _ _) as [[s1 c]|] eqn:L; simplify_eq/=.
  destruct (conn_send s1 _ _ _) as [s2|] eqn:S; simplify_eq/=.
  exists (m_buf m), (m_ind m).
  rewrite (conn_decref_window _ _ _ Hf), (conn_send_window _ _ _ _ _ S), (latest_conn_window _ _ _ _ _ L).
  by destruct (0 <? _).
Qed.

Lemma add_reply_entry w clt xid b sz clt' x :
  entry (replies_of (add_reply w clt xid b sz) clt') x =
    if decide (clt = clt') then set_reply xid b sz <$> entry (replies_of w clt') x
    else entry (replies_of w clt') x.
Proof.
  unfold add_reply. rewrite replies_of_insert. case_decide; [|done]. subst.
  apply entry_set_reply.
Qed.

(** One lookup of a request's own key, [n] starts so far. *)
Lemma once_lookup l x r (n : nat) (new : bool) :
  r < x -> (n <= 1)%nat -> (n = 1%nat -> entry l x <> None) ->
  (new = false <-> (verdict l x r).1 <> NEW) ->
  let n' := if new then S n else n in
  (n' <= 1)%nat /\ (n' = 1%nat -> entry (updated l x r) x <> None).
Proof.
  intros Hr Hle Hent Hnew. destruct new; simpl.
  - destruct (decide ((verdict l x r).1 = NEW)) as [Hv|Hv]; [|by apply Hnew in Hv].
    rewrite (entry_updated_new _ _ _ Hv). split; [|done].
    destruct (decide (n = 1%nat)) as [->|]; [|lia].
    by destruct (verdict_known l x r Hr (Hent eq_refl)).
  - split; [done|]. intros ->. destruct (entry l x) as [e|] eqn:E; [|by destruct (Hent eq_refl)].
    by rewrite (entry_updated_known _ _ _ _ Hr E).
Qed.

(** Starting one more request changes only its own count. *)
Lemma times_started_begin w s' rs acks key (new : bool) clt x :
  times_started (World s' rs (if new then key :: w_started w else w_started w) acks) clt x
  = if new && bool_decide (key = (clt, x)) then S (times_started w clt x)
    else times_started w clt x.
Proof.
  destruct new; [|done]. unfold times_started; simpl. rewrite filter_cons.
  case_bool_decide as E; [by rewrite decide_True|by rewrite decide_False].
Qed.

Lemma once_inv_begin w j h s' next :
  once_inv w -> job_header j = Ok h -> dispatch_begin (w_srv w) j = Ok (s', next) ->
  once_inv (World s' (match next with Some r => r :: w_running w | None => w_running w end)
    (match next with Some _ => job_key h :: w_started w | None => w_started w end)
    (job_ack h :: w_acks w)).
Proof.
  intros Hinv Hh Hb clt x Hclt Hun.
  assert (unacked w clt x) as Hun0 by (intros r Hr; apply Hun; simpl; set_solver).
  specialize (Hinv clt x Hclt Hun0) as [Hle Hent].
  assert (rq_clt_nonce h = clt -> u32 (rq_xid_rep h) < x) as Hack
    by (intros <-; apply Hun; simpl; unfold job_ack; set_solver).
  replace (match next with Some _ => job_key h :: w_started w | None => w_started w end)
    with (if is_some next then job_key h :: w_started w else w_started w) by (by destruct next).
  rewrite times_started_begin. cbn [w_srv].
  destruct (dispatch_begin_window _ _ _ _ _ Hh Hb) as [[He Hn]|[He Hn]].
  - rewrite He. replace (is_some next && bool_decide (job_key h = (clt, x))) with false; [done|].
    destruct Hn as [->|Hz]; [done|]. rewrite bool_decide_false; [by rewrite andb_false_r|].
    unfold job_key. congruence.
  - simpl in He, Hn. rewrite He, replies_of_insert.
    case_bool_decide as Hk; unfold job_key in Hk.
    + simplify_eq. rewrite decide_True, andb_true_r by done.
      apply once_lookup; [by apply Hack|done|done|]. rewrite <- Hn. by destruct next.
    + rewrite andb_false_r. case_decide as Hc; [|done].
      subst clt. rewrite entry_updated_other; [done|congruence|by apply Hack].
Qed.

Lemma once_inv_step w w' : once_inv w -> world_step w w' -> once_inv w'.
Proof.
  intros Hinv Hstep. revert Hinv.
  destruct Hstep as [w0 j h s' next Hh Hb|w0 l1 r l2 a rep ret s' Hr Hf Hd]; intros Hinv.
  - by apply (once_inv_begin w0 j).
  - intros clt x Hclt Hun. destruct (Hinv clt x Hclt Hun) as [Hle Hent].
    destruct (dispatch_finish_window _ _ _ _ _ Hd) as (b & sz & Hw). cbn [w_srv]. rewrite Hw.
    split; [done|]. intros H1. specialize (Hent H1).
    case_match; [|done]. rewrite add_reply_entry. case_decide; [|done].
    simpl in *. by destruct (entry (replies_of (s_reply_window (w_srv w0)) clt) x).
Qed.

(** C3. At-most-once execution, over every interleaving of the dispatch pool's
    threads: starting from a server that has seen nothing, as long as no
    request of client [clt] has acknowledged [x] (carried an [xid_rep] of [x]
    or more), the handler of request [x] of that client has been started at
    most once, however often and on whichever connections it was received. *)
Theorem at_most_once (s : rpcs St) w clt x :
  s_reply_window s = ∅ -> rtc world_step (World s [] [] []) w ->
  clt <> 0 -> unacked w clt x -> (times_started w clt x <= 1)%nat.
Proof.
  intros Hs Hsteps Hclt Hun.
  enough (once_inv w) as Hi by apply (Hi clt x Hclt Hun).
  eapply rtc_invariant; [exact once_inv_step|exact Hsteps|].
  intros clt' x' _ _. unfold times_started. simpl. split; [lia|done].
Qed.

(** The steps as functions, to run concrete histories. *)
Definition begin_with (w : world) (j : djob_t) : outcome world :=
  h ← job_header j;
  '(s', next) ← dispatch_begin (w_srv w) j;
  Ok (World s' (match next with Some r => r :: w_running w | None => w_running w end)
        (match next with Some _ => job_key h :: w_started w | None => w_started w end)
        (job_ack h :: w_acks w)).

Definition finish_first (w : world) : outcome world :=
  match w_running w with
  | [] => Ok w
  | r :: l =>
      '(a, rep, ret) ← run_f r (run_req r) marshall_new (s_app (w_srv w));
      s' ← dispatch_finish (with_app (w_srv w) a) r rep ret;
      Ok (World s' l (w_started w) (w_acks w))
  end.

Lemma begin_with_step w j w' : begin_with w j = Ok w' -> world_step w w'.
Proof.
  unfold begin_with. intros Hb. destruct (job_header j) as [h|] eqn:Hh; simplify_eq/=.
  destruct (dispatch_begin (w_srv w) j) as [[s' next]|] eqn:Hd; simplify_eq/=.
  by eapply step_begin.
Qed.

Lemma finish_first_step w w' : finish_first w = Ok w' -> rtc world_step w w'.
Proof.
  unfold finish_first. intros Hf. destruct (w_running w) as [|r l] eqn:Hr; simplify_eq/=; [done|].
  destruct (run_f r _ _ _) as [[[a rep] ret]|] eqn:Hh; simplify_eq/=.
  destruct (dispatch_finish _ _ _ _) as [s'|] eqn:Hd; simplify_eq/=.
  apply rtc_once. by apply (step_finish w [] r l a rep ret s').
Qed.

(** A request, a copy while it runs, its end, another copy. *)
Definition copies_history (w : world) (j : djob_t) : outcome world :=
  w ← begin_with w j;
  w ← begin_with w j;
  w ← finish_first w;
  begin_with w j.

Lemma copies_history_reachable w j w' : copies_history w j = Ok w' -> rtc world_step w w'.
Proof.
  unfold copies_history.
  destruct (begin_with w j) as [w1|] eqn:E1; simpl; [|done].
  destruct (begin_with w1 j) as [w2|] eqn:E2; simpl; [|done].
  destruct (finish_first w2) as [w3|] eqn:E3; simpl; [|done]. intros E4.
  eapply rtc_l; [by eapply begin_with_step|]. eapply rtc_l; [by eapply begin_with_step|].
  etrans; [by eapply finish_first_step|]. apply rtc_once. by eapply begin_with_step.
Qed.
End AtMostOnce.
#[global] Arguments world : clear implicits.

(** A server (nonce 77) whose procedure 5 adds its argument to a total, with
    one client connection (object 4). *)
Module Demo.
#[local] Existing Instance zero_memory.

Definition add_handler : handler Z :=
  h1_fn i32_c i32_c 0 0 (fun a _ total => Ok (total + a, total + a, 0)).
Definition server : rpcs Z :=
  with_objs (with_procs (rpcs_new 77 0 0) {[5 := add_handler]}) {[4 := incref (connection_new 3 0)]}.
(** Request [xid] of client 9, acknowledging [xid_rep], argument 6. *)
Definition request (xid xid_rep : Z) : djob_t :=
  Djob (be32 0 ++ be32 xid ++ be32 5 ++ be32 9 ++ be32 77 ++ be32 xid_rep ++ be32 6) 28 4.
Definition start : world Z := World server [] [] [].
Definition final : world Z :=
  match copies_history start (request 1 0) with Ok w => w | Crash _ => start end.

Lemma final_reachable : rtc world_step start final.
Proof.
  assert (is_ok (copies_history start (request 1 0)) = true) as Hok by (by vm_compute).
  unfold final. revert Hok. generalize start (request 1 0). intros w j Hok.
  destruct (copies_history w j) as [w'|] eqn:E; [|done]. by eapply copies_history_reachable.
Qed.
End Demo.

(** Three copies of one request arrive: the handler ran once and the total is 6. *)
Lemma at_most_once_witness :
  s_app (w_srv Demo.final) = 6 /\ (times_started Demo.final 9 1 <= 1)%nat.
Proof.
  split; [vm_compute; reflexivity|].
  apply (@at_most_once zero_memory Z Demo.server Demo.final 9 1); [done| |done|].
  - apply Demo.final_reachable.
  - intros r Hr. replace (w_acks Demo.final) with [(9, 0); (9, 0); (9, 0)] in Hr
      by (vm_compute; reflexivity).
    set_solver.
Defined.

(** ** What a duplicate is answered *)

(** The two ways the window is used. *)
Inductive window_op :=
  | Check (clt xid xid_rep : Z)
  | Record_reply (clt xid : Z) (b : option bytes) (sz : Z).

Definition run_op (rw : window) (op : window_op) : window :=
  match op with
  | Check clt xid xid_rep => (checkduplicate_and_update rw clt xid xid_rep).1.1
  | Record_reply clt xid b sz => add_reply rw clt xid b sz
  end.

(** The reply last recorded for a request in a history. *)
Definition recorded (clt x : Z) (last : option (option bytes * Z)) (op : window_op)
    : option (option bytes * Z) :=
  match op with
  | Record_reply c y b sz => if (c =? clt) && (y =? x) then Some (b, sz) else last
  | Check _ _ _ => last
  end.

Definition acks_below (clt x : Z) (op : window_op) : Prop :=
  match op with Check c _ r => c = clt -> r < x | Record_reply _ _ _ _ => True end.

Definition entry_for (x : Z) (reply : option (option bytes * Z)) : reply_t :=
  match reply with None => reply_new x | Some (b, sz) => Reply x true b sz end.

Lemma run_op_entry rw op clt x last :
  acks_below clt x op ->
  entry (replies_of rw clt) x = Some (entry_for x last) ->
  entry (replies_of (run_op rw op) clt) x = Some (entry_for x (recorded clt x last op)).
Proof.
  intros Ha He. destruct op as [c y r|c y b sz]; simpl in *.
  - rewrite checkduplicate_verdict. simpl. rewrite replies_of_insert. case_decide; [|done].
    subst. specialize (Ha eq_refl). destruct (decide (y = x)) as [->|].
    + by apply entry_updated_known.
    + by rewrite entry_updated_other.
  - rewrite add_reply_entry. case_decide as Hc.
    + subst. rewrite He, Z.eqb_refl. simpl. unfold set_reply.
      assert (r_xid (entry_for x last) = x) as -> by (by destruct last as [[]|]).
      destruct (Z.eqb_spec y x) as [->|].
      * by rewrite Z.eqb_refl.
      * by rewrite (proj2 (Z.eqb_neq x y)) by done.
    + by rewrite (proj2 (Z.eqb_neq c clt)) by done.
Qed.

Lemma run_ops_entry ops rw clt x last :
  Forall (acks_below clt x) ops ->
  entry (replies_of rw clt) x = Some (entry_for x last) ->
  entry (replies_of (foldl run_op rw ops) clt) x
    = Some (entry_for x (foldl (recorded clt x) last ops)).
Proof.
  intros Ha. revert rw last. induction Ha as [|op ops Hop _ IH]; intros rw last He; [done|].
  simpl. apply IH. by apply run_op_entry.
Qed.

(** A duplicate is answered with the original's reply. After the server has
    told a request [x] of client [clt] apart as new, let it process any
    requests of any clients and record any replies, as long as none of the
    client's requests acknowledges [x]: a further copy of [x] is reported in
    progress while no reply for it has been recorded, and done, with exactly
    the recorded reply, afterwards -- and never as new. *)
Theorem duplicate_answer rw clt x r0 ops r :
  (checkduplicate_and_update rw clt x r0).1.2 = NEW ->
  Forall (acks_below clt x) ops -> r < x ->
  let rw' := foldl run_op (checkduplicate_and_update rw clt x r0).1.1 ops in
  (checkduplicate_and_update rw' clt x r).1.2 =
    match foldl (recorded clt x) None ops with None => INPROGRESS | Some _ => DONE end /\
  (forall b sz, foldl (recorded clt x) None ops = Some (b, sz) ->
     (checkduplicate_and_update rw' clt x r).2 = (b, sz)).
Proof.
  intros Hnew Hops Hr rw'. rewrite checkduplicate_verdict in Hnew. simpl in Hnew.
  assert (entry (replies_of rw' clt) x = Some (entry_for x (foldl (recorded clt x) None ops))) as He.
  { apply run_ops_entry; [done|]. rewrite checkduplicate_verdict. simpl.
    rewrite replies_of_insert, decide_True by done. by apply entry_updated_new. }
  rewrite checkduplicate_verdict. simpl. unfold verdict.
  rewrite (proj2 (Z.ltb_lt _ _)), He by done.
  destruct (foldl (recorded clt x) None ops) as [[b sz]|]; simpl; [|done].
  split; [done|]. by intros ? ? [= <- <-].
Qed.

Lemma duplicate_answer_witness :
  (checkduplicate_and_update
     (foldl run_op (checkduplicate_and_update ∅ 9 1 0).1.1
        [Check 9 2 0; Record_reply 9 1 (Some [7]) 1; Check 8 5 4]) 9 1 0).1.2 = DONE.
Proof.
  apply (duplicate_answer ∅ 9 1 0
    [Check 9 2 0; Record_reply 9 1 (Some [7]) 1; Check 8 5 4] 0); [done| |lia].
  repeat constructor; simpl; lia.
Defined.

(** Once the client has acknowledged [x] the server forgets it, and a copy of
    the request that is dispatched late (it still carries its old [xid_rep])
    is taken for a new request: the window compares a request only with the
    acknowledgement it carries itself, not with the highest one received. *)
Theorem late_duplicate_is_new rw clt x y ack r :
  y <> x -> x <= ack -> r < x ->
  (checkduplicate_and_update (checkduplicate_and_update rw clt y ack).1.1 clt x r).1.2 = NEW.
Proof.
  intros Hy Ha Hr. rewrite !checkduplicate_verdict. simpl.
  rewrite replies_of_insert, decide_True by done. unfold verdict.
  by rewrite (proj2 (Z.ltb_lt _ _)), entry_updated_acked by done.
Qed.

(** Request 1 is answered, request 2 acknowledges it, and a second copy of
    request 1 left in a worker's hands is executed again. *)
Lemma late_duplicate_is_new_witness :
  (checkduplicate_and_update
     (checkduplicate_and_update
        (foldl run_op ∅ [Check 9 1 0; Record_reply 9 1 (Some [7]) 1]) 9 2 1).1.1 9 1 0).1.2 = NEW.
Proof. apply late_duplicate_is_new; lia. Defined.

(** ** A reply with nowhere to go *)
Section Anonymous.
Context `{Memory} {St : Type}.

(** A reply to a client without a nonce whose connection died while the
    handler ran ends the server process: [conns_] has no entry for nonce 0, so
    the connection it is looked up in is NULL. *)
Theorem anonymous_reply_on_dead_connection (s : rpcs St) r m ret k :
  marshall_wf m -> m_ind m <= MAX_MSG -> 0 <= ret ->
  rq_clt_nonce (run_h r) = 0 -> s_conns s !! 0 = None ->
  s_objs s !! run_conn r = Some k -> c_dead k = true -> 1 < c_refno k ->
  dispatch_finish s r m ret = Crash NullDereference.
Proof.
  intros Hwf Hi Hret Hz Hc Hk Hd Hn. unfold dispatch_finish.
  rewrite (proj2 (Z.leb_le _ _)) by lia. cbn [cassert orb mbind outcome_bind].
  destruct (pack_reply_header_ok m (ReplyHeader (i32 (rq_xid (run_h r))) ret) Hwf Hi) as (m' & -> & _).
  cbn [mbind outcome_bind marshall_take_buf]. rewrite Hz. cbn [Z.ltb Z.compare].
  unfold latest_conn, obj. rewrite Hk. cbn [mbind outcome_bind]. unfold isdead. rewrite Hd, Hc.
  rewrite bool_decide_false by done. cbn [andb negb]. unfold conn_decref, obj. rewrite Hk.
  cbn [mbind outcome_bind]. unfold decref. cbn [c_refno set_refno].
  rewrite (proj2 (Z.leb_le _ _)), (proj2 (Z.eqb_neq _ _)) by lia. cbn [mbind outcome_bind cassert].
  cbn [s_conns with_objs]. by rewrite Hc.
Qed.
End Anonymous.

#[local] Existing Instance zero_memory.

(** The connection is closed while client 0 waits for procedure 5. *)
Lemma anonymous_reply_on_dead_connection_witness :
  dispatch_finish
    (with_objs Demo.server {[4 := fst (closeconn (incref (connection_new 3 0)))]})
    (Running 4 unmarshall_empty (ReqHeader 1 5 0 77 0) Demo.add_handler) marshall_new 0
  = Crash NullDereference.
Proof.
  apply (anonymous_reply_on_dead_connection _ _ _ _ (fst (closeconn (incref (connection_new 3 0)))));
    [apply marshall_new_wf|by vm_compute|lia|done|done| |done|by vm_compute].
  cbn [s_objs with_objs run_conn]. apply lookup_singleton_eq.
Defined.
