(* ===== verification/Serve.v ===== *)
(** * Serving a request: functional correctness of rpcs::dispatch

    The branch of [dispatch] for a request the server has not seen: the handler
    the stubs of rpc.h registered gets exactly the marshalled arguments, its
    result goes out in a well-formed reply on the request's connection, and the
    reply is recorded for duplicates. *)

From S2P Require Import Prelude Marshall Connection Rpcs.
Local Open Scope Z_scope.

(** Overwriting the header space of a message with a reply header. *)
Lemma splice_is_reply c h body :
  RPC_HEADER_SZ <= zlen c < 2 ^ 31 -> drop 24 c = body ->
  is_reply (splice c 4 (reply_header_image h)) h body.
Proof.
  intros Hc Hb. unfold is_reply. header_sz.
  assert (zlen (reply_header_image h) = 8) as E8 by done.
  rewrite zlen_splice by lia. split; [lia|]. split.
  - apply header_in_place; [done|lia].
  - rewrite <- Hb. apply (drop_splice _ 4 _ 24); lia.
Qed.

(** ** Serving a request *)
Section Serving.
Context `{Memory} {St : Type}.
Context {A R : Type} (ca : codec A) (cr : codec R) `{!Wire ca, !Wire cr}.

(** What a handler does with a request body: on any buffer with these bytes
    left it turns the service's state [s] into [s'], marshals [body] after the
    room for a header and returns [b]. *)
Definition serves (f : handler St) (args : bytes) (s s' : St) (body : bytes) (b : Z) : Prop :=
  forall u, remaining u args -> exists m, f u marshall_new s = Ok (s', m, b) /\ marshall_wf m /\
    m_ind m = RPC_HEADER_SZ + zlen body /\ drop 24 (contents m) = body.

Lemma serves_ext (f g : handler St) args s s' body b :
  (forall u m s, f u m s = g u m s) -> serves g args s s' body b -> serves f args s s' body b.
Proof. intros Hfg Hg u Hu. rewrite Hfg. by apply Hg. Qed.

(** A registered method on well-formed arguments. *)
Lemma h1_fn_serves (a a0 : A) (r0 r : R) meth (s s' : St) b :
  representable ca a -> declared ca a0 ->
  meth a r0 s = Ok (s', r, b) -> representable cr r ->
  RPC_HEADER_SZ + zlen (image cr r) <= MAX_MSG ->
  serves (h1_fn ca cr a0 r0 meth) (image ca a) s s' (image cr r) b.
Proof.
  intros Ha Ha0 Hm Hr Hs u Hu. destruct (get_body ca u a a0 Ha Ha0 Hu) as (u' & E & Hd).
  destruct (put_fresh cr r Hr Hs) as (m & Em & Wm & Im & Dm).
  exists m. split; [|done]. unfold h1_fn. rewrite E. cbn [mbind outcome_bind].
  rewrite Hd. cbn [negb]. rewrite Hm. cbn [mbind outcome_bind]. by rewrite Em.
Qed.

(** Arguments that do not parse, or leave bytes over, never reach the method. *)
Lemma h1_fn_bad_args (a0 a : A) (r0 : R) meth (s : St) u u' m :
  get ca u a0 = Ok (u', a) -> unmarshall_okdone u' = false ->
  h1_fn ca cr a0 r0 meth u m s = Ok (s, m, unmarshal_args_failure).
Proof. intros E Hd. unfold h1_fn. rewrite E. cbn [mbind outcome_bind]. by rewrite Hd. Qed.

Lemma marshall_new_body : drop 24 (contents marshall_new) = [].
Proof.
  pose proof (contents_length marshall_new marshall_new_wf) as L.
  assert (m_ind marshall_new = 24) as I by done. rewrite I in L.
  apply drop_ge. unfold zlen in L. lia.
Qed.

Lemma h1_fn_serves_bad_args args (a0 : A) (r0 : R) meth (s : St) :
  (forall u, remaining u args -> exists u' a, get ca u a0 = Ok (u', a) /\ unmarshall_okdone u' = false) ->
  serves (h1_fn ca cr a0 r0 meth) args s s [] unmarshal_args_failure.
Proof.
  intros Hbad u Hu. destruct (Hbad u Hu) as (u' & a & E & Hd). exists marshall_new.
  rewrite (h1_fn_bad_args a0 a r0 meth s u u' marshall_new E Hd).
  split; [done|]. split; [apply marshall_new_wf|]. split; [done|apply marshall_new_body].
Qed.
End Serving.

Section Dispatching.
Context `{Memory} {St : Type}.

(** A connection the server can answer on. *)
Definition live (s : rpcs St) (c : Z) (n : Z) : Prop :=
  exists k, s_objs s !! c = Some k /\ c_dead k = false /\ n <= c_refno k.

Lemma live_weaken s c n n' : n' <= n -> live s c n -> live s c n'.
Proof. intros ? (k & ? & ? & ?). exists k. split_and!; [done|done|lia]. Qed.

(** What [dispatch] leaves alone up to the handler call. *)
Definition same_service (s s' : rpcs St) : Prop :=
  s_app s' = s_app s /\ s_sent s' = s_sent s /\ s_procs s' = s_procs s /\ s_nonce s' = s_nonce s.

Lemma conn_incref_ok s c n :
  live s c n -> exists s', conn_incref s c = Ok s' /\ same_service s s' /\ live s' c (n + 1) /\
    s_conns s' = s_conns s /\ s_reply_window s' = s_reply_window s.
Proof.
  intros (k & Hk & Hd & Hn). unfold conn_incref, obj. rewrite Hk. cbn [mbind outcome_bind].
  eexists. split; [done|]. split; [done|]. split; [|done].
  exists (incref k). cbn [s_objs with_objs]. rewrite lookup_insert, decide_True by done.
  cbn. split_and!; [done|done|lia].
Qed.

Lemma save_conn_ok s clt c n :
  live s c n -> (s_conns s !! clt = None \/ s_conns s !! clt = Some c) ->
  exists s', save_conn s clt c = Ok s' /\ same_service s s' /\ live s' c n /\
    s_conns s' !! clt = Some c /\ s_reply_window s' = s_reply_window s.
Proof.
  intros Hl Hc. unfold save_conn. destruct Hc as [-> | Hc].
  - destruct (conn_incref_ok s c n Hl) as (s' & -> & Hs & Hl' & _ & Hw). cbn [mbind outcome_bind].
    eexists. split; [done|]. split; [done|]. split; [by apply (live_weaken _ _ (n + 1)); [lia|]|].
    cbn [s_conns with_conns s_reply_window]. by rewrite lookup_insert, decide_True.
  - rewrite Hc, Z.eqb_refl. exists s. done.
Qed.

(** A request the server has not seen reaches its handler, with its arguments
    unread. *)
Lemma dispatch_begin_new s j msg h body f n :
  holds (j_buf j) (j_sz j) msg -> is_req_header h -> is_request msg h body ->
  (rq_srv_nonce h = 0 \/ rq_srv_nonce h = s_nonce s) ->
  s_procs s !! rq_proc h = Some f -> live s (j_conn j) n ->
  (rq_clt_nonce h = 0 \/
   ((s_conns s !! rq_clt_nonce h = None \/ s_conns s !! rq_clt_nonce h = Some (j_conn j)) /\
    (verdict (replies_of (s_reply_window s) (rq_clt_nonce h)) (u32 (rq_xid h))
       (u32 (rq_xid_rep h))).1 = NEW)) ->
  exists s' u, dispatch_begin s j = Ok (s', Some (Running (j_conn j) u h f)) /\
    remaining u body /\ same_service s s' /\ live s' (j_conn j) n /\
    (rq_clt_nonce h <> 0 ->
       entry (replies_of (s_reply_window s') (rq_clt_nonce h)) (u32 (rq_xid h))
       = Some (reply_new (u32 (rq_xid h))) /\
       s_conns s' !! rq_clt_nonce h = Some (j_conn j) /\
       forall x, x <> u32 (rq_xid h) -> u32 (rq_xid_rep h) < x ->
         entry (replies_of (s_reply_window s') (rq_clt_nonce h)) x =
         entry (replies_of (s_reply_window s) (rq_clt_nonce h)) x).
Proof.
  intros Hm Hh Hr Hnonce Hproc Hlive Hclt.
  destruct (unpack_req_header_ok _ _ _ _ _ Hm Hh Hr) as (u & Eu & Hrem).
  assert (u_ok u = true) as Hok by (destruct Hrem as (? & _ & Hu & _); done).
  unfold dispatch_begin. rewrite Eu. cbn [mbind outcome_bind]. rewrite Hok. cbn [negb].
  replace (negb (rq_srv_nonce h =? 0) && negb (rq_srv_nonce h =? s_nonce s)) with false
    by (destruct Hnonce as [->| ->]; rewrite Z.eqb_refl; [done|by rewrite andb_false_r]).
  rewrite Hproc. destruct (Z.eqb_spec (rq_clt_nonce h) 0) as [Hz|Hz]; cbn [negb mbind outcome_bind].
  { eexists _, u. split; [done|]. split; [done|]. by destruct (negb (s_counting s =? 0)). }
  destruct Hclt as [?|[Hconn Hv]]; [done|].
  set (s1 := match s_reply_window s !! rq_clt_nonce h with Some _ => s | None => _ end).
  assert (same_service s s1 /\ s_conns s1 = s_conns s /\ live s1 (j_conn j) n /\
          window_equiv (s_reply_window s1) (s_reply_window s)) as (H1 & Hc1 & Hl1 & He).
  { subst s1. destruct (s_reply_window s !! rq_clt_nonce h) eqn:L; [done|].
    split_and!; [done|done|done|]. by apply window_create. }
  rewrite <- Hc1 in Hconn.
  destruct (save_conn_ok s1 _ _ _ Hl1 Hconn) as (s2 & -> & H2 & Hl2 & Hc2 & Hw2). cbn [mbind outcome_bind].
  rewrite Hw2, checkduplicate_verdict, He, Hv. cbn [mbind outcome_bind].
  eexists _, u. split; [done|]. split; [done|].
  destruct H1 as (?&?&?&?), H2 as (?&?&?&?).
  assert (same_service s (with_window s2 (<[rq_clt_nonce h := updated
    (replies_of (s_reply_window s) (rq_clt_nonce h)) (u32 (rq_xid h)) (u32 (rq_xid_rep h))]> (s_reply_window s1))))
    by (unfold same_service; cbn; split_and!; congruence).
  destruct (negb (s_counting _ =? 0)); (split; [done|]; split; [done|]; intros _;
    cbn [s_reply_window with_window with_counts updatestat s_conns];
    rewrite replies_of_insert, decide_True by done;
    split_and!; [by apply entry_updated_new|done|];
    intros x Hx Hr'; by apply entry_updated_other).
Qed.

Lemma conn_decref_ok s c :
  live s c 1 -> exists s', conn_decref s c = Ok s' /\ same_service s s' /\
    s_reply_window s' = s_reply_window s /\ s_conns s' = s_conns s /\
    (forall n, 1 <= n -> live s c (n + 1) -> live s' c n).
Proof.
  intros (k & Hk & Hd & Hn). unfold conn_decref, obj. rewrite Hk. cbn [mbind outcome_bind].
  unfold decref. cbn [c_refno set_refno c_dead].
  rewrite (proj2 (Z.leb_le _ _)), Hd by lia. cbn [mbind outcome_bind cassert].
  destruct (Z.eqb_spec (c_refno k - 1) 0) as [Hz|Hz]; eexists; (split; [done|]); (split; [done|]);
    (split; [done|]); (split; [done|]); intros n Hn' (k' & Hk' & _ & Hr); rewrite Hk in Hk'; simplify_eq.
  - lia.
  - exists (set_refno k' (c_refno k' - 1)). cbn [s_objs with_objs].
    rewrite lookup_insert, decide_True by done. split_and!; [done|done|cbn; lia].
Qed.

(** A handler that has returned is answered on its connection, and the reply
    is kept for duplicates. *)
Lemma dispatch_finish_ok s r m ret body :
  marshall_wf m -> drop 24 (contents m) = body -> RPC_HEADER_SZ <= m_ind m <= MAX_MSG ->
  0 <= ret \/ ret = unmarshal_args_failure -> is_u32 (rq_clt_nonce (run_h r)) -> live s (run_conn r) 1 ->
  let xid := u32 (rq_xid (run_h r)) in let clt := rq_clt_nonce (run_h r) in
  (clt <> 0 -> entry (replies_of (s_reply_window s) clt) xid = Some (reply_new xid)) ->
  exists s' out buf, dispatch_finish s r m ret = Ok s' /\ s_app s' = s_app s /\
    s_sent s' = s_sent s ++ [(run_conn r, out)] /\
    is_reply out (ReplyHeader (i32 (rq_xid (run_h r))) ret) body /\
    holds buf (zlen out) out /\
    (clt <> 0 -> entry (replies_of (s_reply_window s') clt) xid
                 = Some (Reply xid true (Some buf) (zlen out))) /\
    (forall x, x <> xid -> entry (replies_of (s_reply_window s) clt) x = None ->
       entry (replies_of (s_reply_window s') clt) x = None) /\
    s_procs s' = s_procs s /\ s_nonce s' = s_nonce s /\ s_conns s' = s_conns s /\
    (forall n, 1 <= n -> live s (run_conn r) (n + 1) -> live s' (run_conn r) n).
Proof.
  intros Hwf Hbody Hind Hret Hu Hlive xid clt Hentry.
  destruct (pack_reply_header_ok m (ReplyHeader (i32 (rq_xid (run_h r))) ret) Hwf) as (m' & Em & Wm & Im & Cm); [lia|].
  destruct (wf_holds m' Wm) as (buf & Hb & Hh).
  unfold dispatch_finish.
  replace ((0 <=? ret) || (ret =? unmarshal_args_failure)) with true
    by (destruct Hret as [Hret| ->]; [by rewrite (proj2 (Z.leb_le _ _))|done]).
  cbn [cassert mbind outcome_bind]. rewrite Em. cbn [mbind outcome_bind marshall_take_buf].
  set (s1 := if 0 <? _ then _ else s).
  assert (same_service s s1 /\ s_objs s1 = s_objs s /\ s_conns s1 = s_conns s /\
    (forall x, x <> xid -> entry (replies_of (s_reply_window s) clt) x = None ->
       entry (replies_of (s_reply_window s1) clt) x = None)) as (Hs1 & Ho1 & Hc1 & Hother).
  { subst s1. destruct (0 <? _); [|done]. do 3 (split; [done|]). intros x _ Hx.
    cbn [s_reply_window with_window]. rewrite add_reply_entry. subst clt. rewrite decide_True by done.
    by rewrite Hx. }
  assert (live s1 (run_conn r) 1) as Hl1 by (unfold live in *; by rewrite Ho1).
  unfold latest_conn, obj. pose proof Hl1 as (k & Hk & Hd & _). rewrite Hk. cbn [mbind outcome_bind].
  unfold isdead. rewrite Hd. cbn [andb mbind outcome_bind].
  unfold conn_send, obj. rewrite Hk. cbn [mbind outcome_bind]. unfold isdead. rewrite Hd, Hb.
  destruct Hh as [Hz Ht]. pose proof (contents_length m' Wm) as L.
  assert (m_ind m' <= zlen buf) as Hlen.
  { rewrite Hz, <- Ht. unfold zlen. rewrite length_take. lia. }
  unfold slice. rewrite decide_True by (header_sz; lia). rewrite drop_0, Ht. cbn [mbind outcome_bind].
  destruct (conn_decref_ok (with_sent s1 (s_sent s1 ++ [(run_conn r, contents m')])) (run_conn r) Hl1)
    as (s' & Es & (Ha & Hsent & Hp' & Hno') & Hw & Hc' & Hl').
  exists s', (contents m'), buf. cbn in Ha, Hsent, Hw, Hp', Hno', Hc'. destruct Hs1 as (Ha1 & Hs1 & Hp1 & Hno1).
  split; [done|]. split; [congruence|]. split; [congruence|]. split.
  { rewrite Cm. apply splice_is_reply; [|done]. rewrite (contents_length m Hwf).
    unfold MAX_MSG in *. lia. }
  split; [split; [done|by rewrite L]|]. rewrite Hw.
  split; [|split; [done|]]; [|split_and!; [congruence|congruence|congruence|];
    intros n Hn Hln; apply Hl'; [done|]; unfold live in *; cbn [s_objs with_sent]; by rewrite Ho1].
  intros Hclt. subst s1 clt xid. unfold is_u32 in Hu. rewrite (proj2 (Z.ltb_lt _ _)) by lia. cbn [s_reply_window with_window].
  rewrite add_reply_entry, decide_True, (Hentry Hclt) by done. cbn. unfold set_reply. cbn.
  by rewrite Z.eqb_refl, Hb, L.
Qed.
End Dispatching.

(** ** One request, start to end *)
Section ServeNew.
Context `{Memory} {St : Type}.

(** The server is ready to run request [h] that came in on connection [c]: it
    is meant for this instance, its connection is usable and the window has
    not seen it. *)
Definition ready (s : rpcs St) (c : Z) (h : req_header) : Prop :=
  (rq_srv_nonce h = 0 \/ rq_srv_nonce h = s_nonce s) /\ live s c 1 /\
  (rq_clt_nonce h = 0 \/
   ((s_conns s !! rq_clt_nonce h = None \/ s_conns s !! rq_clt_nonce h = Some c) /\
    (verdict (replies_of (s_reply_window s) (rq_clt_nonce h)) (u32 (rq_xid h))
       (u32 (rq_xid_rep h))).1 = NEW)).

(** What dispatching request [h] of connection [c] leaves in place for the
    client's next request: the procedures and the instance, the client's
    connection, and no trace of ids it has not used. *)
Definition keeps (s s' : rpcs St) (c : Z) (h : req_header) : Prop :=
  s_procs s' = s_procs s /\ s_nonce s' = s_nonce s /\
  (forall n, 1 <= n -> live s c (n + 1) -> live s' c n) /\
  (rq_clt_nonce h <> 0 -> s_conns s' !! rq_clt_nonce h = Some c /\
     forall x, x <> u32 (rq_xid h) -> u32 (rq_xid_rep h) < x ->
       entry (replies_of (s_reply_window s) (rq_clt_nonce h)) x = None ->
       entry (replies_of (s_reply_window s') (rq_clt_nonce h)) x = None).

Lemma dispatch_ok (s : rpcs St) j msg h args f body app' b :
  holds (j_buf j) (j_sz j) msg -> is_req_header h -> is_request msg h args ->
  ready s (j_conn j) h -> s_procs s !! rq_proc h = Some f ->
  serves f args (s_app s) app' body b -> 0 <= b \/ b = unmarshal_args_failure ->
  RPC_HEADER_SZ + zlen body <= MAX_MSG ->
  exists s' out buf, dispatch s j = Ok s' /\ s_app s' = app' /\
    s_sent s' = s_sent s ++ [(j_conn j, out)] /\
    is_reply out (ReplyHeader (i32 (rq_xid h)) b) body /\
    holds buf (zlen out) out /\
    (rq_clt_nonce h <> 0 ->
       entry (replies_of (s_reply_window s') (rq_clt_nonce h)) (u32 (rq_xid h))
       = Some (Reply (u32 (rq_xid h)) true (Some buf) (zlen out))) /\
    keeps s s' (j_conn j) h.
Proof.
  intros Hm Hh Hreq (Hnonce & Hlive & Hclt) Hproc Hf Hb Hs.
  assert (forall n, live s (j_conn j) n -> exists s1 u,
    dispatch_begin s j = Ok (s1, Some (Running (j_conn j) u h f)) /\ live s1 (j_conn j) n) as Hany.
  { intros n Hl. destruct (dispatch_begin_new s j msg h _ _ n Hm Hh Hreq Hnonce Hproc Hl Hclt)
      as (s1 & u & E1 & _ & _ & Hl1 & _). by exists s1, u. }
  destruct (dispatch_begin_new s j msg h _ _ 1 Hm Hh Hreq Hnonce Hproc Hlive Hclt)
    as (s1 & u & E1 & Hrem & (Happ & Hsent & Hp1 & Hno1) & Hl1 & He).
  destruct (Hf u Hrem) as (m & Em & Wm & Im & Dm). rewrite <- Happ in Em.
  destruct (dispatch_finish_ok (with_app s1 app') (Running (j_conn j) u h f) m b body)
    as (s' & out & buf & E2 & Ha' & Hs' & Hrep & Hbuf & Hrec & Hother & Hp2 & Hno2 & Hc2 & Hl2);
    cbn; [done|done| |done| |done| |].
  { pose proof (zlen_nonneg body). lia. }
  { by destruct Hh as (_ & _ & ? & _). }
  { intros Hz. by apply He. }
  exists s', out, buf. cbn in *. split_and!; try done; [|by rewrite Hs', Hsent|].
  { unfold dispatch. rewrite E1. cbn [mbind outcome_bind run_f run_req]. rewrite Em. exact E2. }
  split; [congruence|]. split; [congruence|]. split.
  - intros n Hn Hl. apply Hl2; [done|]. destruct (Hany _ Hl) as (s1' & u' & E1' & Hl').
    rewrite E1 in E1'. by simplify_eq.
  - intros Hz. destruct (He Hz) as (_ & Hc & Ho). split; [by rewrite Hc2|].
    intros x Hx Hr Hnone. apply Hother; [done|]. by rewrite Ho.
Qed.
End ServeNew.

Section ServeMethod.
Context `{Memory} {St : Type}.
Context {A R : Type} (ca : codec A) (cr : codec R) `{!Wire ca, !Wire cr}.

(** C8. Serving a new request. Let a request be well formed and carry
    representable arguments [a] of the registered method [meth], be meant for
    this server instance, come in on a live connection and not be in the reply
    window. Then [dispatch] terminates without a crash, the method has run on
    the service's state with exactly these arguments, exactly one reply went
    out, on the request's connection, with the request's xid, the method's
    status and its result as its body; and for a client with a nonce a copy of
    the request is from then on answered with those same bytes. *)
Theorem serve_new_request (s : rpcs St) j msg h (a a0 : A) (r0 r : R) meth app' b :
  holds (j_buf j) (j_sz j) msg -> is_req_header h -> is_request msg h (image ca a) ->
  ready s (j_conn j) h -> s_procs s !! rq_proc h = Some (h1_fn ca cr a0 r0 meth) ->
  representable ca a -> declared ca a0 -> meth a r0 (s_app s) = Ok (app', r, b) -> 0 <= b ->
  representable cr r -> RPC_HEADER_SZ + zlen (image cr r) <= MAX_MSG ->
  exists s' out, dispatch s j = Ok s' /\ s_app s' = app' /\
    s_sent s' = s_sent s ++ [(j_conn j, out)] /\
    is_reply out (ReplyHeader (i32 (rq_xid h)) b) (image cr r) /\
    (rq_clt_nonce h <> 0 -> forall xid_rep, xid_rep < u32 (rq_xid h) ->
       exists buf, holds buf (zlen out) out /\
       (checkduplicate_and_update (s_reply_window s') (rq_clt_nonce h) (u32 (rq_xid h)) xid_rep).1.2
         = DONE /\
       (checkduplicate_and_update (s_reply_window s') (rq_clt_nonce h) (u32 (rq_xid h)) xid_rep).2
         = (Some buf, zlen out)).
Proof.
  intros Hm Hh Hreq Hready Hproc Ha Ha0 Hmeth Hb Hr Hs.
  destruct (dispatch_ok s j msg h (image ca a) (h1_fn ca cr a0 r0 meth) (image cr r) app' b)
    as (s' & out & buf & E & H1 & H2 & H3 & H4 & H5 & _); try done; [by apply h1_fn_serves|by left|].
  exists s', out. split_and!; try done. intros Hclt xid_rep Hx. exists buf. split; [done|].
  rewrite checkduplicate_verdict. unfold verdict.
  rewrite (proj2 (Z.ltb_lt _ _)), (H5 Hclt) by done. done.
Qed.
End ServeMethod.

#[local] Existing Instance zero_memory.
(** Request 1 of client 9 for procedure 5 of the example server. *)
Lemma serve_new_request_witness :
  exists s' out, dispatch Rpcs.Demo.server (Rpcs.Demo.request 1 0) = Ok s' /\
    s_app s' = 6 /\ is_reply out (ReplyHeader 1 0) (be32 6).
Proof.
  destruct (serve_new_request i32_c i32_c Rpcs.Demo.server
    (Rpcs.Demo.request 1 0) (j_buf (Rpcs.Demo.request 1 0)) (ReqHeader 1 5 9 77 0) 6 0 0 6
    (fun a _ total => Ok (total + a, total + a, 0)) 6 0)
    as (s' & out & H1 & H2 & _ & H3 & _).
  - apply holds_self.
  - repeat split; by vm_compute.
  - repeat split; by vm_compute.
  - split_and!; [by right| |].
    + exists (incref (connection_new 3 0)). by vm_compute.
    + right. split; [by left|]. by vm_compute.
  - apply lookup_singleton_eq.
  - repeat split; by vm_compute.
  - done.
  - done.
  - lia.
  - repeat split; by vm_compute.
  - by vm_compute.
  - exists s', out. split; [exact H1|]. split; [exact H2|exact H3].
Defined.

(** ** Requests for another server instance *)
Section Stale.
Context `{Memory} {St : Type}.

Lemma marshall_new_reply xid ret :
  exists m, marshall_pack_reply_header marshall_new (mk_reply_header xid ret) = Ok m /\
    marshall_wf m /\ is_reply (contents m) (mk_reply_header xid ret) [].
Proof.
  pose proof marshall_new_wf as W. pose proof (contents_length marshall_new W) as L.
  assert (m_ind marshall_new = 24) as I by done. rewrite I in L.
  destruct (pack_reply_header_ok marshall_new (mk_reply_header xid ret) W) as (m & E & Wm & Im & Cm).
  { rewrite I. unfold MAX_MSG. lia. }
  exists m. split; [done|]. split; [done|]. rewrite Cm. apply splice_is_reply.
  - rewrite L. header_sz. lia.
  - apply marshall_new_body.
Qed.

(** A header-only reply on a live connection. *)
Lemma send_error_ok (s : rpcs St) c n xid ret :
  live s c n -> exists out,
    send_error s c xid ret = Ok (with_sent s (s_sent s ++ [(c, out)])) /\
    is_reply out (mk_reply_header xid ret) [].
Proof.
  intros (k & Hk & Hd & _). destruct (marshall_new_reply xid ret) as (m & E & W & Hr).
  exists (contents m). split; [|done]. unfold send_error. rewrite E. cbn [mbind outcome_bind].
  unfold conn_send, obj. rewrite Hk. cbn [mbind outcome_bind]. unfold isdead, marshall_size. rewrite Hd.
  destruct (wf_holds m W) as (b & -> & Hz & Ht).
  assert (m_ind m <= zlen b) by (rewrite Hz, <- Ht; unfold zlen; rewrite length_take; lia).
  unfold slice. rewrite decide_True by (pose proof (zlen_nonneg (contents m)); lia).
  rewrite drop_0, Ht. done.
Qed.

(** A request for an older instance of the server is refused with
    oldsrv_failure and touches nothing else, but the reference [got_pdu] took
    on the connection is never given back: after receiving and dispatching it
    the count is one higher than before, so the connection object is never
    deleted. *)
Theorem stale_request_leaks_reference (s s1 : rpcs St) c b sz msg h body j :
  holds b sz msg -> is_req_header h -> is_request msg h body ->
  rq_srv_nonce h <> 0 -> rq_srv_nonce h <> s_nonce s -> live s c 1 ->
  got_pdu s c b sz true = Ok (s1, Some j, true) ->
  exists s' out, dispatch s1 j = Ok s' /\ s_app s' = s_app s /\
    s_reply_window s' = s_reply_window s /\ s_sent s' = s_sent s ++ [(c, out)] /\
    is_reply out (mk_reply_header (rq_xid h) oldsrv_failure) [] /\
    (c_refno <$> s_objs s' !! c) = (Z.add 1 ∘ c_refno <$> s_objs s !! c) /\
    s_procs s' = s_procs s /\ s_nonce s' = s_nonce s /\ s_conns s' = s_conns s.
Proof.
  intros Hm Hh Hreq Hz Hn Hl Hg. unfold got_pdu in Hg.
  destruct (conn_incref_ok s c 1 Hl) as (s0 & Ei & (Ha & Hs & Hpr & Hno) & Hl0 & Hcn & Hw).
  rewrite Ei in Hg. cbn in Hg. simplify_eq.
  destruct (unpack_req_header_ok _ _ _ _ _ Hm Hh Hreq) as (u & Eu & Hrem).
  assert (u_ok u = true) as Hok by (destruct Hrem as (? & _ & Hu & _); done).
  destruct (send_error_ok s1 c _ (rq_xid h) oldsrv_failure Hl0) as (out & Eo & Ho).
  eexists _, out. split.
  - unfold dispatch, dispatch_begin. cbn [j_buf j_sz j_conn]. rewrite Eu. cbn [mbind outcome_bind].
    rewrite Hok. cbn [negb]. rewrite Hno, (proj2 (Z.eqb_neq _ 0)), (proj2 (Z.eqb_neq _ (s_nonce s))) by done.
    cbn [negb andb]. rewrite Eo. reflexivity.
  - cbn [s_app with_sent s_reply_window s_sent s_objs s_procs s_nonce s_conns].
    split_and!; [congruence|congruence|congruence|done| |congruence|congruence|congruence].
    unfold conn_incref in Ei. destruct Hl as (k & Hk & _). unfold obj in Ei. rewrite Hk in Ei |- *. cbn in Ei.
    simplify_eq. cbn [s_objs with_objs]. rewrite lookup_insert, decide_True by done. cbn. f_equal. lia.
Qed.

End Stale.

(** Server instance 77 gets a request meant for instance 76. *)
Lemma stale_request_leaks_reference_witness :
  exists s' out,
    dispatch (with_objs Rpcs.Demo.server {[4 := incref (incref (connection_new 3 0))]})
      (Djob (be32 0 ++ be32 1 ++ be32 5 ++ be32 9 ++ be32 76 ++ be32 0 ++ be32 6) 28 4) = Ok s' /\
    is_reply out (mk_reply_header 1 oldsrv_failure) [] /\ (c_refno <$> s_objs s' !! 4) = Some 3.
Proof.
  set (b := be32 0 ++ be32 1 ++ be32 5 ++ be32 9 ++ be32 76 ++ be32 0 ++ be32 6).
  destruct (stale_request_leaks_reference Rpcs.Demo.server
    (with_objs Rpcs.Demo.server {[4 := incref (incref (connection_new 3 0))]})
    4 b 28 b (ReqHeader 1 5 9 76 0) (be32 6) (Djob b 28 4))
    as (s' & out & H1 & _ & _ & _ & H2 & H3 & _).
  - apply holds_self.
  - repeat split; by vm_compute.
  - repeat split; by vm_compute.
  - done.
  - done.
  - exists (incref (connection_new 3 0)). by vm_compute.
  - unfold got_pdu, conn_incref, obj.
    replace (s_objs Rpcs.Demo.server !! 4) with (Some (incref (connection_new 3 0)))
      by (symmetry; apply lookup_singleton_eq).
    reflexivity.
  - exists s', out. split; [exact H1|]. split; [exact H2|]. rewrite H3. by vm_compute.
Defined.
