(* ===== verification/ReplyBuffers.v ===== *)
(** * The memory behind the reply window: class rpcs of rpc/rpc.h and rpc/rpc.cc

    Rpcs keeps the replies of the at-most-once window as values. In the program
    they are malloc'ed buffers: a pool thread's dispatch takes one from its
    marshall, [add_reply] puts the pointer into the window, a duplicate request
    sends it from there, and [checkduplicate_and_update] and the destructor free
    it. Here the window holds addresses into a heap and the threads' steps are
    the regions between the locks of dispatch, so that what is proved is about
    the pointers: every free is of an allocated buffer, the window refines the
    one of Rpcs, and on which condition sends read live memory and nothing is
    leaked. *)

From S2P Require Import Prelude Marshall Connection Rpcs.
Local Open Scope Z_scope.

(** ** The heap; address 0 is NULL *)
Abbreviation heap := (gmap Z bytes).

Definition hfree (h : heap) (p : Z) : outcome heap :=
  if p =? 0 then Ok h
  else match h !! p with Some _ => Ok (delete p h) | None => Crash UseAfterFree end.

(** ** struct reply_t and the window, with pointers *)
Record reply_p := ReplyP { p_xid : Z; p_cb_present : bool; p_buf : Z; p_sz : Z }.
Definition reply_p_new (xid : Z) : reply_p := ReplyP xid false 0 0.
Abbreviation window_p := (gmap Z (list reply_p)).
Definition replies_p (rw : window_p) (clt : Z) : list reply_p := default [] (rw !! clt).

(** The loop of [checkduplicate_and_update]. *)
Fixpoint prune_p (h : heap) (xid xid_rep : Z) (l : list reply_p) (it_xid : option reply_p)
    : outcome (heap * list reply_p * option reply_p) :=
  match l with
  | [] => Ok (h, [], it_xid)
  | it :: l =>
      let it_xid := if (p_xid it =? xid) && (xid_rep <? xid) then Some it else it_xid in
      if p_xid it <=? xid_rep then
        h ← hfree h (p_buf it);
        prune_p h xid xid_rep l it_xid
      else
        '(h, l, f) ← prune_p h xid xid_rep l it_xid;
        Ok (h, it :: l, f)
  end.

Definition checkduplicate_p (h : heap) (rw : window_p) (clt_nonce xid xid_rep : Z)
    : outcome (heap * window_p * rpcstate_t * (Z * Z)) :=
  let reply_list := replies_p rw clt_nonce in
  match reply_list with
  | [] => Ok (h, <[clt_nonce := [reply_p_new xid]]> rw, NEW, (0, 0))
  | _ :: _ =>
      '(h, l, it_xid) ← prune_p h xid xid_rep reply_list None;
      match it_xid with
      | Some it =>
          if p_cb_present it then Ok (h, <[clt_nonce := l]> rw, DONE, (p_buf it, p_sz it))
          else Ok (h, <[clt_nonce := l]> rw, INPROGRESS, (0, 0))
      | None =>
          if xid <=? xid_rep then Ok (h, <[clt_nonce := l]> rw, FORGOTTEN, (0, 0))
          else Ok (h, <[clt_nonce := l ++ [reply_p_new xid]]> rw, NEW, (0, 0))
      end
  end.

Definition set_reply_p (xid b sz : Z) (it : reply_p) : reply_p :=
  if p_xid it =? xid then ReplyP (p_xid it) true b sz else it.
Definition add_reply_p (rw : window_p) (clt_nonce xid b sz : Z) : window_p :=
  <[clt_nonce := map (set_reply_p xid b sz) (replies_p rw clt_nonce)]> rw.

(** The destructor's [free_reply_window]. *)
Fixpoint frees (h : heap) (ps : list Z) : outcome heap :=
  match ps with [] => Ok h | p :: ps => h ← hfree h p; frees h ps end.
Definition free_reply_window_p (h : heap) (rw : window_p) : outcome (heap * window_p) :=
  h ← frees h (map p_buf (concat (map snd (map_to_list rw))));
  Ok (h, ∅).

(** ** Dispatch, from the lookup in the window to the end *)

(** A pool thread: about to look its request up, running the handler, holding
    the handler's reply, sending, done. *)
Inductive dthread :=
  | D_start (clt xid xid_rep : Z)
  | D_new (clt xid : Z)
  | D_store (clt xid b sz : Z)
  | D_send (clt xid b sz : Z)
  | D_end.

Definition d_check (h : heap) (rw : window_p) (clt xid xid_rep : Z) : outcome (heap * window_p * dthread) :=
  if negb (clt =? 0) then
    let rw := match rw !! clt with Some _ => rw | None => <[clt := []]> rw end in
    '(h, rw, stat, (b, sz)) ← checkduplicate_p h rw clt xid xid_rep;
    Ok (h, rw, match stat with
               | NEW => D_new clt xid
               | DONE => D_send clt xid b sz
               | INPROGRESS | FORGOTTEN => D_end
               end)
  else Ok (h, rw, D_new clt xid).
Definition d_store (rw : window_p) (clt xid b sz : Z) : window_p :=
  if 0 <? clt then add_reply_p rw clt xid b sz else rw.
(** [send] runs [writepdu] on the buffer, [solong] bytes of which are out; the
    first time that puts the message's size into its first four bytes. *)
Definition d_write (h : heap) (b sz solong : Z) (wr : wrres) : outcome heap :=
  match h !! b with
  | None => Crash UseAfterFree
  | Some buf =>
      '(w, _, _) ← writepdu (Charbuf (Some buf) sz solong) wr;
      Ok (match cb_buf w with Some buf => <[b := buf]> h | None => h end)
  end.
Definition d_done (h : heap) (clt b : Z) : outcome heap := if clt =? 0 then hfree h b else Ok h.

Record sys := Sys { y_heap : heap; y_window : window_p; y_threads : list dthread }.

(** The destructor: with the listener gone, deleting the pool waits until every
    thread is done ([None] before that); then the window is freed. *)
Definition rpcs_delete (y : sys) : option (outcome (heap * window_p)) :=
  if forallb (fun t => match t with D_end => true | _ => false end) (y_threads y)
  then Some (free_reply_window_p (y_heap y) (y_window y))
  else None.

(** [guard] restricts when a request is looked up. *)
Inductive sys_step (guard : sys -> Z -> Z -> Prop) : sys -> sys -> Prop :=
  | y_request y clt xid xid_rep :
      is_u32 clt ->
      sys_step guard y (Sys (y_heap y) (y_window y) (D_start clt xid xid_rep :: y_threads y))
  | y_check y l1 clt xid xid_rep l2 h rw t :
      y_threads y = l1 ++ D_start clt xid xid_rep :: l2 -> guard y clt xid_rep ->
      d_check (y_heap y) (y_window y) clt xid xid_rep = Ok (h, rw, t) ->
      sys_step guard y (Sys h rw (l1 ++ t :: l2))
  | y_handler y l1 clt xid l2 b out :
      y_threads y = l1 ++ D_new clt xid :: l2 -> b <> 0 -> y_heap y !! b = None -> 4 <= zlen out ->
      sys_step guard y (Sys (<[b := out]> (y_heap y)) (y_window y) (l1 ++ D_store clt xid b (zlen out) :: l2))
  | y_store y l1 clt xid b sz l2 :
      y_threads y = l1 ++ D_store clt xid b sz :: l2 ->
      sys_step guard y (Sys (y_heap y) (d_store (y_window y) clt xid b sz) (l1 ++ D_send clt xid b sz :: l2))
  | y_write y l1 clt xid b sz l2 solong wr h :
      y_threads y = l1 ++ D_send clt xid b sz :: l2 -> d_write (y_heap y) b sz solong wr = Ok h ->
      sys_step guard y (Sys h (y_window y) (y_threads y))
  | y_done y l1 clt xid b sz l2 h :
      y_threads y = l1 ++ D_send clt xid b sz :: l2 -> d_done (y_heap y) clt b = Ok h ->
      sys_step guard y (Sys h (y_window y) (l1 ++ D_end :: l2)).

(** ** Freeing *)
Definition live (h : heap) (ps : list Z) : Prop := Forall (fun p => p <> 0 /\ is_Some (h !! p)) ps.
#[export] Instance live_proper h : Proper ((≡ₚ) ==> iff) (live h).
Proof. intros ps qs Hp. unfold live. by rewrite Hp. Qed.
Definition nonnull (ps : list Z) : list Z := filter (fun p => p <> 0) ps.

Lemma frees_ok h ps : NoDup (nonnull ps) -> live h (nonnull ps) ->
  exists h', frees h ps = Ok h' /\ forall p, h' !! p = if decide (p ∈ nonnull ps) then None else h !! p.
Proof.
  revert h. induction ps as [|q ps IH]; intros h Hn Hl; cbn [frees].
  { exists h. split; [done|]. intros p. by rewrite decide_False by apply not_elem_of_nil. }
  unfold nonnull in *. rewrite filter_cons in *. unfold hfree. destruct (Z.eqb_spec q 0) as [->|Hq].
  - rewrite decide_False in Hn, Hl |- * by tauto. cbn [mbind outcome_bind]. by apply IH.
  - rewrite decide_True in Hn, Hl |- * by done. apply NoDup_cons in Hn as [Hqn Hn].
    apply Forall_cons in Hl as [[_ [b Hb]] Hl]. rewrite Hb. cbn [mbind outcome_bind].
    destruct (IH (delete q h) Hn) as (h' & E & Hh').
    { apply Forall_forall. intros p Hp. rewrite Forall_forall in Hl. destruct (Hl p Hp) as [? ?]. split; [done|].
      rewrite lookup_delete_ne by (intros ->; done). done. }
    exists h'. split; [exact E|]. intros p. rewrite Hh', lookup_delete. destruct (decide (q = p)) as [<-|Hne].
    + rewrite (decide_True (P := q ∈ q :: _)) by apply list_elem_of_here. by case_decide.
    + apply decide_ext. rewrite elem_of_cons. split; [by right|]. intros [Hp|Hp]; [by destruct Hne|done].
Qed.

(** A list of buffers, each allocated and in it once. *)
Definition owned (h : heap) (ps : list Z) : Prop := NoDup ps /\ live h ps.

Lemma owned_sub h ps qs : qs ⊆+ ps -> owned h ps -> owned h qs.
Proof.
  intros Hs [Hn Hl]. split.
  - apply submseteq_Permutation in Hs as [k Hk]. rewrite Hk in Hn. by apply NoDup_app in Hn as [? _].
  - apply Forall_forall. intros p Hp. unfold live in Hl. rewrite Forall_forall in Hl. apply Hl. by eapply elem_of_submseteq.
Qed.

#[export] Instance owned_proper h : Proper ((≡ₚ) ==> iff) (owned h).
Proof. intros ps qs Hp. split; apply owned_sub; by rewrite Hp. Qed.

(** Freeing some of them leaves the others. *)
Lemma frees_owned h ps qs : owned h (nonnull ps ++ qs) ->
  exists h', frees h ps = Ok h' /\ owned h' qs /\
    forall p, h' !! p = if decide (p ∈ nonnull ps) then None else h !! p.
Proof.
  intros [(Hn1 & Hd & Hn2)%NoDup_app [Hl1 Hl2]%Forall_app]. destruct (frees_ok h ps Hn1 Hl1) as (h' & E & Hh).
  exists h'. split; [exact E|]. split; [|exact Hh]. split; [exact Hn2|]. apply Forall_forall. intros p Hp.
  rewrite Forall_forall in Hl2. destruct (Hl2 p Hp) as [? ?]. split; [done|].
  rewrite Hh, decide_False; [done|]. intros Hin. by apply (Hd p Hin).
Qed.

(** ** The window as a table of pointers *)
Definition bufs (l : list reply_p) : list Z := nonnull (map p_buf l).
Definition bufs_all (rw : window_p) : list Z := concat (map (fun cl => bufs cl.2) (map_to_list rw)).

Lemma bufs_app l k : bufs (l ++ k) = bufs l ++ bufs k.
Proof. unfold bufs, nonnull. by rewrite map_app, filter_app. Qed.
Lemma bufs_perm l k : l ≡ₚ k -> bufs l ≡ₚ bufs k.
Proof. intros Hp. unfold bufs, nonnull. by rewrite Hp. Qed.

Lemma bufs_all_insert rw clt l : bufs_all (<[clt := l]> rw) ≡ₚ bufs l ++ bufs_all (delete clt rw).
Proof.
  unfold bufs_all. rewrite <- insert_delete_eq, map_to_list_insert by apply lookup_delete_eq. cbn. done.
Qed.
Lemma bufs_all_at rw clt : bufs_all rw ≡ₚ bufs (replies_p rw clt) ++ bufs_all (delete clt rw).
Proof.
  unfold replies_p. destruct (rw !! clt) as [l|] eqn:E.
  - change (default [] (Some l)) with l. by rewrite <- bufs_all_insert, insert_id.
  - by rewrite delete_id.
Qed.

Lemma all_bufs_window rw : nonnull (map p_buf (concat (map snd (map_to_list rw)))) = bufs_all rw.
Proof.
  unfold bufs_all. induction (map_to_list rw) as [|[c l] k IH]; [done|]. cbn.
  rewrite map_app. unfold nonnull in *. by rewrite filter_app, IH.
Qed.

Definition kept (xid_rep : Z) (l : list reply_p) : list reply_p := filter (fun e => xid_rep < p_xid e) l.
Definition gone (xid_rep : Z) (l : list reply_p) : list reply_p := filter (fun e => ~ xid_rep < p_xid e) l.
Definition entry_p (l : list reply_p) (x : Z) : option reply_p := last (filter (fun e => p_xid e = x) l).

Lemma bufs_split xid_rep l : bufs l ≡ₚ bufs (gone xid_rep l) ++ bufs (kept xid_rep l).
Proof.
  rewrite <- bufs_app. apply bufs_perm. unfold kept, gone. rewrite Permutation_app_comm.
  symmetry. apply filter_app_complement.
Qed.

Lemma prune_p_eq h xid xid_rep l it :
  prune_p h xid xid_rep l it =
    h ← frees h (map p_buf (gone xid_rep l));
    Ok (h, kept xid_rep l,
        if xid_rep <? xid then match entry_p l xid with Some e => Some e | None => it end else it).
Proof.
  revert h it. induction l as [|e l IH]; intros h it; cbn [prune_p].
  { cbn. by destruct (xid_rep <? xid). }
  unfold kept, gone, entry_p in *. rewrite !filter_cons.
  destruct (Z.leb_spec (p_xid e) xid_rep) as [Hle|Hgt].
  - rewrite (decide_False (P := xid_rep < p_xid e)), (decide_True (P := ~ xid_rep < p_xid e)) by lia.
    cbn [map frees]. destruct (hfree h (p_buf e)) as [h'|]; [|done]. cbn [mbind outcome_bind]. rewrite IH.
    destruct (Z.ltb_spec xid_rep xid); [|by rewrite andb_false_r].
    by rewrite (proj2 (Z.eqb_neq _ _)), (decide_False (P := p_xid e = xid)) by lia.
  - rewrite (decide_True (P := xid_rep < p_xid e)), (decide_False (P := ~ xid_rep < p_xid e)) by lia.
    rewrite IH. destruct (frees h _) as [h'|]; [|done]. cbn [mbind outcome_bind]. f_equal. f_equal.
    destruct (Z.ltb_spec xid_rep xid); [|by rewrite andb_false_r]. rewrite andb_true_r.
    destruct (Z.eqb_spec (p_xid e) xid) as [Hx|Hx];
      [rewrite (decide_True (P := p_xid e = xid)) by done|by rewrite (decide_False (P := p_xid e = xid)) by done].
    rewrite last_cons. by destruct (last _).
Qed.

Definition verdict_p (l : list reply_p) (xid xid_rep : Z) : rpcstate_t * (Z * Z) :=
  if xid_rep <? xid then
    match entry_p l xid with
    | None => (NEW, (0, 0))
    | Some e => if p_cb_present e then (DONE, (p_buf e, p_sz e)) else (INPROGRESS, (0, 0))
    end
  else match l with [] => (NEW, (0, 0)) | _ => (FORGOTTEN, (0, 0)) end.
Definition updated_p (l : list reply_p) (xid xid_rep : Z) : list reply_p :=
  kept xid_rep l ++ (if decide ((verdict_p l xid xid_rep).1 = NEW) then [reply_p_new xid] else []).

Lemma checkduplicate_p_eq h rw clt xid xid_rep :
  checkduplicate_p h rw clt xid xid_rep =
    h ← frees h (map p_buf (gone xid_rep (replies_p rw clt)));
    Ok (h, <[clt := updated_p (replies_p rw clt) xid xid_rep]> rw,
        (verdict_p (replies_p rw clt) xid xid_rep).1, (verdict_p (replies_p rw clt) xid xid_rep).2).
Proof.
  unfold checkduplicate_p, updated_p, verdict_p. destruct (replies_p rw clt) as [|e l] eqn:E.
  { cbn. by destruct (xid_rep <? xid). }
  rewrite <- E, prune_p_eq. destruct (frees h _) as [h'|]; [|done]. cbn [mbind outcome_bind].
  destruct (Z.ltb_spec xid_rep xid) as [Hlt|Hge].
  - destruct (entry_p _ xid) as [e'|].
    + destruct (p_cb_present e'); cbn; by rewrite app_nil_r.
    + cbn. by rewrite (proj2 (Z.leb_gt _ _)) by lia.
  - rewrite (proj2 (Z.leb_le _ _)) by lia. rewrite E. cbn. by rewrite app_nil_r.
Qed.

Lemma bufs_updated l xid xid_rep : bufs (updated_p l xid xid_rep) = bufs (kept xid_rep l).
Proof. unfold updated_p. rewrite bufs_app. destruct (decide _); by rewrite app_nil_r. Qed.

(** ** The window of Rpcs, read off the heap *)
Definition deref (h : heap) (p : Z) : option bytes := if p =? 0 then None else h !! p.
Definition view (h : heap) (e : reply_p) : reply_t := Reply (p_xid e) (p_cb_present e) (deref h (p_buf e)) (p_sz e).
Definition view_window (h : heap) (rw : window_p) : window := map (view h) <$> rw.

Lemma view_replies h rw clt : replies_of (view_window h rw) clt = map (view h) (replies_p rw clt).
Proof. unfold replies_of, replies_p, view_window. rewrite lookup_fmap. by destruct (rw !! clt). Qed.

Lemma view_filter h (P : Z -> Prop) `{!forall x, Decision (P x)} l :
  filter (fun e => P (r_xid e)) (map (view h) l) = map (view h) (filter (fun e => P (p_xid e)) l).
Proof. induction l as [|e l IH]; [done|]. cbn [map]. rewrite !filter_cons. cbn [r_xid view]. case_decide; cbn; by rewrite IH. Qed.

Lemma view_entry h l x : entry (map (view h) l) x = view h <$> entry_p l x.
Proof.
  unfold entry, entry_p. transitivity (last (map (view h) (filter (fun e => p_xid e = x) l))).
  { f_equal. exact (view_filter h (fun y => y = x) l). }
  induction (filter _ l) as [|e k IH]; [done|]. cbn [map]. rewrite !last_cons, IH. by destruct (last k).
Qed.

Lemma view_verdict h l xid xid_rep :
  verdict (map (view h) l) xid xid_rep =
    let '(st, (b, sz)) := verdict_p l xid xid_rep in (st, (deref h b, sz)).
Proof.
  unfold verdict, verdict_p. rewrite view_entry. destruct (xid_rep <? xid); [|by destruct l].
  destruct (entry_p l xid) as [e|]; [|done]. cbn. by destruct (p_cb_present e).
Qed.

Lemma view_updated h l xid xid_rep : updated (map (view h) l) xid xid_rep = map (view h) (updated_p l xid xid_rep).
Proof.
  unfold updated, updated_p. rewrite map_app, view_verdict. f_equal; [exact (view_filter h (fun y => xid_rep < y) l)|].
  destruct (verdict_p l xid xid_rep) as [st [b sz]]. cbn [fst]. by destruct (decide (st = NEW)).
Qed.

Lemma buf_elem l e : e ∈ l -> p_buf e <> 0 -> p_buf e ∈ bufs l.
Proof. intros He Hb. apply list_elem_of_filter. split; [done|]. apply list_elem_of_fmap. by exists e. Qed.

Lemma bufs_all_elem rw clt e : e ∈ replies_p rw clt -> p_buf e <> 0 -> p_buf e ∈ bufs_all rw.
Proof. intros He Hb. rewrite (bufs_all_at rw clt). apply elem_of_app. left. by apply buf_elem. Qed.

(** Entries whose buffers are untouched look the same. *)
Lemma view_same h h' l :
  (forall p, p ∈ bufs l -> h' !! p = h !! p) -> map (view h') l = map (view h) l.
Proof.
  intros Hh. apply map_ext_in. intros e He%list_elem_of_In. unfold view, deref.
  destruct (Z.eqb_spec (p_buf e) 0); [done|]. rewrite Hh; [done|]. by apply buf_elem.
Qed.
Lemma view_window_same h h' rw :
  (forall p, p ∈ bufs_all rw -> h' !! p = h !! p) -> view_window h' rw = view_window h rw.
Proof.
  intros Hh. apply map_fmap_ext. intros c l Hc. apply view_same. intros p Hp. apply Hh.
  rewrite (bufs_all_at rw c). unfold replies_p. rewrite Hc. apply elem_of_app. by left.
Qed.
Lemma view_insert h rw clt l : view_window h (<[clt := l]> rw) = <[clt := map (view h) l]> (view_window h rw).
Proof. apply fmap_insert. Qed.

(** The lookup, as a transition of the pointers and as one of their values. *)
Lemma checkduplicate_p_ok h rw clt xid xid_rep ps :
  owned h (bufs_all rw ++ ps) ->
  exists h', checkduplicate_p h rw clt xid xid_rep = Ok (h', <[clt := updated_p (replies_p rw clt) xid xid_rep]> rw,
      (verdict_p (replies_p rw clt) xid xid_rep).1, (verdict_p (replies_p rw clt) xid xid_rep).2) /\
    owned h' (bufs_all (<[clt := updated_p (replies_p rw clt) xid xid_rep]> rw) ++ ps) /\
    forall p, h' !! p = if decide (p ∈ bufs (gone xid_rep (replies_p rw clt))) then None else h !! p.
Proof.
  intros Ho. rewrite checkduplicate_p_eq. rewrite (bufs_all_at rw clt), (bufs_split xid_rep), <- !app_assoc in Ho.
  destruct (frees_owned _ _ _ Ho) as (h' & -> & Ho' & Hh). cbn [mbind outcome_bind]. exists h'. split; [done|].
  split; [|exact Hh]. by rewrite bufs_all_insert, bufs_updated, <- app_assoc.
Qed.

(** C19. The pointers implement the window. If every buffer the window points to
    is allocated and in it once, then checkduplicate_and_update on the heap frees
    without error, keeps that so, and does to the contents of the buffers and
    answers (with the stored reply's bytes for a duplicate) exactly what the
    window of values does. *)
Theorem checkduplicate_refines h rw clt xid xid_rep :
  owned h (bufs_all rw) ->
  exists h' rw' st b sz, checkduplicate_p h rw clt xid xid_rep = Ok (h', rw', st, (b, sz)) /\
    owned h' (bufs_all rw') /\
    checkduplicate_and_update (view_window h rw) clt xid xid_rep = (view_window h' rw', st, (deref h' b, sz)).
Proof.
  intros Ho. rewrite <- (app_nil_r (bufs_all rw)) in Ho.
  destruct (checkduplicate_p_ok h rw clt xid xid_rep [] Ho) as (h' & E & Ho' & Hh).
  rewrite app_nil_r in Ho, Ho'. set (l := replies_p rw clt) in *.
  destruct (verdict_p l xid xid_rep) as [st [b sz]] eqn:Ev. cbn [fst snd] in E.
  exists h', (<[clt := updated_p l xid xid_rep]> rw), st, b, sz. split; [exact E|]. split; [exact Ho'|].
  rewrite checkduplicate_verdict, view_replies, view_updated, view_verdict. fold l. rewrite Ev. cbn [fst snd].
  assert (forall p, p ∈ bufs_all (<[clt := updated_p l xid xid_rep]> rw) -> h' !! p = h !! p) as Hsame.
  { intros p Hp. rewrite Hh, decide_False; [done|]. intros Hg. destruct Ho as [Hn _].
    rewrite (bufs_all_at rw clt), (bufs_split xid_rep), <- app_assoc in Hn. apply NoDup_app in Hn as (_ & Hd & _).
    apply (Hd p Hg). by rewrite bufs_all_insert, bufs_updated in Hp. }
  assert (deref h' b = deref h b) as ->.
  { unfold deref. destruct (Z.eqb_spec b 0) as [|Hb]; [done|]. apply Hsame. unfold verdict_p in Ev.
    destruct (Z.ltb_spec xid_rep xid) as [Hlt|]; [|by destruct l; injection Ev as <- <- <-].
    destruct (entry_p l xid) as [e|] eqn:Ee; [|by injection Ev as <- <- <-].
    destruct (p_cb_present e); [|by injection Ev as <- <- <-]. injection Ev as <- <- <-.
    unfold entry_p in Ee. apply last_Some_elem_of, list_elem_of_filter in Ee as [Hx He].
    rewrite bufs_all_insert, bufs_updated. apply elem_of_app. left. apply buf_elem; [|done].
    apply list_elem_of_filter. split; [lia|done]. }
  rewrite <- view_insert. by rewrite (view_window_same h h').
Qed.

(** ** Every interleaving *)

(** The buffer only this thread points to. *)
Definition private (t : dthread) : option Z :=
  match t with
  | D_store _ _ b _ => Some b
  | D_send clt _ b _ => if clt =? 0 then Some b else None
  | _ => None
  end.
Definition owners (y : sys) : list Z := bufs_all (y_window y) ++ omap private (y_threads y).
Definition d_clt (t : dthread) : Z :=
  match t with D_start c _ _ | D_new c _ | D_store c _ _ _ | D_send c _ _ _ => c | D_end => 0 end.

Record sys_inv (y : sys) : Prop := {
  y_owned : owned (y_heap y) (owners y);
  y_xids clt : NoDup (map p_xid (replies_p (y_window y) clt));
  y_clts : Forall (fun t => 0 <= d_clt t) (y_threads y) }.

Lemma replies_insert rw clt l c : replies_p (<[clt := l]> rw) c = if decide (clt = c) then l else replies_p rw c.
Proof. unfold replies_p. rewrite lookup_insert. by case_decide. Qed.

Lemma set_reply_absent xid b sz l : xid ∉ map p_xid l -> map (set_reply_p xid b sz) l = l.
Proof.
  induction l as [|e l IH]; [done|]. cbn [map]. rewrite not_elem_of_cons. intros [Hx Hl].
  unfold set_reply_p at 1. rewrite (proj2 (Z.eqb_neq _ _)) by congruence. by rewrite IH.
Qed.

Lemma bufs_cons e l : bufs (e :: l) = (if decide (p_buf e <> 0) then [p_buf e] else []) ++ bufs l.
Proof. unfold bufs, nonnull. cbn [map]. rewrite filter_cons. by case_decide. Qed.

Lemma bufs_set xid b sz l :
  NoDup (map p_xid l) -> bufs (map (set_reply_p xid b sz) l) ⊆+ b :: bufs l.
Proof.
  induction l as [|e l IH]; cbn [map]; [intros _; apply submseteq_nil_l|]. intros [Hx Hl]%NoDup_cons.
  rewrite (bufs_cons e). unfold set_reply_p at 1. destruct (Z.eqb_spec (p_xid e) xid) as [<-|Hne].
  - rewrite set_reply_absent by done. rewrite bufs_cons. cbn [p_buf].
    transitivity (b :: bufs l); [|constructor; by apply submseteq_inserts_l].
    case_decide; [done|]. by apply submseteq_cons.
  - rewrite bufs_cons, Permutation_middle. by apply submseteq_app, IH.
Qed.

Lemma set_reply_xids xid b sz l : map p_xid (map (set_reply_p xid b sz) l) = map p_xid l.
Proof. rewrite map_map. apply map_ext. intros e. unfold set_reply_p. by destruct (_ =? _). Qed.

Lemma entry_p_in l x e : entry_p l x = Some e -> e ∈ l /\ p_xid e = x.
Proof. unfold entry_p. intros [? ?]%last_Some_elem_of%list_elem_of_filter. done. Qed.

Lemma in_entry_p l e : e ∈ l -> is_Some (entry_p l (p_xid e)).
Proof.
  intros He. unfold entry_p. apply last_is_Some. intros En.
  assert (e ∈ filter (fun e' => p_xid e' = p_xid e) l) as Hin by (by apply list_elem_of_filter).
  rewrite En in Hin. by apply elem_of_nil in Hin.
Qed.

Lemma kept_xids xid_rep l : NoDup (map p_xid l) -> NoDup (map p_xid (kept xid_rep l)).
Proof.
  unfold kept. induction l as [|e l IH]; [done|]. cbn [map]. intros [Hx Hl]%NoDup_cons.
  rewrite filter_cons. case_decide; [|by apply IH]. cbn [map]. constructor; [|by apply IH].
  intros (e' & He' & [_ Hin]%list_elem_of_filter)%list_elem_of_fmap. apply Hx. apply list_elem_of_fmap. by exists e'.
Qed.

(** A request found new has no entry left. *)
Lemma verdict_new_absent l xid xid_rep e :
  (verdict_p l xid xid_rep).1 = NEW -> e ∈ kept xid_rep l -> p_xid e <> xid.
Proof.
  intros Hv [Hgt He]%list_elem_of_filter <-. unfold verdict_p in Hv. rewrite (proj2 (Z.ltb_lt _ _)) in Hv by done.
  destruct (in_entry_p l e He) as [e' E]. rewrite E in Hv. by destruct (p_cb_present e').
Qed.

Lemma updated_xids l xid xid_rep : NoDup (map p_xid l) -> NoDup (map p_xid (updated_p l xid xid_rep)).
Proof.
  intros Hn%(kept_xids xid_rep). unfold updated_p. rewrite map_app. case_decide as Hv; [|by rewrite app_nil_r].
  apply NoDup_app. split; [done|]. split; [|apply NoDup_singleton].
  intros x (e & -> & He)%list_elem_of_fmap Hx%list_elem_of_singleton.
  by apply (verdict_new_absent l xid xid_rep e Hv He).
Qed.

(** What follows the lookup. *)
Definition after_check (clt xid : Z) (v : rpcstate_t * (Z * Z)) : dthread :=
  match v with
  | (NEW, _) => D_new clt xid
  | (DONE, (b, sz)) => D_send clt xid b sz
  | _ => D_end
  end.

Record checked (h : heap) (rw : window_p) (clt xid xid_rep : Z) (h' : heap) (rw' : window_p) (t : dthread) : Prop := {
  k_replies c : replies_p rw' c = if decide (clt = c /\ clt <> 0) then updated_p (replies_p rw clt) xid xid_rep
                                  else replies_p rw c;
  k_thread : t = if clt =? 0 then D_new clt xid else after_check clt xid (verdict_p (replies_p rw clt) xid xid_rep);
  k_heap p : h' !! p = if decide (clt <> 0 /\ p ∈ bufs (gone xid_rep (replies_p rw clt))) then None else h !! p }.

Lemma replies_create rw clt c :
  replies_p (match rw !! clt with Some _ => rw | None => <[clt := []]> rw end) c = replies_p rw c.
Proof.
  destruct (rw !! clt) as [l|] eqn:E; [done|]. rewrite replies_insert. case_decide; [|done]. subst.
  unfold replies_p. by rewrite E.
Qed.
Lemma bufs_all_create rw clt : bufs_all (match rw !! clt with Some _ => rw | None => <[clt := []]> rw end) ≡ₚ bufs_all rw.
Proof. destruct (rw !! clt) as [l|] eqn:E; [done|]. by rewrite bufs_all_insert, delete_id. Qed.

Lemma d_check_ok h rw clt xid xid_rep ps :
  owned h (bufs_all rw ++ ps) ->
  exists h' rw' t, d_check h rw clt xid xid_rep = Ok (h', rw', t) /\ owned h' (bufs_all rw' ++ ps) /\
    checked h rw clt xid xid_rep h' rw' t.
Proof.
  intros Ho. unfold d_check. destruct (Z.eqb_spec clt 0) as [Hz|Hz]; cbn [negb].
  - exists h, rw, (D_new clt xid). split; [done|]. split; [done|]. split.
    + intros c. by rewrite decide_False by tauto.
    + by rewrite (proj2 (Z.eqb_eq _ _)).
    + intros p. by rewrite decide_False by tauto.
  - rewrite <- (bufs_all_create rw clt) in Ho.
    set (rw1 := match rw !! clt with Some _ => rw | None => _ end) in *.
    assert (forall c, replies_p rw1 c = replies_p rw c) as Hr by (intros c; apply replies_create).
    destruct (checkduplicate_p_ok h rw1 clt xid xid_rep ps Ho) as (h' & -> & Ho' & Hh). cbn [mbind outcome_bind].
    rewrite Hr in *. destruct (verdict_p (replies_p rw clt) xid xid_rep) as [st [b sz]] eqn:Ev. cbn [fst snd].
    eexists h', _, _. split; [reflexivity|]. split; [exact Ho'|]. split.
    + intros c. rewrite replies_insert, Hr. apply decide_ext. tauto.
    + rewrite (proj2 (Z.eqb_neq _ _)), Ev by done. by destruct st.
    + intros p. rewrite Hh. apply decide_ext. tauto.
Qed.

Lemma omap_middle l1 t l2 : omap private (l1 ++ t :: l2) ≡ₚ option_list (private t) ++ omap private (l1 ++ l2).
Proof.
  rewrite !omap_app. cbn. destruct (private t); cbn; [|done]. symmetry. apply Permutation_middle.
Qed.

(** The owners, with one thread put first. *)
Lemma owners_middle h rw l1 t l2 :
  owners (Sys h rw (l1 ++ t :: l2)) ≡ₚ option_list (private t) ++ bufs_all rw ++ omap private (l1 ++ l2).
Proof.
  unfold owners. cbn [y_window y_threads]. rewrite omap_middle, !app_assoc. f_equiv. apply Permutation_app_comm.
Qed.

Lemma owners_at y l1 t l2 : y_threads y = l1 ++ t :: l2 ->
  owners y ≡ₚ option_list (private t) ++ bufs_all (y_window y) ++ omap private (l1 ++ l2).
Proof. intros E. rewrite <- (owners_middle (y_heap y)), <- E. by destruct y. Qed.

Lemma owned_insert h ps b out : owned h ps -> b <> 0 -> h !! b = None -> owned (<[b := out]> h) (b :: ps).
Proof.
  intros [Hn Hl] Hb Hh. unfold live in Hl. rewrite Forall_forall in Hl. split.
  - constructor; [|done]. intros Hin. destruct (Hl b Hin) as [_ [? ?]]. congruence.
  - constructor; [split; [done|]; rewrite lookup_insert_eq; by eexists|]. apply Forall_forall. intros p Hp.
    destruct (Hl p Hp) as [? ?]. split; [done|]. rewrite lookup_insert. by case_decide.
Qed.

Lemma owned_free h b ps : owned h (b :: ps) -> exists h', hfree h b = Ok h' /\ owned h' ps.
Proof.
  intros Ho. pose proof Ho as [_ [[Hb _] _]%Forall_cons].
  destruct (frees_owned h [b] ps) as (h' & E & Ho' & _).
  { unfold nonnull. by rewrite filter_cons, decide_True, filter_nil. }
  cbn in E. destruct (hfree h b) as [h1|]; [|done]. injection E as ->. by exists h'.
Qed.

Lemma after_check_private clt xid v : clt <> 0 -> private (after_check clt xid v) = None.
Proof. intros Hz. destruct v as [[] [b sz]]; try done. cbn. by rewrite (proj2 (Z.eqb_neq _ _)). Qed.

Lemma checked_private h rw clt xid xid_rep h' rw' t :
  checked h rw clt xid xid_rep h' rw' t -> private t = None /\ (0 <= clt -> 0 <= d_clt t).
Proof.
  intros [_ -> _]. destruct (Z.eqb_spec clt 0) as [->|Hz]; [done|]. split; [by apply after_check_private|].
  by destruct (verdict_p _ _ _) as [[] [b sz]].
Qed.

(** Writing keeps every buffer where it is and as long as it was. *)
Lemma d_write_same h b sz solong wr h' :
  d_write h b sz solong wr = Ok h' ->
  forall p buf, h !! p = Some buf -> exists buf', h' !! p = Some buf' /\ zlen buf' = zlen buf.
Proof.
  unfold d_write. intros E p buf Hp. destruct (h !! b) as [buf0|] eqn:Eb; [|done].
  destruct (writepdu _ _) as [[[w ok] out]|] eqn:Ew; [|done]. cbn [mbind outcome_bind] in E. injection E as <-.
  assert (exists buf1, cb_buf w = Some buf1 /\ zlen buf1 = zlen buf0) as (buf1 & -> & Hz).
  { unfold writepdu in Ew. cbn [cb_solong cb_sz cb_buf] in Ew. destruct (0 <=? solong); [|done]. cbn in Ew.
    destruct (solong =? sz); [injection Ew as <- _ _; by exists buf0|].
    assert (forall bb, (if solong =? 0 then memcpy buf0 0 (be32 sz) 4 else Ok buf0) = Ok bb -> zlen bb = zlen buf0) as Hm.
    { intros bb. destruct (solong =? 0); [|by intros [= <-]]. intros (_ & _ & Hle & _ & ->)%memcpy_inv.
      change (zlen (be32 sz ++ drop 4 buf0) = zlen buf0). rewrite zlen_app. change (zlen (be32 sz)) with 4.
      unfold zlen in *. rewrite length_drop. lia. }
    destruct (if solong =? 0 then _ else _) as [bb|]; [|done]. specialize (Hm bb eq_refl). cbn in Ew. destruct wr as [n|[]].
    - destruct (slice _ _ _); [|done]. injection Ew as <- _ _. by exists bb.
    - injection Ew as <- _ _. by exists bb.
    - injection Ew as <- _ _. by exists bb. }
  rewrite lookup_insert. case_decide as Hd; [|by exists buf]. subst p. exists buf1. rewrite Eb in Hp. by injection Hp as <-.
Qed.

Lemma owned_same h h' ps :
  (forall p, is_Some (h !! p) -> p ∈ ps -> is_Some (h' !! p)) -> owned h ps -> owned h' ps.
Proof.
  intros Hs [Hn Hl]. split; [done|]. unfold live in *. rewrite Forall_forall in Hl |- *. intros p Hp.
  destruct (Hl p Hp). split; [done|]. by apply Hs.
Qed.

Section Interleavings.
Variable guard : sys -> Z -> Z -> Prop.

Lemma store_xids rw clt xid b sz c :
  (forall c, NoDup (map p_xid (replies_p rw c))) -> NoDup (map p_xid (replies_p (d_store rw clt xid b sz) c)).
Proof.
  intros Hn. unfold d_store, add_reply_p. destruct (0 <? clt); [|done]. rewrite replies_insert.
  case_decide; [|done]. by rewrite set_reply_xids.
Qed.

(** Storing hands the buffer over to the window. *)
Lemma store_owned h rw clt xid b sz ps :
  (forall c, NoDup (map p_xid (replies_p rw c))) -> 0 <= clt -> owned h (b :: bufs_all rw ++ ps) ->
  owned h (option_list (private (D_send clt xid b sz)) ++ bufs_all (d_store rw clt xid b sz) ++ ps).
Proof.
  intros Hn Hc Ho. unfold d_store, add_reply_p. cbn [private].
  destruct (Z.eqb_spec clt 0) as [->|Hz]; [done|]. rewrite (proj2 (Z.ltb_lt _ _)) by lia. cbn [option_list app].
  eapply owned_sub; [|exact Ho]. change (option_list None ++ ?l) with l.
  transitivity ((b :: bufs (replies_p rw clt)) ++ bufs_all (delete clt rw) ++ ps).
  - rewrite bufs_all_insert, <- app_assoc. apply submseteq_app; [by apply bufs_set|reflexivity].
  - rewrite (bufs_all_at rw clt), <- app_assoc. reflexivity.
Qed.

Lemma done_owned h clt xid b sz ps :
  owned h (option_list (private (D_send clt xid b sz)) ++ ps) ->
  exists h', d_done h clt b = Ok h' /\ owned h' ps.
Proof.
  unfold d_done. cbn [private]. destruct (clt =? 0); cbn [option_list app]; [apply owned_free|]. intros Ho. by exists h.
Qed.

Lemma sys_inv_step y y' : sys_inv y -> sys_step guard y y' -> sys_inv y'.
Proof.
  intros [Ho Hx Hc] Hs. destruct Hs as [y clt xid xid_rep Hu|y l1 clt xid xid_rep l2 h rw t Et Hg E
    |y l1 clt xid l2 b out Et Hb Hh H4|y l1 clt xid b sz l2 Et|y l1 clt xid b sz l2 solong wr h Et E|y l1 clt xid b sz l2 h Et E].
  - split; [exact Ho|exact Hx|]. constructor; [apply Hu|exact Hc].
  - rewrite (owners_at _ _ _ _ Et) in Ho. rewrite Et in Hc. apply Forall_app in Hc as [Hc1 [Hc Hc2]%Forall_cons].
    cbn [private option_list app] in Ho. destruct (d_check_ok _ _ clt xid xid_rep _ Ho) as (h' & rw' & t' & E' & Ho' & Hk).
    rewrite E in E'. injection E' as <- <- <-. destruct (checked_private _ _ _ _ _ _ _ _ Hk) as [Hp Hd]. split.
    + cbn [y_heap]. by rewrite owners_middle, Hp.
    + intros c. cbn [y_window]. rewrite (k_replies _ _ _ _ _ _ _ _ Hk). case_decide; [by apply updated_xids|done].
    + apply Forall_app. split; [done|]. constructor; [by apply Hd|done].
  - rewrite (owners_at _ _ _ _ Et) in Ho. rewrite Et in Hc. apply Forall_app in Hc as [Hc1 [Hc Hc2]%Forall_cons]. split.
    + cbn [y_heap]. rewrite owners_middle. cbn [private option_list app]. by apply owned_insert.
    + exact Hx.
    + apply Forall_app. split; [done|]. by constructor.
  - rewrite (owners_at _ _ _ _ Et) in Ho. rewrite Et in Hc. apply Forall_app in Hc as [Hc1 [Hc Hc2]%Forall_cons]. split.
    + cbn [y_heap]. rewrite owners_middle. by apply store_owned.
    + intros c. by apply store_xids.
    + apply Forall_app. split; [done|]. by constructor.
  - split; [|exact Hx|exact Hc]. apply (owned_same (y_heap y)); [|exact Ho]. intros p [buf Hp] _. cbn [y_heap].
    destruct (d_write_same _ _ _ _ _ _ E p buf Hp) as (buf' & -> & _). by eexists.
  - rewrite (owners_at _ _ _ _ Et) in Ho. rewrite Et in Hc. apply Forall_app in Hc as [Hc1 [Hc Hc2]%Forall_cons].
    destruct (done_owned _ _ _ _ _ _ Ho) as (h' & E' & Ho'). rewrite E in E'. injection E' as <-. split.
    + cbn [y_heap]. by rewrite owners_middle.
    + exact Hx.
    + apply Forall_app. split; [done|]. by constructor.
Qed.

Definition sys_new : sys := Sys ∅ ∅ [].

Lemma sys_inv_reachable y : rtc (sys_step guard) sys_new y -> sys_inv y.
Proof.
  intros Hr. eapply (rtc_invariant (sys_step guard)); [|exact Hr|].
  - intros y1 y2. apply sys_inv_step.
  - split; [|intros clt; constructor|constructor]. split; constructor.
Qed.
End Interleavings.

(** C21. Every free is right. Whatever requests arrive and however the pool's
    threads interleave: in every reachable state each buffer in the window is
    allocated and belongs to one entry, so that looking a request up, finishing
    one, and the destructor free only allocated buffers, each once. *)
Theorem frees_are_valid y :
  rtc (sys_step (fun _ _ _ => True)) sys_new y ->
  NoDup (bufs_all (y_window y)) /\
  (forall clt xid xid_rep, is_ok (d_check (y_heap y) (y_window y) clt xid xid_rep) = true) /\
  (forall l1 clt xid b sz l2, y_threads y = l1 ++ D_send clt xid b sz :: l2 -> is_ok (d_done (y_heap y) clt b) = true) /\
  is_ok (free_reply_window_p (y_heap y) (y_window y)) = true.
Proof.
  intros [Ho _ _]%sys_inv_reachable. split; [|split; [|split]].
  - destruct Ho as [Hn _]. by apply NoDup_app in Hn as [? _].
  - intros clt xid xid_rep. by destruct (d_check_ok _ _ clt xid xid_rep _ Ho) as (h & rw & t & -> & _).
  - intros l1 clt xid b sz l2 Et. rewrite (owners_at _ _ _ _ Et) in Ho.
    by destruct (done_owned _ _ _ _ _ _ Ho) as (h & -> & _).
  - unfold free_reply_window_p. unfold owners in Ho. rewrite <- all_bufs_window in Ho.
    by destruct (frees_owned _ _ _ Ho) as (h & -> & _).
Qed.

(** ** Patient clients *)

(** The request a thread works on once it has looked it up, and whether it is
    the one that runs the handler; clients without a nonce have no window. *)
Definition active (t : dthread) : option (Z * Z) :=
  match t with D_new c x | D_store c x _ _ | D_send c x _ _ => Some (c, x) | _ => None end.
Definition runner (t : dthread) : option (Z * Z) :=
  match t with D_new c x | D_store c x _ _ => if c =? 0 then None else Some (c, x) | _ => None end.

(** A request acknowledges no request of its client that a thread still works on. *)
Definition patient (y : sys) (clt xid_rep : Z) : Prop :=
  forall t x, t ∈ y_threads y -> active t = Some (clt, x) -> xid_rep < x.

Definition sized (h : heap) (b sz : Z) : Prop := exists buf, h !! b = Some buf /\ zlen buf = sz /\ 4 <= sz.

(** What a thread relies on in the window, and in the heap. *)
Definition in_window (rw : window_p) (t : dthread) : Prop :=
  match t with
  | D_new c x | D_store c x _ _ => c <> 0 -> reply_p_new x ∈ replies_p rw c
  | D_send c x b sz => c <> 0 -> ReplyP x true b sz ∈ replies_p rw c
  | _ => True
  end.
Definition entry_ok (h : heap) (e : reply_p) : Prop :=
  if p_cb_present e then p_buf e <> 0 /\ sized h (p_buf e) (p_sz e) else p_buf e = 0.
Definition holds_buf (h : heap) (t : dthread) : Prop :=
  match t with
  | D_store _ _ b sz => sized h b sz
  | D_send c _ b sz => c = 0 -> sized h b sz
  | _ => True
  end.

Record patient_inv (y : sys) : Prop := {
  q_inv : sys_inv y;
  q_threads t : t ∈ y_threads y -> in_window (y_window y) t;
  q_once : NoDup (omap runner (y_threads y));
  q_entries clt e : e ∈ replies_p (y_window y) clt -> entry_ok (y_heap y) e;
  q_held t : t ∈ y_threads y -> holds_buf (y_heap y) t;
  q_leak p : is_Some (y_heap y !! p) -> p ∈ owners y }.

Lemma same_xid l e e' : NoDup (map p_xid l) -> e ∈ l -> e' ∈ l -> p_xid e = p_xid e' -> e = e'.
Proof.
  induction l as [|a l IH]; cbn [map]; [intros _ []%elem_of_nil|]. intros [Ha Hl]%NoDup_cons.
  intros [->|He]%elem_of_cons [->|He']%elem_of_cons Hx; [done| | |by apply IH].
  - destruct Ha. rewrite Hx. apply list_elem_of_fmap. by exists e'.
  - destruct Ha. rewrite <- Hx. apply list_elem_of_fmap. by exists e.
Qed.

Lemma entry_ok_same h h' e : (p_buf e <> 0 -> h' !! p_buf e = h !! p_buf e) -> entry_ok h e -> entry_ok h' e.
Proof.
  unfold entry_ok. destruct (p_cb_present e); [|done]. intros Hh (Hb & buf & E & Hz). split; [done|].
  exists buf. by rewrite Hh.
Qed.
Lemma holds_same h h' t : (forall b, private t = Some b -> h' !! b = h !! b) -> holds_buf h t -> holds_buf h' t.
Proof.
  intros Hh. destruct t as [| |c x b sz|c x b sz|]; cbn in *; try done.
  - intros (buf & E & Hz). exists buf. by rewrite Hh.
  - intros Hs ->. destruct (Hs eq_refl) as (buf & E & Hz). exists buf. by rewrite Hh.
Qed.

Lemma runner_middle l1 t l2 : omap runner (l1 ++ t :: l2) ≡ₚ option_list (runner t) ++ omap runner (l1 ++ l2).
Proof. rewrite !omap_app. cbn. destruct (runner t); cbn; [|done]. symmetry. apply Permutation_middle. Qed.

Lemma private_elem (ts : list dthread) t b : t ∈ ts -> private t = Some b -> b ∈ omap private ts.
Proof. intros Ht Hp. apply list_elem_of_omap. by exists t. Qed.

(** The heap changes and the other threads and the window do not mind. *)
Lemma frame_entries h h' rw clt e :
  (forall p, p ∈ bufs_all rw -> h' !! p = h !! p) -> e ∈ replies_p rw clt -> entry_ok h e -> entry_ok h' e.
Proof. intros Hh He. apply entry_ok_same. intros Hb. apply Hh. by eapply bufs_all_elem. Qed.
Lemma frame_threads h h' (ts : list dthread) t :
  (forall p, p ∈ omap private ts -> h' !! p = h !! p) -> t ∈ ts -> holds_buf h t -> holds_buf h' t.
Proof. intros Hh Ht. apply holds_same. intros b Hb. apply Hh. by eapply private_elem. Qed.

Lemma elem_middle {A} (l1 l2 : list A) a x : x ∈ l1 ++ a :: l2 <-> x = a \/ x ∈ l1 ++ l2.
Proof. rewrite !elem_of_app, elem_of_cons. tauto. Qed.

Lemma in_kept xid_rep l e : e ∈ l -> xid_rep < p_xid e -> e ∈ kept xid_rep l.
Proof. intros. by apply list_elem_of_filter. Qed.

(** The lookup of a patient request leaves the entries of working threads. *)
Lemma check_in_window h rw (ts : list dthread) clt xid xid_rep h' rw' t' t :
  checked h rw clt xid xid_rep h' rw' t' ->
  (forall t x, t ∈ ts -> active t = Some (clt, x) -> xid_rep < x) ->
  t ∈ ts -> in_window rw t -> in_window rw' t.
Proof.
  intros Hk Hp Ht. assert (forall c e, active t = Some (c, p_xid e) -> e ∈ replies_p rw c -> e ∈ replies_p rw' c) as Hin.
  { intros c e Ha He. rewrite (k_replies _ _ _ _ _ _ _ _ Hk). case_decide as Hd; [|done]. destruct Hd as [<- _].
    apply elem_of_app. left. apply in_kept; [done|]. by apply (Hp t). }
  destruct t as [|c x|c x b sz|c x b sz|]; cbn; try done; intros Hw Hc; by apply Hin, Hw.
Qed.

Lemma check_new_thread h rw (ts : list dthread) clt xid xid_rep h' rw' t :
  checked h rw clt xid xid_rep h' rw' t ->
  (forall t x, t ∈ ts -> active t = Some (clt, x) -> xid_rep < x) -> (forall t, t ∈ ts -> in_window rw t) ->
  in_window rw' t /\ (forall k, runner t = Some k -> k ∉ omap runner ts).
Proof.
  intros Hk Hp Hw. pose proof (k_thread _ _ _ _ _ _ _ _ Hk) as Ht. destruct (Z.eqb_spec clt 0) as [->|Hz].
  { subst t. split; [cbn; intros Hc; by destruct Hc|done]. }
  pose proof (k_replies _ _ _ _ _ _ _ _ Hk clt) as Hr. rewrite decide_True in Hr by done.
  destruct (verdict_p _ _ _) as [st [b sz]] eqn:Ev. destruct st; cbn in Ht; subst t; try (by split).
  - split.
    + cbn. intros _. rewrite Hr. unfold updated_p. rewrite Ev. apply elem_of_app. right. by left.
    + intros k Hk'. cbn in Hk'. rewrite (proj2 (Z.eqb_neq _ _)) in Hk' by done. injection Hk' as <-.
      intros (t & Ht & Hrun)%list_elem_of_omap.
      assert (active t = Some (clt, xid) /\ reply_p_new xid ∈ replies_p rw clt) as [Ha Hin].
      { specialize (Hw t Ht). destruct t as [|c x|c x b' sz'| |]; cbn in Hrun; try done;
          destruct (c =? 0); try done; injection Hrun as -> ->; split; try done; by apply Hw. }
      apply (verdict_new_absent (replies_p rw clt) xid xid_rep (reply_p_new xid)); [by rewrite Ev| |done].
      apply in_kept; [done|]. by apply (Hp t).
  - split; [|done]. cbn. intros _. rewrite Hr. apply elem_of_app. left. unfold verdict_p in Ev.
    destruct (Z.ltb_spec xid_rep xid); [|by destruct (replies_p rw clt)].
    destruct (entry_p _ xid) as [[x cb b' sz']|] eqn:Ee; [|done]. cbn in Ev. destruct cb; [|done]. injection Ev as -> ->.
    apply entry_p_in in Ee as [He Hx]. cbn in Hx. subst x. by apply in_kept.
Qed.

Lemma bufs_all_inv rw p : p ∈ bufs_all rw -> exists c e, e ∈ replies_p rw c /\ p_buf e = p /\ p <> 0.
Proof.
  unfold bufs_all. rewrite list_elem_of_In, in_concat. intros (k & Hk & Hp).
  rewrite <- list_elem_of_In in Hk. rewrite <- list_elem_of_In in Hp. apply list_elem_of_fmap in Hk as ([c l] & -> & Hcl).
  cbn in Hp. apply list_elem_of_filter in Hp as [Hz (e & -> & He)%list_elem_of_fmap].
  apply elem_of_map_to_list in Hcl. exists c, e. unfold replies_p. by rewrite Hcl.
Qed.

Lemma patient_check y l1 clt xid xid_rep l2 h rw t :
  patient_inv y -> y_threads y = l1 ++ D_start clt xid xid_rep :: l2 -> patient y clt xid_rep ->
  d_check (y_heap y) (y_window y) clt xid xid_rep = Ok (h, rw, t) ->
  sys_inv (Sys h rw (l1 ++ t :: l2)) -> patient_inv (Sys h rw (l1 ++ t :: l2)).
Proof.
  intros [Hi Ht Hn He Hh Hl] Et Hp E Hi'. pose proof (y_owned _ Hi) as Ho. rewrite (owners_at _ _ _ _ Et) in Ho.
  cbn [private option_list app] in Ho.
  destruct (d_check_ok _ _ clt xid xid_rep _ Ho) as (h' & rw' & t' & E' & Ho' & Hk).
  rewrite E in E'. injection E' as <- <- <-. destruct (checked_private _ _ _ _ _ _ _ _ Hk) as [Hpr _].
  assert (forall t, t ∈ l1 ++ l2 -> t ∈ y_threads y) as Hsub by (intros t0 H0; rewrite Et; apply elem_middle; by right).
  assert (forall t x, t ∈ l1 ++ l2 -> active t = Some (clt, x) -> xid_rep < x) as Hp' by (intros t0 x H0; apply Hp; by apply Hsub).
  destruct (check_new_thread _ _ (l1 ++ l2) _ _ _ _ _ _ Hk Hp') as [Hw Hr]; [intros t0 H0; by apply Ht, Hsub|].
  assert (forall p, p ∈ bufs_all rw ++ omap private (l1 ++ l2) -> h !! p = y_heap y !! p) as Hsame.
  { intros p Hin. destruct Ho' as [_ Hlive]. unfold live in Hlive. rewrite Forall_forall in Hlive.
    destruct (Hlive p Hin) as [_ [b Hb]]. rewrite (k_heap _ _ _ _ _ _ _ _ Hk) in Hb |- *. by case_decide. }
  split; cbn [y_heap y_window y_threads].
  - exact Hi'.
  - intros t0 [->|H0]%elem_middle; [done|]. eapply check_in_window; [exact Hk|exact Hp'|exact H0|]. by apply Ht, Hsub.
  - rewrite runner_middle. rewrite Et, runner_middle in Hn. cbn in Hn. destruct (runner t) as [k|]; cbn; [|done].
    constructor; [by apply Hr|done].
  - intros c e Hin. pose proof Hin as Hin'. rewrite (k_replies _ _ _ _ _ _ _ _ Hk) in Hin'.
    assert (e = reply_p_new xid \/ e ∈ replies_p (y_window y) c) as [->|H0]; [|done|].
    { case_decide as Hd; [|by right]. destruct Hd as [<- _]. unfold updated_p in Hin'.
      apply elem_of_app in Hin' as [[_ Hin']%list_elem_of_filter|Hin']; [by right|].
      case_decide; [left; by apply list_elem_of_singleton|by apply elem_of_nil in Hin']. }
    eapply (frame_entries (y_heap y) h rw c); [|exact Hin|by eapply He]. intros p H1. apply Hsame, elem_of_app. by left.
  - intros t0 [->|H0]%elem_middle.
    + rewrite (k_thread _ _ _ _ _ _ _ _ Hk). destruct (Z.eqb_spec clt 0); [done|].
      destruct (verdict_p _ _ _) as [[] [b sz]]; cbn; done.
    + eapply frame_threads; [|exact H0|by apply Hh, Hsub]. intros p H1. apply Hsame, elem_of_app. by right.
  - intros p Hs. rewrite owners_middle, Hpr. rewrite (k_heap _ _ _ _ _ _ _ _ Hk) in Hs.
    case_decide as Hd; [by destruct Hs|]. apply Hl in Hs. rewrite (owners_at _ _ _ _ Et) in Hs.
    change (p ∈ bufs_all (y_window y) ++ omap private (l1 ++ l2)) in Hs.
    change (p ∈ bufs_all rw ++ omap private (l1 ++ l2)).
    apply elem_of_app. apply elem_of_app in Hs as [Hs|Hs]; [left|by right].
    apply bufs_all_inv in Hs as (c & e & Hin & <- & Hz). apply (bufs_all_elem rw c); [|done].
    rewrite (k_replies _ _ _ _ _ _ _ _ Hk). case_decide as Hc; [|done]. destruct Hc as [<- Hz'].
    apply elem_of_app. left. destruct (decide (xid_rep < p_xid e)); [by apply in_kept|]. destruct Hd. split; [done|].
    apply buf_elem; [|done]. by apply list_elem_of_filter.
Qed.

Lemma patient_handler y l1 clt xid l2 b out :
  patient_inv y -> y_threads y = l1 ++ D_new clt xid :: l2 -> b <> 0 -> y_heap y !! b = None -> 4 <= zlen out ->
  sys_inv (Sys (<[b := out]> (y_heap y)) (y_window y) (l1 ++ D_store clt xid b (zlen out) :: l2)) ->
  patient_inv (Sys (<[b := out]> (y_heap y)) (y_window y) (l1 ++ D_store clt xid b (zlen out) :: l2)).
Proof.
  intros [Hi Ht Hn He Hh Hl] Et Hb Hnone H4 Hi'. pose proof (y_owned _ Hi) as [_ Hlive]. unfold live in Hlive.
  rewrite Forall_forall in Hlive.
  assert (forall p, p ∈ owners y -> <[b := out]> (y_heap y) !! p = y_heap y !! p) as Hsame.
  { intros p Hp. destruct (Hlive p Hp) as [_ [? ?]]. rewrite lookup_insert_ne; congruence. }
  unfold owners in Hsame. split; cbn [y_heap y_window y_threads].
  - exact Hi'.
  - intros t [->|Hin]%elem_middle; [|apply Ht; rewrite Et; apply elem_middle; by right].
    apply (Ht (D_new clt xid)). rewrite Et. apply elem_middle. by left.
  - rewrite runner_middle. by rewrite Et, runner_middle in Hn.
  - intros c e Hin. eapply frame_entries; [|exact Hin|by eapply He]. intros p Hp. apply Hsame, elem_of_app. by left.
  - intros t [->|Hin]%elem_middle; [exists out; by rewrite lookup_insert_eq|].
    assert (t ∈ y_threads y) as Hin' by (rewrite Et; apply elem_middle; by right).
    eapply frame_threads; [|exact Hin'|by apply Hh]. intros p Hp. apply Hsame, elem_of_app. by right.
  - intros p Hs. rewrite owners_middle. apply elem_of_cons. destruct (decide (b = p)) as [<-|Hne]; [by left|]. right.
    rewrite lookup_insert_ne in Hs by done. apply Hl in Hs. by rewrite (owners_at _ _ _ _ Et) in Hs.
Qed.

(** A thread that works on another entry still finds it after [add_reply]. *)
Lemma store_in_window rw ts l1 clt xid b sz l2 t :
  ts = l1 ++ D_store clt xid b sz :: l2 -> NoDup (omap runner ts) -> (forall t, t ∈ ts -> in_window rw t) ->
  (forall c, NoDup (map p_xid (replies_p rw c))) -> 0 < clt -> t ∈ l1 ++ l2 -> in_window (add_reply_p rw clt xid b sz) t.
Proof.
  intros Et Hn Hw Hx Hc Hin.
  assert (reply_p_new xid ∈ replies_p rw clt) as Hme.
  { apply (Hw (D_store clt xid b sz)); [rewrite Et; apply elem_middle; by left|lia]. }
  assert (in_window rw t) as Ht by (apply Hw; rewrite Et; apply elem_middle; by right).
  assert (runner t <> Some (clt, xid)) as Hr.
  { intros Hr. rewrite Et, runner_middle in Hn. cbn in Hn. rewrite (proj2 (Z.eqb_neq _ _)) in Hn by lia.
    apply NoDup_cons in Hn as [Hn _]. apply Hn, list_elem_of_omap. by exists t. }
  assert (forall c e, e ∈ replies_p rw c -> ~ (c = clt /\ p_xid e = xid) ->
    e ∈ replies_p (add_reply_p rw clt xid b sz) c) as Hkeep.
  { intros c e He Hne. unfold add_reply_p. rewrite replies_insert. case_decide as Hd; [|done]. subst c.
    apply list_elem_of_fmap. exists e. split; [|done]. unfold set_reply_p. rewrite (proj2 (Z.eqb_neq _ _)); [done|].
    intros Hxid. by apply Hne. }
  destruct t as [|c x|c x b' sz'|c x b' sz'|]; cbn in *; try done; intros Hc'; apply Hkeep; try (by apply Ht).
  - intros [-> Hxid]. cbn in Hxid. subst x. by rewrite (proj2 (Z.eqb_neq _ _)) in Hr by done.
  - intros [-> Hxid]. cbn in Hxid. subst x. by rewrite (proj2 (Z.eqb_neq _ _)) in Hr by done.
  - intros [-> Hxid]. specialize (Ht Hc'). cbn in Hxid. subst x.
    pose proof (same_xid _ _ _ (Hx clt) Hme Ht eq_refl). done.
Qed.

Lemma patient_store y l1 clt xid b sz l2 :
  patient_inv y -> y_threads y = l1 ++ D_store clt xid b sz :: l2 ->
  sys_inv (Sys (y_heap y) (d_store (y_window y) clt xid b sz) (l1 ++ D_send clt xid b sz :: l2)) ->
  patient_inv (Sys (y_heap y) (d_store (y_window y) clt xid b sz) (l1 ++ D_send clt xid b sz :: l2)).
Proof.
  intros [Hi Ht Hn He Hh Hl] Et Hi'. pose proof (y_clts _ Hi) as Hc. rewrite Et in Hc.
  apply Forall_app in Hc as [_ [Hc _]%Forall_cons]. cbn in Hc.
  assert (forall t, t ∈ l1 ++ l2 -> t ∈ y_threads y) as Hsub by (intros t0 H0; rewrite Et; apply elem_middle; by right).
  assert (D_store clt xid b sz ∈ y_threads y) as Hme by (rewrite Et; apply elem_middle; by left).
  pose proof (y_owned _ Hi) as [_ Hlive]. rewrite (owners_at _ _ _ _ Et) in Hlive.
  apply Forall_cons in Hlive as [[Hb _] _].
  split; cbn [y_heap y_window y_threads].
  - exact Hi'.
  - unfold d_store. destruct (Z.ltb_spec 0 clt) as [Hpos|Hz].
    + intros t [->|Hin]%elem_middle; [|by eapply store_in_window; [exact Et|..|apply (y_xids _ Hi)| |]].
      cbn. intros _. unfold add_reply_p. rewrite replies_insert, decide_True by done. apply list_elem_of_fmap.
      exists (reply_p_new xid). split; [unfold set_reply_p; cbn; by rewrite Z.eqb_refl|]. apply (Ht _ Hme). lia.
    + intros t [->|Hin]%elem_middle; [cbn; lia|]. by apply Ht, Hsub.
  - rewrite runner_middle. rewrite Et, runner_middle in Hn. by apply NoDup_app in Hn as (_ & _ & ?).
  - intros c e. unfold d_store, add_reply_p. destruct (0 <? clt); [|apply He]. rewrite replies_insert.
    case_decide as Hd; [|apply He]. intros (e' & -> & He')%list_elem_of_fmap. unfold set_reply_p.
    destruct (p_xid e' =? xid); [|by eapply He]. split; [done|]. apply (Hh _ Hme).
  - intros t [->|Hin]%elem_middle; [intros _; apply (Hh _ Hme)|]. by apply Hh, Hsub.
  - intros p Hs. apply Hl in Hs. rewrite (owners_at _ _ _ _ Et) in Hs. rewrite owners_middle.
    change (p ∈ b :: bufs_all (y_window y) ++ omap private (l1 ++ l2)) in Hs.
    apply elem_of_app. rewrite elem_of_app. rewrite elem_of_cons, elem_of_app in Hs. cbn [private].
    unfold d_store. destruct (Z.eqb_spec clt 0) as [->|Hz].
    { cbn. destruct Hs as [->|Hs]; [left; by left|by right]. }
    rewrite (proj2 (Z.ltb_lt _ _)) by lia. right. destruct Hs as [->|[Hs|Hs]]; [left|left|by right].
    + apply (bufs_all_elem _ clt (ReplyP xid true b sz)); [|done]. unfold add_reply_p.
      rewrite replies_insert, decide_True by done. apply list_elem_of_fmap. exists (reply_p_new xid).
      split; [unfold set_reply_p; cbn; by rewrite Z.eqb_refl|by apply (Ht _ Hme)].
    + apply bufs_all_inv in Hs as (c & e & Hin & <- & Hp). apply (bufs_all_elem _ c e); [|done].
      unfold add_reply_p. rewrite replies_insert. case_decide as Hd; [|done]. subst c.
      apply list_elem_of_fmap. exists e. split; [|done]. unfold set_reply_p.
      destruct (Z.eqb_spec (p_xid e) xid) as [Hx|]; [|done].
      assert (reply_p_new xid ∈ replies_p (y_window y) clt) as Hnew by (by apply (Ht _ Hme)).
      by rewrite (same_xid _ _ _ (y_xids _ Hi clt) Hin Hnew Hx) in Hp.
Qed.

Lemma patient_done y l1 clt xid b sz l2 h :
  patient_inv y -> y_threads y = l1 ++ D_send clt xid b sz :: l2 -> d_done (y_heap y) clt b = Ok h ->
  sys_inv (Sys h (y_window y) (l1 ++ D_end :: l2)) -> patient_inv (Sys h (y_window y) (l1 ++ D_end :: l2)).
Proof.
  intros [Hi Ht Hn He Hh Hl] Et E Hi'.
  assert (forall t, t ∈ l1 ++ l2 -> t ∈ y_threads y) as Hsub by (intros t0 H0; rewrite Et; apply elem_middle; by right).
  pose proof (y_owned _ Hi) as [Hnd _]. rewrite (owners_at _ _ _ _ Et) in Hnd. cbn [private] in Hnd.
  assert (forall p, p ∈ bufs_all (y_window y) ++ omap private (l1 ++ l2) -> h !! p = y_heap y !! p) as Hsame.
  { intros p Hp. unfold d_done, hfree in E. destruct (clt =? 0); [|by injection E as <-].
    destruct (b =? 0); [by injection E as <-|]. destruct (y_heap y !! b); [|done]. injection E as <-.
    rewrite lookup_delete_ne; [done|]. intros ->. apply NoDup_cons in Hnd as [Hnd _]. done. }
  split; cbn [y_heap y_window y_threads].
  - exact Hi'.
  - intros t [->|Hin]%elem_middle; [done|by apply Ht, Hsub].
  - rewrite runner_middle. by rewrite Et, runner_middle in Hn.
  - intros c e Hin. eapply frame_entries; [|exact Hin|by eapply He]. intros p Hp. apply Hsame, elem_of_app. by left.
  - intros t [->|Hin]%elem_middle; [done|]. eapply frame_threads; [|exact Hin|by apply Hh, Hsub].
    intros p Hp. apply Hsame, elem_of_app. by right.
  - intros p Hs. rewrite owners_middle. change (p ∈ bufs_all (y_window y) ++ omap private (l1 ++ l2)).
    assert (is_Some (y_heap y !! p) /\ (clt = 0 -> b <> 0 -> p <> b)) as [Hs' Hne].
    { unfold d_done, hfree in E. destruct (Z.eqb_spec clt 0) as [Hz|]; [|by injection E as <-].
      destruct (Z.eqb_spec b 0); [by injection E as <-|]. destruct (y_heap y !! b); [|done]. injection E as <-.
      rewrite lookup_delete in Hs. case_decide as Hd; [by destruct Hs|]. split; [done|]. intros _ _ ->. done. }
    apply Hl in Hs'. rewrite (owners_at _ _ _ _ Et) in Hs'. cbn [private] in Hs'.
    destruct (Z.eqb_spec clt 0) as [Hz|]; [|done]. apply elem_of_cons in Hs' as [->|Hs']; [|done].
    pose proof (y_owned _ Hi) as [_ Hlive]. rewrite (owners_at _ _ _ _ Et) in Hlive. cbn [private] in Hlive.
    rewrite (proj2 (Z.eqb_eq _ _) Hz) in Hlive. apply Forall_cons in Hlive as [[Hb _] _]. by destruct (Hne Hz Hb).
Qed.

Lemma patient_write y b sz solong wr h :
  patient_inv y -> d_write (y_heap y) b sz solong wr = Ok h ->
  sys_inv (Sys h (y_window y) (y_threads y)) -> patient_inv (Sys h (y_window y) (y_threads y)).
Proof.
  intros [Hi Ht Hn He Hh Hl] E Hi'. pose proof (d_write_same _ _ _ _ _ _ E) as Hw.
  assert (forall p n, sized (y_heap y) p n -> sized h p n) as Hs.
  { intros p n (buf & Ep & Hz & H4). destruct (Hw p buf Ep) as (buf' & Ep' & Hz'). exists buf'. by rewrite Hz'. }
  split; cbn [y_heap y_window y_threads]; try done.
  - intros c e Hin. specialize (He c e Hin). unfold entry_ok in *. destruct (p_cb_present e); [|done].
    destruct He. split; [done|by apply Hs].
  - intros t Hin. specialize (Hh t Hin). destruct t; cbn in *; try done; [by apply Hs|]. intros Hc. by apply Hs, Hh.
  - intros p [buf Hp]. apply Hl. unfold d_write in E. destruct (y_heap y !! b) as [buf0|] eqn:Eb; [|done].
    destruct (writepdu _ _) as [[[w ok] out]|]; [|done]. cbn in E. injection E as <-.
    destruct (cb_buf w); [|by eexists]. rewrite lookup_insert in Hp. case_decide; [subst; by eexists|by eexists].
Qed.

(** A reply with room for its size can be written from any position. *)
Lemma d_write_ok h b sz solong n :
  sized h b sz -> 0 <= solong <= sz -> 0 <= n <= sz - solong -> is_ok (d_write h b sz solong (WrBytes n)) = true.
Proof.
  intros (buf & Eb & Hz & H4) Hs Hn. unfold d_write, writepdu. rewrite Eb. cbn [cb_solong cb_sz cb_buf].
  rewrite (proj2 (Z.leb_le _ _)) by lia. cbn [cassert mbind outcome_bind].
  destruct (solong =? sz); [done|]. rewrite memcpy_be32 by lia.
  assert (zlen (be32 sz ++ drop 4 buf) = sz) as Hl.
  { rewrite zlen_app. change (zlen (be32 sz)) with 4. unfold zlen in *. rewrite length_drop. lia. }
  unfold slice. destruct (solong =? 0); cbn [mbind outcome_bind]; by rewrite decide_True by lia.
Qed.

Lemma patient_inv_step y y' : patient_inv y -> sys_step patient y y' -> patient_inv y'.
Proof.
  intros Hq Hs. pose proof (sys_inv_step patient y y' (q_inv _ Hq) Hs) as Hi'. revert Hq Hi'.
  destruct Hs as [y clt xid xid_rep Hu|y l1 clt xid xid_rep l2 h rw t Et Hg E|y l1 clt xid l2 b out Et Hb Hh H4
    |y l1 clt xid b sz l2 Et|y l1 clt xid b sz l2 solong wr h Et E|y l1 clt xid b sz l2 h Et E]; intros Hq Hi'.
  - destruct Hq as [Hi Ht Hn He Hh Hl]. split; cbn; try done.
    + intros t [->|Hin]%elem_of_cons; [done|by apply Ht].
    + intros t [->|Hin]%elem_of_cons; [done|by apply Hh].
  - by eapply patient_check.
  - by eapply patient_handler.
  - by eapply patient_store.
  - by eapply patient_write.
  - by eapply patient_done.
Qed.

Lemma patient_reachable y : rtc (sys_step patient) sys_new y -> patient_inv y.
Proof.
  intros Hr. eapply (rtc_invariant (sys_step patient)); [|exact Hr|].
  - intros y1 y2. apply patient_inv_step.
  - split; cbn.
    + apply (sys_inv_reachable patient), rtc_refl.
    + intros t []%elem_of_nil.
    + constructor.
    + intros clt e. unfold replies_p. rewrite lookup_empty. intros []%elem_of_nil.
    + intros t []%elem_of_nil.
    + intros p [b Hb]. by rewrite lookup_empty in Hb.
Qed.

(** C20. With patient clients the reply buffers are safe. If no request is
    looked up that acknowledges a request a pool thread still works on, then in
    every interleaving a thread that sends a reply has the whole of it in live
    memory, so that writing it to the socket succeeds from any position, and the destructor, once the pool's threads are done, leaves no
    buffer allocated: nothing has been leaked. *)
Theorem patient_memory y :
  rtc (sys_step patient) sys_new y ->
  (forall l1 clt xid b sz l2, y_threads y = l1 ++ D_send clt xid b sz :: l2 ->
     (exists buf, y_heap y !! b = Some buf /\ zlen buf = sz) /\
     forall solong n, 0 <= solong <= sz -> 0 <= n <= sz - solong ->
       is_ok (d_write (y_heap y) b sz solong (WrBytes n)) = true) /\
  (forall r, rpcs_delete y = Some r -> r = Ok (∅, ∅)).
Proof.
  intros [Hi Ht Hn He Hh Hl]%patient_reachable. split.
  - intros l1 clt xid b sz l2 Et.
    assert (D_send clt xid b sz ∈ y_threads y) as Hin by (rewrite Et; apply elem_middle; by left).
    assert (sized (y_heap y) b sz) as Hs.
    { destruct (decide (clt = 0)) as [Hc|Hc]; [by apply (Hh _ Hin)|]. by apply (He clt (ReplyP xid true b sz)), (Ht _ Hin). }
    split; [destruct Hs as (buf & ? & ? & _); by exists buf|]. intros solong n. by apply d_write_ok.
  - unfold rpcs_delete. intros r. destruct (forallb _ _) eqn:Hend; [|done]. intros [= <-].
    rewrite forallb_forall in Hend. pose proof (y_owned _ Hi) as Ho. unfold owners in Ho. rewrite <- all_bufs_window in Ho.
    destruct (frees_owned _ _ _ Ho) as (h & E & _ & Hh'). unfold free_reply_window_p. rewrite E. cbn. f_equal. f_equal.
    apply map_empty. intros p. rewrite Hh'. case_decide as Hd; [done|]. destruct (y_heap y !! p) as [b|] eqn:Ep; [|done].
    destruct Hd. rewrite all_bufs_window. assert (p ∈ owners y) as Hp by (apply Hl; by exists b).
    apply elem_of_app in Hp as [Hp|Hp]; [done|]. apply list_elem_of_omap in Hp as (t & Hin & Hp).
    apply list_elem_of_In, Hend in Hin. by destruct t.
Qed.

(** ** Histories to run *)
Inductive sys_act :=
  | Y_request (clt xid xid_rep : Z)
  | Y_check (k : nat)
  | Y_handler (k : nat) (b : Z) (out : bytes)
  | Y_store (k : nat)
  | Y_done (k : nat).

Section Run.
Variables (guard : sys -> Z -> Z -> Prop) (guard_b : sys -> Z -> Z -> bool).
Hypothesis guard_ok : forall y clt xid_rep, guard_b y clt xid_rep = true -> guard y clt xid_rep.

Definition becomes (ts : list dthread) (k : nat) (t : dthread) : list dthread := take k ts ++ t :: drop (S k) ts.

Definition sys_do (y : sys) (a : sys_act) : option sys :=
  match a with
  | Y_request clt xid xid_rep =>
      if decide (is_u32 clt) then Some (Sys (y_heap y) (y_window y) (D_start clt xid xid_rep :: y_threads y)) else None
  | Y_check k =>
      match y_threads y !! k with
      | Some (D_start clt xid xid_rep) =>
          if guard_b y clt xid_rep then
            match d_check (y_heap y) (y_window y) clt xid xid_rep with
            | Ok (h, rw, t) => Some (Sys h rw (becomes (y_threads y) k t))
            | Crash _ => None
            end
          else None
      | _ => None
      end
  | Y_handler k b out =>
      match y_threads y !! k with
      | Some (D_new clt xid) =>
          if decide (b <> 0 /\ y_heap y !! b = None /\ 4 <= zlen out) then
            Some (Sys (<[b := out]> (y_heap y)) (y_window y) (becomes (y_threads y) k (D_store clt xid b (zlen out))))
          else None
      | _ => None
      end
  | Y_store k =>
      match y_threads y !! k with
      | Some (D_store clt xid b sz) =>
          Some (Sys (y_heap y) (d_store (y_window y) clt xid b sz) (becomes (y_threads y) k (D_send clt xid b sz)))
      | _ => None
      end
  | Y_done k =>
      match y_threads y !! k with
      | Some (D_send clt xid b sz) =>
          match d_done (y_heap y) clt b with
          | Ok h => Some (Sys h (y_window y) (becomes (y_threads y) k D_end))
          | Crash _ => None
          end
      | _ => None
      end
  end.
Definition sys_runs (y : sys) (acts : list sys_act) : option sys :=
  foldl (fun y a => y ≫= fun y => sys_do y a) (Some y) acts.

Lemma sys_do_step y a y' : sys_do y a = Some y' -> sys_step guard y y'.
Proof.
  destruct a as [clt xid xid_rep|k|k b out|k|k]; cbn [sys_do].
  - case_decide; [|done]. intros [= <-]. by apply y_request.
  - destruct (y_threads y !! k) as [[clt xid xid_rep| | | |]|] eqn:Ek; try done. apply take_drop_middle in Ek.
    destruct (guard_b y clt xid_rep) eqn:Eg; [|done]. destruct (d_check _ _ _ _ _) as [[[h rw] t]|] eqn:E; [|done].
    intros [= <-]. eapply y_check; [symmetry; exact Ek|by apply guard_ok|exact E].
  - destruct (y_threads y !! k) as [[|clt xid| | |]|] eqn:Ek; try done. apply take_drop_middle in Ek.
    case_decide as Hb; [|done]. intros [= <-]. eapply y_handler; [symmetry; exact Ek|apply Hb..].
  - destruct (y_threads y !! k) as [[| |clt xid b sz| |]|] eqn:Ek; try done. apply take_drop_middle in Ek.
    intros [= <-]. eapply y_store. symmetry. exact Ek.
  - destruct (y_threads y !! k) as [[| | |clt xid b sz|]|] eqn:Ek; try done. apply take_drop_middle in Ek.
    destruct (d_done _ _ _) as [h|] eqn:E; [|done]. intros [= <-]. eapply y_done; [symmetry; exact Ek|exact E].
Qed.

Lemma sys_runs_reachable acts y y' : sys_runs y acts = Some y' -> rtc (sys_step guard) y y'.
Proof.
  unfold sys_runs. revert y. induction acts as [|a acts IH]; intros y; cbn [foldl]; [by intros [= <-]|].
  cbn [mbind option_bind]. destruct (sys_do y a) as [y1|] eqn:E.
  - intros Hr. eapply rtc_l; [by eapply sys_do_step|by apply IH].
  - assert (foldl (fun y a => y ≫= fun y => sys_do y a) None acts = None) as -> by (clear; by induction acts). done.
Qed.
End Run.

Definition no_guard (y : sys) (clt xid_rep : Z) : bool := true.
Definition patient_b (y : sys) (clt xid_rep : Z) : bool :=
  forallb (fun t => match active t with Some (c, x) => negb (c =? clt) || (xid_rep <? x) | None => true end) (y_threads y).
Lemma patient_b_ok y clt xid_rep : patient_b y clt xid_rep = true -> patient y clt xid_rep.
Proof.
  unfold patient_b, patient. rewrite forallb_forall. intros Hf t x Ht Ha. apply list_elem_of_In in Ht.
  specialize (Hf t Ht). rewrite Ha, Z.eqb_refl in Hf. by apply Z.ltb_lt.
Qed.

(** The reply to call 1 of client 9 is stored, and a copy of its request is found
    DONE. *)
Definition one_call : list sys_act :=
  [Y_request 9 1 0; Y_check 0; Y_handler 0 100 (replicate 24 7); Y_store 0; Y_request 9 1 0; Y_check 0].
(** The reply has been sent; call 2 is looked up while the copy is answered. *)
Definition overtaken : list sys_act := one_call ++ [Y_done 1; Y_request 9 2 1; Y_check 0].
(** Call 1 timed out at the client; call 2 acknowledges it while its handler runs. *)
Definition timed_out : list sys_act :=
  [Y_request 9 1 0; Y_check 0; Y_request 9 2 1; Y_check 0; Y_handler 1 100 (replicate 24 7); Y_store 1; Y_done 1;
   Y_handler 0 101 (replicate 28 4); Y_store 0; Y_done 0].

(** An impatient acknowledgement breaks both. A client that gets the reply
    to a call and goes on acknowledges it: if a copy of the call's request is
    being answered at that moment, its send writes to and reads from a buffer that
    checkduplicate_and_update has freed. And if a client gives a call up while its
    handler runs, the reply is stored nowhere and its buffer is still allocated
    after the destructor. *)
Theorem impatient_acknowledgement :
  (exists y l1 b sz l2, rtc (sys_step (fun _ _ _ => True)) sys_new y /\
     y_threads y = l1 ++ D_send 9 1 b sz :: l2 /\ d_write (y_heap y) b sz 0 (WrBytes sz) = Crash UseAfterFree) /\
  (exists y h, rtc (sys_step (fun _ _ _ => True)) sys_new y /\
     rpcs_delete y = Some (Ok (h, ∅)) /\ h !! 100 = Some (replicate 24 7)).
Proof.
  split.
  - destruct (sys_runs no_guard sys_new overtaken) as [y|] eqn:E; [|by vm_compute in E].
    exists y, [D_new 9 2], 100, 24, [D_end].
    split; [by apply (sys_runs_reachable _ no_guard (fun _ _ _ _ => I) overtaken)|].
    vm_compute in E. injection E as <-. done.
  - destruct (sys_runs no_guard sys_new timed_out) as [y|] eqn:E; [|by vm_compute in E].
    assert (rtc (sys_step (fun _ _ _ => True)) sys_new y) as Hr
      by (by apply (sys_runs_reachable _ no_guard (fun _ _ _ _ => I) timed_out)).
    exists y, {[100 := replicate 24 7]}. split; [exact Hr|]. vm_compute in E. injection E as <-.
    split; vm_compute; reflexivity.
Qed.

(** A patient history: the copy is answered and both threads end before call 2. *)
Definition patient_history : list sys_act := one_call ++ [Y_done 0; Y_done 1; Y_request 9 2 1; Y_check 0;
  Y_handler 0 101 (replicate 28 4); Y_store 0; Y_request 0 7 0; Y_check 0; Y_handler 0 102 (replicate 24 5); Y_store 0].

Lemma checkduplicate_refines_witness :
  exists h' rw' st b sz, checkduplicate_p {[100 := [1]]} {[9 := [ReplyP 1 true 100 1]]} 9 2 1 = Ok (h', rw', st, (b, sz)) /\
    checkduplicate_and_update (view_window {[100 := [1]]} {[9 := [ReplyP 1 true 100 1]]}) 9 2 1 =
      (view_window h' rw', st, (deref h' b, sz)).
Proof.
  destruct (checkduplicate_refines {[100 := [1]]} {[9 := [ReplyP 1 true 100 1]]} 9 2 1) as (h' & rw' & st & b & sz & E & _ & H).
  - change (bufs_all {[9 := [ReplyP 1 true 100 1]]}) with [100].
    split; [apply NoDup_singleton|]. constructor; [|constructor]. split; [done|by exists [1]].
  - exists h', rw', st, b, sz. split; [exact E|exact H].
Defined.

Definition after_patient : sys := default sys_new (sys_runs patient_b sys_new patient_history).
Lemma after_patient_reachable : rtc (sys_step patient) sys_new after_patient.
Proof.
  unfold after_patient. destruct (sys_runs patient_b sys_new patient_history) as [y|] eqn:E; [|apply rtc_refl].
  by apply (sys_runs_reachable _ patient_b patient_b_ok patient_history).
Qed.
Definition after_copy : sys := default sys_new (sys_runs no_guard sys_new one_call).
Lemma after_copy_reachable : rtc (sys_step (fun _ _ _ => True)) sys_new after_copy.
Proof.
  unfold after_copy. destruct (sys_runs no_guard sys_new one_call) as [y|] eqn:E; [|apply rtc_refl].
  by apply (sys_runs_reachable _ no_guard (fun _ _ _ _ => I) one_call).
Qed.

Lemma frees_are_valid_witness :
  bufs_all (y_window after_copy) = [100] /\ is_ok (d_check (y_heap after_copy) (y_window after_copy) 9 2 1) = true /\
  is_ok (free_reply_window_p (y_heap after_copy) (y_window after_copy)) = true.
Proof.
  destruct (frees_are_valid after_copy) as (_ & Hc & _ & Hf).
  - exact after_copy_reachable.
  - split; [vm_compute; reflexivity|]. split; [apply Hc|exact Hf].
Defined.

Lemma patient_memory_witness :
  length (y_threads after_patient) = 4%nat /\
  (exists buf, y_heap after_patient !! 102 = Some buf /\ zlen buf = 24) /\
  is_ok (d_write (y_heap after_patient) 102 24 10 (WrBytes 5)) = true.
Proof.
  split; [vm_compute; reflexivity|].
  destruct (patient_memory after_patient after_patient_reachable) as [Hs _].
  destruct (Hs [] 0 7 102 24 [D_send 9 2 101 28; D_end; D_end]) as [Hb Hw]; [vm_compute; reflexivity|].
  split; [exact Hb|]. apply Hw; lia.
Defined.
