(* ===== verification/Rpcc.v ===== *)
(** * The RPC client endpoint: class rpcc of rpc/rpc.h and rpc/rpc.cc

    A call takes a fresh transaction id, marshals a request and waits for the
    reply that [got_pdu] stores in its [caller] record, retransmitting on a new
    connection when the old one dies, until a deadline. [call1] is split where
    other threads can run: [call1_start], then rounds of [call1_send],
    [call1_deadline], the timed wait and [call1_wake], then [call1_finish].
    Clock readings and the result of connect_to_dst are arguments. *)

From S2P Require Import Prelude Marshall Connection XidWindow TimeSpec Rpcs.
Local Open Scope Z_scope.

Definition to_max : Z := 120000.
Definition to_min : Z := 1000.

(** struct caller; [intret] is indeterminate (here 0) until [done]. *)
Record caller := Caller { ca_un : unmarshall; ca_intret : Z; ca_done : bool }.
Definition caller_new (un : unmarshall) : caller := Caller un 0 false.

Record rpcc := Rpcc {
  k_clt_nonce : Z; k_srv_nonce : Z; k_bind_done : bool; k_xid : Z; k_retrans : bool;
  k_chan : option Z;                (** the connection object, NULL at first *)
  k_calls : gmap Z caller;          (** by xid as an [int] *)
  k_xid_rep_window : list Z;
  k_objs : gmap Z connection;       (** live connection objects *)
  k_sent : list (Z * bytes) }.      (** what went out on which connection *)

(** [random] is what random() returns. *)
Definition rpcc_new (retrans : bool) (random : Z) : rpcc :=
  Rpcc (if retrans then u32 random else 0) 0 false 1 retrans None ∅ [0] ∅ [].

Definition set_bound (c : rpcc) (nonce : Z) : rpcc :=
  Rpcc (k_clt_nonce c) nonce true (k_xid c) (k_retrans c) (k_chan c) (k_calls c)
    (k_xid_rep_window c) (k_objs c) (k_sent c).
Definition set_calls (c : rpcc) (x : Z) (calls : gmap Z caller) : rpcc :=
  Rpcc (k_clt_nonce c) (k_srv_nonce c) (k_bind_done c) x (k_retrans c) (k_chan c) calls
    (k_xid_rep_window c) (k_objs c) (k_sent c).
Definition set_window (c : rpcc) (w : list Z) : rpcc :=
  Rpcc (k_clt_nonce c) (k_srv_nonce c) (k_bind_done c) (k_xid c) (k_retrans c) (k_chan c)
    (k_calls c) w (k_objs c) (k_sent c).
Definition set_chan (c : rpcc) (ch : option Z) (objs : gmap Z connection) : rpcc :=
  Rpcc (k_clt_nonce c) (k_srv_nonce c) (k_bind_done c) (k_xid c) (k_retrans c) ch
    (k_calls c) (k_xid_rep_window c) objs (k_sent c).
Definition set_sent (c : rpcc) (l : list (Z * bytes)) : rpcc :=
  Rpcc (k_clt_nonce c) (k_srv_nonce c) (k_bind_done c) (k_xid c) (k_retrans c) (k_chan c)
    (k_calls c) (k_xid_rep_window c) (k_objs c) l.

(** ** Connection objects *)
Definition chan_obj (c : rpcc) (ch : Z) : outcome connection :=
  match k_objs c !! ch with Some k => Ok k | None => Crash UseAfterFree end.
Definition chan_incref (c : rpcc) (ch : Z) : outcome rpcc :=
  k ← chan_obj c ch; Ok (set_chan c (k_chan c) (<[ch := incref k]> (k_objs c))).
Definition chan_decref (c : rpcc) (ch : Z) : outcome rpcc :=
  k ← chan_obj c ch;
  r ← decref k;
  Ok (set_chan c (k_chan c)
        (match r with Some k => <[ch := k]> (k_objs c) | None => delete ch (k_objs c) end)).
Definition chan_send (c : rpcc) (ch : Z) (b : option bytes) (sz : Z) : outcome rpcc :=
  k ← chan_obj c ch;
  if isdead k then Ok c
  else match b with
       | None => Crash NullDereference
       | Some b => out ← slice b 0 sz; Ok (set_sent c (k_sent c ++ [(ch, out)]))
       end.

(** A NULL pointer counts as dead in every test the client makes. *)
Definition chan_dead (c : rpcc) (ch : option Z) : outcome bool :=
  match ch with None => Ok true | Some ch => k ← chan_obj c ch; Ok (isdead k) end.

(** [get_refconn]; [new] is the object connect_to_dst makes, if it can. *)
Definition get_refconn (c : rpcc) (ch : option Z) (new : option (Z * connection))
    : outcome (rpcc * option Z) :=
  stale ← chan_dead c (k_chan c);
  c ← (if stale : bool then
         c ← (match k_chan c with None => Ok c | Some old => chan_decref c old end);
         Ok (match new with
             | None => set_chan c None (k_objs c)
             | Some (id, k) => set_chan c (Some id) (<[id := k]> (k_objs c))
             end)
       else Ok c);
  match k_chan c with
  | None => Ok (c, ch)
  | Some chan =>
      c ← (match ch with None => Ok c | Some old => chan_decref c old end);
      c ← chan_incref c chan;
      Ok (c, Some chan)
  end.

(** ** Calls *)

(** The locals of a [call1] in progress. *)
Record call_state := CallState {
  cs_xid : Z; cs_req : marshall; cs_curr_to : Z; cs_final : timespec;
  cs_transmit : bool; cs_ch : option Z }.

Section Calls.
Context `{Memory}.

(** Up to the loop; [inl] is an early return. *)
Definition call1_start (c : rpcc) (proc : Z) (req : marshall) (to : Z) (now : timespec)
    : outcome (rpcc * (Z + call_state)) :=
  if (negb (proc =? rpc_bind) && negb (k_bind_done c)) || ((proc =? rpc_bind) && k_bind_done c)
  then Ok (c, inl bind_failure)
  else
    let xid := k_xid c in
    let c := set_calls c (u32 (xid + 1)) (<[i32 xid := caller_new unmarshall_empty]> (k_calls c)) in
    front ← window_front (k_xid_rep_window c);
    req ← marshall_pack_req_header req
            (mk_req_header xid proc (k_clt_nonce c) (k_srv_nonce c) front);
    final ← add_timespec now to;
    Ok (c, inr (CallState xid req to_min final true None)).

(** The [if (transmit)] block. *)
Definition call1_send (c : rpcc) (cs : call_state) (new : option (Z * connection))
    : outcome (rpcc * call_state) :=
  if cs_transmit cs then
    '(c, ch) ← get_refconn c (cs_ch cs) new;
    c ← (match ch with
         | Some k => chan_send c k (m_buf (cs_req cs)) (marshall_size (cs_req cs))
         | None => Ok c
         end);
    Ok (c, CallState (cs_xid cs) (cs_req cs) (cs_curr_to cs) (cs_final cs) false ch)
  else Ok (c, cs).

(** The deadline of the next wait; [None] when the final one has passed. *)
Definition call1_deadline (cs : call_state) (now : timespec)
    : outcome (option (call_state * timespec)) :=
  if tv_sec (cs_final cs) =? 0 then Ok None
  else
    nextdeadline ← add_timespec now (cs_curr_to cs);
    if 0 <? cmp_timespec nextdeadline (cs_final cs)
    then Ok (Some (CallState (cs_xid cs) (cs_req cs) (cs_curr_to cs)
                     (Timespec 0 (tv_nsec (cs_final cs))) (cs_transmit cs) (cs_ch cs),
                   cs_final cs))
    else Ok (Some (cs, nextdeadline)).

(** After the wait: [None] when the reply is there, else the next round. *)
Definition call1_wake (c : rpcc) (cs : call_state) : outcome (option call_state) :=
  match k_calls c !! i32 (cs_xid cs) with
  | None => Crash UseAfterFree
  | Some ca =>
      if ca_done ca then Ok None
      else
        dead ← chan_dead c (cs_ch cs);
        let transmit := if k_retrans c && dead then true else cs_transmit cs in
        curr_to ← int_of (Z.shiftl (cs_curr_to cs) 1);
        Ok (Some (CallState (cs_xid cs) (cs_req cs) curr_to (cs_final cs) transmit (cs_ch cs)))
  end.

(** From the end of the loop: the reply's buffer and the returned code. *)
Definition call1_finish (c : rpcc) (cs : call_state) : outcome (rpcc * unmarshall * Z) :=
  match k_calls c !! i32 (cs_xid cs) with
  | None => Crash UseAfterFree
  | Some ca =>
      w ← update_xid_rep (k_xid_rep_window c) (cs_xid cs);
      let c := set_window (set_calls c (k_xid c) (delete (i32 (cs_xid cs)) (k_calls c))) w in
      c ← (match cs_ch cs with None => Ok c | Some ch => chan_decref c ch end);
      Ok (c, ca_un ca, if ca_done ca then ca_intret ca else timeout_failure)
  end.

(** A reply arrives. *)
Definition got_pdu (c : rpcc) (b : bytes) (sz : Z) : outcome (rpcc * bool) :=
  '(rep, h) ← unmarshall_unpack_reply_header (unmarshall_new b sz);
  if negb (u_ok rep) then Ok (c, true)
  else
    w ← update_xid_rep (k_xid_rep_window c) (u32 (rp_xid h));
    let c := set_window c w in
    match k_calls c !! rp_xid h with
    | None => Ok (c, true)
    | Some ca =>
        let ca := if negb (ca_done ca)
                  then Caller (unmarshall_take_in (ca_un ca) rep).1 (rp_ret h) true
                  else ca in
        Ok (set_calls c (k_xid c) (<[rp_xid h := ca]> (k_calls c)), true)
    end.

(** [call_m] from the return of [call1]: the result variable and the code. *)
Definition call_m_finish {R} (cr : codec R) (intret : Z) (u : unmarshall) (r : R)
    : outcome (R * Z) :=
  if intret <? 0 then Ok (r, intret)
  else
    '(u, r) ← get cr u r;
    if negb (unmarshall_okdone u) then Ok (r, unmarshal_reply_failure)
    else Ok (r, intret).

(** [bind] from the return of its call. *)
Definition bind_finish (c : rpcc) (r ret : Z) : rpcc :=
  if ret =? 0 then set_bound c (u32 r) else c.

(** The destructor, up to freeing its mutexes. *)
Definition rpcc_delete (c : rpcc) : outcome rpcc :=
  c ← (match k_chan c with
       | None => Ok c
       | Some ch =>
           k ← chan_obj c ch;
           chan_decref (set_chan c (k_chan c) (<[ch := (closeconn k).1]> (k_objs c))) ch
       end);
  _ ← cassert (bool_decide (k_calls c = ∅));
  Ok c.
End Calls.

(** ** What the client acknowledges *)
Section Acknowledge.
Context `{Memory}.

(** The steps of the client's threads, interleaved. The ids stay below 2^31,
    and replies come for ids the client has used. *)
Inductive client_step : rpcc -> rpcc -> Prop :=
  | cstep_start c proc req to now c' cs :
      k_xid c < 2 ^ 31 - 1 -> call1_start c proc req to now = Ok (c', inr cs) -> client_step c c'
  | cstep_send c cs new c' cs' :
      call1_send c cs new = Ok (c', cs') -> client_step c c'
  | cstep_reply c b sz u h c' ok :
      unmarshall_unpack_reply_header (unmarshall_new b sz) = Ok (u, h) ->
      0 <= rp_xid h < k_xid c -> got_pdu c b sz = Ok (c', ok) -> client_step c c'
  | cstep_finish c cs c' u ret :
      0 <= cs_xid cs < 2 ^ 31 -> call1_finish c cs = Ok (c', u, ret) -> client_step c c'
  | cstep_bind c r ret : client_step c (bind_finish c r ret).

Definition client_inv (c : rpcc) : Prop :=
  window_ok (k_xid_rep_window c) /\ 0 < k_xid c < 2 ^ 31 /\
  (forall x, acked (k_xid_rep_window c) x -> x < k_xid c) /\
  (forall x ca, k_calls c !! x = Some ca ->
     0 < x < k_xid c /\ (ca_done ca = false -> ~ acked (k_xid_rep_window c) x)).

(** Connection handling leaves ids, calls and window alone. *)
Definition same_calls (c c' : rpcc) : Prop :=
  k_xid c' = k_xid c /\ k_calls c' = k_calls c /\ k_xid_rep_window c' = k_xid_rep_window c.

Lemma chan_incref_same c ch c' : chan_incref c ch = Ok c' -> same_calls c c'.
Proof. unfold chan_incref. destruct (chan_obj c ch); simpl; [|done]. by intros [= <-]. Qed.
Lemma chan_decref_same c ch c' : chan_decref c ch = Ok c' -> same_calls c c'.
Proof.
  unfold chan_decref. destruct (chan_obj c ch); simpl; [|done].
  destruct (decref _); simpl; [|done]. by intros [= <-].
Qed.
Lemma chan_send_same c ch b sz c' : chan_send c ch b sz = Ok c' -> same_calls c c'.
Proof.
  unfold chan_send. destruct (chan_obj c ch); simpl; [|done]. destruct (isdead _).
  { by intros [= <-]. }
  destruct b as [b|]; [|done]. destruct (slice b 0 sz); simpl; [|done]. by intros [= <-].
Qed.
Lemma same_calls_trans c1 c2 c3 : same_calls c1 c2 -> same_calls c2 c3 -> same_calls c1 c3.
Proof. intros (?&?&?) (?&?&?). split_and!; congruence. Qed.

Lemma maybe_decref_same c ch c' :
  (match ch with None => Ok c | Some old => chan_decref c old end) = Ok c' -> same_calls c c'.
Proof. destruct ch; [apply chan_decref_same|]. by intros [= <-]. Qed.

Lemma get_refconn_same c ch new c' ch' : get_refconn c ch new = Ok (c', ch') -> same_calls c c'.
Proof.
  unfold get_refconn. destruct (chan_dead c _) as [stale|]; cbn [mbind outcome_bind]; [|done].
  intros E.
  assert (exists c1, same_calls c c1 /\ match k_chan c1 with
    | None => Ok (c1, ch)
    | Some chan => c ← (match ch with None => Ok c1 | Some old => chan_decref c1 old end);
                   c ← chan_incref c chan; Ok (c, Some chan) end = Ok (c', ch')) as (c1 & H1 & E1).
  { destruct stale; cbn [mbind outcome_bind] in E; [|by exists c].
    destruct (match k_chan c with None => Ok c | Some old => chan_decref c old end) as [c0|] eqn:E0;
      cbn [mbind outcome_bind] in E; [|done].
    eexists. split; [|exact E]. apply maybe_decref_same in E0 as (?&?&?). by destruct new as [[]|]. }
  destruct (k_chan c1) as [chan|]; [|by simplify_eq].
  destruct (match ch with None => Ok c1 | Some old => chan_decref c1 old end) as [c2|] eqn:E2;
    cbn [mbind outcome_bind] in E1; [|done].
  destruct (chan_incref c2 chan) as [c3|] eqn:E3; cbn [mbind outcome_bind] in E1; [|done]. simplify_eq.
  eapply same_calls_trans; [exact H1|]. eapply same_calls_trans;
    [by eapply maybe_decref_same|by eapply chan_incref_same].
Qed.

Lemma call1_send_same c cs new c' cs' : call1_send c cs new = Ok (c', cs') -> same_calls c c'.
Proof.
  unfold call1_send. destruct (cs_transmit cs); [|by intros [= <- <-]].
  destruct (get_refconn c _ new) as [[c1 ch]|] eqn:E1; cbn [mbind outcome_bind]; [|done].
  apply get_refconn_same in E1. destruct ch as [ch|]; cbn [mbind outcome_bind].
  - destruct (chan_send c1 _ _ _) as [c2|] eqn:E2; cbn [mbind outcome_bind]; [|done].
    intros [= <- <-]. eapply same_calls_trans; [done|by eapply chan_send_same].
  - by intros [= <- <-].
Qed.

Lemma client_inv_same c c' : same_calls c c' -> client_inv c -> client_inv c'.
Proof. intros (Hx & Hc & Hw). unfold client_inv. by rewrite Hx, Hc, Hw. Qed.

(** Acknowledging an id that is answered or no longer outstanding. *)
Lemma client_inv_ack w xid x (calls calls' : gmap Z caller) :
  window_ok w -> 0 <= xid < x -> x < 2 ^ 31 ->
  (forall y, acked w y -> y < x) ->
  (forall y ca, calls !! y = Some ca -> 0 < y < x /\ (ca_done ca = false -> ~ acked w y)) ->
  (forall y ca, calls' !! y = Some ca -> (y <> xid /\ calls !! y = Some ca) \/
     (y = xid /\ ca_done ca = true /\ 0 < y)) ->
  exists w', update_xid_rep w xid = Ok w' /\ window_ok w' /\ (forall y, acked w' y -> y < x) /\
    (forall y ca, calls' !! y = Some ca -> 0 < y < x /\ (ca_done ca = false -> ~ acked w' y)).
Proof.
  intros Hw Hxid Hx Hlt Hcalls Hcalls'.
  destruct (update_xid_rep_ok w xid Hw) as (w' & E & Hw' & Ha); [unfold is_u32; lia|].
  exists w'. split; [done|]. split; [done|]. split.
  - intros y Hy. destruct (Z.le_gt_cases 0 y); [|lia]. apply Ha in Hy as [Hy| ->]; [auto|lia|done].
  - intros y ca Hy. destruct (Hcalls' y ca Hy) as [[Hne Hy']|(-> & Hd & ?)].
    + destruct (Hcalls y ca Hy') as [Hr Hn]. split; [done|]. intros Hd Hack.
      apply Ha in Hack as [Hack| ->]; [by apply (Hn Hd)|done|lia].
    + split; [lia|]. rewrite Hd. done.
Qed.

Lemma client_inv_step c c' : client_inv c -> client_step c c' -> client_inv c'.
Proof.
  intros Hinv Hstep. revert Hinv. destruct Hstep as
    [c proc req to now c' cs Hx Hs|c cs new c' cs' Hs|c b sz u h c' ok Hu Hr Hg|c cs c' u ret Hx Hf|c r ret].
  - intros (Hw & Hk & Hlt & Hcalls). unfold call1_start in Hs. destruct (_ || _); simplify_eq/=.
    destruct (window_front _) as [fr|]; simplify_eq/=.
    destruct (marshall_pack_req_header _ _) as [m|]; simplify_eq/=.
    destruct (add_timespec _ _) as [f|]; simplify_eq/=.
    unfold client_inv. cbn [k_xid_rep_window set_calls k_xid k_calls].
    rewrite u32_small, i32_small by (unfold is_u32, is_i32; lia). split; [done|]. split; [lia|]. split.
    { intros x Ha. specialize (Hlt x Ha). lia. }
    intros x ca. rewrite lookup_insert. case_decide as E.
    + intros [= <-]. subst x. split; [lia|]. intros _ Ha. specialize (Hlt _ Ha). lia.
    + intros Hc. destruct (Hcalls x ca Hc) as [??]. split; [lia|done].
  - by apply client_inv_same, (call1_send_same c cs new c' cs').
  - intros (Hw & Hk & Hlt & Hcalls). unfold got_pdu in Hg. rewrite Hu in Hg. cbn [mbind outcome_bind] in Hg.
    destruct (u_ok u); cbn [negb] in Hg; [|by simplify_eq].
    rewrite u32_small in Hg by (unfold is_u32; lia).
    set (calls' := match k_calls c !! rp_xid h with
      | None => k_calls c
      | Some ca => <[rp_xid h := if negb (ca_done ca)
                  then Caller (unmarshall_take_in (ca_un ca) u).1 (rp_ret h) true else ca]> (k_calls c) end).
    destruct (client_inv_ack (k_xid_rep_window c) (rp_xid h) (k_xid c) (k_calls c) calls')
      as (w' & E & Hw' & Hlt' & Hcalls'); [done|done|lia|done|done| |].
    { intros y ca Hy. subst calls'. destruct (k_calls c !! rp_xid h) as [ca0|] eqn:E0.
      - rewrite lookup_insert in Hy. case_decide as Ey.
        + right. simplify_eq. destruct (Hcalls _ _ E0) as [Hp _].
          split_and!; [done| |lia]. by destruct (ca_done ca0) eqn:?.
        + left. done.
      - left. split; [congruence|done]. }
    rewrite E in Hg. cbn [mbind outcome_bind] in Hg. cbn [k_calls set_window] in Hg. subst calls'.
    destruct (k_calls c !! rp_xid h) eqn:E0; simplify_eq; done.
  - intros (Hw & Hk & Hlt & Hcalls). unfold call1_finish in Hf.
    rewrite i32_small in Hf by (unfold is_i32; lia).
    destruct (k_calls c !! cs_xid cs) as [ca|] eqn:E0; [|done].
    destruct (Hcalls _ _ E0) as [Hp _].
    destruct (client_inv_ack (k_xid_rep_window c) (cs_xid cs) (k_xid c) (k_calls c)
      (delete (cs_xid cs) (k_calls c))) as (w' & E & Hw' & Hlt' & Hcalls'); [done|lia|lia|done|done| |].
    { intros y ca' Hy. left. rewrite lookup_delete in Hy. case_decide; [done|]. split; [congruence|done]. }
    rewrite E in Hf. cbn [mbind outcome_bind] in Hf.
    destruct (match cs_ch cs with None => _ | Some ch => _ end) as [c1|] eqn:E1; [|done].
    apply maybe_decref_same in E1. simplify_eq/=. eapply client_inv_same; [exact E1|]. done.
  - apply client_inv_same. unfold bind_finish. by destruct (ret =? 0).
Qed.

Lemma client_inv_new retrans random : client_inv (rpcc_new retrans random).
Proof.
  split; [apply window_init_ok|]. split; [simpl; lia|]. split.
  - intros x [?|?]; [simpl; lia|set_solver].
  - intros x ca Hc. cbn [k_calls rpcc_new] in Hc. by rewrite lookup_empty in Hc.
Qed.

Lemma client_reachable_inv retrans random c :
  rtc client_step (rpcc_new retrans random) c -> client_inv c.
Proof.
  intros Hs. eapply rtc_invariant; [exact client_inv_step|exact Hs|apply client_inv_new].
Qed.

(** C11. The client acknowledges only what it has an answer for (or has given up
    on). In every state the client's threads can reach, the acknowledgement the
    next request will carry is below the id of every outstanding call without
    an answer -- the condition under which the server guarantees at most one
    execution -- and the id of the next call is not in use. *)
Theorem outstanding_not_acknowledged retrans random c :
  rtc client_step (rpcc_new retrans random) c ->
  k_calls c !! i32 (k_xid c) = None /\
  exists f, window_front (k_xid_rep_window c) = Ok f /\
    forall x ca, k_calls c !! x = Some ca -> ca_done ca = false -> f < x.
Proof.
  intros Hs. destruct (client_reachable_inv _ _ _ Hs) as (Hw & Hk & Hlt & Hcalls).
  rewrite i32_small by (unfold is_i32; lia). split.
  - destruct (k_calls c !! k_xid c) as [ca|] eqn:E; [|done]. destruct (Hcalls _ _ E). lia.
  - destruct (k_xid_rep_window c) as [|f w] eqn:Ew; [by destruct Hw as (_ & _ & ?)|].
    exists f. split; [done|]. intros x ca Hc Hd. destruct (Hcalls x ca Hc) as [_ Hn].
    specialize (Hn Hd). simpl in Hn. lia.
Qed.
End Acknowledge.

#[local] Existing Instance zero_memory.
(** Call 1 is outstanding. *)
Lemma outstanding_not_acknowledged_witness :
  exists c, rtc client_step (rpcc_new true 9) c /\ is_some (k_calls c !! 1) = true /\
    k_calls c !! i32 (k_xid c) = None.
Proof.
  assert (rtc client_step (rpcc_new true 9) (set_calls (rpcc_new true 9) 2
    {[1 := caller_new unmarshall_empty]})) as Hs.
  { apply rtc_once.
    destruct (call1_start (rpcc_new true 9) rpc_bind marshall_new to_max (Timespec 1000 0))
      as [[c' [|cs]]|] eqn:E; [by vm_compute in E| |by vm_compute in E].
    replace (set_calls (rpcc_new true 9) 2 {[1 := caller_new unmarshall_empty]}) with c'.
    - apply (cstep_start _ rpc_bind marshall_new to_max (Timespec 1000 0) c' cs); [by vm_compute|done].
    - vm_compute in E. by simplify_eq. }
  eexists. split; [exact Hs|]. split; [by vm_compute|].
  apply (outstanding_not_acknowledged true 9 _ Hs).
Defined.
