(* ===== verification/Stubs.v ===== *)
(** * The stubs of rpc/rpc.h: the overloads of rpcc::call and rpcs::reg

    One overload per number of arguments, as the header has them. Each is the
    one-argument stub on a tuple: marshalling the arguments one after the other
    is marshalling them as nested pairs, and likewise on the server's side.
    What is proved of one-argument calls thus holds for all of them. *)

From S2P Require Import Prelude Marshall Connection Rpcs.
Local Open Scope Z_scope.

Section Stubs.
Context `{Memory} {St : Type}.

(** ** rpcc::call: the request a call marshals *)
Definition call_args0 : outcome marshall := Ok marshall_new.
Definition call_args1 {A1} (c1 : codec A1) (a1 : A1) : outcome marshall :=
  let m := marshall_new in
  put c1 m a1.
Definition call_args2 {A1} {A2} (c1 : codec A1) (c2 : codec A2) (a1 : A1) (a2 : A2)
    : outcome marshall :=
  let m := marshall_new in
  m ← put c1 m a1;
  put c2 m a2.

Definition call_args3 {A1} {A2} {A3} (c1 : codec A1) (c2 : codec A2) (c3 : codec A3) (a1 : A1) (a2 : A2) (a3 : A3)
    : outcome marshall :=
  let m := marshall_new in
  m ← put c1 m a1;
  m ← put c2 m a2;
  put c3 m a3.

Definition call_args4 {A1} {A2} {A3} {A4} (c1 : codec A1) (c2 : codec A2) (c3 : codec A3) (c4 : codec A4) (a1 : A1) (a2 : A2) (a3 : A3) (a4 : A4)
    : outcome marshall :=
  let m := marshall_new in
  m ← put c1 m a1;
  m ← put c2 m a2;
  m ← put c3 m a3;
  put c4 m a4.

Definition call_args5 {A1} {A2} {A3} {A4} {A5} (c1 : codec A1) (c2 : codec A2) (c3 : codec A3) (c4 : codec A4) (c5 : codec A5) (a1 : A1) (a2 : A2) (a3 : A3) (a4 : A4) (a5 : A5)
    : outcome marshall :=
  let m := marshall_new in
  m ← put c1 m a1;
  m ← put c2 m a2;
  m ← put c3 m a3;
  m ← put c4 m a4;
  put c5 m a5.

Definition call_args6 {A1} {A2} {A3} {A4} {A5} {A6} (c1 : codec A1) (c2 : codec A2) (c3 : codec A3) (c4 : codec A4) (c5 : codec A5) (c6 : codec A6) (a1 : A1) (a2 : A2) (a3 : A3) (a4 : A4) (a5 : A5) (a6 : A6)
    : outcome marshall :=
  let m := marshall_new in
  m ← put c1 m a1;
  m ← put c2 m a2;
  m ← put c3 m a3;
  m ← put c4 m a4;
  m ← put c5 m a5;
  put c6 m a6.

Definition call_args7 {A1} {A2} {A3} {A4} {A5} {A6} {A7} (c1 : codec A1) (c2 : codec A2) (c3 : codec A3) (c4 : codec A4) (c5 : codec A5) (c6 : codec A6) (c7 : codec A7) (a1 : A1) (a2 : A2) (a3 : A3) (a4 : A4) (a5 : A5) (a6 : A6) (a7 : A7)
    : outcome marshall :=
  let m := marshall_new in
  m ← put c1 m a1;
  m ← put c2 m a2;
  m ← put c3 m a3;
  m ← put c4 m a4;
  m ← put c5 m a5;
  m ← put c6 m a6;
  put c7 m a7.

(** ** rpcs::reg: the handler class [h1] of each overload *)
Definition h1_fn2 {A1} {A2} {R} (c1 : codec A1) (c2 : codec A2) (cr : codec R)
    (d1 : A1) (d2 : A2) (r0 : R) (meth : A1 -> A2 -> R -> St -> outcome (St * R * Z)) : handler St :=
  fun args ret s =>
  '(args, a1) ← get c1 args d1;
  '(args, a2) ← get c2 args d2;
  if negb (unmarshall_okdone args) then Ok (s, ret, unmarshal_args_failure)
  else
    '(s, r, b) ← meth a1 a2 r0 s;
    ret ← put cr ret r;
    Ok (s, ret, b).

Definition h1_fn3 {A1} {A2} {A3} {R} (c1 : codec A1) (c2 : codec A2) (c3 : codec A3) (cr : codec R)
    (d1 : A1) (d2 : A2) (d3 : A3) (r0 : R) (meth : A1 -> A2 -> A3 -> R -> St -> outcome (St * R * Z)) : handler St :=
  fun args ret s =>
  '(args, a1) ← get c1 args d1;
  '(args, a2) ← get c2 args d2;
  '(args, a3) ← get c3 args d3;
  if negb (unmarshall_okdone args) then Ok (s, ret, unmarshal_args_failure)
  else
    '(s, r, b) ← meth a1 a2 a3 r0 s;
    ret ← put cr ret r;
    Ok (s, ret, b).

Definition h1_fn4 {A1} {A2} {A3} {A4} {R} (c1 : codec A1) (c2 : codec A2) (c3 : codec A3) (c4 : codec A4) (cr : codec R)
    (d1 : A1) (d2 : A2) (d3 : A3) (d4 : A4) (r0 : R) (meth : A1 -> A2 -> A3 -> A4 -> R -> St -> outcome (St * R * Z)) : handler St :=
  fun args ret s =>
  '(args, a1) ← get c1 args d1;
  '(args, a2) ← get c2 args d2;
  '(args, a3) ← get c3 args d3;
  '(args, a4) ← get c4 args d4;
  if negb (unmarshall_okdone args) then Ok (s, ret, unmarshal_args_failure)
  else
    '(s, r, b) ← meth a1 a2 a3 a4 r0 s;
    ret ← put cr ret r;
    Ok (s, ret, b).

Definition h1_fn5 {A1} {A2} {A3} {A4} {A5} {R} (c1 : codec A1) (c2 : codec A2) (c3 : codec A3) (c4 : codec A4) (c5 : codec A5) (cr : codec R)
    (d1 : A1) (d2 : A2) (d3 : A3) (d4 : A4) (d5 : A5) (r0 : R) (meth : A1 -> A2 -> A3 -> A4 -> A5 -> R -> St -> outcome (St * R * Z)) : handler St :=
  fun args ret s =>
  '(args, a1) ← get c1 args d1;
  '(args, a2) ← get c2 args d2;
  '(args, a3) ← get c3 args d3;
  '(args, a4) ← get c4 args d4;
  '(args, a5) ← get c5 args d5;
  if negb (unmarshall_okdone args) then Ok (s, ret, unmarshal_args_failure)
  else
    '(s, r, b) ← meth a1 a2 a3 a4 a5 r0 s;
    ret ← put cr ret r;
    Ok (s, ret, b).

Definition h1_fn6 {A1} {A2} {A3} {A4} {A5} {A6} {R} (c1 : codec A1) (c2 : codec A2) (c3 : codec A3) (c4 : codec A4) (c5 : codec A5) (c6 : codec A6) (cr : codec R)
    (d1 : A1) (d2 : A2) (d3 : A3) (d4 : A4) (d5 : A5) (d6 : A6) (r0 : R) (meth : A1 -> A2 -> A3 -> A4 -> A5 -> A6 -> R -> St -> outcome (St * R * Z)) : handler St :=
  fun args ret s =>
  '(args, a1) ← get c1 args d1;
  '(args, a2) ← get c2 args d2;
  '(args, a3) ← get c3 args d3;
  '(args, a4) ← get c4 args d4;
  '(args, a5) ← get c5 args d5;
  '(args, a6) ← get c6 args d6;
  if negb (unmarshall_okdone args) then Ok (s, ret, unmarshal_args_failure)
  else
    '(s, r, b) ← meth a1 a2 a3 a4 a5 a6 r0 s;
    ret ← put cr ret r;
    Ok (s, ret, b).

Definition h1_fn7 {A1} {A2} {A3} {A4} {A5} {A6} {A7} {R} (c1 : codec A1) (c2 : codec A2) (c3 : codec A3) (c4 : codec A4) (c5 : codec A5) (c6 : codec A6) (c7 : codec A7) (cr : codec R)
    (d1 : A1) (d2 : A2) (d3 : A3) (d4 : A4) (d5 : A5) (d6 : A6) (d7 : A7) (r0 : R) (meth : A1 -> A2 -> A3 -> A4 -> A5 -> A6 -> A7 -> R -> St -> outcome (St * R * Z)) : handler St :=
  fun args ret s =>
  '(args, a1) ← get c1 args d1;
  '(args, a2) ← get c2 args d2;
  '(args, a3) ← get c3 args d3;
  '(args, a4) ← get c4 args d4;
  '(args, a5) ← get c5 args d5;
  '(args, a6) ← get c6 args d6;
  '(args, a7) ← get c7 args d7;
  if negb (unmarshall_okdone args) then Ok (s, ret, unmarshal_args_failure)
  else
    '(s, r, b) ← meth a1 a2 a3 a4 a5 a6 a7 r0 s;
    ret ← put cr ret r;
    Ok (s, ret, b).

(** ** Tuples *)
Lemma call_args2_tuple {A1 A2} (c1 : codec A1) (c2 : codec A2) a1 a2 :
  call_args2 c1 c2 a1 a2 = put (pair_c c1 c2) marshall_new (a1, a2).
Proof. reflexivity. Qed.

Lemma call_args3_tuple {A1 A2 A3} (c1 : codec A1) (c2 : codec A2) (c3 : codec A3) a1 a2 a3 :
  call_args3 c1 c2 c3 a1 a2 a3 = put (pair_c c1 (pair_c c2 c3)) marshall_new (a1, (a2, a3)).
Proof. reflexivity. Qed.

Lemma call_args4_tuple {A1 A2 A3 A4} (c1 : codec A1) (c2 : codec A2) (c3 : codec A3) (c4 : codec A4) a1 a2 a3 a4 :
  call_args4 c1 c2 c3 c4 a1 a2 a3 a4 = put (pair_c c1 (pair_c c2 (pair_c c3 c4))) marshall_new (a1, (a2, (a3, a4))).
Proof. reflexivity. Qed.

Lemma call_args5_tuple {A1 A2 A3 A4 A5} (c1 : codec A1) (c2 : codec A2) (c3 : codec A3) (c4 : codec A4) (c5 : codec A5) a1 a2 a3 a4 a5 :
  call_args5 c1 c2 c3 c4 c5 a1 a2 a3 a4 a5 = put (pair_c c1 (pair_c c2 (pair_c c3 (pair_c c4 c5)))) marshall_new (a1, (a2, (a3, (a4, a5)))).
Proof. reflexivity. Qed.

Lemma call_args6_tuple {A1 A2 A3 A4 A5 A6} (c1 : codec A1) (c2 : codec A2) (c3 : codec A3) (c4 : codec A4) (c5 : codec A5) (c6 : codec A6) a1 a2 a3 a4 a5 a6 :
  call_args6 c1 c2 c3 c4 c5 c6 a1 a2 a3 a4 a5 a6 = put (pair_c c1 (pair_c c2 (pair_c c3 (pair_c c4 (pair_c c5 c6))))) marshall_new (a1, (a2, (a3, (a4, (a5, a6))))).
Proof. reflexivity. Qed.

Lemma call_args7_tuple {A1 A2 A3 A4 A5 A6 A7} (c1 : codec A1) (c2 : codec A2) (c3 : codec A3) (c4 : codec A4) (c5 : codec A5) (c6 : codec A6) (c7 : codec A7) a1 a2 a3 a4 a5 a6 a7 :
  call_args7 c1 c2 c3 c4 c5 c6 c7 a1 a2 a3 a4 a5 a6 a7 = put (pair_c c1 (pair_c c2 (pair_c c3 (pair_c c4 (pair_c c5 (pair_c c6 c7)))))) marshall_new (a1, (a2, (a3, (a4, (a5, (a6, a7)))))).
Proof. reflexivity. Qed.

(** The nested binds of a tuple's [get], one component at a time. *)
Ltac stub_equation :=
  unfold h1_fn, h1_fn2, h1_fn3, h1_fn4, h1_fn5, h1_fn6, h1_fn7; cbn [get pair_c fst snd];
  repeat (match goal with
          | |- context [get ?c ?u ?d] => destruct (get c u d) as [[? ?]|]; cbn [mbind outcome_bind]; [|reflexivity]
          end);
  reflexivity.

Lemma h1_fn2_tuple {A1 A2 R} (c1 : codec A1) (c2 : codec A2) (cr : codec R) d1 d2 r0 meth args ret s :
  h1_fn2 c1 c2 cr d1 d2 r0 meth args ret s =
  h1_fn (pair_c c1 c2) cr (d1, d2) r0 (fun '(a1, a2) => meth a1 a2) args ret s.
Proof. stub_equation. Qed.

Lemma h1_fn3_tuple {A1 A2 A3 R} (c1 : codec A1) (c2 : codec A2) (c3 : codec A3) (cr : codec R) d1 d2 d3 r0 meth args ret s :
  h1_fn3 c1 c2 c3 cr d1 d2 d3 r0 meth args ret s =
  h1_fn (pair_c c1 (pair_c c2 c3)) cr (d1, (d2, d3)) r0 (fun '(a1, (a2, a3)) => meth a1 a2 a3) args ret s.
Proof. stub_equation. Qed.

Lemma h1_fn4_tuple {A1 A2 A3 A4 R} (c1 : codec A1) (c2 : codec A2) (c3 : codec A3) (c4 : codec A4) (cr : codec R) d1 d2 d3 d4 r0 meth args ret s :
  h1_fn4 c1 c2 c3 c4 cr d1 d2 d3 d4 r0 meth args ret s =
  h1_fn (pair_c c1 (pair_c c2 (pair_c c3 c4))) cr (d1, (d2, (d3, d4))) r0 (fun '(a1, (a2, (a3, a4))) => meth a1 a2 a3 a4) args ret s.
Proof. stub_equation. Qed.

Lemma h1_fn5_tuple {A1 A2 A3 A4 A5 R} (c1 : codec A1) (c2 : codec A2) (c3 : codec A3) (c4 : codec A4) (c5 : codec A5) (cr : codec R) d1 d2 d3 d4 d5 r0 meth args ret s :
  h1_fn5 c1 c2 c3 c4 c5 cr d1 d2 d3 d4 d5 r0 meth args ret s =
  h1_fn (pair_c c1 (pair_c c2 (pair_c c3 (pair_c c4 c5)))) cr (d1, (d2, (d3, (d4, d5)))) r0 (fun '(a1, (a2, (a3, (a4, a5)))) => meth a1 a2 a3 a4 a5) args ret s.
Proof. stub_equation. Qed.

Lemma h1_fn6_tuple {A1 A2 A3 A4 A5 A6 R} (c1 : codec A1) (c2 : codec A2) (c3 : codec A3) (c4 : codec A4) (c5 : codec A5) (c6 : codec A6) (cr : codec R) d1 d2 d3 d4 d5 d6 r0 meth args ret s :
  h1_fn6 c1 c2 c3 c4 c5 c6 cr d1 d2 d3 d4 d5 d6 r0 meth args ret s =
  h1_fn (pair_c c1 (pair_c c2 (pair_c c3 (pair_c c4 (pair_c c5 c6))))) cr (d1, (d2, (d3, (d4, (d5, d6))))) r0 (fun '(a1, (a2, (a3, (a4, (a5, a6))))) => meth a1 a2 a3 a4 a5 a6) args ret s.
Proof. stub_equation. Qed.

Lemma h1_fn7_tuple {A1 A2 A3 A4 A5 A6 A7 R} (c1 : codec A1) (c2 : codec A2) (c3 : codec A3) (c4 : codec A4) (c5 : codec A5) (c6 : codec A6) (c7 : codec A7) (cr : codec R) d1 d2 d3 d4 d5 d6 d7 r0 meth args ret s :
  h1_fn7 c1 c2 c3 c4 c5 c6 c7 cr d1 d2 d3 d4 d5 d6 d7 r0 meth args ret s =
  h1_fn (pair_c c1 (pair_c c2 (pair_c c3 (pair_c c4 (pair_c c5 (pair_c c6 c7)))))) cr (d1, (d2, (d3, (d4, (d5, (d6, d7)))))) r0 (fun '(a1, (a2, (a3, (a4, (a5, (a6, a7)))))) => meth a1 a2 a3 a4 a5 a6 a7) args ret s.
Proof. stub_equation. Qed.
End Stubs.
