(* ===== verification/Remote.v ===== *)
(** * A remote call is a local call

    The client's side of a call ([Rpcc]) and the server's ([Rpcs]) put
    together: one exchange in which the network delivers the request and the
    reply. The theorems say that the caller then gets exactly what the method
    would have returned had it been called directly on the server's object. *)

From S2P Require Import Prelude Marshall Connection XidWindow TimeSpec Rpcs Serve Stubs Rpcc.
Local Open Scope Z_scope.

(** ** Delivering a reply *)
Section Reply.
Context `{Memory}.

(** What got_pdu does to a call's record, by the state of the call. *)
Lemma got_pdu_ok c b sz msg h body :
  holds b sz msg -> is_reply_header h -> is_reply msg h body ->
  window_ok (k_xid_rep_window c) ->
  exists w u, got_pdu c b sz = Ok (set_calls (set_window c w) (k_xid c)
      (match k_calls c !! rp_xid h with
       | Some ca => <[rp_xid h := if ca_done ca then ca else Caller u (rp_ret h) true]> (k_calls c)
       | None => k_calls c end), true) /\
    window_ok w /\ remaining u body /\
    (forall x, 0 <= x -> acked w x <-> acked (k_xid_rep_window c) x \/ x = u32 (rp_xid h)).
Proof.
  intros Hm Hh Hr Hw.
  destruct (unpack_reply_header_ok b sz msg h body Hm Hh Hr) as (u & Eu & Hb & Hsz & Hrem).
  destruct (update_xid_rep_ok _ (u32 (rp_xid h)) Hw (u32_range _)) as (w & Ew & Hw' & Ha).
  pose proof Hrem as (b' & Hb' & Hok & Hi & Hle & H31 & Erem). rewrite Hb in Hb'. simplify_eq.
  assert (RPC_HEADER_SZ <= u_sz u) as Hsize by (destruct Hm as [-> _]; apply Hr).
  exists w, (Unmarshall (Some b') (u_sz u) RPC_HEADER_SZ true). split.
  { unfold got_pdu. rewrite Eu. cbn [mbind outcome_bind]. rewrite Hok. cbn [negb]. rewrite Ew.
    cbn [mbind outcome_bind k_calls set_window].
    destruct (k_calls c !! rp_xid h) as [ca|].
    - unfold unmarshall_take_in, unmarshall_take_buf. rewrite Hb.
      rewrite (proj2 (Z.leb_le _ _)) by done. by destruct (ca_done ca).
    - by destruct c. }
  split; [done|]. split; [|done].
  destruct Hr as (Hlen & _ & Hbody). rewrite <- Hbody. change 24%nat with (Z.to_nat RPC_HEADER_SZ).
  destruct Hm as [Hz Ht].
  apply (remaining_at b' (u_sz u) msg RPC_HEADER_SZ); [by split|header_sz; lia|lia].
Qed.


(** The buffer [readpdu] fills for a message [connection::send] framed: the
    length in the first four bytes, four more allocated at the end. *)
Definition received (sent tail : bytes) : bytes := be32 (zlen sent) ++ drop 4 sent ++ tail.

Lemma received_holds sent tail :
  4 <= zlen sent -> holds (received sent tail) (zlen sent) (be32 (zlen sent) ++ drop 4 sent).
Proof.
  intros H4. unfold received, holds. rewrite (assoc_L (++)).
  assert (zlen (be32 (zlen sent) ++ drop 4 sent) = zlen sent) as E.
  { rewrite zlen_app. change (zlen (be32 (zlen sent))) with 4. unfold zlen in *. rewrite length_drop. lia. }
  split; [done|]. apply take_app_length'. unfold zlen in *. lia.
Qed.

(** Framing does not touch the header and the body. *)
Lemma received_request sent h body :
  is_request sent h body -> is_request (be32 (zlen sent) ++ drop 4 sent) h body.
Proof.
  intros (Hl & Hh & Hb). unfold is_request.
  rewrite zlen_app. change (zlen (be32 (zlen sent))) with 4.
  assert (zlen (drop 4 sent) = zlen sent - 4) as -> by (unfold zlen in *; rewrite length_drop; header_sz; lia).
  split; [header_sz; lia|]. change (drop 4 (be32 (zlen sent) ++ drop 4 sent)) with (drop 4 sent).
  change (drop 24 (be32 (zlen sent) ++ drop 4 sent)) with (drop 20 (drop 4 sent)).
  by rewrite drop_drop.
Qed.
Lemma received_reply sent h body :
  is_reply sent h body -> is_reply (be32 (zlen sent) ++ drop 4 sent) h body.
Proof.
  intros (Hl & Hh & Hb). unfold is_reply.
  rewrite zlen_app. change (zlen (be32 (zlen sent))) with 4.
  assert (zlen (drop 4 sent) = zlen sent - 4) as -> by (unfold zlen in *; rewrite length_drop; header_sz; lia).
  split; [header_sz; lia|]. change (drop 4 (be32 (zlen sent) ++ drop 4 sent)) with (drop 4 sent).
  change (drop 24 (be32 (zlen sent) ++ drop 4 sent)) with (drop 20 (drop 4 sent)).
  by rewrite drop_drop.
Qed.

(** got_pdu on a reply that has been framed and read back. *)
Lemma got_received_ok c sent tail h body :
  is_reply_header h -> is_reply sent h body -> window_ok (k_xid_rep_window c) ->
  exists w u, got_pdu c (received sent tail) (zlen sent) = Ok (set_calls (set_window c w) (k_xid c)
      (match k_calls c !! rp_xid h with
       | Some ca => <[rp_xid h := if ca_done ca then ca else Caller u (rp_ret h) true]> (k_calls c)
       | None => k_calls c end), true) /\
    window_ok w /\ remaining u body /\
    (forall x, 0 <= x -> acked w x <-> acked (k_xid_rep_window c) x \/ x = u32 (rp_xid h)).
Proof.
  intros Hh Hr Hw. apply (got_pdu_ok c _ _ (be32 (zlen sent) ++ drop 4 sent)); [|done| |done].
  - apply received_holds. destruct Hr. header_sz. lia.
  - by apply received_reply.
Qed.

(** A reply reaches its own call and no other: a well-formed reply, framed
    by the sender and read back by the receiver, that answers an outstanding
    call stores the code and a buffer positioned at the result, and marks the
    call done; the first reply wins (a call that is done keeps what it has);
    other calls are untouched, and the id is acknowledged. *)
Theorem reply_reaches_its_call c sent tail h body x :
  is_reply_header h -> is_reply sent h body ->
  window_ok (k_xid_rep_window c) ->
  exists c', got_pdu c (received sent tail) (zlen sent) = Ok (c', true) /\ k_xid c' = k_xid c /\
    (x <> rp_xid h -> k_calls c' !! x = k_calls c !! x) /\
    (k_calls c !! rp_xid h = None -> k_calls c' = k_calls c) /\
    (forall ca, k_calls c !! rp_xid h = Some ca -> exists ca',
       k_calls c' !! rp_xid h = Some ca' /\ ca_done ca' = true /\
       (ca_done ca = true -> ca' = ca) /\
       (ca_done ca = false -> ca_intret ca' = rp_ret h /\ remaining (ca_un ca') body)) /\
    acked (k_xid_rep_window c') (u32 (rp_xid h)).
Proof.
  intros Hh Hr Hw. destruct (got_received_ok c sent tail h body Hh Hr Hw) as (w & u & E & Hw' & Hrem & Ha).
  eexists. split; [exact E|]. split; [done|]. cbn [k_calls set_calls set_window k_xid_rep_window].
  split_and!.
  - intros Hx. destruct (k_calls c !! rp_xid h); [|done].
    by rewrite lookup_insert, decide_False by congruence.
  - by intros ->.
  - intros cal Hca. rewrite Hca, lookup_insert, decide_True by done. eexists. split; [done|].
    by destruct (ca_done cal) eqn:Hd.
  - apply Ha; [|by right]. apply u32_range.
Qed.
End Reply.

(** ** One exchange *)
Section Exchange.
Context `{Memory} {St : Type}.

(** The last message that went out. *)
Definition last_sent (l : list (Z * bytes)) : bytes :=
  match last l with Some (_, msg) => msg | None => [] end.

(** [call_m(proc, m, r, to)] of a client against a server, with the network
    delivering the request on the server's connection [conn] and the reply back
    before the first wait is over. A frame over [MAX_PDU] is not delivered: the
    reader drops the connection. An exchange that does not complete this way
    has no result here. *)
Definition exchange {R} (cr : codec R) (c : rpcc) (s : rpcs St) (conn : Z)
    (new : option (Z * connection)) (tail : bytes) (now : timespec) (proc : Z) (m : marshall) (r0 : R)
    (to : Z) : outcome (rpcc * rpcs St * R * Z) :=
  '(c, st) ← call1_start c proc m to now;
  match st with
  | inl ret => '(r, ret) ← call_m_finish cr ret unmarshall_empty r0; Ok (c, s, r, ret)
  | inr cs =>
      '(c, cs) ← call1_send c cs new;
      let req := last_sent (k_sent c) in
      _ ← cassert (zlen req <=? MAX_PDU);
      '(s, job, _) ← Rpcs.got_pdu s conn (received req tail) (zlen req) true;
      s ← (match job with Some j => dispatch s j | None => Ok s end);
      let rep := last_sent (s_sent s) in
      _ ← cassert (zlen rep <=? MAX_PDU);
      '(c, _) ← got_pdu c (received rep tail) (zlen rep);
      w ← call1_wake c cs;
      match w with
      | Some _ => Crash AssertFailed   (* the call would go on waiting *)
      | None =>
          '(c, u, ret) ← call1_finish c cs;
          '(r, ret) ← call_m_finish cr ret u r0;
          Ok (c, s, r, ret)
      end
  end.

(** [call(proc, a, r, to)] with one argument. *)
Definition remote_call {A R} (ca : codec A) (cr : codec R) (c : rpcc) (s : rpcs St) (conn : Z)
    (new : option (Z * connection)) (tail : bytes) (now : timespec) (proc : Z) (a : A) (r0 : R) (to : Z)
    : outcome (rpcc * rpcs St * R * Z) :=
  m ← call_args1 ca a;
  exchange cr c s conn new tail now proc m r0 to.

(** A connection that is up, with no message half written and [n] references. *)
Definition up (k : connection) (n : Z) : Prop :=
  c_dead k = false /\ cb_buf (c_wpdu k) = None /\ n <= c_refno k.

(** The client's connection, up. *)
Definition open_chan (c : rpcc) (ch n : Z) : Prop :=
  k_chan c = Some ch /\ exists k, k_objs c !! ch = Some k /\ up k n.

(** A connection that was closed and that the client may let go of. *)
Definition closed_chan (c : rpcc) (ch : Z) : Prop :=
  exists k r, k_objs c !! ch = Some k /\ c_dead k = true /\ decref k = Ok r.

(** connect_to_dst succeeds. *)
Definition connects (new : option (Z * connection)) : Prop :=
  exists ch k, new = Some (ch, k) /\ up k 1.

(** A client ready to call: with a usable connection, or about to open one, for
    the first time or in place of one that was closed. *)
Definition usable (c : rpcc) (new : option (Z * connection)) : Prop :=
  match k_chan c with
  | Some ch => open_chan c ch 1 \/ closed_chan c ch /\ connects new
  | None => connects new
  end.

(** The client's identity and its binding. *)
Definition same_ends (c c' : rpcc) : Prop :=
  k_clt_nonce c' = k_clt_nonce c /\ k_srv_nonce c' = k_srv_nonce c /\ k_bind_done c' = k_bind_done c.

Lemma up_incref k o : o = Some (incref k) -> up k 1 -> o = Some (incref k) /\ up (incref k) 2.
Proof. intros -> (Hd & Hb & Hn). split; [done|]. unfold up, incref. destruct k; cbn in *. split_and!; [done|done|lia]. Qed.

Lemma get_refconn_ok c new :
  usable c new ->
  exists c' ch, get_refconn c None new = Ok (c', Some ch) /\ same_calls c c' /\ same_ends c c' /\
    open_chan c' ch 2.
Proof.
  unfold usable, up, open_chan, closed_chan, connects, get_refconn, chan_incref, chan_decref, chan_obj.
  destruct (k_chan c) as [ch|] eqn:Ec; [intros [(_ & k & Hk & Hd & Hb & Hn)|[(k & r & Hk & Hd & Er) (ch' & k' & -> & Hd' & Hb' & Hn')]]
                                       |intros (ch & k & -> & Hd & Hb & Hn)].
  - unfold chan_dead, chan_obj. rewrite Hk.
    cbn [mbind outcome_bind]. unfold isdead. rewrite Hd. cbn [mbind outcome_bind]. rewrite Ec.
    cbn [mbind outcome_bind]. rewrite Hk. cbn [mbind outcome_bind].
    eexists _, ch. do 3 (split; [done|]). split; [done|]. exists (incref k).
    cbn [k_objs set_chan]. rewrite lookup_insert, decide_True by done. apply up_incref; [done|by split_and!].
  - unfold chan_dead, chan_obj. rewrite Hk.
    cbn [mbind outcome_bind]. unfold isdead. rewrite Hd. cbn [mbind outcome_bind]. rewrite Er.
    cbn [mbind outcome_bind k_chan set_chan k_objs].
    rewrite lookup_insert, decide_True by done. cbn [mbind outcome_bind].
    eexists _, ch'. do 3 (split; [done|]). split; [done|]. exists (incref k').
    cbn [k_objs set_chan]. rewrite lookup_insert, decide_True by done. apply up_incref; [done|by split_and!].
  - cbn [chan_dead mbind outcome_bind k_chan set_chan k_objs].
    rewrite lookup_insert, decide_True by done. cbn [mbind outcome_bind].
    eexists _, ch. do 3 (split; [done|]). split; [done|]. exists (incref k).
    cbn [k_objs set_chan]. rewrite lookup_insert, decide_True by done. apply up_incref; [done|by split_and!].
Qed.

(** Getting a connection and sending the request on it. *)
Lemma call1_send_ok c cs new :
  usable c new -> cs_transmit cs = true -> cs_ch cs = None -> marshall_wf (cs_req cs) ->
  exists c' cs' ch, call1_send c cs new = Ok (c', cs') /\ same_calls c c' /\ same_ends c c' /\
    last_sent (k_sent c') = contents (cs_req cs) /\ cs_xid cs' = cs_xid cs /\ cs_ch cs' = Some ch /\
    open_chan c' ch 2.
Proof.
  intros Hu Ht Hch Hwf. unfold call1_send. rewrite Ht, Hch.
  destruct (get_refconn_ok c new Hu) as (c1 & ch & -> & Hs1 & Hn1 & Ho). cbn [mbind outcome_bind].
  destruct Ho as (Hc & k & Hk & Hd & Hbuf & Hn). unfold chan_send, chan_obj, isdead. rewrite Hk. cbn [mbind outcome_bind].
  rewrite Hd. destruct (wf_holds _ Hwf) as (b & -> & Hz & Htake). unfold marshall_size.
  assert (m_ind (cs_req cs) <= zlen b) by (rewrite Hz, <- Htake; unfold zlen; rewrite length_take; lia).
  unfold slice. rewrite decide_True by (pose proof (zlen_nonneg (contents (cs_req cs))); lia).
  rewrite drop_0, Htake. cbn [mbind outcome_bind].
  eexists _, _, ch. do 3 (split; [done|]). split; [unfold last_sent; cbn [k_sent set_sent]; by rewrite last_snoc|].
  do 2 (split; [done|]). split; [done|]. by exists k.
Qed.

Lemma call1_finish_ok c cs ch cal :
  cs_ch cs = Some ch -> open_chan c ch 2 ->
  0 <= cs_xid cs < 2 ^ 31 -> k_calls c !! cs_xid cs = Some cal -> window_ok (k_xid_rep_window c) ->
  acked (k_xid_rep_window c) (cs_xid cs) ->
  exists c', call1_finish c cs = Ok (c', ca_un cal, if ca_done cal then ca_intret cal else timeout_failure) /\
    k_calls c' = delete (cs_xid cs) (k_calls c) /\ k_xid c' = k_xid c /\ same_ends c c' /\
    open_chan c' ch 1 /\ window_ok (k_xid_rep_window c') /\
    (forall x, 0 <= x -> acked (k_xid_rep_window c') x <-> acked (k_xid_rep_window c) x).
Proof.
  intros Hch (Hc' & k & Hk & Hd & Hbuf & Hn) Hx Hc Hw Hack. unfold call1_finish.
  rewrite i32_small, Hc by (unfold is_i32; lia).
  destruct (update_xid_rep_ok _ (cs_xid cs) Hw) as (w & -> & Hw' & Ha); [unfold is_u32; lia|].
  cbn [mbind outcome_bind]. rewrite Hch. unfold chan_decref, chan_obj. cbn [k_objs set_window set_calls].
  rewrite Hk. cbn [mbind outcome_bind]. unfold decref. cbn [c_refno set_refno c_dead].
  rewrite (proj2 (Z.leb_le _ _)), (proj2 (Z.eqb_neq _ _)) by lia. cbn [mbind outcome_bind cassert].
  eexists. do 4 (split; [done|]). cbn [k_chan set_chan set_window set_calls k_xid_rep_window].
  split; [|split; [done|]].
  - split; [done|]. exists (set_refno k (c_refno k - 1)). cbn [k_objs set_chan].
    rewrite lookup_insert, decide_True by done. split; [done|]. split_and!; [done|done|cbn; lia].
  - intros x Hx0. rewrite Ha by done. split; [|by left]. by intros [?| ->].
Qed.

Lemma call1_start_ok c proc m to now :
  (k_bind_done c = true /\ proc <> rpc_bind) \/ (k_bind_done c = false /\ proc = rpc_bind) ->
  marshall_wf m -> m_ind m <= MAX_MSG -> window_ok (k_xid_rep_window c) -> valid now -> 0 <= to ->
  exists c' m' f front, call1_start c proc m to now =
      Ok (c', inr (CallState (k_xid c) m' to_min f true None)) /\
    c' = set_calls c (u32 (k_xid c + 1)) (<[i32 (k_xid c) := caller_new unmarshall_empty]> (k_calls c)) /\
    window_front (k_xid_rep_window c) = Ok front /\ marshall_wf m' /\ m_ind m' = m_ind m /\
    contents m' = splice (contents m) 4 (req_header_image
      (mk_req_header (k_xid c) proc (k_clt_nonce c) (k_srv_nonce c) front)).
Proof.
  intros Hb Hwf Hm Hw Hv Hto. unfold call1_start.
  replace ((negb (proc =? rpc_bind) && negb (k_bind_done c)) || ((proc =? rpc_bind) && k_bind_done c))
    with false.
  2: { destruct Hb as [[-> Hp]|[-> ->]]; [|done]. by rewrite (proj2 (Z.eqb_neq _ _)) by done. }
  cbn [k_xid_rep_window set_calls k_clt_nonce k_srv_nonce].
  destruct (k_xid_rep_window c) as [|front w] eqn:Ew; [by destruct Hw as (_ & _ & ?)|].
  cbn [window_front mbind outcome_bind].
  destruct (pack_req_header_ok m (mk_req_header (k_xid c) proc (k_clt_nonce c) (k_srv_nonce c) front) Hwf Hm)
    as (m' & -> & Wm & Im & Cm). cbn [mbind outcome_bind].
  destruct (add_timespec_ok now to Hv Hto) as (f & -> & _). cbn [mbind outcome_bind].
  by eexists _, m', f, front.
Qed.

(** The request header a call sends: every field survives the trip, and the id
    it acknowledges is older than its own. *)
Lemma call_header c proc front :
  window_ok (k_xid_rep_window c) -> window_front (k_xid_rep_window c) = Ok front ->
  0 < k_xid c < 2 ^ 31 -> is_i32 proc -> is_u32 (k_clt_nonce c) -> is_u32 (k_srv_nonce c) ->
  ~ acked (k_xid_rep_window c) (k_xid c) ->
  let h := mk_req_header (k_xid c) proc (k_clt_nonce c) (k_srv_nonce c) front in
  is_req_header h /\ rq_proc h = proc /\ rq_clt_nonce h = k_clt_nonce c /\ rq_srv_nonce h = k_srv_nonce c /\
  rq_xid h = k_xid c /\ u32 (rq_xid_rep h) = front /\ front < k_xid c.
Proof.
  intros Hw Hf Hx Hproc Hclt Hsrv Hack h.
  assert (is_u32 front /\ front < k_xid c) as [Hfront Hlt].
  { destruct (k_xid_rep_window c); [done|]. destruct Hw as (_ & Hu & _). simplify_eq/=.
    split; [by inversion_clear Hu|lia]. }
  subst h. unfold mk_req_header, is_req_header. cbn [rq_xid rq_proc rq_clt_nonce rq_srv_nonce rq_xid_rep].
  unfold is_u32 in *. rewrite !u32_i32, !i32_small, !u32_small by (unfold is_i32, is_u32 in *; lia).
  unfold is_i32, is_u32 in *. split_and!; lia.
Qed.

(** A request body on its way: the marshalled arguments after the header room. *)
Definition marshalled (m : marshall) (args : bytes) : Prop :=
  marshall_wf m /\ m_ind m = RPC_HEADER_SZ + zlen args /\ drop 24 (contents m) = args.

(** The first half of a call: the request is on the wire, and the call's record
    waits for its reply. *)
Lemma call_sent_ok c new now proc m args to :
  (k_bind_done c = true /\ proc <> rpc_bind) \/ (k_bind_done c = false /\ proc = rpc_bind) ->
  usable c new -> window_ok (k_xid_rep_window c) -> 0 < k_xid c < 2 ^ 31 -> valid now -> 0 <= to ->
  marshalled m args -> RPC_HEADER_SZ + zlen args <= MAX_PDU ->
  exists c1 cs1 c2 cs2 ch front,
    call1_start c proc m to now = Ok (c1, inr cs1) /\
    call1_send c1 cs1 new = Ok (c2, cs2) /\ cs_xid cs2 = k_xid c /\ cs_ch cs2 = Some ch /\
    open_chan c2 ch 2 /\ same_ends c c2 /\ k_xid c2 = k_xid c + 1 /\
    k_calls c2 = <[k_xid c := caller_new unmarshall_empty]> (k_calls c) /\
    k_xid_rep_window c2 = k_xid_rep_window c /\ window_front (k_xid_rep_window c) = Ok front /\
    zlen (last_sent (k_sent c2)) <= MAX_PDU /\
    is_request (last_sent (k_sent c2))
      (mk_req_header (k_xid c) proc (k_clt_nonce c) (k_srv_nonce c) front) args.
Proof.
  intros Hbind Hus Hw Hx Hv Hto (Wm & Im & Dm) Hsa. rewrite MAX_PDU_val in *.
  destruct (call1_start_ok c proc m to now Hbind Wm) as (c1 & m1 & f & front & E1 & Hc1 & Hf & W1 & I1 & C1);
    [unfold MAX_MSG; lia|done|done|done|].
  assert (usable c1 new) as Hus1 by (by rewrite Hc1).
  destruct (call1_send_ok c1 (CallState (k_xid c) m1 to_min f true None) new)
    as (c2 & cs2 & ch & E2 & (Hx2 & Hcalls2 & Hw2) & Hn2 & Hsent & Hxid & Hch & Ho); try done.
  exists c1, (CallState (k_xid c) m1 to_min f true None), c2, cs2, ch, front. cbn [cs_req] in Hsent.
  rewrite Hsent. split_and!; try done.
  - by rewrite Hc1 in Hn2.
  - rewrite Hx2, Hc1. cbn [k_xid set_calls]. apply u32_small. unfold is_u32. lia.
  - rewrite Hcalls2, Hc1. cbn [k_calls set_calls]. by rewrite i32_small by (unfold is_i32; lia).
  - by rewrite Hw2, Hc1.
  - rewrite (contents_length m1 W1). lia.
  - rewrite C1. apply splice_request; [done|done|lia].
Qed.

(** The second half: the reply [out] to a waiting call is taken in, and [call1]
    and [call_m] hand its code and its result to the caller. *)
Lemma call_answered_ok {R} (cr : codec R) c cs ch out tail body b (r r0 : R) ret :
  0 < cs_xid cs < 2 ^ 31 -> cs_ch cs = Some ch -> open_chan c ch 2 ->
  k_calls c !! cs_xid cs = Some (caller_new unmarshall_empty) ->
  window_ok (k_xid_rep_window c) -> is_reply out (ReplyHeader (cs_xid cs) b) body -> is_i32 b ->
  (forall u, remaining u body -> call_m_finish cr b u r0 = Ok (r, ret)) ->
  exists c3 c4 u, got_pdu c (received out tail) (zlen out) = Ok (c3, true) /\ call1_wake c3 cs = Ok None /\
    call1_finish c3 cs = Ok (c4, u, b) /\ call_m_finish cr b u r0 = Ok (r, ret) /\
    k_calls c4 = delete (cs_xid cs) (k_calls c) /\ k_xid c4 = k_xid c /\ same_ends c c4 /\
    open_chan c4 ch 1 /\ window_ok (k_xid_rep_window c4) /\
    (forall x, 0 <= x -> acked (k_xid_rep_window c4) x <-> acked (k_xid_rep_window c) x \/ x = cs_xid cs).
Proof.
  intros Hx Hch Hopen Hcall Hw Hrep Hb Hans.
  destruct (got_received_ok c out tail (ReplyHeader (cs_xid cs) b) body)
    as (w & u & E4 & Hw3 & Hrem & Hack3); [split; [unfold is_i32; simpl; lia|done]|done|done|].
  cbn [rp_xid rp_ret] in E4, Hack3. rewrite u32_small in Hack3 by (unfold is_u32; lia).
  rewrite Hcall in E4. cbn [ca_done caller_new] in E4. set (c3 := set_calls _ _ _) in E4.
  assert (k_calls c3 !! cs_xid cs = Some (Caller u b true)) as Hcall3.
  { subst c3. cbn [k_calls set_calls]. by rewrite lookup_insert, decide_True. }
  destruct (call1_finish_ok c3 cs ch (Caller u b true)) as (c4 & E5 & Hcalls4 & Hx4 & Hn4 & Ho4 & Hw4 & Ha4);
    try done; [lia|apply Hack3; [lia|by right]|].
  exists c3, c4, u. split_and!; try done; [|by apply Hans| |].
  - unfold call1_wake. by rewrite i32_small, Hcall3 by (unfold is_i32; lia).
  - rewrite Hcalls4. subst c3. cbn [k_calls set_calls]. by rewrite delete_insert_eq.
  - intros x Hx0. rewrite Ha4 by done. by apply Hack3.
Qed.

(** What the server's part of an exchange takes: the client is who the server
    thinks it is, and the request is new to it. *)
Definition welcomes (s : rpcs St) (conn : Z) (c : rpcc) : Prop :=
  (k_srv_nonce c = 0 \/ k_srv_nonce c = s_nonce s) /\ live s conn 1 /\
  (k_clt_nonce c = 0 \/
   (s_conns s !! k_clt_nonce c = None \/ s_conns s !! k_clt_nonce c = Some conn) /\
   entry (replies_of (s_reply_window s) (k_clt_nonce c)) (k_xid c) = None).

(** What an exchange leaves behind for the next one. *)
Definition ready_again (c c' : rpcc) (s s' : rpcs St) (conn : Z) : Prop :=
  same_ends c c' /\ k_xid c' = k_xid c + 1 /\ (exists ch, open_chan c' ch 1) /\
  window_ok (k_xid_rep_window c') /\
  (forall x, 0 <= x -> acked (k_xid_rep_window c') x <-> acked (k_xid_rep_window c) x \/ x = k_xid c) /\
  s_procs s' = s_procs s /\ s_nonce s' = s_nonce s /\ live s' conn 1 /\
  (k_clt_nonce c <> 0 -> s_conns s' !! k_clt_nonce c = Some conn /\
     forall x, k_xid c < x -> entry (replies_of (s_reply_window s) (k_clt_nonce c)) x = None ->
       entry (replies_of (s_reply_window s') (k_clt_nonce c)) x = None).

(** The request, received on [conn] and dispatched, is answered there. *)
Lemma exchange_served s conn msg tail h c proc front args f app' body b :
  h = mk_req_header (k_xid c) proc (k_clt_nonce c) (k_srv_nonce c) front ->
  is_req_header h -> rq_proc h = proc -> rq_clt_nonce h = k_clt_nonce c -> rq_srv_nonce h = k_srv_nonce c ->
  rq_xid h = k_xid c -> u32 (rq_xid_rep h) = front -> front < k_xid c < 2 ^ 31 -> 0 < k_xid c ->
  is_request msg h args -> welcomes s conn c -> s_procs s !! proc = Some f ->
  serves f args (s_app s) app' body b -> 0 <= b \/ b = unmarshal_args_failure ->
  RPC_HEADER_SZ + zlen body <= MAX_PDU ->
  exists s1 s' out, Rpcs.got_pdu s conn (received msg tail) (zlen msg) true
      = Ok (s1, Some (Djob (received msg tail) (zlen msg) conn), true) /\
    dispatch s1 (Djob (received msg tail) (zlen msg) conn) = Ok s' /\ s_app s' = app' /\
    last_sent (s_sent s') = out /\ zlen out <= MAX_PDU /\ is_reply out (ReplyHeader (k_xid c) b) body /\
    s_procs s' = s_procs s /\ s_nonce s' = s_nonce s /\ live s' conn 1 /\
    (k_clt_nonce c <> 0 -> s_conns s' !! k_clt_nonce c = Some conn /\
       forall x, k_xid c < x -> entry (replies_of (s_reply_window s) (k_clt_nonce c)) x = None ->
         entry (replies_of (s_reply_window s') (k_clt_nonce c)) x = None).
Proof.
  intros _ Hh H1 H2 H3 H4 H5 Hlt Hpos Hreq (Hnonce & Hlive & Hseen) Hp Hserve Hb Hsz.
  rewrite MAX_PDU_val in Hsz |- *.
  destruct (conn_incref_ok s conn 1 Hlive) as (s1 & Ei & (Ha1 & Hs1 & Hp1 & Hn1) & Hl1 & Hc1 & Hw1).
  assert (4 <= zlen msg) as Hl4 by (destruct Hreq; header_sz; lia).
  assert (u32 (k_xid c) = k_xid c) as Hu by (apply u32_small; unfold is_u32; lia).
  destruct (dispatch_ok s1 (Djob (received msg tail) (zlen msg) conn) (be32 (zlen msg) ++ drop 4 msg) h
    args f body app' b) as (s' & out & buf & E3 & Happ & Hout & Hrep & _ & _ & (Hk1 & Hk2 & Hk3 & Hk4)); try done.
  { by apply received_holds. }
  { by apply received_request. }
  { split_and!; [rewrite H3, Hn1; done|by apply (live_weaken _ _ 2)|]. rewrite H2, H4, H5, Hc1, Hw1.
    destruct Hseen as [?|[? He]]; [by left|right]. split; [done|].
    rewrite Hu. unfold verdict. by rewrite (proj2 (Z.ltb_lt _ _)), He by lia. }
  { by rewrite H1, Hp1. }
  { by rewrite Ha1. }
  { unfold MAX_MSG. lia. }
  rewrite H4, i32_small in Hrep by (unfold is_i32; lia). rewrite H2, H4, H5, Hu, Hw1 in Hk4.
  exists s1, s', out. split_and!; try done.
  - unfold Rpcs.got_pdu. by rewrite Ei.
  - rewrite Hout. unfold last_sent. by rewrite last_snoc.
  - destruct Hrep as (? & _ & Hd). apply (f_equal zlen) in Hd. unfold zlen in *. rewrite length_drop in Hd.
    header_sz. lia.
  - by rewrite Hk1.
  - by rewrite Hk2.
  - apply Hk3; [lia|]. done.
  - intros Hz. destruct (Hk4 Hz) as [? Hother]. split; [done|]. intros x Hx. apply Hother; lia.
Qed.

(** A call whose request and reply are delivered: the handler runs once, on the
    marshalled arguments, and the caller gets what [call_m] makes of its reply;
    both sides are ready for the next call. *)
Lemma exchange_ok {R} (cr : codec R) c s conn new tail now proc m args f app' body b (r r0 : R) ret to :
  (k_bind_done c = true /\ proc <> rpc_bind) \/ (k_bind_done c = false /\ proc = rpc_bind) ->
  usable c new -> window_ok (k_xid_rep_window c) -> 0 < k_xid c < 2 ^ 31 -> is_i32 proc ->
  is_u32 (k_clt_nonce c) -> is_u32 (k_srv_nonce c) -> welcomes s conn c ->
  ~ acked (k_xid_rep_window c) (k_xid c) -> s_procs s !! proc = Some f -> valid now -> 0 <= to ->
  marshalled m args -> RPC_HEADER_SZ + zlen args <= MAX_PDU ->
  serves f args (s_app s) app' body b -> 0 <= b < 2 ^ 31 \/ b = unmarshal_args_failure ->
  RPC_HEADER_SZ + zlen body <= MAX_PDU ->
  (forall u, remaining u body -> call_m_finish cr b u r0 = Ok (r, ret)) ->
  exists c' s', exchange cr c s conn new tail now proc m r0 to = Ok (c', s', r, ret) /\
    s_app s' = app' /\ k_calls c' = delete (k_xid c) (k_calls c) /\ ready_again c c' s s' conn.
Proof.
  intros Hbind Hus Hw Hx Hproc Hclt Hsrv Hwel Hack Hp Hv Hto Hm Hsa Hserve Hb Hsz Hans.
  destruct (call_sent_ok c new now proc m args to) as (c1 & cs1 & c2 & cs2 & ch & front & E1 & E2 &
    Hxid & Hch & Hopen & Hends & Hx2 & Hcalls2 & Hw2 & Hf & Hmax & Hreq); try done.
  destruct (call_header c proc front) as (Hh & H1 & H2 & H3 & H4 & H5 & Hlt); try done.
  destruct (exchange_served s conn (last_sent (k_sent c2)) tail _ c proc front args f app' body b eq_refl)
    as (s1 & s' & out & E3 & E4 & Happ & Hout & Hmax' & Hrep & Hserver); try done; [lia|lia|by intuition|].
  assert (is_i32 b) as Hbi by (unfold is_i32; destruct Hb as [?| ->]; [lia|done]).
  rewrite <- Hxid in Hrep.
  destruct (call_answered_ok cr c2 cs2 ch out tail body b r r0 ret) as (c3 & c4 & u & E5 & E6 & E7 & E8 &
    Hcalls4 & Hx4 & (Hn1 & Hn2 & Hn3) & Ho4 & Hw4 & Ha4); try done; rewrite ?Hxid, ?Hw2; try done.
  { by rewrite Hcalls2, lookup_insert, decide_True. }
  rewrite Hxid, Hw2 in Ha4. destruct Hends as (Hm1 & Hm2 & Hm3).
  exists c4, s'. split; [|split; [done|split; [by rewrite Hcalls4, Hxid, Hcalls2, delete_insert_eq|]]].
  - unfold exchange. rewrite E1. cbn [mbind outcome_bind]. rewrite E2. cbn [mbind outcome_bind].
    rewrite (proj2 (Z.leb_le _ _)) by done. cbn [cassert mbind outcome_bind].
    rewrite E3. cbn [mbind outcome_bind]. rewrite E4. cbn [mbind outcome_bind]. rewrite Hout.
    rewrite (proj2 (Z.leb_le _ _)) by done. cbn [cassert mbind outcome_bind].
    rewrite E5. cbn [mbind outcome_bind]. rewrite E6. cbn [mbind outcome_bind].
    rewrite E7. cbn [mbind outcome_bind]. by rewrite E8.
  - destruct Hserver as (? & ? & ? & ?). unfold ready_again, same_ends.
    split_and!; try congruence; try done. by exists ch.
Qed.

(** A call that reaches another instance of the server than the one the client
    is bound to: no method runs, the caller gets oldsrv_failure, and the client
    is as ready as before. *)
Lemma exchange_stale {R} (cr : codec R) c s conn new tail now proc m args (r0 : R) to :
  k_bind_done c = true -> proc <> rpc_bind -> usable c new -> window_ok (k_xid_rep_window c) ->
  0 < k_xid c < 2 ^ 31 -> is_i32 proc -> is_u32 (k_clt_nonce c) -> is_u32 (k_srv_nonce c) ->
  k_srv_nonce c <> 0 -> k_srv_nonce c <> s_nonce s -> live s conn 1 ->
  ~ acked (k_xid_rep_window c) (k_xid c) -> valid now -> 0 <= to ->
  marshalled m args -> RPC_HEADER_SZ + zlen args <= MAX_PDU ->
  exists c' s', exchange cr c s conn new tail now proc m r0 to = Ok (c', s', r0, oldsrv_failure) /\
    s_app s' = s_app s /\ s_procs s' = s_procs s /\ s_nonce s' = s_nonce s /\ s_conns s' = s_conns s /\
    s_reply_window s' = s_reply_window s /\
    k_calls c' = delete (k_xid c) (k_calls c) /\ same_ends c c' /\ exists ch, open_chan c' ch 1.
Proof.
  intros Hbd Hnb Hus Hw Hx Hproc Hclt Hsrv Hz Hne Hlive Hack Hv Hto Hm Hsa.
  destruct (call_sent_ok c new now proc m args to) as (c1 & cs1 & c2 & cs2 & ch & front & E1 & E2 &
    Hxid & Hch & Hopen & Hends & Hx2 & Hcalls2 & Hw2 & Hf & Hmax & Hreq); try done; [by left|].
  destruct (call_header c proc front) as (Hh & H1 & H2 & H3 & H4 & H5 & Hlt); try done.
  set (req := last_sent (k_sent c2)) in *.
  assert (4 <= zlen req) as Hl4 by (destruct Hreq; header_sz; lia).
  destruct (conn_incref_ok s conn 1 Hlive) as (s1 & Ei & _).
  assert (Rpcs.got_pdu s conn (received req tail) (zlen req) true
    = Ok (s1, Some (Djob (received req tail) (zlen req) conn), true)) as Eg
    by (unfold Rpcs.got_pdu; by rewrite Ei).
  destruct (stale_request_leaks_reference s s1 conn (received req tail) (zlen req) (be32 (zlen req) ++ drop 4 req)
    _ args _ (received_holds req tail Hl4) Hh (received_request req _ args Hreq)
    ltac:(by rewrite H3) ltac:(by rewrite H3) Hlive Eg)
    as (s' & out & E3 & Happ & Hrw & Hsent & Hrep & _ & Hpr & Hno & Hcn).
  rewrite H4 in Hrep. unfold mk_reply_header in Hrep. rewrite i32_small, <- Hxid in Hrep by (unfold is_i32; lia).
  assert (zlen out <= MAX_PDU) as Hout.
  { destruct Hrep as (Hl & _ & Hd). apply (f_equal zlen) in Hd. rewrite MAX_PDU_val. unfold zlen in *.
    rewrite length_drop in Hd. cbn in Hd. header_sz. lia. }
  destruct (call_answered_ok cr c2 cs2 ch out tail [] oldsrv_failure r0 r0 oldsrv_failure) as (c3 & c4 & u & E5 &
    E6 & E7 & E8 & Hcalls4 & Hx4 & (Hn1 & Hn2 & Hn3) & Ho4 & Hw4 & Ha4); try done; rewrite ?Hxid, ?Hw2; try done.
  { by rewrite Hcalls2, lookup_insert, decide_True. }
  destruct Hends as (Hm1 & Hm2 & Hm3). exists c4, s'. split; [|split; [exact Happ|do 4 (split; [done|]); split; [|split]]].
  - unfold exchange. rewrite E1. cbn [mbind outcome_bind]. rewrite E2. cbn [mbind outcome_bind]. fold req.
    rewrite (proj2 (Z.leb_le _ _)) by done. cbn [cassert mbind outcome_bind].
    rewrite Eg. cbn [mbind outcome_bind]. rewrite E3. cbn [mbind outcome_bind]. rewrite Hsent.
    unfold last_sent. rewrite last_snoc.
    rewrite (proj2 (Z.leb_le _ _)) by done. cbn [cassert mbind outcome_bind].
    rewrite E5. cbn [mbind outcome_bind]. rewrite E6. cbn [mbind outcome_bind].
    rewrite E7. cbn [mbind outcome_bind]. by rewrite E8.
  - by rewrite Hcalls4, Hxid, Hcalls2, delete_insert_eq.
  - unfold same_ends. split_and!; congruence.
  - by exists ch.
Qed.
End Exchange.

(** ** One method *)
Section Method.
Context `{Memory} {St : Type}.
Context {A R : Type} (ca : codec A) (cr : codec R) `{!Wire ca, !Wire cr}.

Lemma call_args1_ok (a : A) :
  representable ca a -> RPC_HEADER_SZ + zlen (image ca a) <= MAX_PDU ->
  exists m, call_args1 ca a = Ok m /\ marshalled m (image ca a).
Proof.
  intros Ha Hs. rewrite MAX_PDU_val in Hs. destruct (put_fresh ca a Ha) as (m & E & Hm);
    [unfold MAX_MSG; lia|]. by exists m.
Qed.

(** The result of a call that was answered with a marshalled result. *)
Lemma call_m_result (r r0 : R) b u :
  representable cr r -> declared cr r0 -> 0 <= b -> remaining u (image cr r) ->
  call_m_finish cr b u r0 = Ok (r, b).
Proof.
  intros Hr Hr0 Hb Hu. destruct (get_body cr u r r0 Hr Hr0 Hu) as (u' & E6 & Hdone).
  unfold call_m_finish. rewrite (proj2 (Z.ltb_ge _ _)) by lia. rewrite E6.
  cbn [mbind outcome_bind]. by rewrite Hdone.
Qed.

(** C2. A remote call is a local call. Let a client be bound to this server
    instance (or be binding) and be able to connect, let the server know the
    procedure as method [meth] and not have seen the request's id, and let the
    network deliver request and reply, which fit the size the readers accept.
    Then [call(proc, a, r)] returns exactly the status and the result of [meth]
    on the server's state, which is left as [meth] leaves it, whatever
    representable arguments and results it has, and the client has no call
    outstanding it had not before. *)
Theorem remote_call_is_local_call c s conn new tail now proc (a a0 : A) (r r0 r1 : R) meth (app' : St) b to :
  (k_bind_done c = true /\ proc <> rpc_bind) \/ (k_bind_done c = false /\ proc = rpc_bind) ->
  usable c new -> window_ok (k_xid_rep_window c) -> 0 < k_xid c < 2 ^ 31 -> is_i32 proc ->
  is_u32 (k_clt_nonce c) -> is_u32 (k_srv_nonce c) -> welcomes s conn c ->
  ~ acked (k_xid_rep_window c) (k_xid c) ->
  s_procs s !! proc = Some (h1_fn ca cr a0 r1 meth) ->
  valid now -> 0 <= to ->
  representable ca a -> declared ca a0 -> declared cr r0 ->
  RPC_HEADER_SZ + zlen (image ca a) <= MAX_PDU ->
  meth a r1 (s_app s) = Ok (app', r, b) -> 0 <= b < 2 ^ 31 ->
  representable cr r -> RPC_HEADER_SZ + zlen (image cr r) <= MAX_PDU ->
  exists c' s', remote_call ca cr c s conn new tail now proc a r0 to = Ok (c', s', r, b) /\
    s_app s' = app' /\ k_calls c' = delete (k_xid c) (k_calls c).
Proof.
  intros Hbind Hus Hw Hx Hproc Hclt Hsrv Hwel Hack Hp Hv Hto Ha Ha0 Hr0 Hsa Hmeth Hb Hr Hsr.
  destruct (call_args1_ok a Ha Hsa) as (m & Em & Hm).
  destruct (exchange_ok cr c s conn new tail now proc m (image ca a) (h1_fn ca cr a0 r1 meth) app'
    (image cr r) b r r0 b to) as (c' & s' & E & H1 & H2 & _); try done.
  - apply h1_fn_serves; try done. rewrite MAX_PDU_val in Hsr. unfold MAX_MSG. lia.
  - by left.
  - intros u Hu. apply call_m_result; try done. lia.
  - exists c', s'. split; [|done]. unfold remote_call. by rewrite Em.
Qed.
End Method.

#[local] Existing Instance zero_memory.

(** Client 9, bound to the example server, calls its procedure 5 with 6. *)
Lemma remote_call_is_local_call_witness :
  exists c' s', remote_call i32_c i32_c (set_bound (rpcc_new true 9) 77) Rpcs.Demo.server 4
      (Some (2, connection_new 7 0)) [0; 0; 0; 0] (Timespec 1000 0) 5 6 0 to_max = Ok (c', s', 6, 0) /\
    s_app s' = 6 /\ k_calls c' = ∅.
Proof.
  destruct (remote_call_is_local_call i32_c i32_c (set_bound (rpcc_new true 9) 77) Rpcs.Demo.server 4
    (Some (2, connection_new 7 0)) [0; 0; 0; 0] (Timespec 1000 0) 5 6 0 6 0 0
    (fun a _ total => Ok (total + a, total + a, 0)) 6 0 to_max) as (c' & s' & E & Ha & Hk).
  - by left.
  - exists 2, (connection_new 7 0). by vm_compute.
  - apply window_init_ok.
  - simpl. lia.
  - unfold is_i32. lia.
  - by vm_compute.
  - by vm_compute.
  - split_and!; [by right| |right; split; [by left|by vm_compute]].
    exists (incref (connection_new 3 0)). by vm_compute.
  - simpl. intros [?|?]; [lia|set_solver].
  - apply lookup_singleton_eq.
  - split; simpl; lia.
  - unfold to_max. lia.
  - by vm_compute.
  - by vm_compute.
  - by vm_compute.
  - by vm_compute.
  - done.
  - lia.
  - by vm_compute.
  - by vm_compute.
  - exists c', s'. split; [exact E|]. split; [exact Ha|]. rewrite Hk. by vm_compute.
Defined.

(** The reply to call 1, result 6, while calls 1 and 2 are outstanding. *)
Lemma reply_reaches_its_call_witness :
  let reply := be32 0 ++ be32 1 ++ be32 0 ++ be32 0 ++ be32 0 ++ be32 0 ++ be32 6 in
  let c := set_calls (rpcc_new true 9) 3
     {[1 := caller_new unmarshall_empty; 2 := caller_new unmarshall_empty]} in
  exists c', got_pdu c (received reply [0; 0; 0; 0]) 28 = Ok (c', true) /\
    k_calls c' !! 2 = Some (caller_new unmarshall_empty) /\
    acked (k_xid_rep_window c') 1.
Proof.
  intros reply c.
  destruct (reply_reaches_its_call c reply [0; 0; 0; 0] (ReplyHeader 1 0) (be32 6) 2)
    as (c' & E & _ & H2 & _ & _ & Ha).
  - by vm_compute.
  - repeat split; by vm_compute.
  - apply window_init_ok.
  - exists c'. split; [exact E|]. split; [|exact Ha]. rewrite H2 by done. by vm_compute.
Defined.
