(* ===== verification/Session.v ===== *)
(** * A client and its server over many calls

    [Remote] is about one exchange; here a client binds and then calls, one
    call after the other, for as long as it has transaction ids. [session n]
    says that [n] more calls go through: it holds after [bind] and every
    exchange passes it on. This is what the client stubs of the services
    (extent_client, the test programs) are run on. *)

From S2P Require Import Prelude Marshall Connection XidWindow TimeSpec Rpcs Serve Stubs Rpcc Remote.
Local Open Scope Z_scope.

(** A client endpoint and the server process it talks to. *)
Record link (St : Type) := Link { l_client : rpcc; l_server : rpcs St }.
Arguments Link {St} _ _. Arguments l_client {St} _. Arguments l_server {St} _.

(** The environment of the calls: the server's connection object for the
    client, the clock at the start of the call with a given transaction id, and
    what the memory past a received frame holds then. *)
Class Environment := {
  env_conn : Z;
  env_clock : Z -> timespec;
  env_junk : Z -> bytes;
  env_clock_valid x : valid (env_clock x) }.

Section Session.
Context `{Memory} `{Environment} {St : Type}.

(** [call_m] with the default timeout or a given one. *)
Definition call_m {R} (cr : codec R) (l : link St) (proc : Z) (m : marshall) (r0 : R) (to : Z)
    : outcome (link St * R * Z) :=
  let x := k_xid (l_client l) in
  '(c, s, r, ret) ← exchange cr (l_client l) (l_server l) env_conn None (env_junk x) (env_clock x)
                      proc m r0 to;
  Ok (Link c s, r, ret).

(** The overloads of [call] the programs use. *)
Definition call1 {A R} (ca : codec A) (cr : codec R) (l : link St) (proc : Z) (a : A) (r0 : R) (to : Z)
    : outcome (link St * R * Z) :=
  m ← call_args1 ca a; call_m cr l proc m r0 to.
Definition call2 {A B R} (ca : codec A) (cb : codec B) (cr : codec R) (l : link St) (proc : Z)
    (a : A) (b : B) (r0 : R) (to : Z) : outcome (link St * R * Z) :=
  m ← call_args2 ca cb a b; call_m cr l proc m r0 to.

(** [rpcc::bind] on a client that has no connection yet; [new] is the one
    connect_to_dst makes, [r0] what the uninitialised [int r] holds. *)
Definition bind (c : rpcc) (s : rpcs St) (new : option (Z * connection)) (r0 to : Z)
    : outcome (link St * Z) :=
  '(c, s, r, ret) ← remote_call i32_c i32_c c s env_conn new (env_junk (k_xid c)) (env_clock (k_xid c))
                      rpc_bind 0 r0 to;
  Ok (Link (bind_finish c r ret) s, ret).

(** [n] more calls go through. *)
Record session (n : nat) (l : link St) : Prop := {
  ss_bound : k_bind_done (l_client l) = true;
  ss_chan : exists ch, open_chan (l_client l) ch 1;
  ss_window : window_ok (k_xid_rep_window (l_client l));
  ss_xid : 0 < k_xid (l_client l) <= 2 ^ 31 - Z.of_nat n;
  ss_clt : is_u32 (k_clt_nonce (l_client l));
  ss_srv : is_u32 (k_srv_nonce (l_client l));
  ss_nonce : k_srv_nonce (l_client l) = s_nonce (l_server l);
  ss_unacked x : k_xid (l_client l) <= x -> ~ acked (k_xid_rep_window (l_client l)) x;
  ss_live : live (l_server l) env_conn 1;
  ss_unseen : k_clt_nonce (l_client l) = 0 \/
    (s_conns (l_server l) !! k_clt_nonce (l_client l) = None \/
     s_conns (l_server l) !! k_clt_nonce (l_client l) = Some env_conn) /\
    forall x, k_xid (l_client l) <= x ->
      entry (replies_of (s_reply_window (l_server l)) (k_clt_nonce (l_client l))) x = None;
  ss_calls : k_calls (l_client l) = ∅ }.

Lemma session_less n l : session (S n) l -> session n l.
Proof. intros [? ? ? Hx]. constructor; try done. lia. Qed.

Lemma session_welcomes n l : session n l -> welcomes (l_server l) env_conn (l_client l).
Proof.
  intros []. split; [by right|]. split; [done|].
  destruct ss_unseen0 as [?|[? Hu]]; [by left|right]. split; [done|]. apply Hu. lia.
Qed.

(** What a session passes on from one call to the next. *)
Lemma session_next n l c' s' :
  session (S n) l -> ready_again (l_client l) c' (l_server l) s' env_conn ->
  k_calls c' = delete (k_xid (l_client l)) (k_calls (l_client l)) -> session n (Link c' s').
Proof.
  intros [] ((Hn1 & Hn2 & Hn3) & Hx & Ho & Hw & Ha & Hp & Hno & Hl & Hs) Hcalls.
  constructor; cbn [l_client l_server]; rewrite ?Hn1, ?Hn2, ?Hn3, ?Hno, ?Hx; try done; [lia| | |].
  - intros x Hx'. rewrite Ha by lia. intros [Hax| ->]; [|lia]. by apply (ss_unacked0 x); [lia|].
  - destruct ss_unseen0 as [?|[Hc Hu]]; [by left|].
    destruct (decide (k_clt_nonce (l_client l) = 0)) as [Hz|Hz]; [by left|right].
    destruct (Hs Hz) as [Hc' Hu']. split; [by right|]. intros x Hx'. apply Hu'; [lia|]. apply Hu. lia.
  - by rewrite Hcalls, ss_calls0, delete_empty.
Qed.

(** One call in a session. *)
Lemma call_m_served {R} (cr : codec R) n l proc m args f app' body b (r r0 : R) ret to :
  session (S n) l -> is_i32 proc -> proc <> rpc_bind -> s_procs (l_server l) !! proc = Some f ->
  0 <= to -> marshalled m args -> RPC_HEADER_SZ + zlen args <= MAX_PDU ->
  serves f args (s_app (l_server l)) app' body b -> 0 <= b < 2 ^ 31 \/ b = unmarshal_args_failure ->
  RPC_HEADER_SZ + zlen body <= MAX_PDU ->
  (forall u, remaining u body -> call_m_finish cr b u r0 = Ok (r, ret)) ->
  exists l', call_m cr l proc m r0 to = Ok (l', r, ret) /\ session n l' /\
    s_app (l_server l') = app' /\ s_procs (l_server l') = s_procs (l_server l) /\
    k_clt_nonce (l_client l') = k_clt_nonce (l_client l).
Proof.
  intros Hss Hproc Hnb Hp Hto Hm Hsa Hserve Hb Hsz Hans. pose proof Hss as [].
  destruct (exchange_ok cr (l_client l) (l_server l) env_conn None (env_junk (k_xid (l_client l)))
    (env_clock (k_xid (l_client l))) proc m args f app' body b r r0 ret to)
    as (c' & s' & E & Happ & Hcalls & Hra); try done.
  - by left.
  - unfold usable. destruct ss_chan0 as (ch & Ho). pose proof Ho as [-> _]. by left.
  - lia.
  - by apply (session_welcomes (S n)).
  - apply ss_unacked0. lia.
  - apply env_clock_valid.
  - exists (Link c' s'). unfold call_m. rewrite E. cbn [mbind outcome_bind l_server].
    split; [done|]. split; [by apply (session_next n l)|]. split; [done|].
    by destruct Hra as ((? & _) & _ & _ & _ & _ & ? & _).
Qed.

Lemma call_m_ok {R} (cr : codec R) n l proc m args f app' body b (r r0 : R) ret to :
  session (S n) l -> is_i32 proc -> proc <> rpc_bind -> s_procs (l_server l) !! proc = Some f ->
  0 <= to -> marshalled m args -> RPC_HEADER_SZ + zlen args <= MAX_PDU ->
  serves f args (s_app (l_server l)) app' body b -> 0 <= b < 2 ^ 31 \/ b = unmarshal_args_failure ->
  RPC_HEADER_SZ + zlen body <= MAX_PDU ->
  (forall u, remaining u body -> call_m_finish cr b u r0 = Ok (r, ret)) ->
  exists l', call_m cr l proc m r0 to = Ok (l', r, ret) /\ session n l' /\
    s_app (l_server l') = app' /\ s_procs (l_server l') = s_procs (l_server l).
Proof.
  intros. destruct (call_m_served cr n l proc m args f app' body b r r0 ret to) as (l' & ? & ? & ? & ? & _); try done.
  by exists l'.
Qed.
End Session.

(** Calls of registered methods. *)
Section Methods.
Context `{Memory} `{Environment} {St : Type}.

Lemma call1_ok {A R} (ca : codec A) (cr : codec R) `{!Wire ca, !Wire cr}
    n (l : link St) proc (a a0 : A) (r r0 r1 : R) meth app' b to :
  session (S n) l -> is_i32 proc -> proc <> rpc_bind ->
  s_procs (l_server l) !! proc = Some (h1_fn ca cr a0 r1 meth) -> 0 <= to ->
  representable ca a -> declared ca a0 -> declared cr r0 -> RPC_HEADER_SZ + zlen (image ca a) <= MAX_PDU ->
  meth a r1 (s_app (l_server l)) = Ok (app', r, b) -> 0 <= b < 2 ^ 31 ->
  representable cr r -> RPC_HEADER_SZ + zlen (image cr r) <= MAX_PDU ->
  exists l', call1 ca cr l proc a r0 to = Ok (l', r, b) /\ session n l' /\
    s_app (l_server l') = app' /\ s_procs (l_server l') = s_procs (l_server l).
Proof.
  intros Hss Hproc Hnb Hp Hto Ha Ha0 Hr0 Hsa Hmeth Hb Hr Hsr.
  destruct (call_args1_ok ca a Ha Hsa) as (m & Em & Hm).
  unfold call1. rewrite Em. cbn [mbind outcome_bind].
  apply (call_m_ok cr n l proc m (image ca a) (h1_fn ca cr a0 r1 meth) app' (image cr r) b r r0 b to); try done.
  - apply h1_fn_serves; try done. rewrite MAX_PDU_val in Hsr. unfold MAX_MSG. lia.
  - by left.
  - intros u Hu. apply (call_m_result _); try done. lia.
Qed.

(** The two-argument stubs are the one-argument ones on pairs. *)
Lemma call2_ok {A B R} (ca : codec A) (cb : codec B) (cr : codec R) `{!Wire ca, !Wire cb, !Wire cr}
    n (l : link St) proc (a a0 : A) (b b0 : B) (r r0 r1 : R) meth app' st to :
  session (S n) l -> is_i32 proc -> proc <> rpc_bind ->
  s_procs (l_server l) !! proc = Some (h1_fn2 ca cb cr a0 b0 r1 meth) -> 0 <= to ->
  representable ca a -> representable cb b -> declared ca a0 -> declared cb b0 -> declared cr r0 ->
  RPC_HEADER_SZ + zlen (image ca a) + zlen (image cb b) <= MAX_PDU ->
  meth a b r1 (s_app (l_server l)) = Ok (app', r, st) -> 0 <= st < 2 ^ 31 ->
  representable cr r -> RPC_HEADER_SZ + zlen (image cr r) <= MAX_PDU ->
  exists l', call2 ca cb cr l proc a b r0 to = Ok (l', r, st) /\ session n l' /\
    s_app (l_server l') = app' /\ s_procs (l_server l') = s_procs (l_server l).
Proof.
  intros Hss Hproc Hnb Hp Hto Ha Hb Ha0 Hb0 Hr0 Hsa Hmeth Hst Hr Hsr.
  assert (RPC_HEADER_SZ + zlen (image (pair_c ca cb) (a, b)) <= MAX_PDU) as Hsp
    by (cbn [image pair_wire fst snd]; rewrite zlen_app; lia).
  destruct (call_args1_ok (pair_c ca cb) (a, b)) as (m & Em & Hm); [done|done|].
  unfold call2. rewrite call_args2_tuple. unfold call_args1 in Em. rewrite Em. cbn [mbind outcome_bind].
  apply (call_m_ok cr n l proc m (image (pair_c ca cb) (a, b)) (h1_fn2 ca cb cr a0 b0 r1 meth) app'
    (image cr r) st r r0 st to); try done.
  - eapply serves_ext; [intros; apply h1_fn2_tuple|].
    apply (h1_fn_serves (pair_c ca cb) cr (a, b) (a0, b0)); try done.
    rewrite MAX_PDU_val in Hsr. unfold MAX_MSG. lia.
  - by left.
  - intros u Hu. apply (call_m_result _); try done. lia.
Qed.

(** A fresh client binds to a server: the session starts, with as many calls as
    there are positive [int] transaction ids left. *)
Lemma bind_ok retrans random s new r0 (a0 r1 : Z) to :
  let c := rpcc_new retrans random in
  s_procs s !! rpc_bind = Some (h1_fn i32_c i32_c a0 r1 (rpcbind (s_nonce s))) -> is_u32 (s_nonce s) ->
  connects new ->
  live s env_conn 1 -> 0 <= to ->
  (k_clt_nonce c = 0 \/ s_conns s !! k_clt_nonce c = None /\ s_reply_window s !! k_clt_nonce c = None) ->
  exists l, bind (St := St) c s new r0 to = Ok (l, 0) /\ (forall n, Z.of_nat n <= 2 ^ 31 - 2 -> session n l) /\
    s_app (l_server l) = s_app s /\ s_procs (l_server l) = s_procs s.
Proof.
  intros c Hp Hn Hnew Hl Hto Hclt.
  assert (is_u32 (k_clt_nonce c)) as Hu by (subst c; destruct retrans; [apply u32_range|done]).
  assert (forall x, k_clt_nonce c = 0 \/ entry (replies_of (s_reply_window s) (k_clt_nonce c)) x = None) as Hnone.
  { intros x. destruct Hclt as [?|[_ Hw]]; [by left|right]. unfold replies_of. by rewrite Hw. }
  destruct (call_args1_ok i32_c 0) as (m & Em & Hm); [by vm_compute|by vm_compute|].
  destruct (exchange_ok i32_c c s env_conn new (env_junk (k_xid c)) (env_clock (k_xid c)) rpc_bind m
    (image i32_c 0) (h1_fn i32_c i32_c a0 r1 (rpcbind (s_nonce s))) (s_app s) (image i32_c (i32 (s_nonce s))) 0
    (i32 (s_nonce s)) r0 0 to) as (c' & s' & E & Happ & Hcalls & Hra); try done.
  - by right.
  - apply window_init_ok.
  - split; [by left|]. split; [done|]. destruct Hclt as [?|[? _]]; [by left|].
    destruct (Hnone 1) as [?|?]; [by left|right]. split; [by left|done].
  - simpl. intros [?|?]; [lia|set_solver].
  - apply env_clock_valid.
  - apply h1_fn_serves; try done. apply i32_range.
  - by left.
  - intros u Hu'. apply (call_m_result _); try done. apply i32_range.
  - pose proof Hra as ((Hn1 & Hn2 & Hn3) & Hx & Ho & Hw & Ha & Hp' & Hno & Hl' & Hs).
    exists (Link (bind_finish c' (i32 (s_nonce s)) 0) s'). unfold bind, remote_call. rewrite Em.
    cbn [mbind outcome_bind]. rewrite E. cbn [mbind outcome_bind]. split; [done|]. split; [intros n Hn'|done].
    constructor; cbn [l_client l_server bind_finish Z.eqb set_bound k_bind_done k_clt_nonce k_srv_nonce
      k_xid_rep_window k_calls]; rewrite ?Hn1, ?u32_i32, ?(u32_small (s_nonce s)), ?Hno by done; try done.
    + cbn [k_xid set_bound]. rewrite Hx. change (k_xid c) with 1. lia.
    + cbn [k_xid set_bound]. rewrite Hx. intros x Hx'. rewrite Ha by (simpl in Hx'; lia).
      intros [[?|?]| ->]; [simpl in Hx'; lia|set_solver|simpl in Hx'; lia].
    + destruct (decide (k_clt_nonce c = 0)) as [Hz|Hz]; [by left|right]. destruct (Hs Hz) as [Hc Hent].
      split; [by right|]. intros x Hx'. cbn [k_xid set_bound] in Hx'. rewrite Hx in Hx'.
      apply Hent; [lia|]. by destruct (Hnone x).
Qed.
End Methods.

(** Connection 4, a clock that stands still, and memory that holds sevens. *)
Module Demo.
#[export] Program Instance environment : Environment :=
  {| env_conn := 4; env_clock _ := Timespec 1000 0; env_junk _ := [7; 7; 7; 7] |}.
Next Obligation. split; simpl; lia. Qed.
End Demo.
