(* ===== verification/Effects.v ===== *)
(** * What a step can have done

    The halves of [dispatch] and the parts of [call1], read backwards: if such a
    step came to its end, whatever state it started in, these are the only
    changes it can have made. The theorems of Unreliable use them on states of
    which little is known. *)

From S2P Require Import Prelude Marshall Connection XidWindow TimeSpec Rpcs Serve Rpcc Remote.
Local Open Scope Z_scope.

(** ** The server's connections *)
Section Server.
Context `{Memory} {St : Type}.
Implicit Types s : rpcs St.

Lemma conn_incref_objs s c s' : conn_incref s c = Ok s' -> s' = with_objs s (s_objs s').
Proof. unfold conn_incref. destruct (obj s c); [|done]. cbn. by intros [= <-]. Qed.

Lemma conn_decref_objs s c s' : conn_decref s c = Ok s' -> s' = with_objs s (s_objs s').
Proof.
  unfold conn_decref. destruct (obj s c); [|done]. cbn.
  destruct (decref _) as [[k|]|]; [| |done]; cbn; by intros [= <-].
Qed.

(** Nothing, or one message on the connection. *)
Lemma conn_send_effect s c b sz s' :
  conn_send s c b sz = Ok s' ->
  s' = s \/ exists buf out, b = Some buf /\ slice buf 0 sz = Ok out /\ s' = with_sent s (s_sent s ++ [(c, out)]).
Proof.
  unfold conn_send. destruct (obj s c) as [k|]; [|done]. cbn. destruct (isdead k).
  { intros [= <-]. by left. }
  destruct b as [buf|]; [|done]. destruct (slice buf 0 sz) as [out|] eqn:E; [|done].
  cbn. intros [= <-]. right. by exists buf, out.
Qed.

Lemma slice_contents m b : marshall_wf m -> m_buf m = Some b -> slice b 0 (m_ind m) = Ok (contents m).
Proof.
  intros Hwf Hb. destruct (wf_holds m Hwf) as (b' & Hb' & Hz & Ht). rewrite Hb in Hb'. injection Hb' as <-.
  assert (m_ind m <= zlen b) by (rewrite Hz, <- Ht; unfold zlen; rewrite length_take; lia).
  unfold slice. rewrite decide_True by (rewrite Hz; pose proof (zlen_nonneg (contents m)); lia).
  by rewrite drop_0, Ht.
Qed.

Lemma send_error_effect s c xid ret s' :
  send_error s c xid ret = Ok s' ->
  s' = s \/ exists out, s' = with_sent s (s_sent s ++ [(c, out)]) /\ is_reply out (mk_reply_header xid ret) [].
Proof.
  unfold send_error. destruct (pack_reply_header_ok marshall_new (mk_reply_header xid ret) marshall_new_wf)
    as (m & -> & Wm & Im & Cm); [done|]. cbn [mbind outcome_bind].
  intros [->|(buf & out & Hb & Hs & ->)]%conn_send_effect; [by left|]. right.
  unfold marshall_size in Hs. rewrite (slice_contents m buf Wm Hb) in Hs. injection Hs as <-.
  exists (contents m). split; [done|]. rewrite Cm. apply splice_is_reply; [|apply marshall_new_body].
  rewrite (contents_length _ marshall_new_wf). by vm_compute.
Qed.

Lemma save_conn_effect s clt c s' :
  save_conn s clt c = Ok s' ->
  exists o, s' = with_objs s o \/ s' = with_conns (with_objs s o) (<[clt := c]> (s_conns s)).
Proof.
  unfold save_conn. destruct (s_conns s !! clt) as [c'|].
  - destruct (c' =? c).
    { intros [= <-]. exists (s_objs s). left. by destruct s. }
    destruct (conn_decref s c') as [s1|] eqn:E1; [|done]. apply conn_decref_objs in E1. cbn.
    destruct (conn_incref s1 c) as [s2|] eqn:E2; [|done]. apply conn_incref_objs in E2. cbn.
    intros [= <-]. exists (s_objs s2). right. rewrite E2, E1. done.
  - destruct (conn_incref s c) as [s1|] eqn:E1; [|done]. apply conn_incref_objs in E1. cbn.
    intros [= <-]. exists (s_objs s1). right. by rewrite E1.
Qed.

(** ** The first half of dispatch *)

(** What may go out before the handler runs: the answer to a request for another
    instance of the server, the answer to one the client itself acknowledged, or
    a stored reply. *)
Definition early_answer s (h : req_header) (out : bytes) : Prop :=
  is_reply out (mk_reply_header (rq_xid h) oldsrv_failure) [] /\ rq_srv_nonce h <> 0 /\ rq_srv_nonce h <> s_nonce s \/
  rq_clt_nonce h <> 0 /\
  (u32 (rq_xid h) <= u32 (rq_xid_rep h) \/
   exists e b, entry (replies_of (s_reply_window s) (rq_clt_nonce h)) (u32 (rq_xid h)) = Some e /\
     r_cb_present e = true /\ r_buf e = Some b /\ slice b 0 (r_sz e) = Ok out).

Record begun s s' (c : Z) (req : unmarshall) (h : req_header) (next : option (@running St)) : Prop := {
  b_procs : s_procs s' = s_procs s;
  b_app : s_app s' = s_app s;
  b_nonce : s_nonce s' = s_nonce s;
  b_conns n k : s_conns s' !! n = Some k ->
    s_conns s !! n = Some k \/ n = rq_clt_nonce h /\ n <> 0 /\ k = c;
  b_next r : next = Some r ->
    exists f, r = Running c req h f /\ u_ok req = true /\ s_procs s !! rq_proc h = Some f;
  b_sent : s_sent s' = s_sent s \/
    exists out, s_sent s' = s_sent s ++ [(c, out)] /\ next = None /\ u_ok req = true /\ early_answer s h out }.

Lemma begun_quiet s o c req h : begun s (with_objs s o) c req h None.
Proof. split; [done|done|done|by left|done|by left]. Qed.

Lemma begun_sent s s1 o c req h out :
  s_procs s1 = s_procs s -> s_app s1 = s_app s -> s_nonce s1 = s_nonce s -> s_sent s1 = s_sent s ->
  (forall n k, s_conns s1 !! n = Some k -> s_conns s !! n = Some k \/ n = rq_clt_nonce h /\ n <> 0 /\ k = c) ->
  u_ok req = true -> early_answer s h out ->
  begun s (with_objs (with_sent s1 (s_sent s1 ++ [(c, out)])) o) c req h None.
Proof.
  intros Hp Ha Hno Hs Hc Hok He. split; [done|done|done|exact Hc|done|]. right. exists out. cbn. by rewrite Hs.
Qed.

Lemma begun_kept s s1 o c req h :
  s_procs s1 = s_procs s -> s_app s1 = s_app s -> s_nonce s1 = s_nonce s -> s_sent s1 = s_sent s ->
  (forall n k, s_conns s1 !! n = Some k -> s_conns s !! n = Some k \/ n = rq_clt_nonce h /\ n <> 0 /\ k = c) ->
  begun s (with_objs s1 o) c req h None.
Proof. intros Hp Ha Hno Hs Hc. split; [done|done|done|exact Hc|done|by left]. Qed.

(** Once the window has been consulted. *)
Lemma begun_lookup s s2 w c req h st rb f s' next :
  rq_clt_nonce h <> 0 -> u_ok req = true -> s_procs s !! rq_proc h = Some f ->
  s_procs s2 = s_procs s -> s_app s2 = s_app s -> s_nonce s2 = s_nonce s -> s_sent s2 = s_sent s ->
  (forall n k, s_conns s2 !! n = Some k -> s_conns s !! n = Some k \/ n = rq_clt_nonce h /\ n <> 0 /\ k = c) ->
  (st, rb) = verdict (replies_of (s_reply_window s) (rq_clt_nonce h)) (u32 (rq_xid h)) (u32 (rq_xid_rep h)) ->
  match st with
  | NEW => Ok (if negb (s_counting (with_window s2 w) =? 0) then updatestat (with_window s2 w) (rq_proc h)
               else with_window s2 w, Some (Running c req h f))
  | INPROGRESS => s ← conn_decref (with_window s2 w) c; Ok (s, None)
  | DONE => s ← conn_send (with_window s2 w) c rb.1 rb.2; s ← conn_decref s c; Ok (s, None)
  | FORGOTTEN => s ← send_error (with_window s2 w) c (rq_xid h) atmostonce_failure;
                 s ← conn_decref s c; Ok (s, None)
  end = Ok (s', next) ->
  begun s s' c req h next.
Proof.
  intros Hz Hok Hf Hp Ha Hno Hs Hc Hv Hb. destruct st.
  - injection Hb as <- <-. split; [by destruct (negb _)..|intros r [= <-]; by exists f|left; by destruct (negb _)].
  - destruct (conn_decref _ _) as [s3|] eqn:E; [|done]. apply conn_decref_objs in E. cbn in Hb.
    injection Hb as <- <-. rewrite E. by apply begun_kept.
  - destruct (conn_send _ _ _ _) as [s3|] eqn:E1; [|done]. cbn in Hb.
    destruct (conn_decref _ _) as [s4|] eqn:E; [|done]. apply conn_decref_objs in E. cbn in Hb.
    injection Hb as <- <-. rewrite E. apply conn_send_effect in E1 as [->|(b & out & Hb & Hsl & ->)];
      [by apply begun_kept|]. apply begun_sent; [done|done|done|done|exact Hc|done|]. right. split; [done|]. right.
    unfold verdict in Hv. destruct (u32 (rq_xid_rep h) <? u32 (rq_xid h)).
    + destruct (entry _ _) as [e|] eqn:He; [|done]. destruct (r_cb_present e) eqn:Hcb; [|done].
      injection Hv as ->. by exists e, b.
    + by destruct (replies_of _ _).
  - destruct (send_error _ _ _ _) as [s3|] eqn:E1; [|done]. cbn in Hb.
    destruct (conn_decref _ _) as [s4|] eqn:E; [|done]. apply conn_decref_objs in E. cbn in Hb.
    injection Hb as <- <-. rewrite E. apply send_error_effect in E1 as [->|(out & -> & _)];
      [by apply begun_kept|]. apply begun_sent; [done|done|done|done|exact Hc|done|]. right. split; [done|]. left.
    unfold verdict in Hv. destruct (Z.ltb_spec (u32 (rq_xid_rep h)) (u32 (rq_xid h))); [|done].
    destruct (entry _ _) as [e|]; [|done]. by destruct (r_cb_present e).
Qed.

Lemma dispatch_begin_effect s j req h s' next :
  unmarshall_unpack_req_header (unmarshall_new (j_buf j) (j_sz j)) = Ok (req, h) ->
  dispatch_begin s j = Ok (s', next) -> begun s s' (j_conn j) req h next.
Proof.
  intros Eu Hb. unfold dispatch_begin in Hb. rewrite Eu in Hb. cbn [mbind outcome_bind] in Hb.
  destruct (u_ok req) eqn:Hok; cbn [negb] in Hb.
  2: { destruct (conn_decref s _) as [s1|] eqn:E; [|done]. injection Hb as <- <-.
       rewrite (conn_decref_objs _ _ _ E). apply begun_quiet. }
  destruct (negb (rq_srv_nonce h =? 0) && negb (rq_srv_nonce h =? s_nonce s)) eqn:Hst.
  { destruct (send_error s _ _ _) as [s1|] eqn:E; [|done]. injection Hb as <- <-.
    apply andb_true_iff in Hst as [Hs1%negb_true_iff%Z.eqb_neq Hs2%negb_true_iff%Z.eqb_neq].
    apply send_error_effect in E as [->|(out & -> & Hr)].
    - split; [done|done|done|by left|done|by left].
    - split; [done|done|done|by left|done|]. right. exists out. split_and!; [done|done|done|by left]. }
  destruct (s_procs s !! rq_proc h) as [f|] eqn:Hf.
  2: { destruct (conn_decref s _) as [s1|] eqn:E; [|done]. injection Hb as <- <-.
       rewrite (conn_decref_objs _ _ _ E). apply begun_quiet. }
  destruct (Z.eqb_spec (rq_clt_nonce h) 0) as [Hz|Hz]; cbn [negb mbind outcome_bind] in Hb.
  { injection Hb as <- <-. destruct (s_counting s =? 0); (split; [done|done|done|by left| |by left]);
      intros r [= <-]; by exists f. }
  set (s1 := match s_reply_window s !! rq_clt_nonce h with Some _ => s | None => _ end) in Hb.
  assert (s_procs s1 = s_procs s /\ s_app s1 = s_app s /\ s_nonce s1 = s_nonce s /\ s_sent s1 = s_sent s /\
    s_conns s1 = s_conns s /\ window_equiv (s_reply_window s1) (s_reply_window s)) as (Hp1 & Ha1 & Hn1 & Hs1 & Hc1 & Hw1).
  { subst s1. destruct (s_reply_window s !! rq_clt_nonce h) eqn:L; [done|]. do 5 (split; [done|]).
    by apply window_create. }
  destruct (save_conn s1 _ _) as [s2|] eqn:E2; [|done]. cbn [mbind outcome_bind] in Hb.
  pose proof (save_conn_window _ _ _ _ E2) as Hw2.
  rewrite Hw2, checkduplicate_verdict, Hw1 in Hb. cbn [mbind outcome_bind] in Hb.
  apply save_conn_effect in E2 as [o E2].
  eapply (begun_lookup s s2); [exact Hz|exact Hok|exact Hf| | | | | |symmetry; apply surjective_pairing|exact Hb].
  - destruct E2 as [-> | ->]; exact Hp1.
  - destruct E2 as [-> | ->]; exact Ha1.
  - destruct E2 as [-> | ->]; exact Hn1.
  - destruct E2 as [-> | ->]; exact Hs1.
  - intros n k. destruct E2 as [-> | ->]; cbn [s_conns with_objs with_conns]; rewrite Hc1; [by left|].
    rewrite lookup_insert. case_decide; [|by left]. intros [= <-]. right. by subst.
Qed.

(** ** The second half *)
Lemma latest_conn_effect s c clt s' c' :
  latest_conn s c clt = Ok (s', c') ->
  s' = with_objs s (s_objs s') /\ (c' = c \/ s_conns s !! clt = Some c').
Proof.
  unfold latest_conn. destruct (obj s c) as [k|]; [|done]. cbn. destruct (isdead k && _).
  - destruct (conn_decref s c) as [s1|] eqn:E1; [|done]. apply conn_decref_objs in E1. cbn.
    destruct (s_conns s1 !! clt) as [c1|] eqn:Ec; [|done].
    destruct (conn_incref s1 c1) as [s2|] eqn:E2; [|done]. apply conn_incref_objs in E2. cbn.
    intros [= <- <-]. split; [by rewrite E2, E1|]. right. by rewrite E1 in Ec.
  - intros [= <- <-]. split; [by destruct s|by left].
Qed.

(** One reply is made, kept for duplicates if the client has a nonce, and goes
    out on the request's connection or the client's latest, or nowhere. *)
Record finished s s' (r : @running St) (m : marshall) (ret : Z) (out buf : bytes) (sz : Z) : Prop := {
  f_reply : is_reply out (ReplyHeader (i32 (rq_xid (run_h r))) ret) (drop 24 (contents m));
  f_slice : slice buf 0 sz = Ok out;
  f_ret : 0 <= ret \/ ret = unmarshal_args_failure;
  f_procs : s_procs s' = s_procs s;
  f_app : s_app s' = s_app s;
  f_nonce : s_nonce s' = s_nonce s;
  f_conns : s_conns s' = s_conns s;
  f_window : s_reply_window s' =
    if 0 <? rq_clt_nonce (run_h r)
    then add_reply (s_reply_window s) (rq_clt_nonce (run_h r)) (u32 (rq_xid (run_h r))) (Some buf) sz
    else s_reply_window s;
  f_sent : s_sent s' = s_sent s \/ exists c, s_sent s' = s_sent s ++ [(c, out)] /\
    (c = run_conn r \/ s_conns s !! rq_clt_nonce (run_h r) = Some c) }.

Lemma dispatch_finish_effect s r m ret s' :
  marshall_wf m -> m_ind m <= MAX_MSG -> dispatch_finish s r m ret = Ok s' ->
  exists out buf sz, finished s s' r m ret out buf sz.
Proof.
  intros Hwf Hmax Hf. unfold dispatch_finish in Hf.
  destruct ((0 <=? ret) || (ret =? unmarshal_args_failure)) eqn:Hret; [|done]. cbn [cassert mbind outcome_bind] in Hf.
  destruct (pack_reply_header_ok m (ReplyHeader (i32 (rq_xid (run_h r))) ret) Hwf Hmax) as (m' & Em & Wm & Im & Cm).
  rewrite Em in Hf. cbn [mbind outcome_bind marshall_take_buf] in Hf.
  destruct (wf_holds m' Wm) as (buf & Hb & _). rewrite Hb in Hf.
  set (s1 := if 0 <? _ then _ else s) in Hf.
  destruct (latest_conn s1 _ _) as [[s2 c]|] eqn:E2; [|done]. cbn in Hf.
  destruct (conn_send s2 _ _ _) as [s3|] eqn:E3; [|done]. cbn in Hf.
  apply conn_decref_objs in Hf. apply latest_conn_effect in E2 as [E2 Hc].
  assert (s_procs s1 = s_procs s /\ s_app s1 = s_app s /\ s_nonce s1 = s_nonce s /\ s_conns s1 = s_conns s /\
    s_sent s1 = s_sent s) as (Hp1 & Ha1 & Hn1 & Hc1 & Hs1) by (subst s1; by destruct (0 <? _)).
  rewrite Hc1 in Hc.
  assert (s_procs s2 = s_procs s /\ s_app s2 = s_app s /\ s_nonce s2 = s_nonce s /\ s_conns s2 = s_conns s /\
    s_sent s2 = s_sent s /\ s_reply_window s2 = s_reply_window s1) as (Hp2 & Ha2 & Hn2 & Hc2 & Hs2 & Hw2) by (by rewrite E2).
  exists (contents m'), buf, (m_ind m'). apply conn_send_effect in E3.
  split.
  - rewrite Cm. apply splice_is_reply; [|done]. rewrite (contents_length m Hwf).
    destruct Hwf as (? & _ & _ & [? _] & _). unfold MAX_MSG in *. lia.
  - by apply slice_contents.
  - apply orb_true_iff in Hret as [Hret|Hret]; [left; by apply Z.leb_le|right; by apply Z.eqb_eq].
  - rewrite Hf. by destruct E3 as [->|(? & ? & _ & _ & ->)].
  - rewrite Hf. by destruct E3 as [->|(? & ? & _ & _ & ->)].
  - rewrite Hf. by destruct E3 as [->|(? & ? & _ & _ & ->)].
  - rewrite Hf. by destruct E3 as [->|(? & ? & _ & _ & ->)].
  - rewrite Hf. replace (s_reply_window (with_objs s3 (s_objs s'))) with (s_reply_window s1)
      by (by destruct E3 as [->|(? & ? & _ & _ & ->)]). subst s1. by destruct (0 <? _).
  - rewrite Hf. destruct E3 as [->|(b & out & Eb & Es & ->)]; [by left|]. right. exists c.
    injection Eb as <-. rewrite (slice_contents m' buf Wm Hb) in Es. injection Es as <-.
    cbn. by rewrite Hs2.
Qed.
End Server.

(** ** The client *)
Section Client.
Context `{Memory}.

(** Only the connection and the connection objects differ. *)
Definition rewired (c c' : rpcc) : Prop := c' = set_chan c (k_chan c') (k_objs c').

Lemma rewired_refl c : rewired c c.
Proof. by destruct c. Qed.
Lemma rewired_trans c1 c2 c3 : rewired c1 c2 -> rewired c2 c3 -> rewired c1 c3.
Proof. unfold rewired. intros E1 E2. rewrite E2, E1 at 1. done. Qed.
Lemma chan_incref_rewired c ch c' : chan_incref c ch = Ok c' -> rewired c c'.
Proof. unfold chan_incref. destruct (chan_obj c ch); [|done]. cbn. by intros [= <-]. Qed.
Lemma chan_decref_rewired c ch c' : chan_decref c ch = Ok c' -> rewired c c'.
Proof.
  unfold chan_decref. destruct (chan_obj c ch); [|done]. cbn. destruct (decref _); [|done]. by intros [= <-].
Qed.
Lemma maybe_decref_rewired c ch c' :
  (match ch with None => Ok c | Some old => chan_decref c old end) = Ok c' -> rewired c c'.
Proof. destruct ch; [apply chan_decref_rewired|]. intros [= <-]. apply rewired_refl. Qed.

Lemma get_refconn_rewired c ch new c' ch' : get_refconn c ch new = Ok (c', ch') -> rewired c c'.
Proof.
  unfold get_refconn. destruct (chan_dead c _) as [stale|]; [|done]. cbn [mbind outcome_bind]. intros E.
  assert (exists c1, rewired c c1 /\ match k_chan c1 with
    | None => Ok (c1, ch)
    | Some chan => c ← (match ch with None => Ok c1 | Some old => chan_decref c1 old end);
                   c ← chan_incref c chan; Ok (c, Some chan) end = Ok (c', ch')) as (c1 & H1 & E1).
  { destruct stale; cbn [mbind outcome_bind] in E; [|exists c; split; [apply rewired_refl|done]].
    destruct (match k_chan c with None => Ok c | Some old => chan_decref c old end) as [c0|] eqn:E0; [|done].
    cbn [mbind outcome_bind] in E. eexists. split; [|exact E]. apply maybe_decref_rewired in E0.
    eapply rewired_trans; [exact E0|]. by destruct new as [[]|]. }
  destruct (k_chan c1) as [chan|]; [|by injection E1 as <- <-].
  destruct (match ch with None => Ok c1 | Some old => chan_decref c1 old end) as [c2|] eqn:E2; [|done].
  cbn [mbind outcome_bind] in E1. destruct (chan_incref c2 chan) as [c3|] eqn:E3; [|done]. injection E1 as <- <-.
  eapply rewired_trans; [exact H1|]. eapply rewired_trans;
    [by eapply maybe_decref_rewired|by eapply chan_incref_rewired].
Qed.

(** A round of the loop sends the request as it is, or nothing. *)
Lemma call1_send_effect c cs new c' cs' :
  marshall_wf (cs_req cs) -> call1_send c cs new = Ok (c', cs') ->
  cs_xid cs' = cs_xid cs /\ cs_req cs' = cs_req cs /\
  exists c1, rewired c c1 /\ (c' = c1 \/ exists ch, c' = set_sent c1 (k_sent c1 ++ [(ch, contents (cs_req cs))])).
Proof.
  intros Hwf. unfold call1_send. destruct (cs_transmit cs).
  2: { intros [= <- <-]. do 2 (split; [done|]). exists c. split; [apply rewired_refl|by left]. }
  destruct (get_refconn c _ new) as [[c1 ch]|] eqn:E1; [|done]. cbn [mbind outcome_bind].
  apply get_refconn_rewired in E1. destruct ch as [ch|]; cbn [mbind outcome_bind].
  2: { intros [= <- <-]. do 2 (split; [done|]). exists c1. split; [done|by left]. }
  unfold chan_send. destruct (chan_obj c1 ch) as [k|]; [|done]. cbn [mbind outcome_bind]. destruct (isdead k).
  { intros [= <- <-]. do 2 (split; [done|]). exists c1. split; [done|by left]. }
  destruct (m_buf (cs_req cs)) as [b|] eqn:Hb; [|done]. unfold marshall_size.
  rewrite (slice_contents _ b Hwf Hb). cbn [mbind outcome_bind].
  intros [= <- <-]. do 2 (split; [done|]). exists c1. split; [done|]. right. by exists ch.
Qed.

Lemma call1_start_effect c proc m to now c' cs :
  marshall_wf m -> m_ind m <= MAX_MSG -> call1_start c proc m to now = Ok (c', inr cs) ->
  exists front, window_front (k_xid_rep_window c) = Ok front /\
    c' = set_calls c (u32 (k_xid c + 1)) (<[i32 (k_xid c) := caller_new unmarshall_empty]> (k_calls c)) /\
    cs_xid cs = k_xid c /\ marshall_wf (cs_req cs) /\ m_ind (cs_req cs) = m_ind m /\
    contents (cs_req cs) = splice (contents m) 4 (req_header_image
      (mk_req_header (k_xid c) proc (k_clt_nonce c) (k_srv_nonce c) front)).
Proof.
  intros Hwf Hm Hs. unfold call1_start in Hs. destruct (_ || _); [done|].
  cbn [k_xid_rep_window set_calls k_clt_nonce k_srv_nonce] in Hs.
  destruct (window_front _) as [front|] eqn:Ef; [|done]. cbn [mbind outcome_bind] in Hs.
  destruct (pack_req_header_ok m (mk_req_header (k_xid c) proc (k_clt_nonce c) (k_srv_nonce c) front) Hwf Hm)
    as (m' & Em & Wm & Im & Cm). rewrite Em in Hs. cbn [mbind outcome_bind] in Hs.
  destruct (add_timespec now to) as [f|]; [|done]. injection Hs as <- <-. by exists front.
Qed.

Lemma call1_finish_effect c cs c' u ret :
  call1_finish c cs = Ok (c', u, ret) ->
  exists ca w, k_calls c !! i32 (cs_xid cs) = Some ca /\ update_xid_rep (k_xid_rep_window c) (cs_xid cs) = Ok w /\
    rewired (set_window (set_calls c (k_xid c) (delete (i32 (cs_xid cs)) (k_calls c))) w) c' /\
    u = ca_un ca /\ ret = if ca_done ca then ca_intret ca else timeout_failure.
Proof.
  unfold call1_finish. destruct (k_calls c !! _) as [ca|]; [|done].
  destruct (update_xid_rep _ _) as [w|]; [|done]. cbn [mbind outcome_bind].
  destruct (match cs_ch cs with None => _ | Some ch => _ end) as [c1|] eqn:E; [|done].
  apply maybe_decref_rewired in E. intros [= <- <- <-]. by exists ca, w.
Qed.
End Client.
