(* ===== verification/CallLoop.v ===== *)
(** * The loop of call1: rpc/rpc.cc

    [call1] sends its request and waits for the reply in rounds, each twice as
    long as the one before, sending again when the connection has died, until a
    reply or the final deadline. Here the whole loop is run: the clock, what
    connect_to_dst makes, when pthread_cond_timedwait returns and what the other
    threads of the client do meanwhile come from the surroundings. *)

From S2P Require Import Prelude Marshall Connection XidWindow TimeSpec Rpcs Serve Stubs Rpcc Remote Effects.
Local Open Scope Z_scope.

(** ** Waiting *)

(** A return from a wait: whether the time was up, when it was, and what the
    other threads have made of the client by then. A return before the time is up
    is a broadcast or a spurious wake-up. *)
Record wake := Wake { w_timeout : bool; w_at : timespec; w_others : rpcc -> rpcc }.

Inductive wait_result := W_woken | W_ETIMEDOUT | W_EINVAL.
#[export] Instance wait_result_eq_dec : EqDecision wait_result.
Proof. solve_decision. Defined.

Definition valid_b (t : timespec) : bool := (0 <=? tv_nsec t) && (tv_nsec t <? 1000000000).

(** POSIX: a deadline whose nanoseconds are not below 10^9 is refused. *)
Definition pthread_cond_timedwait (abstime : timespec) (w : wake) : wait_result :=
  if negb (valid_b abstime) then W_EINVAL else if w_timeout w then W_ETIMEDOUT else W_woken.

(** [while (!ca.done) if (pthread_cond_timedwait(...) == ETIMEDOUT) break;] from
    time [t] on, and when it ended; [None] while the thread is still in the loop
    after the given returns. *)
Fixpoint await (x : Z) (deadline t : timespec) (c : rpcc) (ws : list wake)
    : outcome (option (rpcc * timespec)) :=
  match k_calls c !! i32 x with
  | None => Crash UseAfterFree
  | Some ca =>
      if ca_done ca then Ok (Some (c, t))
      else match ws with
           | [] => Ok None
           | w :: ws =>
               if decide (pthread_cond_timedwait deadline w = W_ETIMEDOUT)
               then Ok (Some (w_others w c, w_at w))
               else await x deadline (w_at w) (w_others w c) ws
           end
  end.

(** What round [n] meets: the clock's reading after time [t], what connect_to_dst
    makes, and the returns of pthread_cond_timedwait for a deadline. *)
Record surroundings := Surroundings {
  sr_now : nat -> timespec -> timespec;
  sr_connect : nat -> rpcc -> option (Z * connection);
  sr_wakes : nat -> timespec -> list wake }.

(** The [while (1)] of call1 from round [n] and time [t] on, at most [fuel] rounds;
    with the times at which its waits ended. [None] while it is still running. *)
Fixpoint call1_loop (W : surroundings) (fuel n : nat) (t : timespec) (c : rpcc) (cs : call_state)
    : outcome (option (rpcc * call_state * list timespec)) :=
  match fuel with
  | O => Ok None
  | S fuel =>
      '(c, cs) ← call1_send c cs (sr_connect W n c);
      let now := sr_now W n t in
      d ← call1_deadline cs now;
      match d with
      | None => Ok (Some (c, cs, []))
      | Some (cs, deadline) =>
          r ← await (cs_xid cs) deadline now c (sr_wakes W n deadline);
          match r with
          | None => Ok None
          | Some (c, t) =>
              w ← call1_wake c cs;
              match w with
              | None => Ok (Some (c, cs, [t]))
              | Some cs =>
                  r ← call1_loop W fuel (S n) t c cs;
                  Ok (option_map (fun '(c, cs, l) => (c, cs, t :: l)) r)
              end
          end
      end
  end.

(** call1 from the end of its first part, at time [t]. *)
Definition call1_rest (W : surroundings) (fuel : nat) (t : timespec) (c : rpcc) (cs : call_state)
    : outcome (option (rpcc * unmarshall * Z * list timespec)) :=
  r ← call1_loop W fuel 0 t c cs;
  match r with
  | None => Ok None
  | Some (c, cs, ts) => '(c, u, ret) ← call1_finish c cs; Ok (Some (c, u, ret, ts))
  end.

(** ** References to connections *)

(** [R id] references to connection [id] are ours: the object is there, has at
    least as many, and if it has no others nothing is left to be written. *)
Definition holds_refs (R : Z -> Z) (c : rpcc) : Prop :=
  forall id, 0 < R id -> exists k, k_objs c !! id = Some k /\ R id <= c_refno k /\
    (c_refno k = R id -> cb_buf (c_wpdu k) = None).

Definition one (id i : Z) : Z := if decide (i = id) then 1 else 0.
Definition opt_one (o : option Z) (i : Z) : Z := match o with Some id => one id i | None => 0 end.
(** chan_'s reference and the call's own. *)
Definition own_refs (c : rpcc) (ch : option Z) (i : Z) : Z := opt_one (k_chan c) i + opt_one ch i.

Lemma one_self id : one id id = 1.
Proof. unfold one. by rewrite decide_True. Qed.
Lemma one_nonneg id i : 0 <= one id i.
Proof. unfold one. case_decide; lia. Qed.
Lemma opt_one_nonneg o i : 0 <= opt_one o i.
Proof. destruct o; cbn; [apply one_nonneg|lia]. Qed.

Lemma holds_refs_ext R R' c : (forall i, R' i = R i) -> holds_refs R c -> holds_refs R' c.
Proof. intros He Hr id. rewrite He. apply Hr. Qed.

Lemma chan_decref_holds R c id :
  holds_refs R c -> 0 < R id ->
  exists c', chan_decref c id = Ok c' /\ holds_refs (fun i => R i - one id i) c' /\ same_calls c c' /\
    k_chan c' = k_chan c.
Proof.
  intros Hr Hid. destruct (Hr id Hid) as (k & Hk & Hn & Hw). unfold chan_decref, chan_obj. rewrite Hk.
  cbn [mbind outcome_bind]. destruct k as [fd dead w rp wt n l]. cbn [c_refno c_wpdu] in Hn, Hw.
  assert (exists r, decref (Connection fd dead w rp wt n l) = Ok r /\
    (r = Some (Connection fd dead w rp wt (n - 1) l) \/ (r = None /\ n = 1))) as (r & -> & Hd).
  { unfold decref, set_refno. cbn [c_refno c_dead c_fd c_wpdu c_rpdu c_waiters c_lossy].
    rewrite (proj2 (Z.leb_le _ _)) by lia. cbn [cassert mbind outcome_bind].
    destruct (Z.eqb_spec (n - 1) 0) as [E|E]; [|by eexists; split; [|left]].
    destruct dead; [|by eexists; split; [|left]].
    unfold connection_delete. cbn [c_dead c_wpdu cassert mbind outcome_bind]. rewrite Hw by lia.
    eexists. split; [reflexivity|]. right. split; [done|lia]. }
  cbn [mbind outcome_bind]. eexists. split; [reflexivity|]. split; [|done].
  intros i Hi. cbn [k_objs set_chan]. unfold one in Hi |- *. destruct (decide (i = id)) as [->|Hne].
  - destruct Hd as [->|[-> Hn1]]; [|lia]. rewrite lookup_insert_eq. eexists. split; [reflexivity|].
    cbn [c_refno c_wpdu]. split; [lia|]. intros E. apply Hw. lia.
  - assert ((match r with Some k => <[id := k]> (k_objs c) | None => delete id (k_objs c) end) !! i
      = k_objs c !! i) as -> by (destruct r; [by rewrite lookup_insert_ne|by rewrite lookup_delete_ne]).
    rewrite Z.sub_0_r in *. by apply Hr.
Qed.

Lemma chan_incref_holds R c id :
  holds_refs R c -> 0 < R id ->
  exists c', chan_incref c id = Ok c' /\ holds_refs (fun i => R i + one id i) c' /\ same_calls c c' /\
    k_chan c' = k_chan c.
Proof.
  intros Hr Hid. destruct (Hr id Hid) as (k & Hk & Hn & Hw). unfold chan_incref, chan_obj. rewrite Hk.
  cbn [mbind outcome_bind]. eexists. split; [reflexivity|]. split; [|done].
  intros i Hi. cbn [k_objs set_chan]. unfold one in Hi |- *. destruct (decide (i = id)) as [->|Hne].
  - rewrite lookup_insert_eq. eexists. split; [reflexivity|]. destruct k. cbn in *. split; [lia|].
    intros E. apply Hw. lia.
  - rewrite lookup_insert_ne, Z.add_0_r by done. apply Hr. lia.
Qed.

Lemma maybe_decref_holds R c ch :
  holds_refs (fun i => R i + opt_one ch i) c -> (forall i, 0 <= R i) ->
  exists c', (match ch with None => Ok c | Some old => chan_decref c old end) = Ok c' /\ holds_refs R c' /\
    same_calls c c' /\ k_chan c' = k_chan c.
Proof.
  intros Hr H0. destruct ch as [id|].
  - destruct (chan_decref_holds _ c id Hr) as (c' & E & Hr' & Hs); [cbn; rewrite one_self; specialize (H0 id); lia|].
    exists c'. split; [exact E|]. split; [|done]. eapply holds_refs_ext; [|exact Hr']. intros i. cbn. lia.
  - exists c. split; [done|]. split; [|done]. eapply holds_refs_ext; [|exact Hr]. intros i. cbn. lia.
Qed.

(** What connect_to_dst makes: a new object with one reference, ours. *)
Definition new_conn (c : rpcc) (new : option (Z * connection)) : Prop :=
  match new with
  | None => True
  | Some (id, k) => k_objs c !! id = None /\ c_refno k = 1 /\ cb_buf (c_wpdu k) = None
  end.

(** The first half of get_refconn: a connection that has died is replaced. *)
Lemma reconnect_holds c ch new :
  holds_refs (own_refs c ch) c -> new_conn c new ->
  exists c1, (c ← (match k_chan c with None => Ok c | Some old => chan_decref c old end);
     Ok (match new with
         | None => set_chan c None (k_objs c)
         | Some (id, k) => set_chan c (Some id) (<[id := k]> (k_objs c))
         end)) = Ok c1 /\ holds_refs (own_refs c1 ch) c1 /\ same_calls c c1.
Proof.
  intros Hr Hnew. destruct (maybe_decref_holds (opt_one ch) c (k_chan c)) as (c1 & -> & Hr1 & Hs1 & _).
  { eapply holds_refs_ext; [|exact Hr]. intros i. unfold own_refs. lia. } { apply opt_one_nonneg. }
  cbn [mbind outcome_bind]. eexists. split; [reflexivity|]. destruct new as [[id k]|]; [|done].
  split; [|done]. destruct Hnew as (Hfree & Hn & Hw). intros i Hi.
  unfold own_refs in *. cbn [k_chan set_chan opt_one k_objs] in *. unfold one in *.
  destruct (decide (i = id)) as [->|Hne].
  - assert (opt_one ch id = 0) as ->.
    { pose proof (opt_one_nonneg ch id). destruct (decide (opt_one ch id = 0)) as [|Hn0]; [done|].
      destruct (Hr id) as (k' & Hk' & _); [pose proof (opt_one_nonneg (k_chan c) id); lia|congruence]. }
    rewrite lookup_insert_eq. exists k. split; [done|]. split; [lia|done].
  - rewrite lookup_insert_ne by done. rewrite Z.add_0_l in *. by apply Hr1.
Qed.

Lemma chan_dead_holds c ch id : holds_refs (own_refs c ch) c -> id = k_chan c \/ id = ch -> exists d, chan_dead c id = Ok d.
Proof.
  intros Hr Hid. destruct id as [id|]; [|by eexists]. cbn. destruct (Hr id) as (k & Hk & _).
  { unfold own_refs. pose proof (opt_one_nonneg ch id). pose proof (opt_one_nonneg (k_chan c) id).
    destruct Hid as [Hid|Hid]; rewrite <- Hid; cbn; rewrite one_self; rewrite <- ?Hid in *; lia. }
  unfold chan_obj. rewrite Hk. by eexists.
Qed.

Lemma get_refconn_holds c ch new :
  holds_refs (own_refs c ch) c -> new_conn c new ->
  exists c' ch', get_refconn c ch new = Ok (c', ch') /\ holds_refs (own_refs c' ch') c' /\ same_calls c c'.
Proof.
  intros Hr Hnew. unfold get_refconn.
  destruct (chan_dead_holds c ch (k_chan c) Hr) as (stale & ->); [by left|]. cbn [mbind outcome_bind].
  destruct (reconnect_holds c ch new Hr Hnew) as (c0 & E0 & H0 & Hs0).
  assert (exists c1, (if stale then Ok c0 else Ok c) = Ok c1 /\ holds_refs (own_refs c1 ch) c1 /\ same_calls c c1)
    as (c1 & E1 & Hr1 & Hs1) by (destruct stale; by eexists).
  rewrite E0, E1. cbn [mbind outcome_bind]. destruct (k_chan c1) as [chan|] eqn:Ec; [|by exists c1, ch].
  destruct (maybe_decref_holds (opt_one (k_chan c1)) c1 ch) as (c2 & -> & Hr2 & Hs2 & Hc2).
  { eapply holds_refs_ext; [|exact Hr1]. done. } { apply opt_one_nonneg. }
  cbn [mbind outcome_bind]. rewrite Ec in Hr2, Hc2.
  destruct (chan_incref_holds _ c2 chan Hr2) as (c3 & -> & Hr3 & Hs3 & Hc3); [cbn; rewrite one_self; lia|].
  cbn [mbind outcome_bind]. exists c3, (Some chan). split; [done|]. split.
  - eapply holds_refs_ext; [|exact Hr3]. intros i. unfold own_refs. by rewrite Hc3, Hc2.
  - eapply same_calls_trans; [exact Hs1|]. by eapply same_calls_trans.
Qed.

(** ** A call without an answer *)
Definition open_call (c : rpcc) (cs : call_state) : Prop :=
  (exists ca, k_calls c !! i32 (cs_xid cs) = Some ca /\ ca_done ca = false) /\
    window_ok (k_xid_rep_window c) /\ marshall_wf (cs_req cs) /\ holds_refs (own_refs c (cs_ch cs)) c.

(** The fields the rounds leave alone. *)
Definition same_call (cs cs' : call_state) : Prop := cs_xid cs' = cs_xid cs /\ cs_req cs' = cs_req cs.

Lemma call1_send_open c cs new :
  open_call c cs -> new_conn c new ->
  exists c' cs', call1_send c cs new = Ok (c', cs') /\ open_call c' cs' /\ same_call cs cs' /\
    cs_curr_to cs' = cs_curr_to cs /\ cs_final cs' = cs_final cs.
Proof.
  intros (Hca & Hw & Hwf & Hr) Hnew. unfold call1_send. destruct (cs_transmit cs); [|by exists c, cs].
  destruct (get_refconn_holds c (cs_ch cs) new Hr Hnew) as (c1 & ch & -> & Hr1 & Hs1). cbn [mbind outcome_bind].
  assert (exists c2, (match ch with Some k => chan_send c1 k (m_buf (cs_req cs)) (marshall_size (cs_req cs))
      | None => Ok c1 end) = Ok c2 /\ holds_refs (own_refs c2 ch) c2 /\ same_calls c1 c2) as (c2 & -> & Hr2 & Hs2).
  { destruct ch as [ch|]; [|by exists c1]. destruct (Hr1 ch) as (k & Hk & _).
    { unfold own_refs. cbn. rewrite one_self. pose proof (opt_one_nonneg (k_chan c1) ch). lia. }
    unfold chan_send, chan_obj. rewrite Hk. cbn [mbind outcome_bind]. destruct (isdead k); [by exists c1|].
    destruct (wf_holds _ Hwf) as (b & Hb & _). rewrite Hb. unfold marshall_size.
    rewrite (slice_contents _ b Hwf Hb). by eexists. }
  cbn [mbind outcome_bind]. eexists c2, _. split; [reflexivity|].
  destruct (same_calls_trans _ _ _ Hs1 Hs2) as (_ & Hc & Hwin).
  split; [|done]. unfold open_call. cbn [cs_xid cs_req cs_ch]. by rewrite Hc, Hwin.
Qed.

Lemma call1_wake_open c cs :
  open_call c cs -> is_i32 (cs_curr_to cs * 2) ->
  exists cs', call1_wake c cs = Ok (Some cs') /\ open_call c cs' /\ same_call cs cs' /\
    cs_curr_to cs' = cs_curr_to cs * 2 /\ cs_final cs' = cs_final cs.
Proof.
  intros ((ca & Hca & Hd) & Hw & Hwf & Hr) Hi. unfold call1_wake. rewrite Hca, Hd.
  destruct (chan_dead_holds c (cs_ch cs) (cs_ch cs) Hr) as (d & ->); [by right|]. cbn [mbind outcome_bind].
  rewrite Z.shiftl_mul_pow2, (int_of_small (_ * 2 ^ 1)) by (done || lia). cbn [mbind outcome_bind].
  eexists. split; [reflexivity|]. split; [|done]. split; [by exists ca|done].
Qed.

Lemma call1_finish_open c cs :
  open_call c cs -> is_u32 (cs_xid cs) -> exists c' u, call1_finish c cs = Ok (c', u, timeout_failure).
Proof.
  intros ((ca & Hca & Hd) & Hw & Hwf & Hr) Hx. unfold call1_finish. rewrite Hca, Hd.
  destruct (update_xid_rep_ok _ _ Hw Hx) as (w' & -> & _). cbn [mbind outcome_bind].
  set (c1 := set_window _ w').
  destruct (maybe_decref_holds (opt_one (k_chan c1)) c1 (cs_ch cs)) as (c2 & -> & _).
  { intros i. apply Hr. } { apply opt_one_nonneg. }
  cbn [mbind outcome_bind]. by eexists _, _.
Qed.

(** Surroundings that never answer: no other thread stores a reply or touches the
    call's references; a wait for a valid deadline may wake up early any number
    of times, but in the end it runs out, at most [late] nanoseconds after the
    deadline, and the clock does not go back. *)
Record unanswering (W : surroundings) (late : Z) : Prop := {
  ua_now n t : valid (sr_now W n t) /\ total t <= total (sr_now W n t);
  ua_connect n c : new_conn c (sr_connect W n c);
  ua_others n d w c cs : w ∈ sr_wakes W n d -> open_call c cs -> open_call (w_others w c) cs;
  ua_ends n d : valid d -> exists early w rest, sr_wakes W n d = early ++ w :: rest /\
    Forall (fun w => w_timeout w = false) early /\ w_timeout w = true /\
    total d <= total (w_at w) <= total d + late }.

Lemma valid_b_spec t : valid_b t = true <-> valid t.
Proof. unfold valid_b, valid. rewrite andb_true_iff, Z.leb_le, Z.ltb_lt. done. Qed.

(** A wait that runs out. *)
Lemma await_runs_out cs d early w rest :
  valid d -> Forall (fun w => w_timeout w = false) early -> w_timeout w = true ->
  (forall w' c, w' ∈ early ++ w :: rest -> open_call c cs -> open_call (w_others w' c) cs) ->
  forall t c, open_call c cs ->
  exists c', await (cs_xid cs) d t c (early ++ w :: rest) = Ok (Some (c', w_at w)) /\ open_call c' cs.
Proof.
  intros Hv%valid_b_spec He Hw. induction He as [|w0 early H0 _ IH]; intros Hother t c Hc;
    pose proof Hc as ((ca & Hca & Hd) & _); cbn [app await]; rewrite Hca, Hd;
    unfold pthread_cond_timedwait; rewrite Hv; cbn [negb].
  - rewrite Hw, decide_True by done. eexists. split; [reflexivity|]. apply Hother; [left|done].
  - rewrite H0, decide_False by done. apply IH.
    + intros w' c' Hw'. apply Hother. by right.
    + apply Hother; [left|done].
Qed.

(** A deadline that is refused: the loop goes on for ever. *)
Lemma await_refused cs d ws :
  ~ valid d -> (forall w c, w ∈ ws -> open_call c cs -> open_call (w_others w c) cs) ->
  forall t c, open_call c cs -> await (cs_xid cs) d t c ws = Ok None.
Proof.
  intros Hv. induction ws as [|w ws IH]; intros Hother t c Hc;
    pose proof Hc as ((ca & Hca & Hd) & _); cbn [await]; rewrite Hca, Hd; [done|].
  assert (valid_b d = false) as E by (destruct (valid_b d) eqn:E; [by apply valid_b_spec in E|done]).
  unfold pthread_cond_timedwait. rewrite E, decide_False by done. apply IH.
  - intros w' c' Hw'. apply Hother. by right.
  - apply Hother; [left|done].
Qed.

Section Rounds.
Context (W : surroundings) (late to t0 : Z) (HW : unanswering W late) (Hto : 0 <= to <= 10 ^ 9).

(** Before a round at time [t], whose wait is to last [s] seconds; [f] is the final
    deadline, [to] milliseconds after [t0]. *)
Record at_round (f : timespec) (s : Z) (t : timespec) (c : rpcc) (cs : call_state) : Prop := {
  ar_open : open_call c cs;
  ar_pos : 0 < s;
  ar_curr : cs_curr_to cs = s * 1000;
  ar_small : s * 1000 <= to + 1000;
  ar_final : cs_final cs = f;
  ar_sec : 0 < tv_sec f;
  ar_almost : almost_valid f;
  ar_total : total f = t0 + to * 1000000;
  ar_now : t0 + (s - 1) * 1000000000 <= total t }.

Definition after_wait (t : timespec) (r : outcome (option (rpcc * call_state * list timespec)))
    : outcome (option (rpcc * call_state * list timespec)) :=
  r ← r; Ok (option_map (fun '(c, cs, l) => (c, cs, t :: l)) r).

(** The wait of a round and what follows it, up to the next round. *)
Lemma round_wait fuel n now c cs d :
  open_call c cs -> valid d -> is_i32 (cs_curr_to cs * 2) ->
  exists c' cs' t,
    (r ← await (cs_xid cs) d now c (sr_wakes W n d);
     match r with
     | None => Ok None
     | Some (c, t) =>
         w ← call1_wake c cs;
         match w with
         | None => Ok (Some (c, cs, [t]))
         | Some cs => r ← call1_loop W fuel (S n) t c cs;
                      Ok (option_map (fun '(c, cs, l) => (c, cs, t :: l)) r)
         end
     end) = after_wait t (call1_loop W fuel (S n) t c' cs') /\
    open_call c' cs' /\ same_call cs cs' /\ cs_curr_to cs' = cs_curr_to cs * 2 /\ cs_final cs' = cs_final cs /\
    total d <= total t <= total d + late.
Proof.
  intros Hc Hv Hi. destruct (ua_ends W late HW n d Hv) as (early & w & rest & E & He & Hw & Ht).
  destruct (await_runs_out cs d early w rest Hv He Hw) with (t := now) (c := c) as (c' & Ea & Hc'); [|done|].
  { intros w' c' Hw'. apply (ua_others W late HW n d). by rewrite E. }
  rewrite E, Ea. cbn [mbind outcome_bind].
  destruct (call1_wake_open c' cs Hc' Hi) as (cs' & -> & Hc'' & Hsame & Hcur & Hf). cbn [mbind outcome_bind].
  by exists c', cs', (w_at w).
Qed.

(** One round: the wait runs out before the final deadline, or it is the last
    one, up to the final deadline. *)
Lemma one_round f s fuel n tm c cs :
  at_round f s tm c cs ->
  (exists c' cs' t, call1_loop W (S fuel) n tm c cs = after_wait t (call1_loop W fuel (S n) t c' cs') /\
     at_round f (2 * s) t c' cs' /\ same_call cs cs') \/
  (valid f -> exists c' cs' t, call1_loop W (S fuel) n tm c cs = after_wait t (call1_loop W fuel (S n) t c' cs') /\
     open_call c' cs' /\ same_call cs cs' /\ tv_sec (cs_final cs') = 0 /\ total f <= total t <= total f + late) /\
  (~ valid f -> call1_loop W (S fuel) n tm c cs = Ok None).
Proof.
  intros [Ho Hs Hcur Hsm Hf Hsec Hal Htot Hnow]. cbn [call1_loop].
  destruct (call1_send_open c cs (sr_connect W n c) Ho (ua_connect W late HW n c))
    as (c1 & cs1 & -> & Ho1 & [Hx1 Hq1] & Hcur1 & Hf1). cbn [mbind outcome_bind].
  destruct (ua_now W late HW n tm) as [Hv Hlater]. set (now := sr_now W n tm) in *. unfold call1_deadline.
  rewrite Hf1, Hf, Hcur1, Hcur, (proj2 (Z.eqb_neq _ 0)), (add_seconds _ s Hv) by lia. cbn [mbind outcome_bind].
  set (d := Timespec (tv_sec now + s) (tv_nsec now)).
  assert (valid d) as Hvd by done. assert (total d = total now + s * 1000000000) as Htd by (unfold total, d; cbn; lia).
  destruct (Z.ltb_spec 0 (cmp_timespec d f)) as [Hc|Hc]; cbn [mbind outcome_bind].
  - right. set (cs2 := CallState _ _ _ _ _ _). assert (open_call c1 cs2) as Ho2 by done. split.
    + intros Hvf. destruct (round_wait fuel n now c1 cs2 f Ho2 Hvf) as (c' & cs' & t & E & Ho' & [Hx' Hq'] & _ & Hf' & Ht).
      { cbn. unfold is_i32. lia. }
      exists c', cs', t. split; [exact E|]. split; [done|]. cbn in Hx', Hq'. split; [split; congruence|]. by rewrite Hf'.
    + intros Hvf. change (cs_xid cs1) with (cs_xid cs2). rewrite (await_refused cs2 f); [done|done| |done].
      intros w c' Hw. by apply (ua_others W late HW n f).
  - left. destruct (round_wait fuel n now c1 cs1 d Ho1 Hvd) as (c' & cs' & t & E & Ho' & [Hx' Hq'] & Hcur' & Hf' & Ht).
    { rewrite Hcur1, Hcur. unfold is_i32. lia. }
    exists c', cs', t. split; [exact E|]. split; [|split; congruence].
    assert (total d <= total f) as Hearly.
    { destruct (Z.le_gt_cases (total d) (total f)); [done|]. rewrite cmp_timespec_gt in Hc by done. lia. }
    constructor; try done; try congruence; lia.
Qed.

Lemma loop_last fuel n t c cs :
  open_call c cs -> tv_sec (cs_final cs) = 0 ->
  exists c' cs', call1_loop W (S fuel) n t c cs = Ok (Some (c', cs', [])) /\ open_call c' cs' /\ same_call cs cs'.
Proof.
  intros Ho Hf. cbn [call1_loop].
  destruct (call1_send_open c cs (sr_connect W n c) Ho (ua_connect W late HW n c))
    as (c1 & cs1 & -> & Ho1 & Hsame & _ & Hf1). cbn [mbind outcome_bind].
  unfold call1_deadline. rewrite Hf1, Hf. cbn. by exists c1, cs1.
Qed.

Lemma loop_ends f fuel : valid f -> forall s n t1 c cs,
  at_round f s t1 c cs -> to + 1000 < s * 1000 * 2 ^ Z.of_nat fuel ->
  exists c' cs' ts t, call1_loop W (S fuel) n t1 c cs = Ok (Some (c', cs', ts ++ [t])) /\ open_call c' cs' /\
    same_call cs cs' /\ s * 1000 * 2 ^ zlen ts <= to + 1000 /\ total f <= total t <= total f + late.
Proof.
  intros Hv. induction fuel as [|fuel IH]; intros s n t1 c cs Hr Hlen; pose proof (ar_small _ _ _ _ _ Hr) as Hsm.
  { change (2 ^ Z.of_nat 0) with 1 in Hlen. lia. }
  destruct (one_round f s (S fuel) n t1 c cs Hr) as [(c1 & cs1 & t2 & E & Hr1 & [Hx1 Hq1])|[Hlast _]].
  - rewrite E. destruct (IH (2 * s) (S n) t2 c1 cs1 Hr1) as (c' & cs' & ts & t & -> & Ho & [Hx Hq] & Hn & Ht).
    { rewrite Nat2Z.inj_succ, Z.pow_succ_r in Hlen by lia. lia. }
    exists c', cs', (t2 :: ts), t. split; [done|]. split; [done|]. split; [split; congruence|]. split; [|done].
    rewrite zlen_cons, Z.pow_add_r by (pose proof (zlen_nonneg ts); lia). lia.
  - destruct (Hlast Hv) as (c1 & cs1 & t & -> & Ho1 & [Hx1 Hq1] & Hz & Ht).
    destruct (loop_last fuel (S n) t c1 cs1 Ho1 Hz) as (c' & cs' & -> & Ho & [Hx Hq]).
    exists c', cs', [], t. split; [done|]. split; [done|]. split; [split; congruence|]. split; [|done].
    change (2 ^ zlen []) with 1. lia.
Qed.

Lemma loop_spins f fuel : ~ valid f -> forall s n t c cs, at_round f s t c cs -> call1_loop W fuel n t c cs = Ok None.
Proof.
  intros Hv. induction fuel as [|fuel IH]; intros s n t c cs Hr; [done|].
  destruct (one_round f s fuel n t c cs Hr) as [(c1 & cs1 & t1 & -> & Hr1 & _)|[_ Hlast]]; [|by apply Hlast].
  unfold after_wait. by rewrite (IH _ _ _ _ _ Hr1).
Qed.
End Rounds.

Section Unanswered.
Context `{Memory} (c c1 : rpcc) (proc to : Z) (req : marshall) (now : timespec) (cs : call_state).
Context (W : surroundings) (late : Z).
Hypotheses (Hv : valid now) (Hsec : 0 < tv_sec now) (Hto : 0 <= to <= 10 ^ 9).
Hypotheses (Hx : is_u32 (k_xid c)) (Hwf : marshall_wf req) (Hm : m_ind req <= MAX_MSG).
Hypotheses (Hw : window_ok (k_xid_rep_window c)) (Hr : holds_refs (opt_one (k_chan c)) c).
Hypothesis Hstart : call1_start c proc req to now = Ok (c1, inr cs).
Hypothesis HW : unanswering W late.

(** The loop starts with a wait of a second and the final deadline, which is valid
    unless its nanoseconds come to 10^9. *)
Lemma first_round :
  cs_xid cs = k_xid c /\ exists f, at_round to (total now) f 1 now c1 cs /\
    (~ valid f <-> tv_nsec now + to mod 1000 * 1000000 = 10 ^ 9).
Proof.
  destruct (call1_start_effect c proc req to now c1 cs Hwf Hm Hstart) as (_ & _ & Hc1 & Hcx & Hcwf & _).
  destruct (add_timespec_spec now to Hv) as (f & Ef & _ & _ & Hvalid); [lia|].
  destruct (add_timespec_ok now to Hv) as (f' & Ef' & Hf & Hal & Hsf); [lia|].
  rewrite Ef in Ef'. injection Ef' as <-. split; [done|]. exists f. split; [|done].
  assert (cs_final cs = f /\ cs_curr_to cs = to_min /\ cs_ch cs = None) as (Hcf & Hct & Hch).
  { pose proof Hstart as E. unfold call1_start in E. destruct (_ || _); [done|]. cbn in E. destruct (window_front _); [|done].
    cbn in E. destruct (marshall_pack_req_header _ _); [|done]. cbn in E. rewrite Ef in E. by injection E as _ <-. }
  constructor; try done; try lia. unfold open_call. rewrite Hcx, Hch, Hc1.
  cbn [k_calls set_calls k_xid_rep_window]. rewrite lookup_insert_eq. split; [by eexists|].
  do 2 (split; [done|]). intros i Hi. unfold own_refs in *. cbn in Hi |- *. rewrite Z.add_0_r in *. by apply Hr.
Qed.

Lemma call_times_out :
  tv_nsec now + to mod 1000 * 1000000 <> 10 ^ 9 ->
  exists c' u ts t, call1_rest W 22 now c1 cs = Ok (Some (c', u, timeout_failure, ts ++ [t])) /\
    1000 * 2 ^ zlen ts <= to + 1000 /\
    total now + to * 1000000 <= total t <= total now + to * 1000000 + late.
Proof.
  intros Hne. destruct first_round as (Hcx & f & Hround & Hvalid). pose proof (ar_total _ _ _ _ _ _ _ Hround) as Hf.
  assert (valid f) as Hvf by (unfold valid in *; destruct (ar_almost _ _ _ _ _ _ _ Hround); lia).
  destruct (loop_ends W late to (total now) HW Hto f 21 Hvf 1 0 now c1 cs Hround) as (c2 & cs2 & ts & t & E & Ho & [Hx2 _] & Hn & Ht).
  { change (2 ^ Z.of_nat 21) with 2097152. lia. }
  destruct (call1_finish_open c2 cs2 Ho) as (c3 & u & Efin); [by rewrite Hx2, Hcx|].
  exists c3, u, ts, t. unfold call1_rest. rewrite E. cbn [mbind outcome_bind]. rewrite Efin.
  split; [done|]. rewrite Hf in Ht. split; [lia|done].
Qed.
End Unanswered.


(** A server nobody listens for: every wait wakes up once for nothing and then
    runs out 5 ns late. *)
Definition tick (d : timespec) : timespec := Timespec (tv_sec d) (tv_nsec d + 5).
Definition deaf : surroundings :=
  Surroundings (fun _ t => if valid_b t then t else Timespec (tv_sec t + 1 + Z.abs (tv_nsec t)) 0) (fun _ _ => None)
    (fun _ d => [Wake false d id; Wake true (tick d) id]).

Lemma deaf_unanswering : unanswering deaf 5.
Proof.
  constructor.
  - intros n t. cbn. destruct (valid_b t) eqn:E; [by apply valid_b_spec in E|]. unfold valid, total. cbn. lia.
  - done.
  - intros n d w c cs Hw. cbn in Hw. rewrite !elem_of_cons, elem_of_nil in Hw. by destruct Hw as [->|[->|[]]].
  - intros n d Hd. exists [Wake false d id], (Wake true (tick d) id), []. split; [done|].
    split; [by constructor|]. split; [done|]. unfold total, tick. cbn. lia.
Qed.

#[local] Existing Instance zero_memory.
