(* ===== verification/Unreliable.v ===== *)
(** * RPC over an unreliable network

    A client with all its threads, a server with its pool threads and other
    clients, and a network that loses, delays, duplicates and reorders messages:
    whatever has been sent may be delivered any number of times or never, and
    connections come and go. The steps are those of Rpcc and Rpcs. What the
    histories record (calls made, handler runs, returns) is there for the
    theorems only. *)

From S2P Require Import Prelude Marshall Connection XidWindow TimeSpec Rpcs Serve Stubs Rpcc Remote Effects.
Local Open Scope Z_scope.

(** A call the client made: its request. *)
Record ask := Ask { a_proc : Z; a_args : bytes; a_msg : bytes }.

(** A run of a handler: whose request it was, what it read its arguments from,
    the service's state before and after, the code and the result's bytes. *)
Record exec (St : Type) := Exec {
  e_clt : Z; e_xid : Z; e_proc : Z; e_in : unmarshall;
  e_before : St; e_after : St; e_ret : Z; e_body : bytes }.
Arguments Exec {St} _ _ _ _ _ _ _ _.
Arguments e_clt {St} _. Arguments e_xid {St} _. Arguments e_proc {St} _. Arguments e_in {St} _.
Arguments e_before {St} _. Arguments e_after {St} _. Arguments e_ret {St} _. Arguments e_body {St} _.

(** ** A method and its handler *)
Section Method.
Context `{Memory} {St : Type}.
Context {A R : Type} (ca : codec A) (cr : codec R) `{!Wire ca, !Wire cr}.

(** The result of a method on [v] can be marshalled and fits a message. *)
Definition marshals (r0 : R) (meth : A -> R -> St -> outcome (St * R * Z)) (v : A) : Prop :=
  forall s s' r b, meth v r0 s = Ok (s', r, b) ->
    representable cr r /\ RPC_HEADER_SZ + zlen (image cr r) <= MAX_MSG /\ is_i32 b.

(** A run of the handler on the bytes of [v] is a run of the method on [v], and
    the bytes it leaves give the caller the method's result. *)
Lemma h1_answer (v a0 : A) (r0 r1 : R) (meth : A -> R -> St -> outcome (St * R * Z)) req s s' m ret u :
  representable ca v -> declared ca a0 -> declared cr r0 -> marshals r1 meth v -> remaining req (image ca v) ->
  h1_fn ca cr a0 r1 meth req marshall_new s = Ok (s', m, ret) -> remaining u (drop 24 (contents m)) ->
  exists r, meth v r1 s = Ok (s', r, ret) /\ (0 <= ret -> call_m_finish cr ret u r0 = Ok (r, ret)).
Proof.
  intros Hv Ha0 Hr0 Hm Hreq Hrun Hu. destruct (get_body ca req v a0 Hv Ha0 Hreq) as (u' & Eg & Hd).
  unfold h1_fn in Hrun. rewrite Eg in Hrun. cbn [mbind outcome_bind] in Hrun. rewrite Hd in Hrun. cbn [negb] in Hrun.
  destruct (meth v r1 s) as [[[s1 r] b]|] eqn:Em; [|done]. cbn [mbind outcome_bind] in Hrun.
  destruct (Hm _ _ _ _ Em) as (Hrep & Hsz & _). destruct (put_fresh cr r Hrep Hsz) as (m' & Ep & _ & _ & Dm).
  rewrite Ep in Hrun. injection Hrun as E1 E2 E3. subst s1 m' b. exists r. split; [done|].
  intros Hret. apply (call_m_result cr r r0); try done. by rewrite <- Dm.
Qed.
End Method.

Section Net.
Context `{Memory} {St : Type}.

Record net := Net {
  n_client : rpcc;
  n_threads : gmap Z call_state;         (** calls in progress, by id *)
  n_jobs : list djob_t;                  (** received, not yet dispatched *)
  n_world : world St;                    (** the server and its running handlers *)
  n_asked : gmap Z ask;
  n_log : list (exec St);
  n_returned : list (Z * unmarshall * Z) }.

Definition with_srv (w : world St) (s : rpcs St) : world St := World s (w_running w) (w_started w) (w_acks w).
Definition n_srv (n : net) : rpcs St := w_srv (n_world n).

(** Which requests a pool thread may start, given what has been started before, the
    client's nonce, and the server's connections that are the client's. *)
Variables (accept : world St -> req_header -> Prop) (clt : Z) (mine : gset Z).

(** A call of [proc] has begun: the client is [c'] and the thread's call [cs]. *)
Definition called (n : net) (c' : rpcc) (cs : call_state) (proc : Z) (args : bytes) : net :=
  Net c' (<[cs_xid cs := cs]> (n_threads n)) (n_jobs n) (n_world n)
    (<[cs_xid cs := Ask proc args (contents (cs_req cs))]> (n_asked n)) (n_log n) (n_returned n).

Inductive net_step : net -> net -> Prop :=
  (* the client's threads *)
  | n_call n proc m args to now c' cs :
      k_xid (n_client n) < 2 ^ 31 - 1 -> marshalled m args -> m_ind m <= MAX_MSG -> is_i32 proc ->
      call1_start (n_client n) proc m to now = Ok (c', inr cs) ->
      net_step n (called n c' cs proc args)
  | n_send n x cs new c' cs' :
      n_threads n !! x = Some cs -> call1_send (n_client n) cs new = Ok (c', cs') ->
      net_step n (Net c' (<[x := cs']> (n_threads n)) (n_jobs n) (n_world n) (n_asked n) (n_log n) (n_returned n))
  | n_wait n x cs now cs' d :
      n_threads n !! x = Some cs -> call1_deadline cs now = Ok (Some (cs', d)) ->
      net_step n (Net (n_client n) (<[x := cs']> (n_threads n)) (n_jobs n) (n_world n) (n_asked n) (n_log n)
        (n_returned n))
  | n_wake n x cs cs' :
      n_threads n !! x = Some cs -> call1_wake (n_client n) cs = Ok (Some cs') ->
      net_step n (Net (n_client n) (<[x := cs']> (n_threads n)) (n_jobs n) (n_world n) (n_asked n) (n_log n)
        (n_returned n))
  | n_return n x cs c' u ret :
      n_threads n !! x = Some cs -> call1_finish (n_client n) cs = Ok (c', u, ret) ->
      net_step n (Net c' (delete x (n_threads n)) (n_jobs n) (n_world n) (n_asked n) (n_log n)
        ((x, u, ret) :: n_returned n))
  | n_bind n x u ret a r0 r ret' :
      (x, u, ret) ∈ n_returned n -> n_asked n !! x = Some a -> a_proc a = rpc_bind -> a_args a = image i32_c 0 ->
      declared i32_c r0 -> call_m_finish i32_c ret u r0 = Ok (r, ret') ->
      net_step n (Net (bind_finish (n_client n) r ret') (n_threads n) (n_jobs n) (n_world n) (n_asked n)
        (n_log n) (n_returned n))
  (* the network *)
  | n_request n ch msg conn tail s' j ok :
      (ch, msg) ∈ k_sent (n_client n) -> conn ∈ mine ->
      Rpcs.got_pdu (n_srv n) conn (received msg tail) (zlen msg) true = Ok (s', Some j, ok) ->
      net_step n (Net (n_client n) (n_threads n) (j :: n_jobs n) (with_srv (n_world n) s') (n_asked n)
        (n_log n) (n_returned n))
  | n_other n b sz conn s' j ok :
      conn ∉ mine -> (forall h, job_header (Djob b sz conn) = Ok h -> rq_clt_nonce h <> clt) ->
      Rpcs.got_pdu (n_srv n) conn b sz true = Ok (s', Some j, ok) ->
      net_step n (Net (n_client n) (n_threads n) (j :: n_jobs n) (with_srv (n_world n) s') (n_asked n)
        (n_log n) (n_returned n))
  | n_reply n conn msg tail c' ok :
      (conn, msg) ∈ s_sent (n_srv n) -> conn ∈ mine ->
      got_pdu (n_client n) (received msg tail) (zlen msg) = Ok (c', ok) ->
      net_step n (Net c' (n_threads n) (n_jobs n) (n_world n) (n_asked n) (n_log n) (n_returned n))
  | n_sockets n ko so :
      net_step n (Net (set_chan (n_client n) (k_chan (n_client n)) ko) (n_threads n) (n_jobs n)
        (with_srv (n_world n) (with_objs (n_srv n) so)) (n_asked n) (n_log n) (n_returned n))
  (* the server's threads *)
  | n_begin n l1 j l2 h s' next :
      n_jobs n = l1 ++ j :: l2 -> job_header j = Ok h -> accept (n_world n) h -> dispatch_begin (n_srv n) j = Ok (s', next) ->
      net_step n (Net (n_client n) (n_threads n) (l1 ++ l2)
        (World s' (match next with Some r => r :: w_running (n_world n) | None => w_running (n_world n) end)
           (match next with Some _ => job_key h :: w_started (n_world n) | None => w_started (n_world n) end)
           (job_ack h :: w_acks (n_world n)))
        (n_asked n) (n_log n) (n_returned n))
  | n_end n l1 r l2 a rep ret s' :
      w_running (n_world n) = l1 ++ r :: l2 ->
      run_f r (run_req r) marshall_new (s_app (n_srv n)) = Ok (a, rep, ret) ->
      marshall_wf rep -> m_ind rep <= MAX_MSG -> is_i32 ret ->
      dispatch_finish (with_app (n_srv n) a) r rep ret = Ok s' ->
      net_step n (Net (n_client n) (n_threads n) (n_jobs n)
        (World s' (l1 ++ l2) (w_started (n_world n)) (w_acks (n_world n))) (n_asked n)
        (n_log n ++ [Exec (rq_clt_nonce (run_h r)) (u32 (rq_xid (run_h r))) (rq_proc (run_h r)) (run_req r)
           (s_app (n_srv n)) a ret (drop 24 (contents rep))]) (n_returned n)).

(** ** What is true of every state *)

(** The runs of the handler for call [x] of the client, the first one first. *)
Definition key (e : exec St) : Z * Z := (e_clt e, e_xid e).
Definition runs_of (log : list (exec St)) (x : Z) : list (exec St) := filter (fun e => key e = (clt, x)) log.

(** The answer to call [x]: the code and the result of the first run of its
    handler. *)
Definition answered (log : list (exec St)) (x : Z) (u : unmarshall) (ret : Z) : Prop :=
  exists l, head (runs_of log x) = Some l /\ e_ret l = ret /\ remaining u (e_body l).

Definition logged (log : list (exec St)) (x ret : Z) (body : bytes) : Prop :=
  exists l, l ∈ log /\ key l = (clt, x) /\ e_ret l = ret /\ e_body l = body.

(** A reply to call [x] on its way, while [x] is open. *)
Definition reply_ok (win : list Z) (asked : gmap Z ask) (log : list (exec St)) (x : Z) (out : bytes) : Prop :=
  exists ret body, is_reply out (ReplyHeader x ret) body /\ is_i32 ret /\ 0 < x /\ is_some (asked !! x) = true /\
    (~ acked win x -> logged log x ret body).

(** The nonce of the server. *)
Variable nonce : Z.

(** The request of call [x]: its header, and everything it acknowledges is. *)
Definition request_ok (win : list Z) (x : Z) (a : ask) : Prop :=
  exists h, is_req_header h /\ is_request (a_msg a) h (a_args a) /\ rq_xid h = x /\ rq_proc h = a_proc a /\
    rq_clt_nonce h = clt /\ (rq_srv_nonce h = 0 \/ rq_srv_nonce h = nonce) /\ u32 (rq_xid_rep h) < x /\
    forall y, 0 <= y <= u32 (rq_xid_rep h) -> acked win y.

Record client_part (c : rpcc) (threads : gmap Z call_state) (asked : gmap Z ask) : Prop := {
  c_inv : client_inv c;
  c_nonce : k_clt_nonce c = clt;
  c_srv : k_srv_nonce c = 0 \/ k_srv_nonce c = nonce;
  c_asked x a : asked !! x = Some a -> 0 < x < k_xid c /\ request_ok (k_xid_rep_window c) x a;
  c_threads x cs : threads !! x = Some cs -> cs_xid cs = x /\ marshall_wf (cs_req cs) /\
    a_msg <$> asked !! x = Some (contents (cs_req cs));
  c_sent ch msg : (ch, msg) ∈ k_sent c -> exists x a, asked !! x = Some a /\ a_msg a = msg }.

Definition job_ok (asked : gmap Z ask) (j : djob_t) : Prop :=
  if decide (j_conn j ∈ mine)
  then exists x a tail, asked !! x = Some a /\ j_buf j = received (a_msg a) tail /\ j_sz j = zlen (a_msg a)
  else forall h, job_header j = Ok h -> rq_clt_nonce h <> clt.

Variable procs : gmap Z (handler St).

Definition running_ok (asked : gmap Z ask) (r : @running St) : Prop :=
  procs !! rq_proc (run_h r) = Some (run_f r) /\
  if decide (run_conn r ∈ mine)
  then rq_clt_nonce (run_h r) = clt /\ 0 < rq_xid (run_h r) < 2 ^ 31 /\
       exists a, asked !! rq_xid (run_h r) = Some a /\ rq_proc (run_h r) = a_proc a /\
         remaining (run_req r) (a_args a)
  else rq_clt_nonce (run_h r) <> clt.

(** A run in the log: it is one of the registered handlers, and for the client's
    own calls it had the arguments of the call. *)
Definition exec_ok (asked : gmap Z ask) (e : exec St) : Prop :=
  (exists f m, procs !! e_proc e = Some f /\
     f (e_in e) marshall_new (e_before e) = Ok (e_after e, m, e_ret e) /\ e_body e = drop 24 (contents m)) /\
  (e_clt e = clt -> exists a, asked !! e_xid e = Some a /\ e_proc e = a_proc a /\ remaining (e_in e) (a_args a)).

(** The service's state is what the runs, one after the other, make of it. *)
Fixpoint ran (s : St) (log : list (exec St)) (s' : St) : Prop :=
  match log with
  | [] => s = s'
  | e :: log => e_before e = s /\ ran (e_after e) log s'
  end.

Definition running_of (w : world St) (x : Z) : list (@running St) :=
  filter (fun r => job_key (run_h r) = (clt, x)) (w_running w).

Variable app0 : St.

Record server_part (win : list Z) (asked : gmap Z ask) (log : list (exec St)) (jobs : list djob_t)
    (w : world St) : Prop := {
  s_jobs_ok : Forall (job_ok asked) jobs;
  s_running_ok : Forall (running_ok asked) (w_running w);
  s_conns_ok k conn : s_conns (w_srv w) !! k = Some conn -> conn ∈ mine <-> k = clt;
  s_once : once_inv w;
  s_acks r : (clt, r) ∈ w_acks w -> forall y, 0 <= y <= r -> acked win y;
  s_count x : times_started w clt x = (length (running_of w x) + length (runs_of log x))%nat;
  s_window x e : entry (replies_of (s_reply_window (w_srv w)) clt) x = Some e -> r_cb_present e = true ->
    exists b out, r_buf e = Some b /\ slice b 0 (r_sz e) = Ok out /\ reply_ok win asked log x out;
  s_replies conn msg : (conn, msg) ∈ s_sent (w_srv w) -> conn ∈ mine -> exists x, reply_ok win asked log x msg;
  s_log_ok : Forall (exec_ok asked) log;
  s_procs_ok : s_procs (w_srv w) = procs;
  s_nonce_ok : s_nonce (w_srv w) = nonce;
  s_ran : ran app0 log (s_app (w_srv w)) }.

Record answers_part (calls : gmap Z caller) (log : list (exec St)) (returned : list (Z * unmarshall * Z)) : Prop := {
  r_calls x ca : calls !! x = Some ca -> ca_done ca = true -> answered log x (ca_un ca) (ca_intret ca);
  r_returned x u ret : (x, u, ret) ∈ returned -> ret = timeout_failure \/ answered log x u ret }.

Record net_inv (n : net) : Prop := {
  i_client : client_part (n_client n) (n_threads n) (n_asked n);
  i_server : server_part (k_xid_rep_window (n_client n)) (n_asked n) (n_log n) (n_jobs n) (n_world n);
  i_answers : answers_part (k_calls (n_client n)) (n_log n) (n_returned n) }.

(** ** Growing *)
Definition win_le (win win' : list Z) : Prop := forall x, 0 <= x -> acked win x -> acked win' x.

Lemma reply_ok_mono win win' asked asked' log k x out :
  win_le win win' -> asked ⊆ asked' -> reply_ok win asked log x out -> reply_ok win' asked' (log ++ k) x out.
Proof.
  intros Hw Ha (ret & body & Hr & Hi & Hx & Hs & Hl). exists ret, body. do 3 (split; [done|]). split.
  - destruct (asked !! x) as [a|] eqn:E; [|done]. by rewrite (lookup_weaken _ _ _ _ E Ha).
  - intros Hn. destruct Hl as (l & Hl & ?).
    + intros Hk. by apply Hn, Hw; [lia|].
    + exists l. split; [|done]. apply elem_of_app. by left.
Qed.

Lemma request_ok_mono win win' x a : win_le win win' -> request_ok win x a -> request_ok win' x a.
Proof.
  intros Hw (h & H1 & H2 & H3 & H4 & H5 & H6 & H7 & H8). exists h. do 7 (split; [done|]).
  intros y Hy. apply Hw; [lia|]. by apply H8.
Qed.

Lemma job_ok_mono asked asked' j : asked ⊆ asked' -> job_ok asked j -> job_ok asked' j.
Proof.
  intros Ha. unfold job_ok. destruct (decide _); [|done]. intros (x & a & tail & E & ?).
  exists x, a, tail. split; [|done]. by eapply lookup_weaken.
Qed.

Lemma running_ok_mono asked asked' r : asked ⊆ asked' -> running_ok asked r -> running_ok asked' r.
Proof.
  intros Ha [Hp Hr]. split; [done|]. destruct (decide _); [|done]. destruct Hr as (? & ? & a & E & ?).
  do 2 (split; [done|]). exists a. split; [|done]. by eapply lookup_weaken.
Qed.

Lemma exec_ok_mono asked asked' e : asked ⊆ asked' -> exec_ok asked e -> exec_ok asked' e.
Proof.
  intros Ha [Hf He]. split; [done|]. intros Hc. destruct (He Hc) as (a & E & ?). exists a.
  split; [|done]. by eapply lookup_weaken.
Qed.

Lemma runs_of_app log k x : runs_of (log ++ k) x = runs_of log x ++ runs_of k x.
Proof. apply filter_app. Qed.

Lemma answered_mono log k x u ret : answered log x u ret -> answered (log ++ k) x u ret.
Proof.
  intros (l & Hl & ?). exists l. split; [|done]. rewrite runs_of_app.
  by destruct (runs_of log x).
Qed.

Lemma answers_mono calls log k returned : answers_part calls log returned -> answers_part calls (log ++ k) returned.
Proof.
  intros [Hc Hr]. split.
  - intros x ca E Hd. by apply answered_mono, Hc.
  - intros x u ret Hin. destruct (Hr x u ret Hin); [by left|]. right. by apply answered_mono.
Qed.

Lemma ran_app s log e : ran s log (e_before e) -> ran s (log ++ [e]) (e_after e).
Proof. revert s. induction log as [|l log IH]; intros s; cbn; [by intros ->|]. intros [-> ?]. split; [done|]. by apply IH. Qed.

(** A step of the client leaves the server's part alone. *)
Lemma server_part_mono win win' asked asked' log jobs w :
  win_le win win' -> asked ⊆ asked' -> server_part win asked log jobs w -> server_part win' asked' log jobs w.
Proof.
  intros Hw Ha [H1 H2 H3 H4 H5 H6 H7 H8 H9 H10 H11 H12]. split; try done.
  - eapply Forall_impl; [exact H1|]. intros j. by apply job_ok_mono.
  - eapply Forall_impl; [exact H2|]. intros r. by apply running_ok_mono.
  - intros r Hr y Hy. apply Hw; [lia|]. by apply (H5 r).
  - intros x e He Hcb. destruct (H7 x e He Hcb) as (b & out & Hb & Hs & Hok). exists b, out.
    do 2 (split; [done|]). rewrite <- (app_nil_r log). by eapply reply_ok_mono.
  - intros conn msg Hin Hm. destruct (H8 conn msg Hin Hm) as [x Hok]. exists x.
    rewrite <- (app_nil_r log). by eapply reply_ok_mono.
  - eapply Forall_impl; [exact H9|]. intros e. by apply exec_ok_mono.
Qed.

(** Connection objects do not matter. *)
Lemma server_part_objs win asked log jobs w o :
  server_part win asked log jobs w -> server_part win asked log jobs (with_srv w (with_objs (w_srv w) o)).
Proof. intros []. split; done. Qed.

Lemma win_le_refl win : win_le win win.
Proof. by intros x _. Qed.

(** ** The client's steps *)
Lemma client_part_rewired c c' threads asked : rewired c c' -> client_part c threads asked -> client_part c' threads asked.
Proof. intros -> []. by split. Qed.

Lemma client_part_thread c threads asked x cs cs' :
  client_part c threads asked -> threads !! x = Some cs -> cs_xid cs' = cs_xid cs -> cs_req cs' = cs_req cs ->
  client_part c (<[x := cs']> threads) asked.
Proof.
  intros [H1 H2 H3 H4 H5 H6] E Hx Hr. split; try done. intros y csy. rewrite lookup_insert. case_decide as Hy; [|apply H5].
  subst y. intros [= <-]. rewrite Hx, Hr. by apply H5.
Qed.

Lemma deadline_same cs now cs' d :
  call1_deadline cs now = Ok (Some (cs', d)) -> cs_xid cs' = cs_xid cs /\ cs_req cs' = cs_req cs.
Proof.
  unfold call1_deadline. destruct (_ =? 0); [done|]. destruct (add_timespec _ _); [|done]. cbn.
  by destruct (0 <? _); intros [= <- <-].
Qed.

Lemma wake_same c cs cs' :
  call1_wake c cs = Ok (Some cs') -> cs_xid cs' = cs_xid cs /\ cs_req cs' = cs_req cs.
Proof.
  unfold call1_wake. destruct (k_calls c !! _) as [ca|]; [|done]. destruct (ca_done ca); [done|].
  destruct (chan_dead c _); [|done]. cbn. destruct (int_of _); [|done]. cbn. by intros [= <-].
Qed.

Lemma front_acked c front :
  client_inv c -> window_front (k_xid_rep_window c) = Ok front ->
  is_u32 front /\ forall y, y <= front -> acked (k_xid_rep_window c) y.
Proof.
  intros ((_ & Hu & _) & _) Hf. destruct (k_xid_rep_window c) as [|f w]; [done|]. injection Hf as ->.
  apply Forall_cons in Hu as [Hu _]. split; [done|]. intros y Hy. by left.
Qed.

(** A new call has a fresh id, and its request is as it should be. *)
Lemma call_part c threads asked proc m args to now c' cs :
  client_part c threads asked -> k_xid c < 2 ^ 31 - 1 -> marshalled m args -> m_ind m <= MAX_MSG -> is_i32 proc ->
  is_u32 clt -> is_u32 nonce -> call1_start c proc m to now = Ok (c', inr cs) ->
  asked !! cs_xid cs = None /\ k_xid_rep_window c' = k_xid_rep_window c /\
  k_calls c' = <[cs_xid cs := caller_new unmarshall_empty]> (k_calls c) /\
  client_part c' (<[cs_xid cs := cs]> threads) (<[cs_xid cs := Ask proc args (contents (cs_req cs))]> asked).
Proof.
  intros [H1 H2 H3 H4 H5 H6] Hx (Wm & Im & Dm) Hmax Hproc Hclt Hnonce Hs.
  assert (client_inv c') as Hinv' by (eapply client_inv_step; [exact H1|by eapply cstep_start]).
  destruct (call1_start_effect c proc m to now c' cs Wm Hmax Hs) as (front & Hf & -> & Hxid & Wcs & Ics & Ccs).
  destruct (front_acked c front H1 Hf) as [Hfu Hfa]. pose proof H1 as (Hw & Hk & Hlt & _).
  assert (~ acked (k_xid_rep_window c) (k_xid c)) as Hna by (intros Ha; apply Hlt in Ha; lia).
  destruct (call_header c proc front Hw Hf Hk Hproc) as (Hh & Hp1 & Hp2 & Hp3 & Hp4 & Hp5 & Hp6);
    [by rewrite H2|by destruct H3 as [-> | ->]|done|].
  assert (asked !! cs_xid cs = None) as Hfresh.
  { destruct (asked !! cs_xid cs) as [a|] eqn:E; [|done]. destruct (H4 _ _ E). lia. }
  assert (asked ⊆ <[cs_xid cs := Ask proc args (contents (cs_req cs))]> asked) as Hsub by (by apply insert_subseteq).
  split; [done|]. split; [done|]. split; [cbn; by rewrite Hxid, i32_small by (unfold is_i32; lia)|].
  split; [done|done|done| | |].
  - intros y a. cbn [k_xid set_calls k_xid_rep_window]. rewrite u32_small by (unfold is_u32; lia).
    rewrite lookup_insert. case_decide as Hy.
    + intros [= <-]. split; [lia|].
      exists (mk_req_header (k_xid c) proc (k_clt_nonce c) (k_srv_nonce c) front). cbn [a_msg a_args a_proc].
      split; [done|]. split.
      { rewrite Ccs. apply splice_request; [done|done|unfold MAX_MSG in *; lia]. }
      split; [by rewrite Hp4, <- Hxid|]. split; [done|]. split; [by rewrite Hp2|]. split; [by rewrite Hp3|].
      rewrite Hp5. split; [lia|].
      intros z Hz. apply Hfa. lia.
    + intros E. destruct (H4 y a E). split; [lia|done].
  - intros y csy. rewrite lookup_insert. case_decide as Hy.
    + intros [= <-]. split; [done|]. split; [done|]. subst y. by rewrite lookup_insert_eq.
    + intros E. destruct (H5 y csy E) as (? & ? & Ea). split; [done|]. split; [done|].
      by rewrite lookup_insert_ne.
  - cbn [k_sent set_calls]. intros ch msg Hin. destruct (H6 ch msg Hin) as (y & a & E & ?). exists y, a.
    split; [|done]. by eapply lookup_weaken.
Qed.

Lemma send_part c threads asked x cs new c' cs' :
  client_part c threads asked -> threads !! x = Some cs -> call1_send c cs new = Ok (c', cs') ->
  client_part c' (<[x := cs']> threads) asked /\ same_calls c c'.
Proof.
  intros Hp E Hs. split; [|by eapply call1_send_same]. destruct (c_threads _ _ _ Hp x cs E) as (_ & Hwf & Ea).
  destruct (call1_send_effect c cs new c' cs' Hwf Hs) as (Hx & Hr & c1 & Hc1 & Hc').
  assert (client_part c1 threads asked) as Hp1 by (by eapply client_part_rewired).
  assert (client_part c' threads asked) as Hp'; [|by eapply client_part_thread].
  destruct Hc' as [->|(ch & ->)]; [done|]. destruct Hp1 as [K1 K2 K3 K4 K5 K6]. split; try done.
  cbn [k_sent set_sent]. intros ch' msg [Hin|[= -> ->]%list_elem_of_singleton]%elem_of_app; [by eapply K6|].
  apply fmap_Some in Ea as (a & Ea & Hm). by exists x, a.
Qed.

(** Acknowledging more. *)
Lemma client_part_window c threads asked w calls :
  client_part c threads asked -> client_inv (set_window (set_calls c (k_xid c) calls) w) ->
  win_le (k_xid_rep_window c) w -> client_part (set_window (set_calls c (k_xid c) calls) w) threads asked.
Proof.
  intros [H1 H2 H3 H4 H5 H6] Hi Hw. split; try done. intros x a E. destruct (H4 x a E). split; [done|].
  by eapply request_ok_mono.
Qed.

Lemma return_part c threads asked x cs c' u ret :
  client_part c threads asked -> threads !! x = Some cs -> call1_finish c cs = Ok (c', u, ret) ->
  client_part c' (delete x threads) asked /\ win_le (k_xid_rep_window c) (k_xid_rep_window c') /\
  k_calls c' = delete x (k_calls c) /\
  exists ca, k_calls c !! x = Some ca /\ u = ca_un ca /\ ret = if ca_done ca then ca_intret ca else timeout_failure.
Proof.
  intros Hp E Hs. pose proof Hp as [H1 H2 H3 H4 H5 H6]. destruct (H5 x cs E) as (Hx & _ & Ea).
  apply fmap_Some in Ea as (a & Ea & _). destruct (H4 x a Ea) as [Hrange _]. pose proof H1 as (Hw & Hk & _).
  assert (client_inv c') as Hi by (eapply client_inv_step; [exact H1|]; eapply (cstep_finish c cs); [lia|exact Hs]).
  destruct (call1_finish_effect c cs c' u ret Hs) as (ca & w & Hca & Ew & Hre & -> & ->).
  rewrite Hx, i32_small in Hca, Hre by (unfold is_i32; lia). rewrite Hx in Ew.
  destruct (update_xid_rep_ok _ x Hw) as (w' & Ew' & _ & Hack); [unfold is_u32; lia|]. rewrite Ew in Ew'. injection Ew' as <-.
  assert (win_le (k_xid_rep_window c) w) as Hle by (intros y Hy Ha; apply Hack; [done|by left]).
  assert (client_inv (set_window (set_calls c (k_xid c) (delete x (k_calls c))) w)) as Hi'
    by (rewrite Hre in Hi; exact Hi).
  split; [|rewrite Hre; split; [exact Hle|split; [done|by exists ca]]].
  eapply client_part_rewired; [exact Hre|]. apply client_part_window; [|done|done].
  split; try done. intros y csy [_ Ey]%lookup_delete_Some. by apply H5.
Qed.

(** ** A reply comes in *)
Lemma open_unacked win asked log jobs w x :
  server_part win asked log jobs w -> 0 < x -> ~ acked win x -> unacked w clt x.
Proof.
  intros Hs Hx Hn r Hr. destruct (Z.lt_ge_cases r x); [done|]. destruct Hn.
  apply (s_acks _ _ _ _ _ Hs r Hr). lia.
Qed.

Lemma open_started win asked log jobs w x :
  server_part win asked log jobs w -> clt <> 0 -> 0 < x -> ~ acked win x ->
  (length (running_of w x) + length (runs_of log x) <= 1)%nat.
Proof.
  intros Hs Hz Hx Hn. rewrite <- (s_count _ _ _ _ _ Hs).
  apply (s_once _ _ _ _ _ Hs clt x Hz). by eapply open_unacked.
Qed.

(** The reply to an open call is the answer of the only run of its handler. *)
Lemma open_answered win asked log jobs w x ret body u :
  server_part win asked log jobs w -> clt <> 0 -> 0 < x -> ~ acked win x ->
  logged log x ret body -> remaining u body -> answered log x u ret.
Proof.
  intros Hs Hz Hx Hn (l & Hl & Hk & <- & <-) Hu. exists l. split; [|done].
  pose proof (open_started _ _ _ _ _ _ Hs Hz Hx Hn) as Hle.
  assert (l ∈ runs_of log x) as Hin by (apply list_elem_of_filter; done).
  destruct (runs_of log x) as [|l1 [|l2 ls]]; cbn in Hle; [by apply elem_of_nil in Hin| |lia].
  apply list_elem_of_singleton in Hin as ->. done.
Qed.

Lemma reply_part c threads asked log jobs w returned conn msg tail c' ok :
  clt <> 0 -> client_part c threads asked -> server_part (k_xid_rep_window c) asked log jobs w ->
  answers_part (k_calls c) log returned -> (conn, msg) ∈ s_sent (w_srv w) -> conn ∈ mine ->
  got_pdu c (received msg tail) (zlen msg) = Ok (c', ok) ->
  client_part c' threads asked /\ win_le (k_xid_rep_window c) (k_xid_rep_window c') /\
  answers_part (k_calls c') log returned.
Proof.
  intros Hz Hp Hs [Hc Hret] Hin Hm Hg. pose proof Hp as [H1 _ _ H4 _ _]. pose proof H1 as (Hw & Hk & Hlt & Hcalls).
  destruct (s_replies _ _ _ _ _ Hs conn msg Hin Hm) as (x & ret & body & Hr & Hi & Hx & Ha & Hl).
  destruct (asked !! x) as [a|] eqn:Ea; [|done]. destruct (H4 x a Ea) as [Hrange _].
  assert (is_reply_header (ReplyHeader x ret)) as Hh by (split; [unfold is_i32; cbn; lia|done]).
  destruct (got_received_ok c msg tail (ReplyHeader x ret) body Hh Hr Hw) as (win & u & Eg & Hw' & Hu & Hack).
  rewrite Eg in Hg. injection Hg as <- _. cbn [rp_xid rp_ret] in *.
  rewrite u32_small in Hack by (unfold is_u32; lia).
  assert (win_le (k_xid_rep_window c) win) as Hle by (intros y Hy Hay; apply Hack; [done|by left]).
  assert (4 <= zlen msg) as H4m by (destruct Hr; header_sz; lia).
  destruct (unpack_reply_header_ok (received msg tail) (zlen msg) _ (ReplyHeader x ret) body
    (received_holds msg tail H4m) Hh (received_reply msg _ body Hr)) as (u' & Eu & _).
  set (calls := match k_calls c !! x with Some ca => _ | None => _ end) in *.
  assert (client_inv (set_calls (set_window c win) (k_xid c) calls)) as Hi'.
  { eapply client_inv_step; [exact H1|]. eapply cstep_reply; [exact Eu|cbn; lia|exact Eg]. }
  split; [|split; [exact Hle|]].
  - by apply (client_part_window c threads asked win calls).
  - split; [|done]. cbn [k_calls set_calls]. subst calls. intros y ca Ey Hd.
    destruct (k_calls c !! x) as [ca0|] eqn:E0; [|by apply Hc].
    apply lookup_insert_Some in Ey as [[<- <-]|[_ Ey]]; [|by apply Hc].
    destruct (ca_done ca0) eqn:Hd0; [by apply Hc|]. cbn [ca_un ca_intret].
    destruct (Hcalls x ca0 E0) as [_ Hna]. specialize (Hna Hd0).
    by apply (open_answered _ _ _ _ _ x ret body u Hs Hz Hx Hna (Hl Hna)).
Qed.

(** ** The server's steps *)
Lemma receive_part win asked log jobs w conn b sz s' j ok :
  server_part win asked log jobs w -> job_ok asked (Djob b sz conn) ->
  Rpcs.got_pdu (w_srv w) conn b sz true = Ok (s', Some j, ok) ->
  server_part win asked log (j :: jobs) (with_srv w s').
Proof.
  intros Hs Hj Hg. unfold Rpcs.got_pdu in Hg. destruct (conn_incref _ _) as [s1|] eqn:E; [|done].
  injection Hg as <- <- _. rewrite (conn_incref_objs _ _ _ E).
  destruct (server_part_objs _ _ _ _ _ (s_objs s1) Hs) as [H1 H2 H3 H4 H5 H6 H7 H8 H9 H10 H11 H12].
  split; [|done..]. by constructor.
Qed.

(** The header of one of the client's requests, and what is left to read. *)
Lemma own_job (asked : gmap Z ask) win x a tail j h :
  asked !! x = Some a -> request_ok win x a -> j_buf j = received (a_msg a) tail -> j_sz j = zlen (a_msg a) ->
  job_header j = Ok h ->
  exists req, unmarshall_unpack_req_header (unmarshall_new (j_buf j) (j_sz j)) = Ok (req, h) /\
    remaining req (a_args a) /\ rq_xid h = x /\ rq_proc h = a_proc a /\ rq_clt_nonce h = clt /\
    (rq_srv_nonce h = 0 \/ rq_srv_nonce h = nonce) /\ u32 (rq_xid_rep h) < x /\ forall y, 0 <= y <= u32 (rq_xid_rep h) -> acked win y.
Proof.
  intros Ea (h0 & Hh & Hr & H1 & H2 & H3 & H4 & H5 & H6) Hb Hsz Hj.
  assert (4 <= zlen (a_msg a)) as Hl by (destruct Hr; header_sz; lia).
  destruct (unpack_req_header_ok (received (a_msg a) tail) (zlen (a_msg a)) _ h0 (a_args a)
    (received_holds _ tail Hl) Hh (received_request _ _ _ Hr)) as (u & Eu & Hu).
  unfold job_header in Hj. rewrite Hb, Hsz in *. rewrite Eu in Hj. injection Hj as <-. by exists u.
Qed.

Lemma begin_window_other (s s' : rpcs St) j h next :
  job_header j = Ok h -> dispatch_begin s j = Ok (s', next) -> rq_clt_nonce h <> clt ->
  replies_of (s_reply_window s') clt = replies_of (s_reply_window s) clt.
Proof.
  intros Hh Hb Hn. destruct (dispatch_begin_window _ _ _ _ _ Hh Hb) as [[He _]|He]; [apply He|].
  cbn in He. destruct He as [He _]. rewrite He, replies_of_insert. by rewrite decide_False.
Qed.

(** A request of the client's does to the window what it should: entries that
    have a reply keep it or go. *)
Lemma begin_window_own (s s' : rpcs St) j h next y e :
  job_header j = Ok h -> dispatch_begin s j = Ok (s', next) -> rq_clt_nonce h = clt ->
  u32 (rq_xid_rep h) < u32 (rq_xid h) ->
  entry (replies_of (s_reply_window s') clt) y = Some e -> r_cb_present e = true ->
  entry (replies_of (s_reply_window s) clt) y = Some e.
Proof.
  intros Hh Hb Hn Hlt He Hcb. destruct (dispatch_begin_window _ _ _ _ _ Hh Hb) as [[Hw _]|Hw].
  { by rewrite <- (Hw clt). }
  cbn in Hw. destruct Hw as [Hw _]. rewrite Hw, replies_of_insert, decide_True in He by done.
  rewrite Hn in He. set (l := replies_of (s_reply_window s) clt) in *.
  destruct (decide (u32 (rq_xid h) = y)) as [<-|Hy].
  - destruct (entry l (u32 (rq_xid h))) as [e0|] eqn:E0.
    + by rewrite (entry_updated_known _ _ _ _ Hlt E0) in He.
    + assert ((verdict l (u32 (rq_xid h)) (u32 (rq_xid_rep h))).1 = NEW) as Hv.
      { unfold verdict. by rewrite (proj2 (Z.ltb_lt _ _)), E0 by done. }
      rewrite (entry_updated_new _ _ _ Hv) in He. by injection He as <-.
  - destruct (Z.le_gt_cases y (u32 (rq_xid_rep h))).
    + by rewrite entry_updated_acked in He.
    + by rewrite entry_updated_other in He by lia.
Qed.

Lemma count_begin w s' acks h c req f x (next : option (@running St)) :
  (forall r, next = Some r -> r = Running c req h f) ->
  let w' := World s' (match next with Some r => r :: w_running w | None => w_running w end)
    (match next with Some _ => job_key h :: w_started w | None => w_started w end) acks in
  times_started w' clt x = (times_started w clt x + (length (running_of w' x) - length (running_of w x)))%nat /\
  (length (running_of w x) <= length (running_of w' x))%nat.
Proof.
  intros Hr w'. subst w'. unfold times_started, running_of. cbn [w_started w_running].
  destruct next as [r|]; [|lia]. specialize (Hr r eq_refl). subst r. rewrite !filter_cons. cbn [run_h].
  destruct (decide (job_key h = (clt, x))); cbn [length]; lia.
Qed.

(** What goes out before a handler runs answers the request's own call. *)
Lemma early_reply_ok win (asked : gmap Z ask) log (s : rpcs St) a h x out :
  (forall x e, entry (replies_of (s_reply_window s) clt) x = Some e -> r_cb_present e = true ->
     exists b out, r_buf e = Some b /\ slice b 0 (r_sz e) = Ok out /\ reply_ok win asked log x out) ->
  asked !! x = Some a -> 0 < x < 2 ^ 31 -> rq_xid h = x -> rq_clt_nonce h = clt ->
  rq_srv_nonce h = 0 \/ rq_srv_nonce h = s_nonce s -> u32 (rq_xid_rep h) < x ->
  early_answer s h out -> reply_ok win asked log x out.
Proof.
  intros Hwin Ea Hx Hxid Hn Hsrv Hlt Hearly. unfold early_answer in Hearly.
  rewrite Hn, Hxid, u32_small in Hearly by (unfold is_u32; lia).
  destruct Hearly as [(_ & ? & ?)|(_ & [Hle|(e & b & He & Hcb & Hb' & Hsl)])]; [by destruct Hsrv|lia|].
  destruct (Hwin x e He Hcb) as (b' & out' & Eb' & Esl' & Hok). rewrite Hb' in Eb'. injection Eb' as <-.
    rewrite Hsl in Esl'. by injection Esl' as <-.
Qed.

(** Whose request a job is. *)
Lemma job_cases win (asked : gmap Z ask) j req h :
  (forall x a, asked !! x = Some a -> 0 < x < 2 ^ 31 /\ request_ok win x a) -> job_ok asked j ->
  unmarshall_unpack_req_header (unmarshall_new (j_buf j) (j_sz j)) = Ok (req, h) ->
  if decide (j_conn j ∈ mine)
  then exists x a, asked !! x = Some a /\ 0 < x < 2 ^ 31 /\ remaining req (a_args a) /\ rq_xid h = x /\
    rq_proc h = a_proc a /\ rq_clt_nonce h = clt /\ (rq_srv_nonce h = 0 \/ rq_srv_nonce h = nonce) /\
    u32 (rq_xid_rep h) < x /\ forall y, 0 <= y <= u32 (rq_xid_rep h) -> acked win y
  else rq_clt_nonce h <> clt.
Proof.
  intros Hask Hj Eu. assert (job_header j = Ok h) as Hh by (unfold job_header; by rewrite Eu).
  unfold job_ok in Hj. destruct (decide _); [|by apply Hj]. destruct Hj as (x & a & tail & Ea & Ebuf & Esz).
  destruct (Hask x a Ea) as [Hx Hr]. destruct (own_job asked win x a tail j h Ea Hr Ebuf Esz Hh) as (req' & Eu' & ?).
  rewrite Eu in Eu'. injection Eu' as <-. by exists x, a.
Qed.

Lemma begin_part win asked log l1 j l2 w h s' next :
  (forall x a, asked !! x = Some a -> 0 < x < 2 ^ 31 /\ request_ok win x a) ->
  server_part win asked log (l1 ++ j :: l2) w -> job_header j = Ok h ->
  dispatch_begin (w_srv w) j = Ok (s', next) ->
  server_part win asked log (l1 ++ l2)
    (World s' (match next with Some r => r :: w_running w | None => w_running w end)
       (match next with Some _ => job_key h :: w_started w | None => w_started w end) (job_ack h :: w_acks w)).
Proof.
  intros Hask [H1 H2 H3 H4 H5 H6 H7 H8 H9 H10 H11 H12] Hh Hb.
  pose proof Hh as Hh'. unfold job_header in Hh'.
  destruct (unmarshall_unpack_req_header _) as [[req h0]|] eqn:Eu; [|done]. injection Hh' as ->.
  pose proof (dispatch_begin_effect _ _ _ _ _ _ Eu Hb) as [B1 B2 B0 B3 B4 B5].
  apply Forall_app in H1 as [Hl1 [Hj Hl2]%Forall_cons].
  pose proof (job_cases win asked j req h Hask Hj Eu) as Hown.
  split; cbn [w_srv w_running w_acks w_started].
  - apply Forall_app. done.
  - destruct next as [r|]; [|done]. constructor; [|done]. destruct (B4 r eq_refl) as (f & -> & _ & Hf).
    split; [by rewrite <- H10|]. cbn [run_conn run_h run_req]. destruct (decide _); [|done].
    destruct Hown as (x & a & Ea & Hx & Hu & <- & Hp & Hn & _). split; [done|]. split; [done|]. by exists a.
  - intros k conn Hk. destruct (B3 k conn Hk) as [Hk'|(-> & _ & ->)]; [by apply H3|].
    destruct (decide (j_conn j ∈ mine)); [|done]. destruct Hown as (x & a & _ & _ & _ & _ & _ & Hn & _). done.
  - by apply (once_inv_begin w j).
  - intros r [Hr|Hr]%elem_of_cons; [|by apply H5]. unfold job_ack in Hr. injection Hr as Hn ->.
    destruct (decide (j_conn j ∈ mine)); [|by destruct Hown]. by destruct Hown as (x & a & _ & _ & _ & _ & _ & _ & _ & _ & Hy).
  - intros x.
    destruct (count_begin w s' (job_ack h :: w_acks w) h (j_conn j) req (default (fun _ m s => Ok (s, m, 0)) (run_f <$> next)) x next)
      as [Hc Hle].
    { intros r ->. destruct (B4 r eq_refl) as (f & -> & _). done. }
    rewrite Hc, H6. unfold running_of in *. cbn [w_running] in *. lia.
  - intros y e He Hcb. apply (H7 y e); [|done]. destruct (decide (j_conn j ∈ mine)) as [Hm|Hm].
    + destruct Hown as (x & a & _ & Hx & _ & <- & _ & Hn & _ & Hlt & _).
      eapply begin_window_own; [exact Hh|exact Hb|done| |exact He|done]. rewrite (u32_small (rq_xid h)) by (unfold is_u32; lia). done.
    + by rewrite <- (begin_window_other _ _ _ _ _ Hh Hb Hown).
  - intros conn msg Hin Hm. destruct B5 as [Hs|(out & Hs & _ & _ & Hearly)]; rewrite Hs in Hin; [by eapply H8|].
    apply elem_of_app in Hin as [Hin|[= -> ->]%list_elem_of_singleton]; [by eapply H8|].
    rewrite decide_True in Hown by done. destruct Hown as (x & a & Ea & Hx & _ & Hxid & _ & Hn & Hsrv & Hlt & _).
    exists x. rewrite <- H11 in Hsrv. by eapply (early_reply_ok _ _ _ _ _ h).
  - done.
  - by rewrite B1.
  - by rewrite B0.
  - by rewrite B2.
Qed.

Lemma count_end (w : world St) s' l1 r l2 log e x :
  w_running w = l1 ++ r :: l2 -> key e = job_key (run_h r) ->
  let w' := World s' (l1 ++ l2) (w_started w) (w_acks w) in
  (length (running_of w' x) + length (runs_of (log ++ [e]) x) = length (running_of w x) + length (runs_of log x))%nat.
Proof.
  intros Hr Hk w'. subst w'. unfold running_of. cbn [w_running]. rewrite Hr, runs_of_app.
  unfold runs_of at 2. rewrite !filter_app, !filter_cons, filter_nil, Hk, !length_app.
  destruct (decide _); cbn [length]; lia.
Qed.

(** The window after a reply has been kept for the client. *)
Lemma end_window_own win (asked : gmap Z ask) log e (rw : window) x buf sz out y en :
  (forall y en, entry (replies_of rw clt) y = Some en -> r_cb_present en = true ->
     exists b out, r_buf en = Some b /\ slice b 0 (r_sz en) = Ok out /\ reply_ok win asked log y out) ->
  slice buf 0 sz = Ok out -> reply_ok win asked (log ++ [e]) x out ->
  entry (replies_of (add_reply rw clt x (Some buf) sz) clt) y = Some en -> r_cb_present en = true ->
  exists b out, r_buf en = Some b /\ slice b 0 (r_sz en) = Ok out /\ reply_ok win asked (log ++ [e]) y out.
Proof.
  intros Hwin Hsl Hok He Hcb. rewrite add_reply_entry, decide_True in He by done.
  apply fmap_Some in He as (en0 & He & ->). unfold set_reply in *.
  assert (r_xid en0 = y) as Hy.
  { unfold entry in He. apply last_Some_elem_of, list_elem_of_filter in He as [? _]. done. }
  destruct (Z.eqb_spec (r_xid en0) x) as [Hx|Hx].
  - exists buf, out. cbn. split; [done|]. split; [done|]. by rewrite <- Hy, Hx.
  - destruct (Hwin y en0 He Hcb) as (b & out' & ? & ? & Hr). exists b, out'. do 2 (split; [done|]).
    by eapply reply_ok_mono; [apply win_le_refl|done|].
Qed.

(** The reply a handler's return makes. *)
Lemma end_reply_ok win (asked : gmap Z ask) log (r : @running St) rep ret e out :
  rq_clt_nonce (run_h r) = clt /\ 0 < rq_xid (run_h r) < 2 ^ 31 /\
    (exists a, asked !! rq_xid (run_h r) = Some a /\ rq_proc (run_h r) = a_proc a /\ remaining (run_req r) (a_args a)) ->
  is_reply out (ReplyHeader (i32 (rq_xid (run_h r))) ret) (drop 24 (contents rep)) -> is_i32 ret ->
  key e = job_key (run_h r) -> e_ret e = ret -> e_body e = drop 24 (contents rep) ->
  rq_clt_nonce (run_h r) = clt /\ reply_ok win asked (log ++ [e]) (u32 (rq_xid (run_h r))) out.
Proof.
  intros (Hn & Hx & k & Ek & _) Hrep Hi Hk Hret Hbody. split; [done|].
  unfold job_key in Hk. rewrite Hn in Hk. rewrite u32_small, i32_small in * by (unfold is_i32, is_u32; lia).
  exists ret, (drop 24 (contents rep)). split; [done|]. split; [done|]. split; [lia|]. split; [by rewrite Ek|].
  intros _. exists e. split; [apply elem_of_app; right; by left|done].
Qed.

Lemma end_part win asked log jobs w l1 r l2 a rep ret s' :
  server_part win asked log jobs w -> w_running w = l1 ++ r :: l2 ->
  run_f r (run_req r) marshall_new (s_app (w_srv w)) = Ok (a, rep, ret) -> marshall_wf rep -> m_ind rep <= MAX_MSG -> is_i32 ret ->
  dispatch_finish (with_app (w_srv w) a) r rep ret = Ok s' ->
  server_part win asked (log ++ [Exec (rq_clt_nonce (run_h r)) (u32 (rq_xid (run_h r))) (rq_proc (run_h r))
      (run_req r) (s_app (w_srv w)) a ret (drop 24 (contents rep))]) jobs
    (World s' (l1 ++ l2) (w_started w) (w_acks w)).
Proof.
  intros [H1 H2 H3 H4 H5 H6 H7 H8 H9 H10 H11 H12] Hrun Hf Wm Mm Hret Hd. set (e := Exec _ _ _ _ _ _ _ _).
  pose proof H2 as H2'. rewrite Hrun in H2'. apply Forall_app in H2' as [Hr1 [[Hp Hown] Hr2]%Forall_cons].
  destruct (dispatch_finish_effect _ _ _ _ _ Wm Mm Hd) as (out & buf & sz & [F1 F2 F3 F4 F5 F0 F6 F7 F8]).
  cbn [s_procs s_app s_nonce s_conns s_reply_window s_sent with_app] in *.
  assert (run_conn r ∈ mine -> rq_clt_nonce (run_h r) = clt /\ reply_ok win asked (log ++ [e]) (u32 (rq_xid (run_h r))) out)
    as Hreply by (intros Hm; rewrite decide_True in Hown by done; by apply (end_reply_ok win asked log r rep ret e)).
  split; cbn [w_srv w_running w_acks w_started].
  - done.
  - by apply Forall_app.
  - by rewrite F6.
  - apply (once_inv_step w); [done|]. by eapply step_finish.
  - done.
  - intros x. rewrite (count_end w s' l1 r l2 log e x Hrun eq_refl). apply H6.
  - intros y en He Hcb. rewrite F7 in He. destruct (decide (run_conn r ∈ mine)) as [Hm|Hm].
    + destruct (Hreply Hm) as [Hn Hok]. rewrite Hn in He.
      destruct (0 <? clt); [by eapply end_window_own|].
      destruct (H7 y en He Hcb) as (b & o & ? & ? & Hr). exists b, o. do 2 (split; [done|]).
      by eapply reply_ok_mono; [apply win_le_refl|done|].
    + assert (entry (replies_of (s_reply_window (w_srv w)) clt) y = Some en) as He'.
      { destruct (0 <? _); [|done]. by rewrite add_reply_entry, decide_False in He by done. }
      destruct (H7 y en He' Hcb) as (b & o & ? & ? & Hr). exists b, o. do 2 (split; [done|]).
      by eapply reply_ok_mono; [apply win_le_refl|done|].
  - intros conn msg Hin Hm.
    assert ((conn, msg) ∈ s_sent (w_srv w) \/ msg = out /\ run_conn r ∈ mine) as [Hin'|[-> Hm']].
    { destruct F8 as [Hs|(c & Hs & Hc)]; rewrite Hs in Hin; [by left|].
      apply elem_of_app in Hin as [Hin|[= <- <-]%list_elem_of_singleton]; [by left|]. right. split; [done|].
      destruct Hc as [->|Hc]; [done|]. apply H3 in Hc as [Hc _]. destruct (decide (run_conn r ∈ mine)); [done|].
      destruct Hown. by apply Hc. }
    + destruct (H8 conn msg Hin' Hm) as [x Hr]. exists x. by eapply reply_ok_mono; [apply win_le_refl|done|].
    + eexists. by apply Hreply.
  - apply Forall_app. split; [done|]. constructor; [|constructor]. split.
    + by exists (run_f r), rep.
    + cbn. intros Hn. destruct (decide (run_conn r ∈ mine)); [|done]. destruct Hown as (_ & Hx & k & ?).
      rewrite u32_small by (unfold is_u32; lia). by exists k.
  - by rewrite F4.
  - by rewrite F0.
  - rewrite F5. by apply (ran_app app0 log e).
Qed.

(** ** Binding *)

(** The first run of a call that was answered. *)
Lemma first_exec (asked : gmap Z ask) log x e :
  Forall (exec_ok asked) log -> head (runs_of log x) = Some e ->
  exists a (f : handler St) m, asked !! x = Some a /\ procs !! a_proc a = Some f /\ remaining (e_in e) (a_args a) /\
    f (e_in e) marshall_new (e_before e) = Ok (e_after e, m, e_ret e) /\ e_body e = drop 24 (contents m).
Proof.
  intros Hall He. apply head_Some_elem_of, list_elem_of_filter in He as [Hkey Hlog]. rewrite Forall_forall in Hall.
  destruct (Hall e Hlog) as [(f & m & Hp & Hrun & Hb) Hown]. unfold key in Hkey. injection Hkey as Hclt Hx.
  destruct (Hown Hclt) as (a & Ea & Hproc & Hargs). rewrite Hx in Ea. exists a, f, m. by rewrite <- Hproc.
Qed.

Variables a0 r1 : Z.
Hypothesis a0_declared : declared i32_c a0.
Hypothesis bind_proc : procs !! rpc_bind = Some (h1_fn i32_c i32_c a0 r1 (rpcbind nonce)).

Lemma rpcbind_marshals : marshals (St := St) i32_c r1 (rpcbind nonce) 0.
Proof. intros s s' r b [= <- <- <-]. split; [apply i32_range|]. done. Qed.

(** A bind that succeeds brings the nonce of the server. *)
Lemma bind_answer (asked : gmap Z ask) log x u ret a r0 r ret' :
  is_u32 nonce -> Forall (exec_ok asked) log -> ret = timeout_failure \/ answered log x u ret ->
  asked !! x = Some a -> a_proc a = rpc_bind -> a_args a = image i32_c 0 -> declared i32_c r0 ->
  call_m_finish i32_c ret u r0 = Ok (r, ret') -> ret' = 0 -> u32 r = nonce.
Proof.
  intros Hu Hlog Hans Ea Hp Hargs Hr0 Hfin ->. destruct Hans as [->|(e & He & <- & Hrem)]; [done|].
  destruct (first_exec asked log x e Hlog He) as (a' & f & m & Ea' & Hf & Hin & Hrun & Hb).
  rewrite Ea in Ea'. injection Ea' as <-. rewrite Hp, bind_proc in Hf. injection Hf as <-.
  rewrite Hargs in Hin. rewrite Hb in Hrem.
  assert (representable i32_c 0) as H0 by done.
  destruct (h1_answer i32_c i32_c 0 a0 r0 r1 (rpcbind nonce) _ _ _ _ _ u H0 a0_declared Hr0 rpcbind_marshals Hin Hrun Hrem)
    as (r' & Hm & Hr'). injection Hm as _ <- Hz. rewrite <- Hz in *. rewrite (Hr' ltac:(lia)) in Hfin.
  injection Hfin as <-. rewrite u32_i32. by apply u32_small.
Qed.

(** ** Every reachable state *)

(** What has been asked stays. *)
Lemma asked_mono n n' :
  is_u32 clt -> is_u32 nonce -> net_inv n -> net_step n n' -> n_asked n ⊆ n_asked n'.
Proof.
  intros Hu Hn [Hc _ _] Hstep. destruct Hstep as [n proc m args to now c' cs Hx Hm Hmax Hproc E| | | | | | | | | | |];
    try done. destruct (call_part _ _ _ _ _ _ _ _ _ _ Hc Hx Hm Hmax Hproc Hu Hn E) as (Hf & _).
  by apply insert_subseteq.
Qed.

Lemma net_inv_step n n' :
  clt <> 0 -> is_u32 clt -> is_u32 nonce -> net_inv n -> net_step n n' -> net_inv n'.
Proof.
  intros Hz Hu Hnonce [Hc Hs Ha] Hstep. revert Hc Hs Ha.
  destruct Hstep as [n proc m args to now c' cs Hx Hm Hmax Hproc E|n x cs new c' cs' Et E|n x cs now cs' d Et E
    |n x cs cs' Et E|n x cs c' u ret Et E|n x u ret a r0 r ret' Hin Ea Hp Hargs Hr0 Efin|n ch msg conn tail s' j ok Hin Hmine E|n b sz conn s' j ok Hmine Ho E
    |n conn msg tail c' ok Hin Hmine E|n ko so|n l1 j l2 h s' next Ej Hh _ E|n l1 r l2 a rep ret s' Er Ef Wr Mr Hr E]; intros Hc Hs Ha.
  - destruct (call_part _ _ _ _ _ _ _ _ _ _ Hc Hx Hm Hmax Hproc Hu Hnonce E) as (Hf & Hw & Hcalls & Hc').
    split; cbn; [done| |].
    + rewrite Hw. eapply server_part_mono; [apply win_le_refl|by apply insert_subseteq|done].
    + destruct Ha as [Ha1 Ha2]. split; [|done]. rewrite Hcalls. intros y ca.
      rewrite lookup_insert. case_decide; [by intros [= <-]|apply Ha1].
  - destruct (send_part _ _ _ _ _ _ _ _ Hc Et E) as [Hc' (_ & Hk & Hw)]. split; cbn; [done|by rewrite Hw|by rewrite Hk].
  - destruct (deadline_same _ _ _ _ E). split; [by eapply client_part_thread|done|done].
  - destruct (wake_same _ _ _ E). split; [by eapply client_part_thread|done|done].
  - destruct (return_part _ _ _ _ _ _ _ _ Hc Et E) as (Hc' & Hle & Hcalls & ca & Eca & -> & ->).
    split; cbn; [done|by eapply server_part_mono|]. destruct Ha as [Ha1 Ha2]. split.
    + rewrite Hcalls. intros y cay [_ Ey]%lookup_delete_Some. by apply Ha1.
    + intros y u ret [[= -> -> ->]|Hin]%elem_of_cons; [|by apply Ha2].
      destruct (ca_done ca) eqn:Hd; [right; by apply Ha1|by left].
  - unfold bind_finish. destruct (Z.eqb_spec ret' 0) as [Hz'|]; [|by split].
    assert (u32 r = nonce) as Hn
      by (eapply bind_answer; [done|apply (s_log_ok _ _ _ _ _ Hs)|by apply (r_returned _ _ _ Ha)|done..]).
    split; [|done|done]. destruct Hc. split; try done. cbn. by right.
  - split; [done| |done]. eapply receive_part; [done| |exact E]. unfold job_ok. cbn [j_conn].
    rewrite decide_True by done. destruct (c_sent _ _ _ Hc ch msg Hin) as (x & a & Ex & <-). by exists x, a, tail.
  - split; [done| |done]. eapply receive_part; [done| |exact E]. unfold job_ok. cbn [j_conn].
    by rewrite decide_False.
  - destruct (reply_part _ _ _ _ _ _ _ _ _ _ _ _ Hz Hc Hs Ha Hin Hmine E) as (Hc' & Hle & Ha').
    split; cbn; [done| |done]. by eapply server_part_mono.
  - split; [by eapply client_part_rewired|by apply server_part_objs|done].
  - split; [done| |done]. cbn. rewrite Ej in Hs. eapply begin_part; [|exact Hs|exact Hh|exact E].
    intros x a Ex. destruct (c_asked _ _ _ Hc x a Ex). destruct (c_inv _ _ _ Hc) as (_ & ? & _). split; [lia|done].
  - split; [done|by eapply end_part|]. by apply answers_mono.
Qed.

(** A condition on the order in which pool threads start queued requests, which
    neither the network nor the pool keeps by itself: no request of the client is
    started after one that acknowledges it. Then nothing is started twice. *)
Definition prompt (w : world St) (h : req_header) : Prop :=
  rq_clt_nonce h = clt -> unacked w clt (u32 (rq_xid h)).

Lemma prompt_started n n' x :
  (forall w h, accept w h -> prompt w h) -> clt <> 0 -> net_inv n -> net_inv n' -> net_step n n' ->
  (times_started (n_world n) clt x <= 1)%nat -> (times_started (n_world n') clt x <= 1)%nat.
Proof.
  intros Hacc Hz Hi Hi' Hs Hle. pose proof (s_once _ _ _ _ _ (i_server _ Hi')) as Honce. revert Hi Hi' Hle Honce.
  destruct Hs as [| | | | | | | | | |n l1 j l2 h s' next Ej Hh Ha E|]; intros Hi Hi' Hle Honce; try done.
  destruct next as [r|]; [|done]. destruct (decide (job_key h = (clt, x))) as [Hk|Hk].
  2: { unfold times_started in *. cbn [n_world w_started]. by rewrite filter_cons, decide_False. }
  apply (Honce clt x Hz). cbn [n_world]. unfold job_key in Hk. injection Hk as Hc Hx.
  pose proof Hh as Eu. unfold job_header in Eu.
  destruct (unmarshall_unpack_req_header _) as [[req h0]|] eqn:Eh; [|done]. injection Eu as ->.
  pose proof (s_jobs_ok _ _ _ _ _ (i_server _ Hi)) as Hjobs. rewrite Ej in Hjobs.
  apply Forall_app in Hjobs as [_ [Hj _]%Forall_cons].
  assert (forall y a, n_asked n !! y = Some a -> 0 < y < 2 ^ 31 /\ request_ok (k_xid_rep_window (n_client n)) y a) as Hask.
  { intros y a Ey. destruct (c_asked _ _ _ (i_client _ Hi) y a Ey). destruct (c_inv _ _ _ (i_client _ Hi)) as (_ & ? & _).
    split; [lia|done]. }
  pose proof (job_cases _ _ _ _ _ Hask Hj Eh) as Hown. destruct (decide _); [|done].
  destruct Hown as (y & a & _ & Hy & _ & Hxid & _ & _ & _ & Hlt & _).
  intros ack [Hack|Hack]%elem_of_cons.
  - unfold job_ack in Hack. injection Hack as _ ->. rewrite <- Hx, Hxid, (u32_small y) by (unfold is_u32; lia). done.
  - rewrite <- Hx. apply (Hacc _ _ Ha Hc ack Hack).
Qed.
End Net.
Arguments net : clear implicits.

Section ExactlyOnce.
Context `{Memory} {St : Type}.

(** The client and the server, both just started. *)
Definition net_new (random : Z) (s : rpcs St) : net St := Net (rpcc_new true random) ∅ [] (World s [] [] []) ∅ [] [].

(** The network may deliver anything at any time. *)
Definition any_request (w : world St) (h : req_header) : Prop := True.

(** A server with [rpcbind] registered that has seen no request. *)
Definition fresh (s : rpcs St) : Prop :=
  s_reply_window s = ∅ /\ s_conns s = ∅ /\ s_sent s = [] /\ is_u32 (s_nonce s) /\
  exists a0 r1, declared i32_c a0 /\ s_procs s !! rpc_bind = Some (h1_fn i32_c i32_c a0 r1 (rpcbind (s_nonce s))).

Definition net_ok (random : Z) (mine : gset Z) (s : rpcs St) : net St -> Prop :=
  net_inv (u32 random) mine (s_nonce s) (s_procs s) (s_app s).

Lemma net_inv_new random mine s : fresh s -> net_ok random mine s (net_new random s).
Proof.
  intros (Hw & Hcn & Hs & _). split.
  - split; [apply client_inv_new|done|by left| | |]; cbn.
    + intros x a. by rewrite lookup_empty.
    + intros x a. by rewrite lookup_empty.
    + intros ch msg []%elem_of_nil.
  - split; cbn; try done.
    + intros k conn. by rewrite Hcn, lookup_empty.
    + intros c x _ _. unfold times_started. cbn. split; [lia|done].
    + intros r []%elem_of_nil.
    + rewrite Hw. intros x e. unfold replies_of. rewrite lookup_empty. done.
    + rewrite Hs. intros conn msg []%elem_of_nil.
  - split; cbn.
    + intros x ca. by rewrite lookup_empty.
    + intros x u ret []%elem_of_nil.
Qed.

Lemma net_ok_step accept random mine s n n' :
  u32 random <> 0 -> fresh s -> net_ok random mine s n -> net_step accept (u32 random) mine n n' -> net_ok random mine s n'.
Proof.
  intros Hz (_ & _ & _ & Hn & a0 & r1 & Ha0 & Hb) Hi Hst.
  eapply net_inv_step; [exact Ha0|exact Hb|done|apply u32_range|exact Hn|exact Hi|exact Hst].
Qed.

Lemma net_reachable_inv accept random mine s n :
  u32 random <> 0 -> fresh s -> rtc (net_step accept (u32 random) mine) (net_new random s) n -> net_ok random mine s n.
Proof.
  intros Hz Hf Hr. eapply (rtc_invariant (net_step accept (u32 random) mine)); [|exact Hr|by apply net_inv_new].
  intros n1 n2. by apply net_ok_step.
Qed.

(** A call that returned, other than with a timeout, and the first run of its
    handler. *)
Lemma returned_answer random mine s n x u ret :
  net_ok random mine s n -> (x, u, ret) ∈ n_returned n -> ret <> timeout_failure ->
  exists a e (f : handler St) m, n_asked n !! x = Some a /\ head (runs_of (u32 random) (n_log n) x) = Some e /\
    s_procs s !! a_proc a = Some f /\ remaining (e_in e) (a_args a) /\
    f (e_in e) marshall_new (e_before e) = Ok (e_after e, m, ret) /\ remaining u (drop 24 (contents m)).
Proof.
  intros [_ Hs Ha] Hin Ht. destruct (r_returned _ _ _ _ Ha x u ret Hin) as [?|(e & He & <- & Hu)]; [done|].
  destruct (first_exec _ _ _ _ x e (s_log_ok _ _ _ _ _ _ _ _ _ _ Hs) He) as (a & f & m & H1 & H2 & H3 & H4 & H5).
  exists a, e, f, m. rewrite <- H5. done.
Qed.

(** C1. Calls over an unreliable network. A client with any number of calling
    threads talks to a server with any number of pool threads, among other
    clients, while the network loses, delays, duplicates and reorders messages
    and connections die and are replaced. In every reachable state: (1) for a
    call that waits for its answer the handler has been started at most once,
    however often the request arrived; (2) a call that returned with anything
    but a timeout returned the code of the first run of its handler, which was
    the registered one and had exactly the call's arguments, and holds exactly
    that run's result bytes;
    (3) the service's state is what the logged runs make of it, one after the
    other. *)
Theorem exactly_once_answers random mine s n :
  u32 random <> 0 -> fresh s -> rtc (net_step any_request (u32 random) mine) (net_new random s) n ->
  (forall x ca, k_calls (n_client n) !! x = Some ca -> ca_done ca = false ->
     (length (running_of (u32 random) (n_world n) x) + length (runs_of (u32 random) (n_log n) x) <= 1)%nat) /\
  (forall x u ret, (x, u, ret) ∈ n_returned n ->
     ret = timeout_failure \/
     exists a e f m, n_asked n !! x = Some a /\ head (runs_of (u32 random) (n_log n) x) = Some e /\
       s_procs s !! a_proc a = Some f /\ remaining (e_in e) (a_args a) /\
       f (e_in e) marshall_new (e_before e) = Ok (e_after e, m, ret) /\ remaining u (drop 24 (contents m))) /\
  ran (s_app s) (n_log n) (s_app (n_srv n)).
Proof.
  intros Hz Hf Hr. destruct (net_reachable_inv any_request random mine s n Hz Hf Hr) as [Hc Hs Ha]. split; [|split].
  - intros x ca E Hd. destruct (c_inv _ _ _ _ _ Hc) as (_ & _ & _ & Hcalls). destruct (Hcalls x ca E) as [Hx Hna].
    eapply open_started; [exact Hs|done|lia|by apply Hna].
  - intros x u ret Hin. destruct (decide (ret = timeout_failure)); [by left|]. right.
    eapply returned_answer; [by split|exact Hin|done].
  - apply (s_ran _ _ _ _ _ _ _ _ _ _ Hs).
Qed.

(** C7. If no pool thread starts a request after one that acknowledges it has been
    started -- which neither the order of delivery nor the pool ensures --, calls
    run exactly once. The messages may be lost, duplicated, delayed and reordered:
    the handler of a call runs at most once, and if the call returned without a
    timeout exactly once, on the call's arguments and with its code and result
    bytes. Without the condition a handler can run twice, even if the network
    delivers in order ([late_start_runs_twice]). *)
Theorem prompt_exactly_once random mine s n :
  u32 random <> 0 -> fresh s -> rtc (net_step (prompt (u32 random)) (u32 random) mine) (net_new random s) n ->
  (forall x, (length (runs_of (u32 random) (n_log n) x) <= 1)%nat) /\
  (forall x u ret, (x, u, ret) ∈ n_returned n -> ret <> timeout_failure ->
     exists a e f m, n_asked n !! x = Some a /\ runs_of (u32 random) (n_log n) x = [e] /\
       s_procs s !! a_proc a = Some f /\ remaining (e_in e) (a_args a) /\
       f (e_in e) marshall_new (e_before e) = Ok (e_after e, m, ret) /\ remaining u (drop 24 (contents m))).
Proof.
  intros Hz Hf Hr. set (clt := u32 random) in *.
  assert (net_ok random mine s n /\ forall x, (times_started (n_world n) clt x <= 1)%nat) as [Hok Hst].
  { eapply (rtc_invariant (net_step (prompt clt) clt mine)
      (fun n => net_ok random mine s n /\ forall x, (times_started (n_world n) clt x <= 1)%nat)); [|exact Hr|].
    - intros n1 n2 [Hi Hle] Hst. assert (net_ok random mine s n2) as Hi' by (by eapply net_ok_step).
      split; [done|]. intros x. eapply prompt_started; [|exact Hz|exact Hi|exact Hi'|exact Hst|apply Hle]. done.
    - split; [by apply net_inv_new|]. intros x. unfold times_started. cbn. lia. }
  assert (forall x, (length (runs_of clt (n_log n) x) <= 1)%nat) as Hruns.
  { intros x. pose proof (s_count _ _ _ _ _ _ _ _ _ _ (i_server _ _ _ _ _ _ Hok) x) as Hcnt.
    specialize (Hst x). fold clt in Hcnt. lia. }
  split; [exact Hruns|]. intros x u ret Hin Ht.
  destruct (returned_answer random mine s n x u ret Hok Hin Ht) as (a & e & f & m & H1 & He & H2). exists a, e, f, m.
  split; [done|]. split; [|done]. fold clt in He. specialize (Hruns x).
  destruct (runs_of clt (n_log n) x) as [|e' [|? ?]]; [done| |cbn in Hruns; lia].
  by injection He as ->.
Qed.
End ExactlyOnce.

(** ** Methods *)
Section Methods.
Context `{Memory} {St : Type}.
Context {A R : Type} (ca : codec A) (cr : codec R) `{!Wire ca, !Wire cr}.

Lemma method_answered random mine (s : rpcs St) n x u ret a (v a0 : A) (r0 r1 : R) meth :
  net_ok random mine s n -> (x, u, ret) ∈ n_returned n -> ret <> timeout_failure ->
  n_asked n !! x = Some a -> s_procs s !! a_proc a = Some (h1_fn ca cr a0 r1 meth) -> a_args a = image ca v ->
  representable ca v -> declared ca a0 -> declared cr r0 -> marshals cr r1 meth v ->
  exists e r, head (runs_of (u32 random) (n_log n) x) = Some e /\
    meth v r1 (e_before e) = Ok (e_after e, r, ret) /\ (0 <= ret -> call_m_finish cr ret u r0 = Ok (r, ret)).
Proof.
  intros [_ Hs Ha] Hin Ht Ea Hp Hargs Hv Ha0 Hr0 Hm.
  destruct (r_returned _ _ _ _ Ha x u ret Hin) as [?|(e & He & <- & Hu)]; [done|].
  destruct (first_exec _ _ _ _ x e (s_log_ok _ _ _ _ _ _ _ _ _ _ Hs) He) as (a' & f & m & Ea' & Hp' & Hrem & Hrun & Hb).
  rewrite Ea in Ea'. injection Ea' as <-. rewrite Hp in Hp'. injection Hp' as <-. rewrite Hargs in Hrem.
  rewrite Hb in Hu. destruct (h1_answer ca cr v a0 r0 r1 meth _ _ _ _ _ u Hv Ha0 Hr0 Hm Hrem Hrun Hu) as (r & ? & ?).
  by exists e, r.
Qed.

(** A method called over an unreliable network returns what it returned on
    the server. If a call of a registered method with argument [v] has returned,
    other than with a timeout, then the method ran on the service's state with
    exactly [v] in the first run of the call's handler, its status is the call's,
    and if that is no error the caller's result variable gets exactly the
    method's result. *)
Theorem unreliable_method_call random mine (s : rpcs St) n x u ret a (v a0 : A) (r0 r1 : R) meth :
  u32 random <> 0 -> fresh s -> rtc (net_step any_request (u32 random) mine) (net_new random s) n ->
  (x, u, ret) ∈ n_returned n -> ret <> timeout_failure ->
  n_asked n !! x = Some a -> s_procs s !! a_proc a = Some (h1_fn ca cr a0 r1 meth) -> a_args a = image ca v ->
  representable ca v -> declared ca a0 -> declared cr r0 -> marshals cr r1 meth v ->
  exists e r, head (runs_of (u32 random) (n_log n) x) = Some e /\
    meth v r1 (e_before e) = Ok (e_after e, r, ret) /\ (0 <= ret -> call_m_finish cr ret u r0 = Ok (r, ret)).
Proof. intros Hz Hf Hr. by eapply method_answered, net_reachable_inv. Qed.
End Methods.

(** ** Histories to run *)
Section Run.
Context `{Memory} {St : Type}.
Variables (accept : world St -> req_header -> Prop) (accept_b : world St -> req_header -> bool).
Hypothesis accept_ok : forall w h, accept_b w h = true -> accept w h.
Variables (clt : Z) (mine : gset Z).

(** The steps with what the outside supplies fixed; messages, jobs and handlers
    by their position. *)
Inductive net_act :=
  | A_accept (conn : Z) (k : connection)
  | A_bind (x : Z)
  | A_call (proc : Z) (m : marshall) (args : bytes)
  | A_send (x : Z) (new : option (Z * connection))
  | A_request (k : nat) (conn : Z)
  | A_begin
  | A_end
  | A_reply (k : nat)
  | A_return (x : Z).

Definition found {T} (o : option T) : outcome T := match o with Some a => Ok a | None => Crash AssertFailed end.

Definition net_do (n : net St) (x : net_act) : outcome (net St) :=
  match x with
  | A_accept conn k =>
      Ok (Net (set_chan (n_client n) (k_chan (n_client n)) (k_objs (n_client n))) (n_threads n) (n_jobs n)
        (with_srv (n_world n) (with_objs (n_srv n) (<[conn := k]> (s_objs (n_srv n))))) (n_asked n) (n_log n) (n_returned n))
  | A_bind x =>
      '(_, u, ret) ← found (head (filter (fun e => e.1.1 = x) (n_returned n)));
      '(r, ret) ← call_m_finish i32_c ret u 0;
      Ok (Net (bind_finish (n_client n) r ret) (n_threads n) (n_jobs n) (n_world n) (n_asked n) (n_log n) (n_returned n))
  | A_call proc m args =>
      '(c, st) ← call1_start (n_client n) proc m to_max (Timespec 1000 0);
      match st with
      | inl _ => Crash AssertFailed
      | inr cs => Ok (called n c cs proc args)
      end
  | A_send x new =>
      cs ← found (n_threads n !! x);
      '(c, cs) ← call1_send (n_client n) cs new;
      Ok (Net c (<[x := cs]> (n_threads n)) (n_jobs n) (n_world n) (n_asked n) (n_log n) (n_returned n))
  | A_request k conn =>
      '(_, msg) ← found (k_sent (n_client n) !! k);
      '(s, j, _) ← Rpcs.got_pdu (n_srv n) conn (received msg [0; 0; 0; 0]) (zlen msg) true;
      j ← found j;
      Ok (Net (n_client n) (n_threads n) (j :: n_jobs n) (with_srv (n_world n) s) (n_asked n) (n_log n) (n_returned n))
  | A_begin =>
      match n_jobs n with
      | [] => Crash AssertFailed
      | j :: jobs =>
          h ← job_header j;
          '(s, next) ← dispatch_begin (n_srv n) j;
          Ok (Net (n_client n) (n_threads n) jobs
            (World s (match next with Some r => r :: w_running (n_world n) | None => w_running (n_world n) end)
               (match next with Some _ => job_key h :: w_started (n_world n) | None => w_started (n_world n) end)
               (job_ack h :: w_acks (n_world n))) (n_asked n) (n_log n) (n_returned n))
      end
  | A_end =>
      match w_running (n_world n) with
      | [] => Crash AssertFailed
      | r :: rs =>
          '(a, rep, ret) ← run_f r (run_req r) marshall_new (s_app (n_srv n));
          s ← dispatch_finish (with_app (n_srv n) a) r rep ret;
          Ok (Net (n_client n) (n_threads n) (n_jobs n)
            (World s rs (w_started (n_world n)) (w_acks (n_world n))) (n_asked n)
            (n_log n ++ [Exec (rq_clt_nonce (run_h r)) (u32 (rq_xid (run_h r))) (rq_proc (run_h r)) (run_req r)
               (s_app (n_srv n)) a ret (drop 24 (contents rep))]) (n_returned n))
      end
  | A_reply k =>
      '(_, msg) ← found (s_sent (n_srv n) !! k);
      '(c, _) ← got_pdu (n_client n) (received msg [0; 0; 0; 0]) (zlen msg);
      Ok (Net c (n_threads n) (n_jobs n) (n_world n) (n_asked n) (n_log n) (n_returned n))
  | A_return x =>
      cs ← found (n_threads n !! x);
      '(c, u, ret) ← call1_finish (n_client n) cs;
      Ok (Net c (delete x (n_threads n)) (n_jobs n) (n_world n) (n_asked n) (n_log n) ((x, u, ret) :: n_returned n))
  end.

(** The conditions of the steps. *)
Definition marshalled_b (m : marshall) (args : bytes) : bool :=
  match m_buf m with
  | Some b => (zlen b =? m_capa m) && (RPC_HEADER_SZ <=? m_ind m) && (m_ind m <=? m_capa m) &&
              (m_capa m <=? Z.max DEFAULT_RPC_SZ (2 * m_ind m)) && (m_ind m =? RPC_HEADER_SZ + zlen args) &&
              bool_decide (drop 24 (contents m) = args)
  | None => false
  end.
Definition act_ok (n : net St) (x : net_act) : bool :=
  match x with
  | A_bind x => match n_asked n !! x with
                | Some a => (a_proc a =? rpc_bind) && bool_decide (a_args a = image i32_c 0)
                | None => false
                end
  | A_begin => match n_jobs n with
               | j :: _ => match job_header j with Ok h => accept_b (n_world n) h | Crash _ => false end
               | [] => false
               end
  | A_end => match w_running (n_world n) with
             | r :: _ => match run_f r (run_req r) marshall_new (s_app (n_srv n)) with
                         | Ok (_, rep, ret) => marshalled_b rep (drop 24 (contents rep)) &&
                                               (m_ind rep <=? MAX_MSG) && bool_decide (is_i32 ret)
                         | Crash _ => false
                         end
             | [] => false
             end
  | A_call proc m args => (k_xid (n_client n) <? 2 ^ 31 - 1) && marshalled_b m args && (m_ind m <=? MAX_MSG) &&
                          bool_decide (is_i32 proc)
  | A_request _ conn => bool_decide (conn ∈ mine)
  | A_reply k => match s_sent (n_srv n) !! k with Some (conn, _) => bool_decide (conn ∈ mine) | None => false end
  | _ => true
  end.

Lemma marshalled_b_ok m args : marshalled_b m args = true -> marshalled m args.
Proof.
  unfold marshalled_b, marshalled, marshall_wf. destruct (m_buf m) as [b|] eqn:E; [|done].
  intros (((((H1%Z.eqb_eq & H2%Z.leb_le)%andb_true_iff & H3%Z.leb_le)%andb_true_iff & H4%Z.leb_le)%andb_true_iff
    & H5%Z.eqb_eq)%andb_true_iff & H6%bool_decide_eq_true)%andb_true_iff.
  split; [|done]. exists b. done.
Qed.

Lemma net_do_step n x n' : act_ok n x = true -> net_do n x = Ok n' -> net_step accept clt mine n n'.
Proof.
  destruct x as [conn0 k0|x|proc m args|x new|k conn| | |k|x]; cbn [act_ok net_do]; intros Hok E.
  - injection E as <-. apply n_sockets.
  - destruct (n_asked n !! x) as [a|] eqn:Ea; [|done]. apply andb_true_iff in Hok as [Hp%Z.eqb_eq Hargs%bool_decide_eq_true].
    destruct (head _) as [[[y u] ret]|] eqn:Eh; [|done]. cbn in E.
    apply head_Some_elem_of, list_elem_of_filter in Eh as [Hy Hin]. cbn in Hy. subst y.
    destruct (call_m_finish _ _ _ _) as [[r ret']|] eqn:Ef; [|done]. injection E as <-.
    by eapply (n_bind accept clt mine n x u ret a 0).
  - destruct (call1_start _ _ _ _ _) as [[c [|cs]]|] eqn:E1; [done| |done]. injection E as <-.
    apply andb_true_iff in Hok as [Hok Hp%bool_decide_eq_true]. apply andb_true_iff in Hok as [Hok Hmax%Z.leb_le].
    apply andb_true_iff in Hok as [Hx%Z.ltb_lt Hm%marshalled_b_ok]. by eapply n_call.
  - destruct (n_threads n !! x) as [cs|] eqn:E0; [|done]. cbn in E.
    destruct (call1_send _ _ _) as [[c cs']|] eqn:E1; [|done]. injection E as <-. by eapply n_send.
  - destruct (k_sent (n_client n) !! k) as [[ch msg]|] eqn:E0; [|done]. cbn in E.
    destruct (Rpcs.got_pdu _ _ _ _ _) as [[[s [j|]] ok]|] eqn:E1; [|done|done]. injection E as <-.
    eapply n_request; [by eapply list_elem_of_lookup_2|by eapply bool_decide_eq_true|exact E1].
  - destruct (n_jobs n) as [|j jobs] eqn:Ej; [done|]. destruct (job_header j) as [h|] eqn:Eh; [|done]. cbn in E, Hok.
    destruct (dispatch_begin _ _) as [[s next]|] eqn:E1; [|done]. injection E as <-.
    eapply (n_begin accept clt mine n [] j jobs); [exact Ej|exact Eh|by apply accept_ok|exact E1].
  - destruct (w_running (n_world n)) as [|r rs] eqn:Er; [done|].
    destruct (run_f r _ _ _) as [[[a rep] ret]|] eqn:Ef; [|done]. cbn in E.
    destruct (dispatch_finish _ _ _ _) as [s|] eqn:E1; [|done]. injection E as <-.
    apply andb_true_iff in Hok as [[[Hwf _]%marshalled_b_ok Hmax%Z.leb_le]%andb_true_iff Hret%bool_decide_eq_true].
    by eapply (n_end accept clt mine n [] r rs).
  - destruct (s_sent (n_srv n) !! k) as [[conn msg]|] eqn:E0; [|done]. cbn in E.
    destruct (got_pdu _ _ _) as [[c ok]|] eqn:E1; [|done]. injection E as <-.
    eapply n_reply; [by eapply list_elem_of_lookup_2|by eapply bool_decide_eq_true|exact E1].
  - destruct (n_threads n !! x) as [cs|] eqn:E0; [|done]. cbn in E.
    destruct (call1_finish _ _) as [[[c u] ret]|] eqn:E1; [|done]. injection E as <-. by eapply n_return.
Qed.

Fixpoint net_runs (n : net St) (xs : list net_act) : outcome (net St) :=
  match xs with
  | [] => Ok n
  | x :: xs => _ ← cassert (act_ok n x); n ← net_do n x; net_runs n xs
  end.

Lemma net_runs_reachable n xs n' : net_runs n xs = Ok n' -> rtc (net_step accept clt mine) n n'.
Proof.
  revert n. induction xs as [|x xs IH]; intros n; cbn [net_runs]; [by intros [= <-]|].
  destruct (act_ok n x) eqn:Hx; [|done]. cbn [cassert mbind outcome_bind].
  destruct (net_do n x) as [n1|] eqn:E; [|done]. cbn [mbind outcome_bind]. intros Hr.
  eapply rtc_l; [by eapply net_do_step|]. by apply IH.
Qed.
End Run.

Definition prompt_b {St} (clt : Z) (w : world St) (h : req_header) : bool :=
  negb (rq_clt_nonce h =? clt) || forallb (fun k => negb (k.1 =? clt) || (k.2 <? u32 (rq_xid h))) (w_acks w).
Lemma prompt_b_ok {St} clt (w : world St) h : prompt_b clt w h = true -> prompt clt w h.
Proof.
  unfold prompt_b, prompt. intros Hb Hc. rewrite Hc, Z.eqb_refl in Hb. cbn in Hb. rewrite forallb_forall in Hb.
  intros r Hr. apply list_elem_of_In, Hb in Hr. cbn in Hr. rewrite Z.eqb_refl in Hr. by apply Z.ltb_lt.
Qed.

Lemma net_step_any `{Memory} {St} accept clt mine (n n' : net St) :
  net_step accept clt mine n n' -> net_step any_request clt mine n n'.
Proof. destruct 1; [econstructor; done..|]. by econstructor. Qed.

(** Client 9 binds and then adds 6 to the total of a server. The second request
    arrives twice, the second copy while the handler runs; each reply arrives
    once. *)
Module Demo.
#[local] Existing Instance zero_memory.
Definition add (a r total : Z) : outcome (Z * Z * Z) := Ok (i32 (total + a), i32 (total + a), 0).
Definition bound : rpcs Z :=
  match rpcs_start 77 0 0 0 0 with Ok s => s | Crash _ => rpcs_new 77 0 0 end.
Definition server : rpcs Z :=
  with_objs (with_procs bound (<[5 := h1_fn i32_c i32_c 0 0 add]> (s_procs bound))) {[4 := incref (connection_new 3 0)]}.
Definition args (a : Z) : marshall := match call_args1 i32_c a with Ok m => m | Crash _ => marshall_new end.
Definition history : list net_act :=
  [A_call rpc_bind (args 0) (be32 0); A_send 1 (Some (2, connection_new 7 0)); A_request 0 4; A_begin; A_end; A_reply 0;
   A_return 1; A_bind 1;
   A_call 5 (args 6) (be32 6); A_send 2 None; A_request 1 4; A_request 1 4; A_begin; A_begin; A_end; A_reply 1;
   A_return 2].
Definition final : net Z :=
  match net_runs (prompt_b 9) {[4]} (net_new 9 server) history with Ok n => n | Crash _ => net_new 9 server end.

Lemma net_final_prompt : rtc (net_step (prompt 9) 9 {[4]}) (net_new 9 server) final.
Proof.
  assert (is_ok (net_runs (prompt_b 9) {[4]} (net_new 9 server) history) = true) as Hok by (vm_compute; reflexivity).
  unfold final. revert Hok. generalize (net_new 9 server) history. intros n xs Hok.
  destruct (net_runs (prompt_b 9) {[4]} n xs) as [n'|] eqn:E; [|done]. eapply net_runs_reachable; [|exact E].
  apply prompt_b_ok.
Qed.
Lemma net_final_reachable : rtc (net_step any_request 9 {[4]}) (net_new 9 server) final.
Proof. eapply rtc_subrel; [|exact net_final_prompt]. intros n n'. apply net_step_any. Qed.

(** The request of call 2 is delivered twice. The second copy is still in the queue
    when call 3, which acknowledges call 2, is delivered after it; another pool
    thread starts call 3 first, and then the copy is taken for a new request. *)
Definition overtaking : list net_act :=
  [A_call rpc_bind (args 0) (be32 0); A_send 1 (Some (2, connection_new 7 0)); A_request 0 4; A_begin; A_end; A_reply 0;
   A_return 1; A_bind 1;
   A_call 5 (args 6) (be32 6); A_send 2 None; A_request 1 4; A_begin; A_end; A_reply 1; A_request 1 4; A_return 2;
   A_call 5 (args 1) (be32 1); A_send 3 None; A_request 2 4; A_begin; A_end; A_begin; A_end].
Lemma add_marshals : marshals i32_c 0 add 6.
Proof. intros s s' r b [= <- <- <-]. split; [apply i32_range|]. done. Qed.

Lemma server_procs :
  s_procs server !! rpc_bind = Some (h1_fn i32_c i32_c 0 0 (rpcbind 77)) /\
  s_procs server !! 5 = Some (h1_fn i32_c i32_c 0 0 add).
Proof.
  split; [|apply (lookup_insert_eq (M := gmap Z))].
  unfold server. cbn [s_procs with_objs with_procs]. rewrite (lookup_insert_ne (M := gmap Z)) by done. reflexivity.
Qed.

Lemma server_fresh : fresh server.
Proof.
  assert (is_u32 77) as Hn by done. assert (declared i32_c 0) as H0 by done.
  do 3 (split; [reflexivity|]). split; [exact Hn|]. exists 0, 0. split; [exact H0|apply server_procs].
Qed.
End Demo.

#[local] Existing Instance zero_memory.
Example late_start_runs_twice :
  exists n, rtc (net_step any_request 9 {[4]}) (net_new 9 Demo.server) n /\
    length (runs_of 9 (n_log n) 2) = 2%nat /\ s_app (n_srv n) = 13.
Proof.
  assert (match net_runs (fun _ _ => true) {[4]} (net_new 9 Demo.server) Demo.overtaking with
          | Ok n => length (runs_of 9 (n_log n) 2) = 2%nat /\ s_app (n_srv n) = 13
          | Crash _ => False end) as Hn by (vm_compute; split; reflexivity).
  revert Hn. generalize (net_new 9 Demo.server) Demo.overtaking. intros n0 xs Hn.
  destruct (net_runs (fun _ _ => true) {[4]} n0 xs) as [n|] eqn:E; [|done].
  exists n. split; [|exact Hn]. by eapply net_runs_reachable, E.
Qed.

Lemma exactly_once_answers_witness :
  map snd (n_returned Demo.final) = [0; 0] /\ s_app (n_srv Demo.final) = 6 /\
  k_srv_nonce (n_client Demo.final) = 77 /\ length (w_acks (n_world Demo.final)) = 3%nat /\
  ran (s_app Demo.server) (n_log Demo.final) (s_app (n_srv Demo.final)).
Proof.
  do 4 (split; [vm_compute; reflexivity|]).
  destruct (exactly_once_answers 9 {[4]} Demo.server Demo.final) as (_ & _ & Hran).
  - done.
  - exact Demo.server_fresh.
  - exact Demo.net_final_reachable.
  - exact Hran.
Defined.

Lemma unreliable_method_call_witness :
  exists u e l, n_returned Demo.final = (2, u, 0) :: l /\
    Demo.add 6 0 (e_before e) = Ok (e_after e, 6, 0) /\ call_m_finish i32_c 0 u 0 = Ok (6, 0).
Proof.
  assert (representable i32_c 6 /\ declared i32_c 0) as [H6 H0] by done.
  destruct (n_returned Demo.final) as [|[[x u] ret] l] eqn:E; [by vm_compute in E|].
  assert (x = 2 /\ ret = 0 /\ call_m_finish i32_c 0 u 0 = Ok (6, 0)) as (-> & -> & E6).
  { vm_compute in E. injection E as <- <- <- _. vm_compute. split; [reflexivity|split; reflexivity]. }
  assert (exists a, n_asked Demo.final !! 2 = Some a /\ a_proc a = 5 /\ a_args a = be32 6) as (a & Ea & Hp & Hargs).
  { assert (a_proc <$> n_asked Demo.final !! 2 = Some 5) as H5 by (vm_compute; reflexivity).
    assert (a_args <$> n_asked Demo.final !! 2 = Some (be32 6)) as Hb by (vm_compute; reflexivity).
    apply fmap_Some in H5 as (a & Ea & Hp). rewrite Ea in Hb. injection Hb as Hb. exists a.
    split; [exact Ea|]. split; [exact (eq_sym Hp)|exact Hb]. }
  assert (s_procs Demo.server !! a_proc a = Some (h1_fn i32_c i32_c 0 0 Demo.add)) as Hproc
    by (rewrite Hp; apply Demo.server_procs).
  destruct (unreliable_method_call i32_c i32_c 9 {[4]} Demo.server Demo.final 2 u 0 a 6 0 0 0 Demo.add)
    as (e & r & _ & Hm & Hr).
  - done.
  - exact Demo.server_fresh.
  - exact Demo.net_final_reachable.
  - rewrite E. apply list_elem_of_here.
  - done.
  - exact Ea.
  - exact Hproc.
  - exact Hargs.
  - exact H6.
  - exact H0.
  - exact H0.
  - exact Demo.add_marshals.
  - exists u, e, l. assert (r = 6) as ->; [|split; [reflexivity|split; [exact Hm|exact E6]]].
    rewrite (Hr ltac:(lia)) in E6. by injection E6.
Defined.

Lemma prompt_exactly_once_witness :
  exists u, (2, u, 0) ∈ n_returned Demo.final /\ exists e, runs_of 9 (n_log Demo.final) 2 = [e].
Proof.
  destruct (n_returned Demo.final) as [|[[x u] ret] l] eqn:E; [by vm_compute in E|].
  assert (x = 2 /\ ret = 0) as (-> & ->) by (vm_compute in E; injection E as <- _ <- _; split; reflexivity).
  destruct (prompt_exactly_once 9 {[4]} Demo.server Demo.final) as (_ & Hret).
  - done.
  - exact Demo.server_fresh.
  - exact Demo.net_final_prompt.
  - exists u. split; [apply list_elem_of_here|].
    destruct (Hret 2 u 0) as (a & e & f & m & _ & Hr & _); [rewrite E; apply list_elem_of_here|done|].
    exists e. exact Hr.
Defined.
