(* ===== verification/RpcTest.v ===== *)
(** * The RPC library's own test: rpc/rpctest.cc

    The test's service and its checks as programs over the models of the
    library; its assertions are proved to hold. testmarshall is run as it is.
    simple_tests is in two parts: [simple_tests], on the bound client, and
    [timeout_test], its last step, a call to a server that does not exist.
    failure_test is modelled from the restart of the server to the first call of
    the new client. *)

From S2P Require Import Prelude Marshall XidWindow TimeSpec Connection Rpcs Serve Rpcc Stubs Remote Session Effects CallLoop.
Local Open Scope Z_scope.

(** ** The service

    class srv has no state. The list of the methods that have run, the last one
    first, is there for the theorems only. *)
Definition runs : Type := list Z.
Definition handle_22 (a b r : bytes) (s : runs) : outcome (runs * bytes * Z) := Ok (22 :: s, a ++ b, 0).
Definition handle_fast (a r : Z) (s : runs) : outcome (runs * Z * Z) :=
  r ← int_of (a + 1); Ok (23 :: s, r, 0).
Definition handle_slow (a r : Z) (s : runs) : outcome (runs * Z * Z) :=
  r ← int_of (a + 2); Ok (24 :: s, r, 0).
(** [std::string(len, 'x')]: a negative [int] is a length no string has. *)
Definition handle_bigrep (len : Z) (r : bytes) (s : runs) : outcome (runs * bytes * Z) :=
  if len <? 0 then Crash UncaughtException else Ok (25 :: s, replicate (Z.to_nat len) 120, 0).

Section Tests.
Context `{Memory} `{Environment} (junk : Z).

Definition startserver (random : Z) : outcome (rpcs runs) :=
  server ← rpcs_start random 0 junk junk [];
  server ← reg1 server 22 (h1_fn2 string_c string_c string_c [] [] [] handle_22);
  server ← reg1 server 23 (h1_fn i32_c i32_c junk junk handle_fast);
  server ← reg1 server 24 (h1_fn i32_c i32_c junk junk handle_slow);
  reg1 server 25 (h1_fn i32_c string_c junk [] handle_bigrep).

Definition testmarshall : outcome unit :=
  let m := marshall_new in
  let rh := mk_req_header 1 2 3 4 5 in
  m ← marshall_pack_req_header m rh;
  _ ← cassert (marshall_size m =? RPC_HEADER_SZ);
  let i := 12345 in
  let l := 1223344455 in
  let s := str "hallo...." in
  m ← put_i32 m i;
  m ← put_u64 m l;
  m ← put_string m s;
  let '((b, sz), _) := marshall_take_buf m in
  _ ← cassert (sz =? RPC_HEADER_SZ + 4 + 8 + zlen s + 4);
  match b with
  | None => Crash NullDereference
  | Some b =>
      let un := unmarshall_new b sz in
      '(un, rh1) ← unmarshall_unpack_req_header un;
      _ ← cassert (bool_decide (rh = rh1));
      '(un, i1) ← get_i32 un junk;
      '(un, l1) ← get_u64 un junk;
      '(un, s1) ← get_string un [];
      _ ← cassert (unmarshall_okdone un);
      cassert ((i1 =? i) && (l1 =? l) && bool_decide (s1 = s))
  end.

(** simple_tests(c), up to and with the "huge RPC" *)
Definition simple_tests (c : link runs) : outcome (link runs) :=
  '(c, rep, intret) ← call2 string_c string_c string_c c 22 (str "hello") (str " goodbye") [] to_max;
  _ ← cassert (intret =? 0);
  _ ← cassert (bool_decide (rep = str "hello goodbye"));
  '(c, rep, intret) ← call1 i32_c string_c c 25 70000 rep 200000;
  _ ← cassert (intret =? 0);
  _ ← cassert (zlen rep =? 70000);
  '(c, rep, intret) ← call1 string_c string_c c 22 (str "just one") rep to_max;
  _ ← cassert (intret <? 0);
  '(c, rep, intret) ← call2 i32_c i32_c string_c c 23 1001 1002 rep to_max;
  _ ← cassert (intret <? 0);
  '(c, wrongrep, intret) ← call2 string_c string_c i32_c c 23 (str "hello") (str " goodbye") junk to_max;
  _ ← cassert (intret <? 0);
  '(c, xx, intret) ← call1 i32_c i32_c c 23 77 0 3000;
  _ ← cassert ((intret =? 0) && (xx =? 78));
  '(c, rep1, _) ← call2 string_c string_c string_c c 22 (replicate (Z.to_nat 1000) 120) (str "x") [] 3000;
  _ ← cassert (zlen rep1 =? 1001);
  '(c, rep, intret) ← call2 string_c string_c string_c c 22 (replicate (Z.to_nat 1000000) 120) (str "z") rep to_max;
  _ ← cassert (zlen rep =? 1000001);
  Ok c.

(** The last step of simple_tests: bind with a time-out to a server that does not
    exist. [t0] and [t1 t] are the clock at the two calls of time(0), the second
    one when the last wait of call1 has ended at [t]; [None] while call1 runs. *)
Definition timeout_test (W : surroundings) (fuel : nat) (random : Z) (t0 now : timespec)
    (t1 : timespec -> timespec) : outcome (option rpcc) :=
  m ← call_args1 i32_c 0;
  '(c1, st) ← call1_start (rpcc_new true random) rpc_bind m 3000 now;
  let ends c1 intret t := _ ← cassert ((intret <? 0) && (tv_sec (t1 t) - tv_sec t0 <=? 4)); Ok (Some c1) in
  match st with
  | inl intret => ends c1 intret now
  | inr cs =>
      r ← call1_rest W fuel now c1 cs;
      match r with
      | None => Ok None
      | Some (c1, u, intret, ts) =>
          '(r, intret) ← call_m_finish i32_c intret u junk;
          ends (bind_finish c1 r intret) intret (List.last ts now)
      end
  end.

(** The two loops of client1, run by itself; the arguments are what random()
    gives. *)
Fixpoint client1_big (c : link runs) (args : list Z) : outcome (link runs) :=
  match args with
  | [] => Ok c
  | r :: args =>
      let arg := r mod 2000 in
      '(c, rep, ret) ← call1 i32_c string_c c 25 arg [] to_max;
      _ ← cassert (ret =? 0);
      _ ← cassert (zlen rep =? arg);
      client1_big c args
  end.
Fixpoint client1_int (c : link runs) (args : list (Z * Z)) : outcome (link runs) :=
  match args with
  | [] => Ok c
  | (r1, r2) :: args =>
      let which := negb (r1 mod 2 =? 0) in
      let arg := r2 mod 1000 in
      '(c, rep, ret) ← call1 i32_c i32_c c (if which then 23 else 24) arg junk to_max;
      _ ← cassert (ret =? 0);
      _ ← cassert (rep =? if which then arg + 1 else arg + 2);
      client1_int c args
  end.
Definition client1 (c : link runs) (args : list Z) (args2 : list (Z * Z)) : outcome (link runs) :=
  c ← client1_big c args; client1_int c args2.

(** The listener accepts a connection. *)
Definition accept (s : rpcs runs) (conn fd : Z) : rpcs runs :=
  with_objs s (<[conn := connection_new fd 0]> (s_objs s)).

(** failure_test from startserver(): the old client reaches the new server on
    its connection [conn]; then a new client on [env_conn]. *)
Definition failure_test (client : rpcc) (random conn fd fd' clt : Z) (new new' : option (Z * connection))
    : outcome (link runs) :=
  server ← startserver random;
  let server := accept server conn fd in
  m ← call_args2 string_c string_c (str "hello") (str " goodbye");
  '(client, server, rep, intret) ← exchange string_c client server conn new (env_junk (k_xid client))
                                (env_clock (k_xid client)) 22 m [] to_max;
  _ ← cassert (intret =? oldsrv_failure);
  _ ← rpcc_delete client;
  '(c, r) ← bind (rpcc_new true clt) (accept server env_conn fd') new' junk to_max;
  _ ← cassert (0 <=? r);
  '(c, r) ← bind (l_client c) (l_server c) None junk to_max;
  _ ← cassert (r <? 0);
  '(c, rep, intret) ← call2 string_c string_c string_c c 22 (str "hello") (str " goodbye") rep to_max;
  _ ← cassert (intret =? 0);
  _ ← cassert (bool_decide (rep = str "hello goodbye"));
  Ok c.
End Tests.

(** ** The service under test *)
Section Passing.
Context `{Memory} `{Environment} (junk : Z).

Definition registered (s : rpcs runs) : Prop :=
  s_procs s !! 22 = Some (h1_fn2 string_c string_c string_c [] [] [] handle_22) /\
  s_procs s !! 23 = Some (h1_fn i32_c i32_c junk junk handle_fast) /\
  s_procs s !! 24 = Some (h1_fn i32_c i32_c junk junk handle_slow) /\
  s_procs s !! 25 = Some (h1_fn i32_c string_c junk [] handle_bigrep).

Definition testable (n : nat) (c : link runs) : Prop := session n c /\ registered (l_server c).

Lemma testable_next n c c' :
  registered (l_server c) -> session n c' -> s_procs (l_server c') = s_procs (l_server c) -> testable n c'.
Proof. intros Hr Hs Hp. split; [done|]. unfold registered in *. by rewrite Hp. Qed.

Lemma image_string_length s : zlen (image string_c s) = 4 + zlen s.
Proof. cbn [image string_wire]. by rewrite zlen_app. Qed.

Lemma call22_ok n c a b rep to :
  testable (S n) c -> 0 <= to -> 32 + zlen a + zlen b <= MAX_PDU ->
  exists c', call2 string_c string_c string_c c 22 a b rep to = Ok (c', a ++ b, 0) /\ testable n c' /\
    s_app (l_server c') = 22 :: s_app (l_server c).
Proof.
  intros [Hs Hr] Hto Hl. pose proof (zlen_nonneg a). pose proof (zlen_nonneg b). rewrite MAX_PDU_val in Hl.
  destruct (call2_ok string_c string_c string_c n c 22 a [] b [] (a ++ b) rep [] handle_22 (22 :: s_app (l_server c)) 0 to)
    as (c' & E & Hs' & Happ & Hp);
    [exact Hs|unfold is_i32; lia|done|apply Hr|exact Hto|cbn; lia|cbn; lia|done|done|done| |done| lia
    |cbn; rewrite zlen_app; lia| |exists c'; split; [exact E|split; [by apply (testable_next n c)|exact Happ]]];
    rewrite MAX_PDU_val, ?image_string_length, ?zlen_app; change RPC_HEADER_SZ with 24; lia.
Qed.

Lemma call_int_ok {R} (cr : codec R) `{!Wire cr} n c proc meth a (r r0 r1 : R) app to :
  testable (S n) c -> s_procs (l_server c) !! proc = Some (h1_fn i32_c cr junk r1 meth) ->
  is_i32 proc -> proc <> rpc_bind -> 0 <= to -> is_i32 a -> declared cr r0 ->
  meth a r1 (s_app (l_server c)) = Ok (app, r, 0) -> representable cr r -> RPC_HEADER_SZ + zlen (image cr r) <= MAX_PDU ->
  exists c', call1 i32_c cr c proc a r0 to = Ok (c', r, 0) /\ testable n c'.
Proof.
  intros [Hs Hr] Hproc H1 H2 Hto Ha Hr0 Hm Hrr Hl.
  destruct (call1_ok i32_c cr n c proc a junk r r0 r1 meth app 0 to) as (c' & E & Hs' & _ & Hp);
    [exact Hs|done|done|exact Hproc|exact Hto|exact Ha|done|exact Hr0|by vm_compute|exact Hm|lia|exact Hrr|exact Hl|].
  exists c'. split; [exact E|by apply (testable_next n c)].
Qed.

Lemma call25_ok n c len rep to :
  testable (S n) c -> 0 <= to -> 0 <= len <= 1000000 ->
  exists c' rep', call1 i32_c string_c c 25 len rep to = Ok (c', rep', 0) /\ zlen rep' = len /\ testable n c'.
Proof.
  intros Hc Hto Hl.
  assert (zlen (replicate (Z.to_nat len) 120) = len) as Hz by (unfold zlen; rewrite length_replicate; lia).
  destruct (call_int_ok string_c n c 25 handle_bigrep len (replicate (Z.to_nat len) 120) rep [] (25 :: s_app (l_server c)) to)
    as (c' & E & Hc'); try done; [apply Hc| | | | |by eexists _, _].
  - unfold is_i32. lia.
  - unfold handle_bigrep. by rewrite (proj2 (Z.ltb_ge _ _)) by lia.
  - cbn [representable string_wire]. lia.
  - rewrite image_string_length, Hz, MAX_PDU_val. change RPC_HEADER_SZ with 24. lia.
Qed.

Lemma call_arith_ok n c (fast : bool) a r0 to :
  testable (S n) c -> 0 <= to -> is_i32 a -> a < 2 ^ 31 - 2 ->
  exists c', call1 i32_c i32_c c (if fast then 23 else 24) a r0 to
    = Ok (c', a + (if fast then 1 else 2), 0) /\ testable n c'.
Proof.
  intros Hc Hto Ha Hl. unfold is_i32 in Ha.
  apply (call_int_ok i32_c n c _ (if fast then handle_fast else handle_slow) a _ r0 junk
    ((if fast then 23 else 24) :: s_app (l_server c))); try done.
  - destruct fast; apply Hc.
  - destruct fast; unfold is_i32; lia.
  - by destruct fast.
  - destruct fast; unfold handle_fast, handle_slow; rewrite int_of_small by (unfold is_i32; lia); done.
  - destruct fast; cbn; unfold is_i32; lia.
Qed.

(** A call whose arguments the handler refuses. *)
Lemma call_refused {R} (cr : codec R) n c proc m args f r0 to :
  testable (S n) c -> is_i32 proc -> proc <> rpc_bind -> s_procs (l_server c) !! proc = Some f -> 0 <= to ->
  marshalled m args -> RPC_HEADER_SZ + zlen args <= MAX_PDU ->
  serves f args (s_app (l_server c)) (s_app (l_server c)) [] unmarshal_args_failure ->
  exists c', call_m cr c proc m r0 to = Ok (c', r0, unmarshal_args_failure) /\ testable n c'.
Proof.
  intros [Hs Hr] H1 H2 Hf Hto Hm Hl Hserve.
  destruct (call_m_ok cr n c proc m args f (s_app (l_server c)) [] unmarshal_args_failure r0 r0
    unmarshal_args_failure to) as (c' & E & Hs' & _ & Hp);
    [exact Hs|exact H1|exact H2|exact Hf|exact Hto|exact Hm|exact Hl|exact Hserve|by right|by vm_compute|done|].
  exists c'. split; [exact E|by apply (testable_next n c)].
Qed.

(** Arguments left over, and a missing second string. *)
Lemma leftover_not_done u rest : remaining u rest -> rest <> [] -> unmarshall_okdone u = false.
Proof.
  intros (b & _ & Hok & Hi & _ & _ & E) Hne. unfold unmarshall_okdone. rewrite Hok.
  rewrite (proj2 (Z.eqb_neq _ _)); [done|]. intros Heq. by rewrite Heq, Z.sub_diag in E.
Qed.

Lemma refuses_leftover {R} (cr : codec R) r0 meth x rest (s : runs) :
  is_i32 x -> rest <> [] ->
  serves (h1_fn i32_c cr junk r0 meth) (be32 x ++ rest) s s [] unmarshal_args_failure.
Proof.
  intros Hx Hne. apply h1_fn_serves_bad_args. intros u Hu.
  destruct (reads_i32 x junk Hx u rest Hu) as (u' & E & Hu').
  exists u', x. split; [exact E|]. by apply (leftover_not_done u' rest).
Qed.

Lemma get_string_empty u d :
  remaining u [] -> exists u', get_string u d = Ok (u', d) /\ unmarshall_okdone u' = false.
Proof.
  intros (b & Hb & Hok & Hi & Hs & H31 & E).
  assert (u_ind u = u_sz u) as Heq.
  { apply (f_equal length) in E. rewrite length_take, length_drop in E. unfold zlen in Hs. cbn in E. lia. }
  assert (forall v, u_sz v <= u_ind v -> unmarshall_rawbyte v = Ok (Unmarshall (u_buf v) (u_sz v) (u_ind v) false, 0)) as Hraw.
  { intros v Hv. unfold unmarshall_rawbyte. by rewrite (proj2 (Z.leb_le _ _)). }
  unfold get_string, get_u32.
  do 4 (rewrite Hraw by (cbn [u_sz u_ind]; lia); cbn [mbind outcome_bind u_buf u_sz u_ind]).
  cbn [u_ok]. eexists. split; [reflexivity|done].
Qed.

Lemma refuses_one_string a (s : runs) :
  zlen a < 2 ^ 31 ->
  serves (h1_fn2 string_c string_c string_c [] [] [] handle_22) (image string_c a) s s [] unmarshal_args_failure.
Proof.
  intros Ha. eapply serves_ext; [intros; apply h1_fn2_tuple|].
  apply h1_fn_serves_bad_args. intros u Hu. rewrite <- (app_nil_r (image string_c a)) in Hu.
  destruct (reads_string a [] Ha u [] Hu) as (u1 & E1 & Hu1).
  destruct (get_string_empty u1 [] Hu1) as (u2 & E2 & Hu2).
  exists u2, (a, []). split; [|exact Hu2]. cbn [get pair_c string_c fst snd].
  cbn beta in E1, E2. rewrite E1. cbn [mbind outcome_bind]. by rewrite E2.
Qed.

(** The three calls that must fail. *)
Lemma too_few_args n c rep to :
  testable (S n) c -> 0 <= to ->
  exists c', call1 string_c string_c c 22 (str "just one") rep to = Ok (c', rep, unmarshal_args_failure) /\
    testable n c'.
Proof.
  intros Hc Hto. destruct (call_args1_ok string_c (str "just one")) as (m & Em & Hm); [done|by vm_compute|].
  unfold call1. rewrite Em. cbn [mbind outcome_bind].
  apply (call_refused string_c n c 22 m (image string_c (str "just one"))
    (h1_fn2 string_c string_c string_c [] [] [] handle_22)); [exact Hc|done|done|apply Hc|exact Hto|exact Hm|by vm_compute|].
  by apply refuses_one_string.
Qed.

Lemma too_many_args {A B R} (ca : codec A) (cb : codec B) (cr : codec R) `{!Wire ca, !Wire cb}
    n c a b x rest (r0 : R) to :
  testable (S n) c -> 0 <= to -> representable ca a -> representable cb b ->
  image ca a ++ image cb b = be32 x ++ rest -> is_i32 x -> rest <> [] ->
  RPC_HEADER_SZ + zlen (be32 x ++ rest) <= MAX_PDU ->
  exists c', call2 ca cb cr c 23 a b r0 to = Ok (c', r0, unmarshal_args_failure) /\ testable n c'.
Proof.
  intros Hc Hto Ha Hb Himg Hx Hne Hl.
  destruct (call_args1_ok (pair_c ca cb) (a, b)) as (m & Em & Hm);
    [done|cbn [image pair_wire fst snd]; by rewrite Himg|].
  cbn [image pair_wire fst snd] in Hm. rewrite Himg in Hm.
  unfold call2. rewrite call_args2_tuple. unfold call_args1 in Em. rewrite Em. cbn [mbind outcome_bind].
  apply (call_refused cr n c 23 m (be32 x ++ rest) (h1_fn i32_c i32_c junk junk handle_fast));
    [exact Hc|done|done|apply Hc|exact Hto|exact Hm|exact Hl|].
  by apply refuses_leftover.
Qed.

(** The successful calls of simple_tests, then the three refused ones. *)
Lemma simple_tests_ok n c : testable (8 + n) c -> exists c', simple_tests junk c = Ok c' /\ testable n c'.
Proof.
  intros Hc. unfold simple_tests.
  assert (forall k : Z, 0 <= k -> zlen (replicate (Z.to_nat k) 120) = k) as Hx
    by (intros k Hk; unfold zlen; rewrite length_replicate; lia).
  pose proof (Hx 1000 ltac:(lia)) as Hkilo. pose proof (Hx 1000000 ltac:(lia)) as Hmega. clear Hx.
  generalize dependent (replicate (Z.to_nat 1000) 120). intros kilo Hkilo.
  generalize dependent (replicate (Z.to_nat 1000000) 120). intros mega Hmega.
  destruct (call22_ok _ c (str "hello") (str " goodbye") [] to_max Hc) as (c1 & -> & Hc1 & _); [done|by vm_compute|].
  cbn [mbind outcome_bind cassert Z.eqb]. rewrite bool_decide_true by done. cbn [mbind outcome_bind cassert].
  destruct (call25_ok _ c1 70000 (str "hello" ++ str " goodbye") 200000 Hc1) as (c2 & rep & -> & Hrep & Hc2); [done|lia|].
  cbn [mbind outcome_bind cassert Z.eqb].
  rewrite (proj2 (Z.eqb_eq (zlen rep) 70000)) by exact Hrep.
  cbn [mbind outcome_bind cassert].
  destruct (too_few_args _ c2 rep to_max Hc2) as (c3 & -> & Hc3); [done|].
  cbn [mbind outcome_bind cassert Z.ltb Z.compare unmarshal_args_failure].
  destruct (too_many_args i32_c i32_c string_c _ c3 1001 1002 1001 (be32 1002) rep to_max Hc3)
    as (c4 & -> & Hc4); [done|unfold representable; cbn; unfold is_i32; lia|cbn; unfold is_i32; lia
    |reflexivity|unfold is_i32; lia|done|by vm_compute|].
  cbn [mbind outcome_bind cassert Z.ltb Z.compare unmarshal_args_failure].
  destruct (too_many_args string_c string_c i32_c _ c4 (str "hello") (str " goodbye") 5
    (str "hello" ++ image string_c (str " goodbye")) junk to_max Hc4)
    as (c5 & -> & Hc5); [done|done|done|reflexivity|unfold is_i32; lia|done|by vm_compute|].
  cbn [mbind outcome_bind cassert Z.ltb Z.compare unmarshal_args_failure].
  destruct (call_arith_ok _ c5 true 77 0 3000 Hc5) as (c6 & -> & Hc6); [done|unfold is_i32; lia|lia|].
  cbn [mbind outcome_bind cassert Z.eqb Z.add Pos.add Pos.add_carry Pos.succ Pos.eqb andb].
  destruct (call22_ok _ c6 kilo (str "x") [] 3000 Hc6) as (c7 & -> & Hc7 & _); [done| |].
  { rewrite Hkilo, MAX_PDU_val. change (zlen (str "x")) with 1. lia. }
  cbn [mbind outcome_bind].
  rewrite zlen_app, Hkilo. cbn [cassert mbind outcome_bind].
  destruct (call22_ok _ c7 mega (str "z") rep to_max Hc7) as (c8 & -> & Hc8 & _); [done| |].
  { rewrite Hmega, MAX_PDU_val. change (zlen (str "z")) with 1. lia. }
  cbn [mbind outcome_bind].
  rewrite zlen_app, Hmega. exists c8. split; [reflexivity|exact Hc8].
Qed.

Lemma client1_big_ok args : forall n c, testable (length args + n) c ->
  exists c', client1_big c args = Ok c' /\ testable n c'.
Proof.
  induction args as [|r args IH]; intros n c Hc; [by exists c|]. cbn [client1_big].
  pose proof (Z.mod_pos_bound r 2000 ltac:(lia)) as Hr.
  destruct (call25_ok _ c (r mod 2000) [] to_max Hc) as (c' & rep & -> & Hrep & Hc'); [done|lia|].
  cbn [mbind outcome_bind cassert Z.eqb]. rewrite Hrep, Z.eqb_refl. cbn [mbind outcome_bind cassert].
  by apply IH.
Qed.

Lemma client1_int_ok args : forall n c, testable (length args + n) c ->
  exists c', client1_int junk c args = Ok c' /\ testable n c'.
Proof.
  induction args as [|[r1 r2] args IH]; intros n c Hc; [by exists c|]. cbn [client1_int].
  pose proof (Z.mod_pos_bound r2 1000 ltac:(lia)) as Hr.
  destruct (call_arith_ok _ c (negb (r1 mod 2 =? 0)) (r2 mod 1000) junk to_max Hc) as (c' & -> & Hc');
    [done|unfold is_i32; lia|lia|].
  cbn [mbind outcome_bind cassert Z.eqb].
  assert (r2 mod 1000 + (if negb (r1 mod 2 =? 0) then 1 else 2)
    = if negb (r1 mod 2 =? 0) then r2 mod 1000 + 1 else r2 mod 1000 + 2) as -> by (by destruct (negb _)).
  rewrite Z.eqb_refl. cbn [mbind outcome_bind cassert]. by apply IH.
Qed.

(** ** From the start *)
Lemma startserver_ok random :
  exists s, startserver junk random = Ok s /\ registered s /\
    s_procs s !! rpc_bind = Some (h1_fn i32_c i32_c junk junk (rpcbind (s_nonce s))) /\
    s_nonce s = u32 random /\ s_conns s = ∅ /\ s_reply_window s = ∅ /\ s_sent s = [] /\ s_app s = [].
Proof.
  unfold startserver, rpcs_start, reg1.
  cbn [s_procs rpcs_new mbind outcome_bind with_procs s_nonce].
  change (i32 rpc_bind) with rpc_bind. change (i32 22) with 22. change (i32 23) with 23.
  change (i32 24) with 24. change (i32 25) with 25.
  repeat (rewrite ?lookup_empty; rewrite ?lookup_insert_ne by done;
          cbn [s_procs mbind outcome_bind with_procs s_nonce]).
  eexists. split; [reflexivity|].
  unfold registered. cbn [s_procs s_nonce s_conns s_reply_window s_sent s_app with_procs].
  split_and!; try reflexivity;
    try (repeat first [rewrite lookup_insert_eq; reflexivity | rewrite lookup_insert_ne by done]).
Qed.

Lemma accept_live s conn fd : live (accept s conn fd) conn 1.
Proof.
  exists (connection_new fd 0). unfold accept. cbn [s_objs with_objs]. by rewrite lookup_insert_eq.
Qed.

(** A new client binds to a server that has seen none. *)
Lemma bind_testable s fd clt new :
  registered s -> s_procs s !! rpc_bind = Some (h1_fn i32_c i32_c junk junk (rpcbind (s_nonce s))) ->
  is_u32 (s_nonce s) -> s_conns s = ∅ -> s_reply_window s = ∅ -> connects new ->
  exists c, bind (rpcc_new true clt) (accept s env_conn fd) new junk to_max = Ok (c, 0) /\
    k_bind_done (l_client c) = true /\ s_app (l_server c) = s_app s /\
    forall n, Z.of_nat n <= 2 ^ 31 - 2 -> testable n c.
Proof.
  intros Hr Hb Hn Hc Hw Hnew.
  destruct (bind_ok true clt (accept s env_conn fd) new junk junk junk to_max) as (c & E & Hs & Happ & Hp);
    [exact Hb|exact Hn|exact Hnew|apply accept_live|done| |].
  - right. unfold accept. cbn [s_conns s_reply_window with_objs]. rewrite Hc, Hw. split; apply lookup_empty.
  - exists c. split; [exact E|]. split; [apply (ss_bound 0), Hs; lia|]. split; [exact Happ|].
    intros n Hn'. split; [by apply Hs|]. unfold registered in *. rewrite Hp. exact Hr.
Qed.

(** Nobody answers, and what happens outside the waits takes less than a second. *)
Definition within_a_second (late : Z) (t0 now : timespec) (t1 : timespec -> timespec) : Prop :=
  valid t0 /\ exists before after, 0 <= before /\ before + late + after < 10 ^ 9 /\
    total t0 <= total now <= total t0 + before /\ forall t, valid (t1 t) /\ total (t1 t) <= total t + after.

Lemma timeout_test_ok W late random t0 now t1 :
  unanswering W late -> valid now -> 0 < tv_sec now -> within_a_second late t0 now t1 ->
  exists c, timeout_test junk W 22 random t0 now t1 = Ok (Some c).
Proof.
  intros HW Hv Hsec ([Hv0 Hv0'] & before & after & Hb & Hd & Hnow & Ht1). unfold timeout_test.
  destruct (call_args1_ok i32_c 0) as (m & -> & Hwf & Hm & _); [by vm_compute|by vm_compute|]. cbn [mbind outcome_bind].
  assert (m_ind m <= MAX_MSG) as Hmax by (rewrite Hm; by vm_compute).
  destruct (call1_start_ok (rpcc_new true random) rpc_bind m 3000 now) as (c1 & m' & f & fr & E & _);
    [by right|exact Hwf|exact Hmax|apply window_init_ok|exact Hv|lia|].
  rewrite E. cbn [mbind outcome_bind].
  edestruct (call_times_out (rpcc_new true random) c1 rpc_bind 3000 m now) as (c' & u & ts & t & -> & _ & Ht);
    [exact Hv|exact Hsec|lia|unfold is_u32; cbn; lia|exact Hwf|exact Hmax|apply window_init_ok|intros i Hi; cbn in Hi; lia
    |exact E|exact HW|destruct Hv; change (3000 mod 1000) with 0; lia|].
  cbn [mbind outcome_bind]. change (call_m_finish i32_c timeout_failure u junk) with (Ok (junk, timeout_failure)).
  cbn [mbind outcome_bind]. rewrite List.last_last. change (timeout_failure <? 0) with true. cbn [andb].
  rewrite (proj2 (Z.leb_le _ _)); [by eexists|]. destruct (Ht1 t) as [[H1 H2] Hafter]. unfold total in *. lia.
Qed.

(** C27. The RPC library passes its own test: testmarshall's assertions hold, and
    when the test's server is started and a client connects and binds to it, the
    assertions of simple_tests (results, refused arguments, a megabyte request)
    and of a thread of concurrent_test, whatever numbers random() gives it, hold
    too; whatever uninitialised memory contains. A bind to a server that does not
    exist fails within the four seconds simple_tests gives it, if what happens
    outside the waits takes less than a second. *)
Theorem rpctest_passes random fd clt new args args2 :
  connects new -> Z.of_nat (length args + length args2) <= 10 ^ 9 ->
  testmarshall junk = Ok tt /\
  (forall W late t0 now t1, unanswering W late -> valid now -> 0 < tv_sec now -> within_a_second late t0 now t1 ->
     exists c, timeout_test junk W 22 clt t0 now t1 = Ok (Some c)) /\
  exists s c c1 c2, startserver junk random = Ok s /\
    bind (rpcc_new true clt) (accept s env_conn fd) new junk to_max = Ok (c, 0) /\
    simple_tests junk c = Ok c1 /\ client1 junk c1 args args2 = Ok c2.
Proof.
  intros Hnew Hlen. split; [vm_compute; reflexivity|]. split; [intros; by eapply timeout_test_ok|].
  destruct (startserver_ok random) as (s & E & Hr & Hb & Hn & Hc & Hw & _ & _).
  destruct (bind_testable s fd clt new Hr Hb) as (c & Eb & _ & _ & Ht);
    [rewrite Hn; apply u32_range|exact Hc|exact Hw|exact Hnew|].
  destruct (simple_tests_ok (length args + (length args2 + 0)) c) as (c1 & E1 & H1); [apply Ht; lia|].
  destruct (client1_big_ok args (length args2 + 0) c1 H1) as (c2 & E2 & H2).
  destruct (client1_int_ok args2 0 c2 H2) as (c3 & E3 & _).
  exists s, c, c1, c3. split; [exact E|]. split; [exact Eb|]. split; [exact E1|].
  unfold client1. rewrite E2. exact E3.
Qed.

(** Binding a bound client again fails without a message. *)
Lemma bind_again c s new r0 :
  k_bind_done c = true -> bind (St := runs) c s new r0 to_max = Ok (Link c s, bind_failure).
Proof.
  intros Hb. unfold bind, remote_call.
  destruct (call_args1_ok i32_c 0) as (m & -> & _); [by vm_compute|by vm_compute|].
  cbn [mbind outcome_bind]. unfold exchange, call1_start. rewrite Hb. reflexivity.
Qed.

(** A client with no calls outstanding can be deleted. *)
Lemma rpcc_delete_ok c ch : open_chan c ch 1 -> k_calls c = ∅ -> exists c', rpcc_delete c = Ok c'.
Proof.
  intros (Hc & k & Hk & Hd & Hb & Hn) Hcalls. unfold rpcc_delete, chan_decref, chan_obj, closeconn.
  rewrite Hc, Hk. cbn [mbind outcome_bind]. rewrite Hd. cbn [negb fst k_objs set_chan]. rewrite lookup_insert_eq.
  cbn [mbind outcome_bind]. destruct k as [fd dead w rp wt n l]. cbn [c_refno c_wpdu] in *.
  unfold decref, set_refno. cbn [c_refno c_dead c_fd c_wpdu c_rpdu c_waiters c_lossy set_dead].
  rewrite (proj2 (Z.leb_le _ _)) by lia. cbn [cassert mbind outcome_bind].
  destruct (n - 1 =? 0); [unfold connection_delete; cbn [c_dead c_wpdu cassert mbind outcome_bind]; rewrite Hb|];
    cbn [cassert mbind outcome_bind k_calls set_chan]; rewrite bool_decide_true by done; by eexists.
Qed.

(** C36. A restarted server: a client that is bound to another instance of it
    reconnects, and its call is refused with oldsrv_failure and runs no method; a
    new client binds, cannot bind twice, and its call succeeds, as failure_test
    asserts. Of all this one method has run at the end, once: the new client's. *)
Theorem restarted_server_refuses_old_client client random conn fd fd' clt new new' :
  k_bind_done client = true -> usable client new -> connects new' ->
  window_ok (k_xid_rep_window client) -> 0 < k_xid client < 2 ^ 31 ->
  ~ acked (k_xid_rep_window client) (k_xid client) -> k_calls client = ∅ ->
  is_u32 (k_clt_nonce client) -> is_u32 (k_srv_nonce client) ->
  k_srv_nonce client <> 0 -> k_srv_nonce client <> u32 random ->
  exists c, failure_test junk client random conn fd fd' clt new new' = Ok c /\ s_app (l_server c) = [22].
Proof.
  intros Hbd Hus Hnew Hw Hx Hack Hcalls Hclt Hsrv Hz Hne. unfold failure_test.
  destruct (startserver_ok random) as (s & -> & Hr & Hb & Hn & Hc & Hrw & _ & Happ). cbn [mbind outcome_bind].
  destruct (call_args1_ok (pair_c string_c string_c) (str "hello", str " goodbye")) as (m & Em & Hm);
    [done|by vm_compute|].
  rewrite call_args2_tuple. unfold call_args1 in Em. rewrite Em. cbn [mbind outcome_bind].
  destruct (exchange_stale string_c client (accept s conn fd) conn new (env_junk (k_xid client))
    (env_clock (k_xid client)) 22 m (image (pair_c string_c string_c) (str "hello", str " goodbye")) [] to_max)
    as (c1 & s1 & E1 & Ha1 & Hp1 & Hn1 & Hc1 & Hw1 & Hcalls1 & _ & ch1 & Ho1);
    [exact Hbd|done|exact Hus|exact Hw|exact Hx|done|exact Hclt|exact Hsrv|exact Hz|cbn [accept s_nonce with_objs]; congruence
    |apply accept_live|exact Hack|apply env_clock_valid|done|exact Hm|by vm_compute|].
  rewrite E1. cbn [mbind outcome_bind]. change (cassert (oldsrv_failure =? oldsrv_failure)) with (Ok tt).
  cbn [mbind outcome_bind].
  destruct (rpcc_delete_ok c1 ch1 Ho1) as (c1' & ->); [by rewrite Hcalls1, Hcalls, delete_empty|].
  cbn [mbind outcome_bind]. cbn [accept s_procs s_nonce s_conns s_reply_window s_app with_objs] in Ha1, Hp1, Hn1, Hc1, Hw1.
  destruct (bind_testable s1 fd' clt new') as (c2 & -> & Hb2 & Ha2 & Ht2).
  - unfold registered in *. by rewrite Hp1.
  - by rewrite Hp1, Hn1.
  - rewrite Hn1, Hn. apply u32_range.
  - congruence.
  - congruence.
  - exact Hnew.
  - cbn [mbind outcome_bind cassert Z.leb Z.compare]. rewrite (bind_again _ _ None junk Hb2).
    cbn [mbind outcome_bind cassert]. change (cassert (bind_failure <? 0)) with (Ok tt).
    cbn [mbind outcome_bind]. replace (Link (l_client c2) (l_server c2)) with c2 by (by destruct c2).
    destruct (call22_ok 0 c2 (str "hello") (str " goodbye") [] to_max (Ht2 1%nat ltac:(lia))) as (c3 & -> & _ & Ha3);
      [done|by vm_compute|].
    cbn [mbind outcome_bind cassert Z.eqb]. rewrite bool_decide_true by done. exists c3.
    split; [done|]. by rewrite Ha3, Ha2, Ha1, Happ.
Qed.
End Passing.

#[local] Existing Instance zero_memory.
#[local] Existing Instance Session.Demo.environment.

Lemma rpctest_passes_witness :
  testmarshall 7 = Ok tt /\
  (exists c, timeout_test 7 deaf 22 9 (Timespec 1000 0) (Timespec 1000 8) (fun t => Timespec (total t / 10 ^ 9) 0)
     = Ok (Some c)) /\
  exists s c c1 c2, startserver 7 77 = Ok s /\
    bind (rpcc_new true 9) (accept s env_conn 3) (Some (2, connection_new 5 0)) 7 to_max = Ok (c, 0) /\
    simple_tests 7 c = Ok c1 /\ client1 7 c1 [70; 1999] [(1, 2); (4, 999)] = Ok c2.
Proof.
  destruct (rpctest_passes 7 77 3 9 (Some (2, connection_new 5 0)) [70; 1999] [(1, 2); (4, 999)]) as (H1 & H2 & H3).
  - exists 2, (connection_new 5 0). done.
  - cbn [length Nat.add]. lia.
  - split; [exact H1|]. split; [|exact H3]. apply (H2 deaf 5).
    + apply deaf_unanswering.
    + split; cbn; lia.
    + cbn. lia.
    + split; [split; cbn; lia|]. exists 8, 0. split; [lia|]. split; [lia|]. split; [unfold total; cbn; lia|].
      intros t. split; [split; cbn; lia|]. unfold total. cbn [tv_sec tv_nsec]. Z.div_mod_to_equations. lia.
Defined.

(** A client of instance 76 that has lost its connection meets instance 77. *)
Lemma restarted_server_refuses_old_client_witness :
  exists c, failure_test 7 (set_bound (rpcc_new true 9) 76) 77 3 4 6 10
    (Some (2, connection_new 5 0)) (Some (3, connection_new 7 0)) = Ok c /\ s_app (l_server c) = [22].
Proof.
  apply (restarted_server_refuses_old_client 7 (set_bound (rpcc_new true 9) 76)).
  - reflexivity.
  - exists 2, (connection_new 5 0). done.
  - exists 3, (connection_new 7 0). done.
  - apply window_init_ok.
  - cbn. lia.
  - cbn. intros [?|?]; [lia|set_solver].
  - done.
  - by vm_compute.
  - by vm_compute.
  - done.
  - done.
Defined.
