(* ===== verification/TestThreads.v ===== *)
(** * The threads of the RPC library's test: rpc/rpctest.cc

    concurrent_test, lossy_test and failure_test run threads (client1, client2,
    client3) that call the test's service through one client, while connections
    are lost. Here any number of such threads run on the network of Unreliable,
    in any interleaving; a thread is where its loop is, and its assertions are
    evaluated when its call has returned. *)

From S2P Require Import Prelude Marshall Connection XidWindow TimeSpec Rpcs Serve Stubs Rpcc Remote Session RpcTest Effects Unreliable.
Local Open Scope Z_scope.

(** ** The threads *)

(** A call, as a thread makes it: one [int] argument and a time-out. *)
Record request := Request { q_proc : Z; q_arg : Z; q_to : Z }.

(** client1: in its first loop, waiting there, in its second loop, waiting there,
    or done. The numbers are [i], [arg], [which] and the call's id. *)
Inductive client1_at :=
  | C1_big (i : Z) | C1_big_wait (i arg x : Z)
  | C1_int (i : Z) | C1_int_wait (i : Z) (which : bool) (arg x : Z) | C1_end.
Inductive client2_at := C2_loop | C2_wait (arg x : Z).
Inductive client3_at := C3_loop (i : Z) | C3_wait (i x : Z) | C3_end.

Section Threads.
Context `{Memory} (junk : Z).

(** From the head of a loop to the call; [r1] and [r2] are what random() gives. *)
Definition client1_call (p : client1_at) (r1 r2 : Z) : option (request * (Z -> client1_at)) :=
  match p with
  | C1_big i => let arg := r1 mod 2000 in Some (Request 25 arg to_max, C1_big_wait i arg)
  | C1_int i =>
      let which := negb (r1 mod 2 =? 0) in
      let arg := r2 mod 1000 in
      Some (Request (if which then 23 else 24) arg to_max, C1_int_wait i which arg)
  | _ => None
  end.

(** From the return of call1 to the head of the loop. *)
Definition client1_return (p : client1_at) (u : unmarshall) (intret : Z) : outcome client1_at :=
  match p with
  | C1_big_wait i arg _ =>
      '(rep, ret) ← call_m_finish string_c intret u [];
      _ ← cassert (ret =? 0);
      _ ← cassert (zlen rep =? arg);
      Ok (if i + 1 <? 100 then C1_big (i + 1) else C1_int 0)
  | C1_int_wait i which arg _ =>
      '(rep, ret) ← call_m_finish i32_c intret u junk;
      _ ← cassert (ret =? 0);
      _ ← cassert (rep =? if which then arg + 1 else arg + 2);
      Ok (if i + 1 <? 100 then C1_int (i + 1) else C1_end)
  | _ => Ok p
  end.

(** [more]: the ten seconds are not over. *)
Definition client2_call (p : client2_at) (more : bool) (r : Z) : option (request * (Z -> client2_at)) :=
  match p with
  | C2_loop => if more then let arg := r mod 2000 in Some (Request 25 arg to_max, C2_wait arg) else None
  | _ => None
  end.
Definition client2_return (p : client2_at) (u : unmarshall) (intret : Z) : outcome client2_at :=
  match p with
  | C2_wait arg _ =>
      '(rep, ret) ← call_m_finish string_c intret u [];
      _ ← cassert (zlen rep =? arg);
      Ok C2_loop
  | _ => Ok p
  end.

Definition client3_call (p : client3_at) : option (request * (Z -> client3_at)) :=
  match p with
  | C3_loop i => Some (Request 24 i 3000, C3_wait i)
  | _ => None
  end.
Definition client3_return (p : client3_at) (u : unmarshall) (intret : Z) : outcome client3_at :=
  match p with
  | C3_wait i _ =>
      '(rep, ret) ← call_m_finish i32_c intret u junk;
      _ ← cassert ((ret =? timeout_failure) || (rep =? i + 2));
      Ok (if i + 1 <? 4 then C3_loop (i + 1) else C3_end)
  | _ => Ok p
  end.

Inductive thread := Client1 (p : client1_at) | Client2 (p : client2_at) | Client3 (p : client3_at).

Definition thread_call (t : thread) (r1 r2 : Z) (more : bool) : option (request * (Z -> thread)) :=
  match t with
  | Client1 p => '(q, wait) ← client1_call p r1 r2; Some (q, fun x => Client1 (wait x))
  | Client2 p => '(q, wait) ← client2_call p more r1; Some (q, fun x => Client2 (wait x))
  | Client3 p => '(q, wait) ← client3_call p; Some (q, fun x => Client3 (wait x))
  end.
Definition thread_return (t : thread) (u : unmarshall) (intret : Z) : outcome thread :=
  match t with
  | Client1 p => p ← client1_return p u intret; Ok (Client1 p)
  | Client2 p => p ← client2_return p u intret; Ok (Client2 p)
  | Client3 p => p ← client3_return p u intret; Ok (Client3 p)
  end.

(** The call a thread waits for: its id, procedure and argument. *)
Definition waits_for (t : thread) : option (Z * Z * Z) :=
  match t with
  | Client1 (C1_big_wait _ arg x) | Client2 (C2_wait arg x) => Some (x, 25, arg)
  | Client1 (C1_int_wait _ which arg x) => Some (x, if which then 23 else 24, arg)
  | Client3 (C3_wait i x) => Some (x, 24, i)
  | _ => None
  end.

(** What the tests start: the threads of concurrent_test(nt) that use client
    [which_cl] of the NUM_CL clients, and those of lossy_test and failure_test. *)
Definition NUM_CL : nat := 2.
Definition concurrent_test (nt which_cl : nat) : list thread :=
  map (fun _ => Client1 (C1_big 0)) (filter (fun i => i mod NUM_CL = which_cl)%nat (seq 0 nt)).
Definition lossy_test : list thread := [Client2 C2_loop].
Definition failure_threads : list thread := replicate 10 (Client3 (C3_loop 0)).

(** ** The threads on the network *)
Variables (clt : Z) (mine : gset Z).

Inductive test_step : net runs * list thread -> net runs * list thread -> Prop :=
  | t_net n n' ts : net_step any_request clt mine n n' -> test_step (n, ts) (n', ts)
  | t_call n ts k t r1 r2 more q wait m now c' cs :
      ts !! k = Some t -> thread_call t r1 r2 more = Some (q, wait) -> k_xid (n_client n) < 2 ^ 31 - 1 ->
      call_args1 i32_c (q_arg q) = Ok m -> call1_start (n_client n) (q_proc q) m (q_to q) now = Ok (c', inr cs) ->
      test_step (n, ts) (called n c' cs (q_proc q) (image i32_c (q_arg q)), <[k := wait (cs_xid cs)]> ts)
  | t_return n ts k t x proc arg u ret t' :
      ts !! k = Some t -> waits_for t = Some (x, proc, arg) -> (x, u, ret) ∈ n_returned n ->
      thread_return t u ret = Ok t' -> test_step (n, ts) (n, <[k := t']> ts).

(** The numbers of a thread are in their ranges, and the call it waits for has
    been made. *)
Definition small (t : thread) : Prop :=
  match t with
  | Client1 (C1_big_wait _ arg _) | Client2 (C2_wait arg _) => 0 <= arg < 2000
  | Client1 (C1_int_wait _ _ arg _) => 0 <= arg < 1000
  | Client3 (C3_loop i) | Client3 (C3_wait i _) => 0 <= i < 4
  | _ => True
  end.
Definition thread_ok (asked : gmap Z ask) (t : thread) : Prop :=
  small t /\ forall x proc arg, waits_for t = Some (x, proc, arg) ->
    exists a, asked !! x = Some a /\ a_proc a = proc /\ a_args a = image i32_c arg.

Lemma thread_ok_mono (asked asked' : gmap Z ask) t : asked ⊆ asked' -> thread_ok asked t -> thread_ok asked' t.
Proof.
  intros Ha [Hs Hw]. split; [done|]. intros x proc arg E. destruct (Hw x proc arg E) as (a & Ea & ?). exists a.
  split; [|done]. by eapply lookup_weaken.
Qed.

(** A thread's call has a small argument, and then the thread waits for it. *)
Lemma thread_call_spec t r1 r2 more q wait :
  small t -> thread_call t r1 r2 more = Some (q, wait) ->
  0 <= q_arg q < 2000 /\ is_i32 (q_proc q) /\
  forall x, small (wait x) /\ waits_for (wait x) = Some (x, q_proc q, q_arg q).
Proof.
  pose proof (Z.mod_pos_bound r1 2000 ltac:(lia)). pose proof (Z.mod_pos_bound r2 1000 ltac:(lia)).
  intros Hs E. destruct t as [[]|[]|[]]; cbn in E; try done; try destruct more; try done; injection E as <- <-;
    cbn in *; (split; [lia|]); (split; [by repeat case_match|]); intros x; (split; [first [lia|done]|done]).
Qed.

Lemma thread_return_small t u ret t' :
  small t -> thread_return t u ret = Ok t' -> waits_for t <> None -> small t' /\ waits_for t' = None.
Proof.
  intros Hs E Hw. destruct t as [[]|[]|[]]; try done; cbn in E;
    destruct (call_m_finish _ _ _ _) as [[rep ret']|]; try done; cbn in E;
    unfold cassert in E; repeat (case_match; try done; cbn in E); simplify_eq/=; try done.
  split; [lia|done].
Qed.
End Threads.

(** ** Every interleaving *)
Section Safe.
Context `{Memory} `{Environment} (junk random : Z) (mine : gset Z) (s : rpcs runs).
Hypothesis random_nonzero : u32 random <> 0.
Hypothesis s_fresh : fresh s.
Hypothesis s_registered : registered junk s.

Definition test_ok (w : net runs * list thread) : Prop :=
  net_ok random mine s w.1 /\ Forall (thread_ok (n_asked w.1)) w.2.

Lemma net_ok_grows n n' : net_ok random mine s n -> net_step any_request (u32 random) mine n n' ->
  net_ok random mine s n' /\ n_asked n ⊆ n_asked n'.
Proof.
  intros Hi Hs. split; [by eapply net_ok_step|]. destruct s_fresh as (_ & _ & _ & Hn & _).
  eapply asked_mono; [apply u32_range|exact Hn|exact Hi|exact Hs].
Qed.

Lemma small_args arg m : 0 <= arg < 2000 -> call_args1 i32_c arg = Ok m ->
  marshalled m (image i32_c arg) /\ m_ind m <= MAX_MSG.
Proof.
  intros Ha E. destruct (call_args1_ok i32_c arg) as (m' & E' & Hm); [cbn; unfold is_i32; lia|done|].
  rewrite E in E'. injection E' as <-. split; [done|]. destruct Hm as (_ & -> & _). done.
Qed.

Lemma test_ok_step w w' : test_ok w -> test_step junk (u32 random) mine w w' -> test_ok w'.
Proof.
  intros [Hn Ht] Hs. destruct Hs as [n n' ts Hs|n ts k t r1 r2 more q wait m now c' cs Ek Ec Hx Em E|
    n ts k t x proc arg u ret t' Ek Ew Hin Er]; cbn [fst snd] in *.
  - destruct (net_ok_grows _ _ Hn Hs) as [Hn' Ha]. split; [done|]. eapply Forall_impl; [exact Ht|].
    intros t. by apply thread_ok_mono.
  - pose proof (Forall_lookup_1 _ _ _ _ Ht Ek) as [Hsm _].
    destruct (thread_call_spec t r1 r2 more q wait Hsm Ec) as (Harg & Hproc & Hwait).
    destruct (small_args _ _ Harg Em) as [Hm Hmax].
    destruct (net_ok_grows n (called n c' cs (q_proc q) (image i32_c (q_arg q))) Hn) as [Hn' Ha]; [by eapply n_call|].
    split; [done|]. cbn [fst snd]. apply Forall_insert.
    + eapply Forall_impl; [exact Ht|]. intros t'. by apply thread_ok_mono.
    + destruct (Hwait (cs_xid cs)) as [H1 H2]. split; [done|]. rewrite H2. intros x proc arg [= <- <- <-].
      eexists. split; [apply lookup_insert_eq|done].
  - pose proof (Forall_lookup_1 _ _ _ _ Ht Ek) as [Hsm _]. split; [done|]. cbn [fst snd]. apply Forall_insert; [done|].
    destruct (thread_return_small junk t u ret t' Hsm Er) as [H1 H2]; [by rewrite Ew|]. split; [done|].
    by rewrite H2.
Qed.

(** What the three methods give the caller. *)
Lemma bigrep_answer n x u ret a arg :
  net_ok random mine s n -> (x, u, ret) ∈ n_returned n -> ret <> timeout_failure ->
  n_asked n !! x = Some a -> a_proc a = 25 -> a_args a = image i32_c arg -> 0 <= arg < 2000 ->
  call_m_finish string_c ret u [] = Ok (replicate (Z.to_nat arg) 120, 0).
Proof.
  intros Hn Hin Ht Ea Hp Hargs Harg. destruct s_registered as (_ & _ & _ & H25).
  assert (handle_bigrep arg [] = fun s => Ok (25 :: s, replicate (Z.to_nat arg) 120, 0)) as Hh
    by (unfold handle_bigrep; by rewrite (proj2 (Z.ltb_ge _ _)) by lia).
  destruct (method_answered i32_c string_c random mine s n x u ret a arg junk [] [] handle_bigrep)
    as (e & r & _ & Hm & Hr); try done.
  - by rewrite Hp.
  - cbn. unfold is_i32. lia.
  - intros st st' r b. rewrite Hh. intros [= _ <- <-]. cbn [representable image string_wire].
    assert (zlen (replicate (Z.to_nat arg) 120) = arg) as Hl by (unfold zlen; rewrite length_replicate; lia).
    rewrite zlen_app, Hl. change (zlen (be32 arg)) with 4. unfold MAX_MSG, is_i32. header_sz. lia.
  - rewrite Hh in Hm. injection Hm as _ <- <-. by apply Hr.
Qed.

Lemma arith_answer n x u ret a arg (which : bool) :
  net_ok random mine s n -> (x, u, ret) ∈ n_returned n -> ret <> timeout_failure ->
  n_asked n !! x = Some a -> a_proc a = (if which then 23 else 24) -> a_args a = image i32_c arg -> 0 <= arg < 2000 ->
  call_m_finish i32_c ret u junk = Ok (if which then arg + 1 else arg + 2, 0).
Proof.
  intros Hn Hin Ht Ea Hp Hargs Harg. destruct s_registered as (_ & H23 & H24 & _).
  set (meth := if which then handle_fast else handle_slow). set (res := if which then arg + 1 else arg + 2).
  assert (is_i32 arg /\ is_i32 res) as [Hi Hres] by (subst res; unfold is_i32; destruct which; lia).
  assert (meth arg junk = fun s => Ok ((if which then 23 else 24) :: s, res, 0)) as Hh
    by (subst meth res; destruct which; unfold handle_fast, handle_slow; by rewrite int_of_small).
  destruct (method_answered i32_c i32_c random mine s n x u ret a arg junk junk junk meth)
    as (e & r & _ & Hm & Hr); try done.
  - rewrite Hp. by destruct which.
  - intros st st' r b. rewrite Hh. by intros [= _ <- <-].
  - rewrite Hh in Hm. injection Hm as _ <- <-. by apply Hr.
Qed.

Lemma thread_passes n t x proc arg u ret :
  net_ok random mine s n -> thread_ok (n_asked n) t -> waits_for t = Some (x, proc, arg) -> (x, u, ret) ∈ n_returned n ->
  ret <> timeout_failure -> is_ok (thread_return junk t u ret) = true.
Proof.
  intros Hn [Hs Hw] Hwait Hin Ht. destruct (Hw _ _ _ Hwait) as (a & Ea & Hp & Hargs).
  destruct t as [[|i b y| |i which b y|]|[|b y]|[|i y|]]; try done; injection Hwait as -> <- <-; cbn in Hs |- *.
  - rewrite (bigrep_answer n x u ret a b) by done. cbn. unfold zlen. rewrite length_replicate, Z2Nat.id, Z.eqb_refl by lia.
    done.
  - rewrite (arith_answer n x u ret a b which) by (done || lia). cbn. by rewrite Z.eqb_refl.
  - rewrite (bigrep_answer n x u ret a b) by done. cbn. unfold zlen. rewrite length_replicate, Z2Nat.id, Z.eqb_refl by lia.
    done.
  - rewrite (arith_answer n x u ret a i false) by (done || lia). cbn. by rewrite Z.eqb_refl.
Qed.
End Safe.

(** Where the tests' threads start. *)
Definition at_start (t : thread) : bool :=
  match t with
  | Client1 (C1_big i) | Client3 (C3_loop i) => i =? 0
  | Client2 C2_loop => true
  | _ => false
  end.

Section RpcTestThreads.
Context `{Memory} `{Environment} (junk : Z).

Lemma startserver_fresh random s :
  startserver junk random = Ok s -> fresh s /\ registered junk s.
Proof.
  destruct (startserver_ok junk random) as (s' & -> & Hr & Hb & Hn & Hc & Hw & Hs & _). intros [= <-].
  split; [|done]. split; [done|]. split; [done|]. split; [done|]. split; [rewrite Hn; apply u32_range|].
  exists junk, junk. split; [done|exact Hb].
Qed.

Lemma test_reachable random mine s ts w :
  u32 random <> 0 -> fresh s -> registered junk s -> forallb at_start ts = true ->
  rtc (test_step junk (u32 random) mine) (net_new random s, ts) w -> test_ok random mine s w.
Proof.
  intros Hz Hf Hr Hts Hw. eapply (rtc_invariant (test_step junk (u32 random) mine)); [|exact Hw|].
  - intros w1 w2. by apply test_ok_step.
  - split; [by apply net_inv_new|]. apply Forall_forall. intros t Ht.
    assert (at_start t = true) as Hat by (rewrite forallb_forall in Hts; apply Hts; by apply list_elem_of_In).
    destruct t as [[]|[]|[]]; try done. split; [cbn in *; lia|done].
Qed.

(** C28. The threads of rpctest on an unreliable network. The test's server is
    started and any number of client1, client2 and client3 threads call it
    through one client, in any interleaving, while other clients call it too and
    the network loses, duplicates and reorders messages. Whenever a thread's call
    has returned, the assertions that follow it hold, unless the call timed out;
    those of client3 hold even then. *)
Theorem rpctest_threads_pass random srandom mine s ts n ts' k t x proc arg u ret :
  u32 random <> 0 -> startserver junk srandom = Ok s -> forallb at_start ts = true ->
  rtc (test_step junk (u32 random) mine) (net_new random s, ts) (n, ts') ->
  ts' !! k = Some t -> waits_for t = Some (x, proc, arg) -> (x, u, ret) ∈ n_returned n ->
  ret <> timeout_failure \/ (exists p, t = Client3 p) -> exists t', thread_return junk t u ret = Ok t'.
Proof.
  intros Hz Hstart Hts Hr Ek Hwait Hin Hret. destruct (startserver_fresh _ _ Hstart) as [Hf Hreg].
  destruct (test_reachable random mine s ts (n, ts') Hz Hf Hreg Hts Hr) as [Hn Ht]. cbn [fst snd] in *.
  assert (is_ok (thread_return junk t u ret) = true) as Hok; [|by (destruct (thread_return _ _ _ _) as [t'|]; [exists t'|])].
  destruct (decide (ret = timeout_failure)) as [->|Hne].
  - destruct Hret as [|[[|i y|] ->]]; done.
  - by eapply thread_passes; [..|by eapply Forall_lookup_1| | |].
Qed.
End RpcTestThreads.

(** ** A history to run *)
Module Demo.
#[local] Existing Instance zero_memory.

Definition call_do (n : net runs) (ts : list thread) (k : nat) (r1 r2 : Z) : outcome (net runs * list thread) :=
  t ← found (ts !! k);
  '(q, wait) ← found (thread_call t r1 r2 true);
  _ ← cassert (k_xid (n_client n) <? 2 ^ 31 - 1);
  m ← call_args1 i32_c (q_arg q);
  '(c, st) ← call1_start (n_client n) (q_proc q) m (q_to q) (Timespec 1000 0);
  match st with
  | inl _ => Crash AssertFailed
  | inr cs => Ok (called n c cs (q_proc q) (image i32_c (q_arg q)), <[k := wait (cs_xid cs)]> ts)
  end.

Lemma call_do_step junk clt mine n ts k r1 r2 w :
  call_do n ts k r1 r2 = Ok w -> test_step junk clt mine (n, ts) w.
Proof.
  unfold call_do. destruct (ts !! k) as [t|] eqn:Ek; [|done]. cbn [found mbind outcome_bind].
  destruct (thread_call t r1 r2 true) as [[q wait]|] eqn:Ec; [|done]. cbn [found mbind outcome_bind].
  destruct (Z.ltb_spec (k_xid (n_client n)) (2 ^ 31 - 1)) as [Hx|]; [|done]. cbn [cassert mbind outcome_bind].
  destruct (call_args1 i32_c (q_arg q)) as [m|] eqn:Em; [|done]. cbn [mbind outcome_bind].
  destruct (call1_start _ _ _ _ _) as [[c [|cs]]|] eqn:E; [done| |done]. intros [= <-].
  by eapply t_call.
Qed.

Lemma net_steps_test junk clt mine n n' ts :
  rtc (net_step any_request clt mine) n n' -> rtc (test_step junk clt mine) (n, ts) (n', ts).
Proof. induction 1 as [|n1 n2 n3 Hs _ IH]; [apply rtc_refl|]. eapply rtc_l; [by apply t_net|exact IH]. Qed.

(** The client binds on connection 4; then the first of ten client3 threads
    makes its first call, whose request arrives twice. *)
Definition bound : list net_act :=
  [A_accept 4 (incref (connection_new 3 0)); A_call rpc_bind (Unreliable.Demo.args 0) (be32 0);
   A_send 1 (Some (2, connection_new 7 0)); A_request 0 4; A_begin; A_end; A_reply 0; A_return 1; A_bind 1].
Definition answered_call : list net_act :=
  [A_send 2 None; A_request 1 4; A_request 1 4; A_begin; A_begin; A_end; A_reply 1; A_return 2].
Definition history (s : rpcs runs) : outcome (net runs * list thread) :=
  n ← net_runs (fun _ _ => true) {[4]} (net_new 9 s) bound;
  '(n, ts) ← call_do n failure_threads 0 0 0;
  n ← net_runs (fun _ _ => true) {[4]} n answered_call;
  Ok (n, ts).

Lemma history_reachable junk s n ts :
  history s = Ok (n, ts) -> rtc (test_step junk 9 {[4]}) (net_new 9 s, failure_threads) (n, ts).
Proof.
  unfold history. generalize bound answered_call. intros xs ys. destruct (net_runs (fun _ _ => true) {[4]} (net_new 9 s) xs) as [n1|] eqn:E1; [|done].
  cbn [mbind outcome_bind]. destruct (call_do n1 _ 0 0 0) as [[n2 ts2]|] eqn:E2; [|done]. cbn [mbind outcome_bind].
  destruct (net_runs (fun _ _ => true) {[4]} n2 ys) as [n3|] eqn:E3; [|done]. cbn [mbind outcome_bind]. intros [= <- <-].
  apply (net_runs_reachable any_request _ (fun _ _ _ => I) 9) in E1, E3. apply (call_do_step junk 9 {[4]}) in E2.
  etransitivity; [by apply net_steps_test|]. eapply rtc_l; [exact E2|]. by apply net_steps_test.
Qed.

Definition server : rpcs runs := match startserver 0 5 with Ok s => s | Crash _ => rpcs_new 5 0 [] end.
Definition final : net runs * list thread :=
  match history server with Ok w => w | Crash _ => (net_new 9 server, []) end.

Lemma final_history : history server = Ok (final.1, final.2).
Proof.
  assert (is_ok (history server) = true) as Hok by (vm_compute; reflexivity). unfold final. revert Hok.
  generalize (history server). intros [[]|]; done.
Qed.
End Demo.

#[local] Existing Instance zero_memory.
Lemma rpctest_threads_pass_witness :
  exists u t', n_returned Demo.final.1 !! 0%nat = Some (2, u, 0) /\
    thread_return 0 (Client3 (C3_wait 0 2)) u 0 = Ok t'.
Proof.
  destruct (n_returned Demo.final.1) as [|[[x u] ret] l] eqn:E; [by vm_compute in E|].
  assert (x = 2 /\ ret = 0) as [-> ->] by (vm_compute in E; by injection E as <- _ <- _).
  assert (Demo.final.2 !! 0%nat = Some (Client3 (C3_wait 0 2))) as Et by (vm_compute; reflexivity).
  destruct (rpctest_threads_pass 0 9 5 {[4]} Demo.server failure_threads Demo.final.1 Demo.final.2 0
    (Client3 (C3_wait 0 2)) 2 24 0 u 0) as [t' Ht].
  - done.
  - reflexivity.
  - reflexivity.
  - apply Demo.history_reachable, Demo.final_history.
  - exact Et.
  - reflexivity.
  - rewrite E. apply list_elem_of_here.
  - left. done.
  - exists u, t'. split; [reflexivity|exact Ht].
Defined.
