(* ===== verification/ScopedLock.v ===== *)
(** * Scoped locks: rpc/slock.h

    Most classes of the RPC library guard their members with one mutex: a method
    declares a ScopedLock, works on the members, may wait on a condition variable,
    and its destructor unlocks on every way out. The rest of this development
    takes the code between two of these points for one step. Here it is many: a
    thread does one thing at a time while the others run. [reduction] shows that
    the coarse steps lose nothing. *)

From S2P Require Import Prelude.

(** ** ScopedLock

    A mutex has an owner or it is free. The constructor waits while the mutex has
    an owner, which is [None]; the destructor asserts that unlocking succeeds. *)
Definition pthread_mutex : Type := option nat.

Definition ScopedLock_ctor (m : pthread_mutex) (t : nat) : option pthread_mutex :=
  match m with None => Some (Some t) | Some _ => None end.

Definition ScopedLock_dtor (m : pthread_mutex) (t : nat) : outcome pthread_mutex :=
  if decide (m = Some t) then Ok None else Crash AssertFailed.

(** What a thread does next in the scope of its lock. *)
Inductive next :=
  | Stay                (** another statement of the scope *)
  | Signals (c : nat)   (** pthread_cond_signal on condition variable [c] *)
  | Waits (c : nat)     (** pthread_cond_wait on it, with the mutex of the scope *)
  | Leaves.             (** the end of the scope: falling off it, return, break *)

Section Threads.
(** What the mutex guards, and what a thread has for itself, with the point in
    its code. [outside] is a thread's code between two scopes ([true] if a
    ScopedLock comes next, [None] at its end), [inside] one statement of a scope. *)
Context {G L : Type}.
Record code := Code {
  outside : L -> option (L * bool);
  inside : G -> L -> outcome (G * L * next) }.

Inductive place :=
  | Out (l : L)                (** not in a scope *)
  | Locking (l : L)            (** in the constructor, or woken in pthread_cond_wait *)
  | In (l : L)                 (** in the scope *)
  | Waiting (c : nat) (l : L)  (** in pthread_cond_wait *)
  | Unlocking (l : L).         (** in the destructor *)

Record world := World { w_shared : G; w_mutex : pthread_mutex; w_threads : gmap nat place }.

Context (cd : code).

Definition nobody_waits (c : nat) (ts : gmap nat place) : Prop :=
  forall u l, ts !! u <> Some (Waiting c l).

(** A statement of thread [t] in its scope. A signal wakes one of the threads
    that wait, whichever it likes. *)
Inductive own_step (t : nat) : world -> world -> Prop :=
  | own_stay g m ts l g' l' :
      ts !! t = Some (In l) -> inside cd g l = Ok (g', l', Stay) ->
      own_step t (World g m ts) (World g' m (<[t := In l']> ts))
  | own_signal g m ts l g' l' c u lu :
      ts !! t = Some (In l) -> inside cd g l = Ok (g', l', Signals c) -> ts !! u = Some (Waiting c lu) ->
      own_step t (World g m ts) (World g' m (<[t := In l']> (<[u := Locking lu]> ts)))
  | own_signal_nobody g m ts l g' l' c :
      ts !! t = Some (In l) -> inside cd g l = Ok (g', l', Signals c) -> nobody_waits c ts ->
      own_step t (World g m ts) (World g' m (<[t := In l']> ts))
  | own_leave g m ts l g' l' :
      ts !! t = Some (In l) -> inside cd g l = Ok (g', l', Leaves) ->
      own_step t (World g m ts) (World g' m (<[t := Unlocking l']> ts)).

Inductive lock_step (t : nat) : world -> world -> Prop :=
  | lock_scope g m ts l m' :
      ts !! t = Some (Locking l) -> ScopedLock_ctor m t = Some m' ->
      lock_step t (World g m ts) (World g m' (<[t := In l]> ts)).

(** The two ways to let the mutex go. *)
Inductive release_step (t : nat) : world -> world -> Prop :=
  | release_scope g m ts l m' :
      ts !! t = Some (Unlocking l) -> ScopedLock_dtor m t = Ok m' ->
      release_step t (World g m ts) (World g m' (<[t := Out l]> ts))
  | release_wait g m ts l g' l' c m' :
      ts !! t = Some (In l) -> inside cd g l = Ok (g', l', Waits c) -> ScopedLock_dtor m t = Ok m' ->
      release_step t (World g m ts) (World g' m' (<[t := Waiting c l']> ts)).

(** What needs no mutex; pthread_cond_wait may also return by itself. *)
Inductive free_step (t : nat) : world -> world -> Prop :=
  | free_outside g m ts l l' (b : bool) :
      ts !! t = Some (Out l) -> outside cd l = Some (l', b) ->
      free_step t (World g m ts) (World g m (<[t := if b then Locking l' else Out l']> ts))
  | free_wakeup g m ts c l :
      ts !! t = Some (Waiting c l) -> free_step t (World g m ts) (World g m (<[t := Locking l]> ts)).

(** The program as it runs, and with each stretch of a scope in one piece. *)
Inductive micro_step (w w' : world) : Prop :=
  | micro_own t : own_step t w w' -> micro_step w w'
  | micro_lock t : lock_step t w w' -> micro_step w w'
  | micro_release t : release_step t w w' -> micro_step w w'
  | micro_free t : free_step t w w' -> micro_step w w'.

Inductive stretch (t : nat) (w w' : world) : Prop :=
  | whole_stretch w1 w2 : lock_step t w w1 -> rtc (own_step t) w1 w2 -> release_step t w2 w' -> stretch t w w'.

Inductive atomic_step (w w' : world) : Prop :=
  | atomic_stretch t : stretch t w w' -> atomic_step w w'
  | atomic_free t : free_step t w w' -> atomic_step w w'.

(** A statement, or the destructor, ends the process. *)
Definition crashes (t : nat) (w : world) (why : crash) : Prop :=
  (exists l, w_threads w !! t = Some (In l) /\ inside cd (w_shared w) l = Crash why) \/
  (exists l, (w_threads w !! t = Some (Unlocking l) \/
              exists l0 g c, w_threads w !! t = Some (In l0) /\ inside cd (w_shared w) l0 = Ok (g, l, Waits c)) /\
     ScopedLock_dtor (w_mutex w) t = Crash why).

(** ** Reduction *)

(** The threads in a scope are the owner of the mutex. *)
Definition scoped (p : place) : bool := match p with In _ | Unlocking _ => true | _ => false end.
Definition owned (w : world) : Prop :=
  forall t, (exists p, w_threads w !! t = Some p /\ scoped p = true) <-> w_mutex w = Some t.

Lemma scope_insert t p p' g m m' ts g' :
  owned (World g m ts) -> ts !! t = Some p ->
  m' = (if scoped p' then Some t else if scoped p then None else m) ->
  (scoped p' = true -> scoped p = false -> m = None) ->
  owned (World g' m' (<[t := p']> ts)).
Proof.
  intros Ho Hp -> Hnew u. cbn. pose proof (Ho u) as Hu. pose proof (Ho t) as Ht. cbn in *.
  destruct (decide (t = u)) as [<-|Hne].
  - rewrite lookup_insert_eq. split.
    + by intros (? & [= <-] & ->).
    + destruct (scoped p') eqn:E'; [by eexists|]. destruct (scoped p) eqn:E; [done|].
      intros Hm. apply Ht in Hm as (? & ? & ?). congruence.
  - rewrite lookup_insert_ne by done. rewrite Hu. destruct (scoped p') eqn:E'.
    + destruct (scoped p) eqn:E; [|rewrite Hnew by done; split; congruence].
      assert (m = Some t) as -> by (apply Ht; by exists p). done.
    + destruct (scoped p) eqn:E; [|done].
      assert (m = Some t) as -> by (apply Ht; by exists p). split; congruence.
Qed.

Ltac by_scope_insert := eapply scope_insert; [eassumption|eassumption|done|done].

Lemma scope_wake u c l g m ts :
  owned (World g m ts) -> ts !! u = Some (Waiting c l) -> owned (World g m (<[u := Locking l]> ts)).
Proof. intros Ho Hu. by_scope_insert. Qed.

Lemma dtor_ok m t m' : ScopedLock_dtor m t = Ok m' -> m = Some t /\ m' = None.
Proof. unfold ScopedLock_dtor. case_decide; naive_solver. Qed.
Lemma ctor_ok m t m' : ScopedLock_ctor m t = Some m' -> m = None /\ m' = Some t.
Proof. destruct m; naive_solver. Qed.

Lemma owned_in g m ts t p : owned (World g m ts) -> ts !! t = Some p -> scoped p = true -> m = Some t.
Proof. intros Ho Hp Hs. apply (Ho t). by exists p. Qed.

Lemma scope_own t w w' : owned w -> own_step t w w' -> owned w'.
Proof.
  intros Ho Hs. destruct Hs as [g m ts l g' l' Hl Hi|g m ts l g' l' c u lu Hl Hi Hu|g m ts l g' l' c Hl Hi Hn|g m ts l g' l' Hl Hi];
    pose proof (owned_in _ _ _ _ _ Ho Hl eq_refl) as ->.
  2: { assert (u <> t) by congruence.
    eapply (scope_insert t (In l)); [by eapply scope_wake|by rewrite lookup_insert_ne|done|done]. }
  all: by_scope_insert.
Qed.

Lemma scope_lock t w w' : owned w -> lock_step t w w' -> owned w'.
Proof.
  intros Ho Hs. destruct Hs as [g m ts l m' Hl [-> ->]%ctor_ok].
  by_scope_insert.
Qed.

Lemma scope_release t w w' : owned w -> release_step t w w' -> owned w'.
Proof.
  intros Ho Hs.
  destruct Hs as [g m ts l m' Hl [-> ->]%dtor_ok|g m ts l g' l' c m' Hl Hi [-> ->]%dtor_ok]; by_scope_insert.
Qed.

Lemma scope_free t w w' : owned w -> free_step t w w' -> owned w'.
Proof.
  intros Ho Hs. destruct Hs as [g m ts l l' b Hl Ho'|g m ts c l Hl]; [destruct b|]; by_scope_insert.
Qed.

(** A step that needs no mutex changes the place of its own thread only. *)
Lemma free_step_inv u g m ts w' :
  free_step u (World g m ts) w' ->
  exists p p', ts !! u = Some p /\ (forall l, p <> Locking l) /\ scoped p' = false /\ (forall c l, p' <> Waiting c l) /\
    w' = World g m (<[u := p']> ts) /\
    forall g m ts, ts !! u = Some p -> free_step u (World g m ts) (World g m (<[u := p']> ts)).
Proof.
  intros Hs. inversion Hs as [g0 m0 ts0 l l' b Hl Ho|g0 m0 ts0 c l Hl]; subst.
  - exists (Out l), (if b then Locking l' else Out l'). split; [exact Hl|]. split; [done|]. split; [by destruct b|]. split; [by destruct b|].
    split; [done|]. intros g1 m1 ts1 H1. by apply (free_outside _ _ _ _ l l' b).
  - exists (Waiting c l), (Locking l). split; [exact Hl|]. do 4 (split; [done|]). intros g1 m1 ts1 H1. by apply (free_wakeup _ _ _ _ c).
Qed.

(** It could as well have been taken before the statement another thread has
    just done in its scope, *)
Lemma free_before_own t u w1 w2 w3 :
  t <> u -> own_step t w1 w2 -> free_step u w2 w3 -> exists w2', free_step u w1 w2' /\ own_step t w2' w3.
Proof.
  intros Hne Hown Hfree.
  destruct Hown as [g m ts l g' l' Hl Hi|g m ts l g' l' c v lv Hl Hi Hv|g m ts l g' l' c Hl Hi Hn|g m ts l g' l' Hl Hi];
    apply free_step_inv in Hfree as (p & p' & Hp & Hsp & Hsp' & Hw & -> & Hany);
    rewrite lookup_insert_ne in Hp by done; rewrite (insert_insert_ne _ u t) by done.
  2: { assert (v <> t) by congruence. destruct (decide (v = u)) as [<-|Hvu].
    - rewrite lookup_insert_eq in Hp. injection Hp as <-.
      by destruct (Hsp lv).
    - rewrite lookup_insert_ne in Hp by done. eexists. split; [by apply Hany|].
      rewrite (insert_insert_ne _ u v) by done. eapply own_signal; [by rewrite lookup_insert_ne|done|by rewrite lookup_insert_ne]. }
  all: eexists; (split; [by apply Hany|]).
  - eapply own_stay; [by rewrite lookup_insert_ne|done].
  - eapply own_signal_nobody; [by rewrite lookup_insert_ne|done|]. intros x lx.
    destruct (decide (x = u)) as [->|]; [rewrite lookup_insert_eq; intros [= E]; by apply (Hw c lx)|].
    rewrite lookup_insert_ne by done. apply Hn.
  - eapply own_leave; [by rewrite lookup_insert_ne|done].
Qed.

Lemma free_before_owns t u w1 w2 w3 :
  t <> u -> rtc (own_step t) w1 w2 -> free_step u w2 w3 ->
  exists w2', free_step u w1 w2' /\ rtc (own_step t) w2' w3.
Proof.
  intros Hne Hown. revert w3. induction Hown as [w|w w1 w2 Hw _ IH]; intros w3 Hfree; [by eexists|].
  destruct (IH _ Hfree) as (w2' & Hf & Hr). destruct (free_before_own t u _ _ _ Hne Hw Hf) as (w1' & Hf' & Hs).
  exists w1'. split; [done|]. by eapply rtc_l.
Qed.

(** and before the constructor. *)
Lemma free_before_lock t u w1 w2 w3 :
  t <> u -> lock_step t w1 w2 -> free_step u w2 w3 -> exists w2', free_step u w1 w2' /\ lock_step t w2' w3.
Proof.
  intros Hne [g m ts l m' Hl Hm] (p & p' & Hp & _ & _ & _ & -> & Hany)%free_step_inv.
  rewrite lookup_insert_ne in Hp by done. eexists. split; [by apply Hany|].
  rewrite (insert_insert_ne _ u t) by done. eapply lock_scope; [by rewrite lookup_insert_ne|done].
Qed.

(** The state a run of small steps is in: between two stretches, or some way
    into one. *)
Definition reduced (w0 w : world) : Prop :=
  owned w /\
  match w_mutex w with
  | None => rtc atomic_step w0 w
  | Some t => exists w1 w2, rtc atomic_step w0 w1 /\ lock_step t w1 w2 /\ rtc (own_step t) w2 w
  end.

Lemma lock_mutex t w w' : lock_step t w w' -> w_mutex w = None /\ w_mutex w' = Some t.
Proof. by intros [g m ts l m' _ [-> ->]%ctor_ok]. Qed.
Lemma release_mutex t w w' : release_step t w w' -> w_mutex w = Some t /\ w_mutex w' = None.
Proof. by intros [g m ts l m' _ [-> ->]%dtor_ok|g m ts l g' l' c m' _ _ [-> ->]%dtor_ok]. Qed.
Lemma free_mutex t w w' : free_step t w w' -> w_mutex w' = w_mutex w.
Proof. by intros []. Qed.
Lemma own_mutex t w w' : owned w -> own_step t w w' -> w_mutex w = Some t /\ w_mutex w' = Some t.
Proof. intros Ho Hs. destruct Hs; cbn; rewrite (owned_in _ _ _ _ _ Ho H eq_refl); done. Qed.
Lemma free_idle t w w' : owned w -> free_step t w w' -> w_mutex w <> Some t.
Proof.
  intros Ho Hs. rewrite <- (Ho t). intros (p & Hp & Hsc). destruct Hs; cbn in Hp; simplify_eq; done.
Qed.

Lemma reduced_step w0 w w' : reduced w0 w -> micro_step w w' -> reduced w0 w'.
Proof.
  intros [Ho Hr] [t Hs|t Hs|t Hs|t Hs].
  - split; [by eapply scope_own|]. destruct (own_mutex _ _ _ Ho Hs) as [Hm Hm']. rewrite Hm in Hr. rewrite Hm'.
    destruct Hr as (w1 & w2 & ? & ? & ?). exists w1, w2. do 2 (split; [done|]). by eapply rtc_r.
  - split; [by eapply scope_lock|]. destruct (lock_mutex _ _ _ Hs) as [Hm Hm']. rewrite Hm in Hr. rewrite Hm'.
    by exists w, w'.
  - split; [by eapply scope_release|]. destruct (release_mutex _ _ _ Hs) as [Hm Hm']. rewrite Hm in Hr. rewrite Hm'.
    destruct Hr as (w1 & w2 & ? & ? & ?). eapply rtc_r; [done|]. by eapply atomic_stretch, whole_stretch.
  - split; [by eapply scope_free|]. pose proof (free_idle _ _ _ Ho Hs) as Hne. rewrite (free_mutex _ _ _ Hs).
    destruct (w_mutex w) as [u|].
    + destruct Hr as (w1 & w2 & Hw1 & Hw2 & Hown). assert (u <> t) as Hut by congruence.
      destruct (free_before_owns u t _ _ _ Hut Hown Hs) as (w2' & Hf & Hown').
      destruct (free_before_lock u t _ _ _ Hut Hw2 Hf) as (w1' & Hf' & Hlock).
      exists w1', w2'. split; [|done]. eapply rtc_r; [done|by eapply atomic_free].
    + eapply rtc_r; [done|by eapply atomic_free].
Qed.

(** A start: nobody is in a scope. *)
Definition starts (w : world) : Prop :=
  w_mutex w = None /\ map_Forall (fun _ p => scoped p = false) (w_threads w).

Lemma reduced_runs w0 w : starts w0 -> rtc micro_step w0 w -> reduced w0 w.
Proof.
  intros [Hm Hts] Hr. apply (rtc_invariant micro_step (reduced w0) w0); [apply reduced_step|done|].
  split; [|by rewrite Hm]. intros t. rewrite Hm. split; [|done]. intros (p & Hp & Hsc).
  by rewrite (Hts t p Hp) in Hsc.
Qed.

(** C6. A scope is one step. Run any code under a ScopedLock in any number of
    threads, one statement at a time in every interleaving, with waits, signals
    and spurious wake-ups: whenever the mutex is free the state is one that can
    be reached with every stretch of a scope, from the constructor or a wake-up
    to the next wait or the destructor, run in one piece; at most one thread is
    in a scope, and the destructor's assertion holds; and a statement that ends
    the process does so in a stretch run in one piece. *)
Theorem reduction w0 w :
  starts w0 -> rtc micro_step w0 w ->
  (w_mutex w = None -> rtc atomic_step w0 w) /\
  (forall t p u q, w_threads w !! t = Some p -> w_threads w !! u = Some q ->
     scoped p = true -> scoped q = true -> t = u) /\
  (forall t p, w_threads w !! t = Some p -> scoped p = true -> ScopedLock_dtor (w_mutex w) t = Ok None) /\
  (forall t why, crashes t w why ->
     exists w1 w2 l, rtc atomic_step w0 w1 /\ lock_step t w1 w2 /\ rtc (own_step t) w2 w /\
       w_threads w !! t = Some (In l) /\ inside cd (w_shared w) l = Crash why).
Proof.
  intros Hst Hr. destruct (reduced_runs w0 w Hst Hr) as [Ho Hred].
  assert (forall t p, w_threads w !! t = Some p -> scoped p = true -> w_mutex w = Some t) as Hown
    by (intros t p Hp Hsc; apply (Ho t); by exists p).
  assert (forall t p, w_threads w !! t = Some p -> scoped p = true -> ScopedLock_dtor (w_mutex w) t = Ok None) as Hd.
  { intros t p Hp Hsc. unfold ScopedLock_dtor. by rewrite (Hown t p Hp Hsc), decide_True. }
  split; [|split; [|split; [done|]]].
  - intros Hm. by rewrite Hm in Hred.
  - intros t p u q Hp Hq Hsp Hsq. pose proof (Hown t p Hp Hsp). pose proof (Hown u q Hq Hsq). congruence.
  - intros t why [(l & Hl & Hi)|(l & Hl & Hc)].
    + rewrite (Hown t _ Hl eq_refl) in Hred. destruct Hred as (w1 & w2 & ? & ? & ?). by exists w1, w2, l.
    + exfalso. destruct Hl as [Hl|(l0 & g & c & Hl & _)]; by rewrite (Hd t _ Hl eq_refl) in Hc.
Qed.

(** Nothing is gained either: a stretch is a run of small steps. *)
Lemma stretch_micro t w w' : stretch t w w' -> rtc micro_step w w'.
Proof.
  intros [w1 w2 Hl Hown Hrel]. eapply rtc_l; [by eapply micro_lock|].
  eapply rtc_r; [|by eapply micro_release].
  clear Hl Hrel. induction Hown; [done|]. eapply rtc_l; [by eapply micro_own|done].
Qed.
Lemma atomic_micro w w' : rtc atomic_step w w' -> rtc micro_step w w'.
Proof.
  induction 1 as [|x y z [t Hs|t Hs] _ IH]; [done| |].
  - etrans; [by eapply stretch_micro|done].
  - eapply rtc_l; [by eapply micro_free|done].
Qed.

(** ** Running a stretch

    From inside a scope to the place where the mutex is let go, statement by
    statement: these determine what a given piece of code does as one step. *)
Definition wakes (c : nat) (ts ts' : gmap nat place) : Prop :=
  (exists u lu, ts !! u = Some (Waiting c lu) /\ ts' = <[u := Locking lu]> ts) \/ (nobody_waits c ts /\ ts' = ts).

Inductive finish (t : nat) (w w' : world) : Prop :=
  | finish_run w2 : rtc (own_step t) w w2 -> release_step t w2 w' -> finish t w w'.

Lemma stretch_finish t g m ts w' :
  stretch t (World g m ts) w' <->
  m = None /\ exists l, ts !! t = Some (Locking l) /\ finish t (World g (Some t) (<[t := In l]> ts)) w'.
Proof.
  split.
  - intros [w1 w2 Hl Hown Hrel]. inversion Hl as [g0 m0 ts0 l m' Ht Hm]; subst.
    apply ctor_ok in Hm as [-> ->]. split; [done|]. exists l. split; [done|]. by eapply finish_run.
  - intros (-> & l & Ht & [w2 Hown Hrel]). eapply whole_stretch; [|done|done]. by eapply lock_scope.
Qed.

(** A statement of [t] and the rest. *)
Lemma finish_unfold t w w' :
  finish t w w' <-> release_step t w w' \/ exists w1, own_step t w w1 /\ finish t w1 w'.
Proof.
  split.
  - intros [w2 Hown Hrel]. inversion Hown as [|? w1 ? H1 H2]; subst; [by left|]. right. exists w1.
    split; [done|]. by eapply finish_run.
  - intros [Hr|(w1 & H1 & [w2 Hown Hrel])]; [by eapply finish_run; [apply rtc_refl|]|].
    eapply finish_run; [by eapply rtc_l|done].
Qed.

Ltac own_inv :=
  match goal with
  | H : own_step _ (World _ _ _) _ |- _ => inversion H; clear H; simplify_map_eq
  | H : release_step _ (World _ _ _) _ |- _ => inversion H; clear H; simplify_map_eq
  end;
  repeat match goal with
  | H1 : ?x = Ok _, H2 : ?x = Ok _ |- _ => rewrite H1 in H2; simplify_eq
  end.

Lemma finish_stay t g m ts l g' l' w' :
  ts !! t = Some (In l) -> inside cd g l = Ok (g', l', Stay) ->
  finish t (World g m ts) w' <-> finish t (World g' m (<[t := In l']> ts)) w'.
Proof.
  intros Ht Hi. rewrite (finish_unfold t (World g m ts)). split.
  - intros [Hr|(w1 & Hs & Hf)]; [own_inv|]. own_inv; done.
  - intros Hf. right. eexists. split; [by eapply own_stay|done].
Qed.

Lemma finish_signal t g m ts l g' l' c w' :
  ts !! t = Some (In l) -> inside cd g l = Ok (g', l', Signals c) ->
  finish t (World g m ts) w' <-> exists ts', wakes c ts ts' /\ finish t (World g' m (<[t := In l']> ts')) w'.
Proof.
  intros Ht Hi. rewrite (finish_unfold t (World g m ts)). split.
  - intros [Hr|(w1 & Hs & Hf)]; [own_inv|]. own_inv.
    + eexists. split; [left; by eexists _, _|done].
    + eexists. split; [by right|done].
  - intros (ts' & [(u & lu & Hu & ->)|[Hn ->]] & Hf); right; eexists; (split; [|done]).
    + by eapply own_signal.
    + by eapply own_signal_nobody.
Qed.

Lemma finish_leave t g ts l g' l' w' :
  ts !! t = Some (In l) -> inside cd g l = Ok (g', l', Leaves) ->
  finish t (World g (Some t) ts) w' <-> w' = World g' None (<[t := Out l']> ts).
Proof.
  intros Ht Hi. assert (ScopedLock_dtor (Some t) t = Ok None) as Hd by (unfold ScopedLock_dtor; by rewrite decide_True).
  rewrite finish_unfold. split.
  - intros [Hr|(w1 & Hs & Hf)]; [own_inv|]. own_inv. apply finish_unfold in Hf as [Hr|(w2 & Hs & _)]; [|own_inv].
    own_inv. by rewrite insert_insert_eq.
  - intros ->. right. eexists. split; [by eapply own_leave|]. apply finish_unfold. left.
    replace (<[t := Out l']> ts) with (<[t := Out l']> (<[t := Unlocking l']> ts)) by apply insert_insert_eq.
    eapply release_scope; [apply lookup_insert_eq|done].
Qed.

Lemma finish_wait t g ts l g' l' c w' :
  ts !! t = Some (In l) -> inside cd g l = Ok (g', l', Waits c) ->
  finish t (World g (Some t) ts) w' <-> w' = World g' None (<[t := Waiting c l']> ts).
Proof.
  intros Ht Hi. assert (ScopedLock_dtor (Some t) t = Ok None) as Hd by (unfold ScopedLock_dtor; by rewrite decide_True).
  rewrite finish_unfold. split.
  - intros [Hr|(w1 & Hs & Hf)]; own_inv; try done.
  - intros ->. left. by eapply release_wait.
Qed.

End Threads.

Arguments code : clear implicits.
Arguments place : clear implicits.
Arguments world : clear implicits.

(** Two threads that each add one to a member, which takes them a load and a
    store: [LAdd None] is before the load, [LAdd (Some x)] before the store. *)
Inductive adding := LStart | LAdd (loaded : option Z) | LEnd.
Definition adder : code Z adding :=
  Code (fun l => match l with LStart => Some (LAdd None, true) | _ => None end)
    (fun g l => match l with
                | LAdd None => Ok (g, LAdd (Some g), Stay)
                | LAdd (Some x) => Ok (x + 1, LEnd, Leaves)%Z
                | _ => Ok (g, l, Leaves)
                end).
Definition two_adders : world Z adding := World 0%Z None (<[0 := Out LStart]> {[1 := Out LStart]})%nat.

(** The second thread comes to the lock while the first is in its scope. *)
Lemma reduction_witness :
  let w := World 1%Z None (<[0 := Out LEnd]> {[1 := Locking (LAdd None)]})%nat in
  rtc (micro_step adder) two_adders w /\ rtc (atomic_step adder) two_adders w.
Proof.
  intros w. assert (rtc (micro_step adder) two_adders w) as Hr.
  { unfold two_adders, w.
    eapply rtc_l; [eapply (micro_free _ _ _ 0), (free_outside _ _ _ _ _ LStart (LAdd None) true); done|].
    eapply rtc_l; [eapply (micro_lock _ _ _ 0), lock_scope; [by simplify_map_eq|done]|].
    eapply rtc_l; [eapply (micro_own _ _ _ 0), own_stay; [by simplify_map_eq|done]|].
    eapply rtc_l; [eapply (micro_free _ _ _ 1), (free_outside _ _ _ _ _ LStart (LAdd None) true); [by simplify_map_eq|done]|].
    eapply rtc_l; [eapply (micro_own _ _ _ 0), own_leave; [by simplify_map_eq|done]|].
    eapply rtc_l; [eapply (micro_release _ _ _ 0), release_scope; [by simplify_map_eq|done]|].
    exact (rtc_refl _ _). }
  split; [exact Hr|]. refine (proj1 (reduction adder two_adders w _ Hr) eq_refl).
  split; [done|]. apply map_Forall_insert_2; [done|]. by apply map_Forall_singleton.
Defined.
