(* ===== verification/ThrPool.v ===== *)
(** * The thread pool: rpc/fifo.h, rpc/thr_pool.h and rpc/thr_pool.cc

    A bounded queue of jobs, worker threads that take them, and a destructor
    that stops the workers with one NULL job each. The queue's operations hold
    its mutex throughout, so a pass through their loops is one step; a call
    that waits on a condition variable is a step that is not taken yet. *)

From S2P Require Import Prelude.
Local Open Scope Z_scope.

(** ** fifo<T> *)
Record fifo (T : Type) := Fifo { q_ : list T; max_ : Z }.
Arguments Fifo {T} _ _. Arguments q_ {T} _. Arguments max_ {T} _.

(** One pass of the loop of [enq] or [deq]: it returns or it waits. *)
Inductive pass (A : Type) := Return (a : A) | Wait.
Arguments Return {A} _. Arguments Wait {A}.

Section Fifo.
Context {T : Type}.

(** [max_] is an [unsigned int] given as an [int]. *)
Definition fifo_new (limit : Z) : fifo T := Fifo [] (u32 limit).

Definition enq (f : fifo T) (e : T) (blocking : bool) : fifo T * pass bool :=
  if (max_ f =? 0) || (zlen (q_ f) <? max_ f)
  then (Fifo (q_ f ++ [e]) (max_ f), Return true)
  else if blocking then (f, Wait) else (f, Return false).

Definition deq (f : fifo T) : fifo T * pass T :=
  match q_ f with
  | [] => (f, Wait)
  | e :: q => (Fifo q (max_ f), Return e)
  end.

(** [size] is declared to return a [bool]. *)
Definition fifo_size (f : fifo T) : bool := negb (zlen (q_ f) =? 0).
End Fifo.

(** ** ThrPool *)

(** job_t: a function pointer (NULL is the poison pill) and its argument. *)
Record job_t := Job { j_f : option Z; j_a : Z }.
#[export] Instance job_t_eq_dec : EqDecision job_t.
Proof. solve_decision. Defined.
Definition poison : job_t := Job None 0.

(** The pool, its workers that have not exited, and the jobs run so far. *)
Record ThrPool := Pool {
  nthreads_ : Z; blockadd_ : bool; jobq_ : fifo job_t;
  p_live : nat; p_run : list job_t }.

Definition ThrPool_new (sz : Z) (blocking : bool) : ThrPool :=
  Pool sz blocking (fifo_new (100 * sz)) (Z.to_nat sz) [].

Definition set_jobq (p : ThrPool) (f : fifo job_t) : ThrPool :=
  Pool (nthreads_ p) (blockadd_ p) f (p_live p) (p_run p).

Definition addJob (p : ThrPool) (f : Z) (a : Z) : ThrPool * pass bool :=
  let '(q, r) := enq (jobq_ p) (Job (Some f) a) (blockadd_ p) in (set_jobq p q, r).

(** The job and whether it is one to run. *)
Definition takeJob (p : ThrPool) : ThrPool * pass (job_t * bool) :=
  let '(q, r) := deq (jobq_ p) in
  (set_jobq p q, match r with Return j => Return (j, is_some (j_f j)) | Wait => Wait end).

(** One round of a worker's loop: take a job and run it, or exit. *)
Definition do_worker (p : ThrPool) : option ThrPool :=
  match p_live p with
  | O => None
  | S n =>
      match takeJob p with
      | (_, Wait) => None
      | (p, Return (j, true)) =>
          Some (Pool (nthreads_ p) (blockadd_ p) (jobq_ p) (p_live p) (p_run p ++ [j]))
      | (p, Return (_, false)) =>
          Some (Pool (nthreads_ p) (blockadd_ p) (jobq_ p) n (p_run p))
      end
  end.

(** One round of the destructor's first loop; it always waits for room. *)
Definition enq_poison (p : ThrPool) : ThrPool * pass bool :=
  let '(q, r) := enq (jobq_ p) poison true in (set_jobq p q, r).

(** ** The queue in use

    What has been accepted so far, in order, goes along. *)
Inductive pool_step : ThrPool * list job_t -> ThrPool * list job_t -> Prop :=
  | step_add p l f a p' r :
      addJob p f a = (p', r) ->
      pool_step (p, l) (p', match r with Return true => l ++ [Job (Some f) a] | _ => l end)
  | step_work p l p' : do_worker p = Some p' -> pool_step (p, l) (p', l).

Definition pool_inv (n : Z) (s : ThrPool * list job_t) : Prop :=
  let '(p, l) := s in
  max_ (jobq_ p) = 100 * n /\ zlen (q_ (jobq_ p)) <= 100 * n /\ Z.of_nat (p_live p) = n /\
  p_run p ++ q_ (jobq_ p) = l /\ Forall (fun j => j_f j <> None) (q_ (jobq_ p)).

Lemma pool_inv_step n s s' : 0 < n -> pool_inv n s -> pool_step s s' -> pool_inv n s'.
Proof.
  intros Hn Hinv Hs. revert Hinv. destruct Hs as [p l f a p' r Ha|p l p' Hw]; intros (Hm & Hl & Hlive & Hrun & Hq).
  - unfold addJob, enq in Ha. rewrite Hm in Ha. rewrite (proj2 (Z.eqb_neq _ 0)) in Ha by lia. cbn [orb] in Ha.
    destruct (Z.ltb_spec (zlen (q_ (jobq_ p))) (100 * n)).
    + simplify_eq. cbn. split_and!; try done.
      * rewrite zlen_app, zlen_cons, zlen_nil. lia.
      * by rewrite (assoc_L (++)).
      * apply Forall_app. split; [done|]. by constructor.
    + destruct (blockadd_ p); simplify_eq; done.
  - unfold do_worker, takeJob, deq in Hw. destruct (p_live p) as [|k] eqn:Hk; [done|].
    destruct (q_ (jobq_ p)) as [|j q] eqn:Eq; [done|]. apply Forall_cons in Hq as [Hj Hq].
    destruct (j_f j) as [f|] eqn:Ej; [|done]. cbn in Hw. simplify_eq. cbn.
    rewrite zlen_cons in Hl. split_and!; try done; [lia|lia|].
    by rewrite <- (assoc_L (++)).
Qed.

(** C34. The pool runs what it accepts, once and in order. However additions and
    workers interleave, the jobs taken by workers followed by those still
    queued are exactly the accepted jobs in the order they were accepted; the
    queue never holds more than 100 per thread, an addition is turned down
    (or made to wait, in a blocking pool) exactly when it is that full, and no
    worker ever exits. *)
Theorem jobs_run_once_in_order n blocking p l :
  0 < n < 2 ^ 20 -> rtc pool_step (ThrPool_new n blocking, []) (p, l) ->
  p_run p ++ q_ (jobq_ p) = l /\ zlen (q_ (jobq_ p)) <= 100 * n /\ Z.of_nat (p_live p) = n /\
  forall f a, (addJob p f a).2 =
    if zlen (q_ (jobq_ p)) =? 100 * n then (if blockadd_ p then Wait else Return false) else Return true.
Proof.
  intros Hn Hs.
  assert (pool_inv n (p, l)) as (Hm & Hl & Hlive & Hrun & Hq).
  { eapply rtc_invariant; [|exact Hs|].
    - intros x y Hx Hxy. eapply pool_inv_step; [lia|exact Hx|exact Hxy].
    - cbn. rewrite u32_small by (unfold is_u32; lia). split_and!; try done; try lia. by rewrite zlen_nil; lia. }
  split_and!; try done. intros f a. unfold addJob, enq. rewrite Hm, (proj2 (Z.eqb_neq _ 0)) by lia. cbn [orb].
  destruct (Z.ltb_spec (zlen (q_ (jobq_ p))) (100 * n)).
  - by rewrite (proj2 (Z.eqb_neq _ _)) by lia.
  - rewrite (proj2 (Z.eqb_eq _ _)) by lia. by destruct (blockadd_ p).
Qed.

Lemma jobs_run_once_in_order_witness :
  exists p, rtc pool_step (ThrPool_new 1 false, []) (p, [Job (Some 5) 6]) /\ p_run p = [Job (Some 5) 6] /\
    p_run p ++ q_ (jobq_ p) = [Job (Some 5) 6].
Proof.
  assert (rtc pool_step (ThrPool_new 1 false, [])
    (Pool 1 false (Fifo [] 100) 1 [Job (Some 5) 6], [Job (Some 5) 6])) as Hs.
  { eapply rtc_l; [eapply (step_add _ [] 5 6); reflexivity|].
    eapply rtc_once. apply step_work. reflexivity. }
  eexists. split; [exact Hs|]. split; [done|].
  apply (jobs_run_once_in_order 1 false _ _ ltac:(lia) Hs).
Defined.

(** ** Shutting down *)

(** The destructor's first loop, with the workers still running. *)
Inductive stop_step : ThrPool * nat -> ThrPool * nat -> Prop :=
  | stop_enq p k p' : enq_poison p = (p', Return true) -> stop_step (p, S k) (p', k)
  | stop_work p k p' : do_worker p = Some p' -> stop_step (p, k) (p', k).

(** [js] is left to run, [k] pills are still to be queued. *)
Definition stop_inv (js : list job_t) (s : ThrPool * nat) : Prop :=
  let '(p, k) := s in
  exists todo pills, q_ (jobq_ p) = todo ++ replicate pills poison /\
    Forall (fun j => j_f j <> None) todo /\ p_live p = (pills + k)%nat /\ p_run p ++ todo = js /\
    (p_live p = O -> todo = []).

Lemma stop_inv_step js s s' : stop_inv js s -> stop_step s s' -> stop_inv js s'.
Proof.
  intros Hinv Hs. revert Hinv. destruct Hs as [p k p' He|p k p' Hw]; intros (todo & pills & Hq & Htodo & Hlive & Hrun & Hz).
  - unfold enq_poison, enq in He. destruct ((max_ (jobq_ p) =? 0) || _); simplify_eq. cbn.
    exists todo, (S pills). split_and!; [|done|lia|done|lia].
    rewrite Hq, <- (assoc_L (++)). f_equal. by rewrite replicate_S_end.
  - unfold do_worker, takeJob, deq in Hw. destruct (p_live p) as [|m] eqn:Hk; [done|].
    rewrite Hq in Hw. destruct todo as [|j todo].
    + destruct pills as [|pills]; [done|]. cbn in Hw. simplify_eq. cbn.
      exists [], pills. split_and!; try done. lia.
    + apply Forall_cons in Htodo as [Hj Htodo]. cbn in Hw. destruct (j_f j) as [f|] eqn:Ej; [|done].
      cbn in Hw. simplify_eq. cbn. exists todo, pills.
      split_and!; [done|done|lia|by rewrite <- (assoc_L (++))|lia].
Qed.

Lemma stop_step_max s s' : stop_step s s' -> max_ (jobq_ s'.1) = max_ (jobq_ s.1).
Proof.
  intros Hs. destruct Hs as [a i b He|a i b Hw]; cbn.
  - unfold enq_poison, enq in He. destruct ((max_ (jobq_ a) =? 0) || _); by simplify_eq.
  - unfold do_worker, takeJob, deq in Hw. destruct (p_live a); [done|].
    destruct (q_ (jobq_ a)) as [|x0 q0]; [done|]. cbn in Hw. repeat case_match; by simplify_eq/=.
Qed.

(** Pills to be queued count twice: once in the queue they count once. *)
Definition work_left (s : ThrPool * nat) : nat := (2 * s.2 + length (q_ (jobq_ s.1)))%nat.

Lemma stop_step_work_left s s' : stop_step s s' -> (work_left s' < work_left s)%nat.
Proof.
  intros Hs. destruct Hs as [a i b He|a i b Hw]; unfold work_left; cbn.
  - unfold enq_poison, enq in He. destruct ((max_ (jobq_ a) =? 0) || _); simplify_eq. cbn.
    rewrite length_app. cbn. lia.
  - unfold do_worker, takeJob, deq in Hw. destruct (p_live a); [done|].
    destruct (q_ (jobq_ a)) as [|x0 q0]; [done|]. cbn in Hw. repeat case_match; simplify_eq/=; lia.
Qed.

(** C33. Shutting the pool down ends and loses no jobs. From a pool with [n] live
    workers and accepted jobs still queued, in any state the destructor and
    the workers reach: every step leaves less work; as long as a worker is left
    or a pill is still to be queued some thread can go on; and when none is,
    all jobs have been run in order, every pill has been taken and the queue is
    empty. *)
Theorem shutdown_completes n p p' k :
  (0 < n)%nat -> p_live p = n -> Forall (fun j => j_f j <> None) (q_ (jobq_ p)) ->
  max_ (jobq_ p) = 0 \/ 0 < max_ (jobq_ p) ->
  rtc stop_step (p, n) (p', k) ->
  (forall s, stop_step (p', k) s -> (work_left s < work_left (p', k))%nat) /\
  ((exists s, stop_step (p', k) s) \/
   (k = O /\ p_live p' = O /\ q_ (jobq_ p') = [] /\ p_run p' = p_run p ++ q_ (jobq_ p))).
Proof.
  intros Hn Hlive Hjobs Hmax Hs. split; [intros s; apply stop_step_work_left|].
  assert (stop_inv (p_run p ++ q_ (jobq_ p)) (p', k)) as (todo & pills & Hq & Htodo & Hl & Hrun & Hz).
  { eapply rtc_invariant; [apply stop_inv_step|exact Hs|].
    exists (q_ (jobq_ p)), O. cbn. split_and!; [by rewrite app_nil_r|done|lia|done|lia]. }
  destruct (p_live p') as [|m] eqn:Hm.
  - right. assert (pills = O /\ k = O) as [-> ->] by lia.
    specialize (Hz eq_refl). subst todo. cbn in Hq. rewrite app_nil_r in Hrun. done.
  - left. destruct (q_ (jobq_ p')) as [|j q] eqn:Ej.
    + symmetry in Hq. apply app_eq_nil in Hq as [_ Hp].
      assert (pills = O) as -> by (by destruct pills). destruct k as [|k]; [lia|].
      assert (max_ (jobq_ p') = max_ (jobq_ p)) as Hmax'.
      { change (max_ (jobq_ (p', S k).1) = max_ (jobq_ p)).
        apply (rtc_invariant stop_step (fun s => max_ (jobq_ s.1) = max_ (jobq_ p)) (p, n)); [|exact Hs|done].
        intros x y Hx Hxy. by rewrite <- Hx, (stop_step_max x y Hxy). }
      assert ((max_ (jobq_ p) =? 0) || (zlen (@nil job_t) <? max_ (jobq_ p)) = true) as Hroom.
      { apply orb_true_iff. rewrite Z.eqb_eq, Z.ltb_lt. change (zlen (@nil job_t)) with 0. done. }
      eexists. apply stop_enq. unfold enq_poison, enq. rewrite Ej, Hmax', Hroom. reflexivity.
    + destruct (j_f j) eqn:Ef; eexists; apply stop_work; unfold do_worker, takeJob, deq;
        rewrite Hm, Ej; cbn; rewrite Ef; reflexivity.
Qed.

(** Two workers, one job left. *)
Lemma shutdown_completes_witness :
  let p := Pool 2 false (Fifo [Job (Some 5) 6] 200) 2 [] in
  exists s, stop_step (p, 2%nat) s.
Proof.
  intros p. destruct (shutdown_completes 2 p p 2) as [_ [Hs|(Hk & _)]].
  - lia.
  - done.
  - repeat constructor. done.
  - right. cbn. lia.
  - done.
  - exact Hs.
  - done.
Defined.
