(* ===== verification/FifoThreads.v ===== *)
(** * The job queue, statement by statement: rpc/fifo.h

    ThrPool takes a pass of the loops in [enq] and [deq] for one step and leaves
    the condition variables out. Here threads run their statements one at a time
    under the queue's ScopedLock, with its two condition variables.
    [fifo_refines] shows that they implement the steps of ThrPool, and
    [fifo_no_lost_wakeup] that the signals are enough: no thread sleeps on while
    it could go on. *)

From S2P Require Import Prelude ThrPool ScopedLock.
Local Open Scope Z_scope.

Definition non_empty_c_ : nat := 0.
Definition has_space_c_ : nat := 1.

Section Fifo.
Context {T : Type}.

(** What a thread calls, and what it got back. *)
Inductive call := Enq (e : T) (blocking : bool) | Deq | Size.
Inductive result := REnq (r : bool) | RDeq (e : T) | RSize (r : bool).

Inductive fifo_pc :=
  | F_next                          (** between two calls *)
  | E_test (e : T) (blocking : bool)   (** if (!max_ || q_.size() < max_) *)
  | E_push (e : T)                  (** q_.push_back(e) *)
  | E_signal                        (** pthread_cond_signal(&non_empty_c_) *)
  | E_return                        (** return true *)
  | D_test                          (** if(q_.empty()) *)
  | D_front                         (** *e = q_.front() *)
  | D_pop (e : T)                   (** q_.pop_front() *)
  | D_room (e : T)                  (** if (max_ && q_.size() < max_) *)
  | D_signal (e : T)                (** pthread_cond_signal(&has_space_c_) *)
  | D_return (e : T)
  | S_size.                         (** return q_.size() *)

Record caller := Caller { f_pc : fifo_pc; f_todo : list call; f_got : list result }.
Definition at_pc (l : caller) (p : fifo_pc) : caller := Caller p (f_todo l) (f_got l).
Definition returns (l : caller) (r : result) : caller := Caller F_next (f_todo l) (f_got l ++ [r]).

Definition entry (c : call) : fifo_pc :=
  match c with Enq e b => E_test e b | Deq => D_test | Size => S_size end.

(** One statement of [enq], [deq] or [size]. *)
Definition fifo_inside (f : fifo T) (l : caller) : outcome (fifo T * caller * next) :=
  match f_pc l with
  | F_next => Ok (f, l, Leaves)
  | E_test e blocking =>
      if (max_ f =? 0) || (zlen (q_ f) <? max_ f) then Ok (f, at_pc l (E_push e), Stay)
      else if blocking then Ok (f, l, Waits has_space_c_)
      else Ok (f, returns l (REnq false), Leaves)
  | E_push e => Ok (Fifo (q_ f ++ [e]) (max_ f), at_pc l E_signal, Stay)
  | E_signal => Ok (f, at_pc l E_return, Signals non_empty_c_)
  | E_return => Ok (f, returns l (REnq true), Leaves)
  | D_test =>
      match q_ f with
      | [] => Ok (f, l, Waits non_empty_c_)
      | _ => Ok (f, at_pc l D_front, Stay)
      end
  | D_front => match q_ f with [] => Crash OutOfBounds | e :: _ => Ok (f, at_pc l (D_pop e), Stay) end
  | D_pop e => match q_ f with [] => Crash OutOfBounds | _ :: q => Ok (Fifo q (max_ f), at_pc l (D_room e), Stay) end
  | D_room e =>
      if negb (max_ f =? 0) && (zlen (q_ f) <? max_ f) then Ok (f, at_pc l (D_signal e), Stay)
      else Ok (f, at_pc l (D_return e), Stay)
  | D_signal e => Ok (f, at_pc l (D_return e), Signals has_space_c_)
  | D_return e => Ok (f, returns l (RDeq e), Leaves)
  | S_size => Ok (f, returns l (RSize (fifo_size f)), Leaves)
  end.

Definition fifo_outside (l : caller) : option (caller * bool) :=
  match f_todo l with [] => None | c :: r => Some (Caller (entry c) r (f_got l), true) end.

Definition fifo_code : code (fifo T) caller := Code fifo_outside fifo_inside.

(** ** The calls as steps *)

(** What [enq] and [deq] of ThrPool leave open: whom a call wakes. *)
Definition woken (max : Z) (q' : list T) (r : pass T) (ts ts' : gmap nat (place caller)) : Prop :=
  match r with
  | Return _ => if negb (max =? 0) && (zlen q' <? max) then wakes has_space_c_ ts ts' else ts' = ts
  | Wait => ts' = ts
  end.

Inductive fifo_step (t : nat) : world (fifo T) caller -> world (fifo T) caller -> Prop :=
  | fifo_enq f ts l e b f' r ts' :
      ts !! t = Some (Locking l) -> f_pc l = E_test e b -> enq f e b = (f', r) ->
      match r with Return true => wakes non_empty_c_ ts ts' | _ => ts' = ts end ->
      fifo_step t (World f None ts) (World f' None
        (<[t := match r with Return x => Out (returns l (REnq x)) | Wait => Waiting has_space_c_ l end]> ts'))
  | fifo_deq f ts l f' r ts' :
      ts !! t = Some (Locking l) -> f_pc l = D_test -> deq f = (f', r) -> woken (max_ f) (q_ f') r ts ts' ->
      fifo_step t (World f None ts) (World f' None
        (<[t := match r with Return e => Out (returns l (RDeq e)) | Wait => Waiting non_empty_c_ l end]> ts'))
  | fifo_look f ts l :
      ts !! t = Some (Locking l) -> f_pc l = S_size ->
      fifo_step t (World f None ts) (World f None (<[t := Out (returns l (RSize (fifo_size f)))]> ts)).

(** A signal does not depend on the places of threads that do not wait. *)
Lemma wakes_insert c t p (ts ts1 : gmap nat (place caller)) :
  (forall d l, p <> Waiting d l) -> (forall d l, ts !! t <> Some (Waiting d l)) ->
  wakes c (<[t := p]> ts) ts1 <-> exists ts', wakes c ts ts' /\ ts1 = <[t := p]> ts'.
Proof.
  intros Hp Ht. unfold wakes, nobody_waits. split.
  - intros [(u & lu & Hu & ->)|[Hn ->]].
    + assert (t <> u) as Hne by (intros <-; rewrite lookup_insert_eq in Hu; injection Hu; by apply Hp).
      rewrite lookup_insert_ne in Hu by done. eexists. split; [left; by exists u, lu|]. by apply insert_insert_ne.
    + exists ts. split; [|done]. right. split; [|done]. intros u l. destruct (decide (t = u)) as [<-|]; [done|].
      rewrite <- (lookup_insert_ne ts t u p) by done. apply Hn.
  - intros (ts' & [(u & lu & Hu & ->)|[Hn ->]] & ->).
    + assert (t <> u) as Hne by (intros <-; by apply (Ht c lu)).
      left. exists u, lu. rewrite lookup_insert_ne by done. split; [done|]. by apply insert_insert_ne.
    + right. split; [|done]. intros u l. destruct (decide (t = u)) as [<-|].
      * rewrite lookup_insert_eq. intros [=]. by eapply Hp.
      * rewrite lookup_insert_ne by done. apply Hn.
Qed.

Definition at_entry (l : caller) : Prop := exists c, f_pc l = entry c.

(** The end of a call that signals. *)
Lemma finish_signal_leave t f l1 l2 l3 c ts w' :
  (forall d l, ts !! t <> Some (Waiting d l)) ->
  fifo_inside f l1 = Ok (f, l2, Signals c) -> fifo_inside f l2 = Ok (f, l3, Leaves) ->
  finish fifo_code t (World f (Some t) (<[t := In l1]> ts)) w' <->
  exists ts', wakes c ts ts' /\ w' = World f None (<[t := Out l3]> ts').
Proof.
  intros Ht H1 H2. rewrite finish_signal; [|apply lookup_insert_eq|exact H1].
  setoid_rewrite wakes_insert; [|done|done]. split.
  - intros (? & (ts' & Hw & ->) & Hf). rewrite insert_insert_eq in Hf.
    rewrite finish_leave in Hf; [|apply lookup_insert_eq|exact H2]. rewrite insert_insert_eq in Hf. by exists ts'.
  - intros (ts' & Hw & ->). eexists. split; [by exists ts'|]. rewrite insert_insert_eq.
    rewrite finish_leave; [|apply lookup_insert_eq|exact H2]. by rewrite insert_insert_eq.
Qed.

(** The end of one that does not. *)
Lemma finish_out t f l l' ts w' :
  fifo_inside f l = Ok (f, l', Leaves) ->
  finish fifo_code t (World f (Some t) (<[t := In l]> ts)) w' <->
  exists ts', ts' = ts /\ w' = World f None (<[t := Out l']> ts').
Proof.
  intros H. rewrite finish_leave; [|apply lookup_insert_eq|exact H]. rewrite insert_insert_eq.
  split; [intros ->; by exists ts|by intros (? & -> & ->)].
Qed.
Lemma finish_sleep t f l l' c ts w' :
  fifo_inside f l = Ok (f, l', Waits c) ->
  finish fifo_code t (World f (Some t) (<[t := In l]> ts)) w' <->
  exists ts', ts' = ts /\ w' = World f None (<[t := Waiting c l']> ts').
Proof.
  intros H. rewrite finish_wait; [|apply lookup_insert_eq|exact H]. rewrite insert_insert_eq.
  split; [intros ->; by exists ts|by intros (? & -> & ->)].
Qed.
Lemma finish_stmt t f l f' l' ts w' :
  fifo_inside f l = Ok (f', l', Stay) ->
  finish fifo_code t (World f (Some t) (<[t := In l]> ts)) w' <->
  finish fifo_code t (World f' (Some t) (<[t := In l']> ts)) w'.
Proof. intros H. rewrite finish_stay; [|apply lookup_insert_eq|exact H]. by rewrite insert_insert_eq. Qed.

(** The statements of [enq] and [deq] from the first to the last. *)
Lemma finish_enq t f l e b ts w' :
  ts !! t = Some (Locking l) -> f_pc l = E_test e b ->
  finish fifo_code t (World f (Some t) (<[t := In l]> ts)) w' <->
  exists ts', match (enq f e b).2 with Return true => wakes non_empty_c_ ts ts' | _ => ts' = ts end /\
    w' = World (enq f e b).1 None
      (<[t := match (enq f e b).2 with Return x => Out (returns l (REnq x)) | Wait => Waiting has_space_c_ l end]> ts').
Proof.
  intros Ht Hp. unfold enq. destruct ((max_ f =? 0) || (zlen (q_ f) <? max_ f)) eqn:Hroom; cbn [fst snd].
  - rewrite finish_stmt; [|unfold fifo_inside; rewrite Hp, Hroom; reflexivity].
    rewrite finish_stmt; [|reflexivity].
    apply (finish_signal_leave _ _ _ (at_pc l E_return)); [by rewrite Ht|reflexivity|reflexivity].
  - destruct b; [apply finish_sleep|apply finish_out]; cbn [fst]; unfold fifo_inside; by rewrite Hp, Hroom.
Qed.

Lemma finish_deq t f l ts w' :
  ts !! t = Some (Locking l) -> f_pc l = D_test ->
  finish fifo_code t (World f (Some t) (<[t := In l]> ts)) w' <->
  exists ts', woken (max_ f) (q_ (deq f).1) (deq f).2 ts ts' /\
    w' = World (deq f).1 None
      (<[t := match (deq f).2 with Return e => Out (returns l (RDeq e)) | Wait => Waiting non_empty_c_ l end]> ts').
Proof.
  intros Ht Hp. destruct f as [q m]. destruct q as [|e q]; cbn [deq q_ max_ fst snd woken].
  - apply finish_sleep. unfold fifo_inside. by rewrite Hp.
  - rewrite finish_stmt; [|unfold fifo_inside; rewrite Hp; reflexivity].
    do 2 (rewrite finish_stmt; [|reflexivity]). cbn [max_].
    destruct (negb (m =? 0) && (zlen q <? m)) eqn:Hroom.
    + rewrite finish_stmt; [|unfold fifo_inside; cbn [at_pc f_pc q_ max_]; rewrite Hroom; reflexivity].
      apply (finish_signal_leave _ _ _ (at_pc l (D_return e))); [by rewrite Ht|reflexivity|reflexivity].
    + rewrite finish_stmt; [|unfold fifo_inside; cbn [at_pc f_pc q_ max_]; rewrite Hroom; reflexivity].
      by apply finish_out.
Qed.

Lemma stretch_fifo_step t w w' :
  (forall l, w_threads w !! t = Some (Locking l) -> at_entry l) ->
  stretch fifo_code t w w' <-> fifo_step t w w'.
Proof.
  destruct w as [f m ts]. cbn. intros Hent. rewrite stretch_finish. split.
  - intros (-> & l & Hl & Hf). destruct (Hent l Hl) as [[e b| |] Hp]; cbn in Hp.
    + destruct (proj1 (finish_enq t f l e b ts w' Hl Hp) Hf) as (ts' & Hw & ->).
      eapply fifo_enq; [done|done|apply surjective_pairing|done].
    + destruct (proj1 (finish_deq t f l ts w' Hl Hp) Hf) as (ts' & Hw & ->).
      eapply fifo_deq; [done|done|apply surjective_pairing|done].
    + apply (finish_out _ _ _ (returns l (RSize (fifo_size f)))) in Hf as (ts' & -> & ->);
        [by apply fifo_look|unfold fifo_inside; by rewrite Hp].
  - intros Hs. inversion Hs as [f0 ts0 l e b f' r ts' Hl Hp He Hw|f0 ts0 l f' r ts' Hl Hp He Hw|f0 ts0 l Hl Hp];
      subst; (split; [done|]); exists l; (split; [done|]).
    + apply (finish_enq _ _ _ e b); [done|done|]. rewrite He. by exists ts'.
    + apply finish_deq; [done|done|]. rewrite He. by exists ts'.
    + apply finish_out with (l' := returns l (RSize (fifo_size f))); [unfold fifo_inside; by rewrite Hp|]. by exists ts.
Qed.

(** ** Reaching a state by whole calls *)
Inductive fifo_atomic (w w' : world (fifo T) caller) : Prop :=
  | fifo_atomic_call t : fifo_step t w w' -> fifo_atomic w w'
  | fifo_atomic_free t : free_step fifo_code t w w' -> fifo_atomic w w'.

(** The threads about to take the mutex are at the start of a pass, and those
    that wait do so for the reason their pass found. *)
Definition place_ok (p : place caller) : Prop :=
  match p with
  | Locking l => at_entry l
  | Waiting c l => (c = non_empty_c_ /\ f_pc l = D_test) \/ (c = has_space_c_ /\ exists e, f_pc l = E_test e true)
  | _ => True
  end.
Definition places_ok (ts : gmap nat (place caller)) : Prop := map_Forall (fun _ p => place_ok p) ts.

Lemma waiting_entry c l : place_ok (Waiting c l) -> at_entry l.
Proof. intros [[_ H]|[_ [e H]]]; [by exists Deq|by exists (Enq e true)]. Qed.

Lemma places_wakes c ts ts' : places_ok ts -> wakes c ts ts' -> places_ok ts'.
Proof.
  intros Hts [(u & lu & Hu & ->)|[_ ->]]; [|done]. apply map_Forall_insert_2; [|done].
  by eapply waiting_entry, (Hts u).
Qed.

Lemma places_free t w w' : places_ok (w_threads w) -> free_step fifo_code t w w' -> places_ok (w_threads w').
Proof.
  intros Hts Hs. destruct Hs as [f m ts l l' b Hl Ho|f m ts c l Hl]; cbn in *; (apply map_Forall_insert_2; [|done]).
  - unfold fifo_outside in Ho. destruct (f_todo l) as [|c r]; simplify_eq. by exists c.
  - by eapply waiting_entry, (Hts t).
Qed.

Lemma places_fifo t w w' : places_ok (w_threads w) -> fifo_step t w w' -> places_ok (w_threads w').
Proof.
  intros Hts Hs. destruct Hs as [f ts l e b f' r ts' Hl Hp He Hw|f ts l f' r ts' Hl Hp He Hw|f ts l Hl Hp];
    cbn in *; (apply map_Forall_insert_2; [|]).
  - unfold enq in He. repeat case_match; simplify_eq; cbn; try done. right. split; [done|]. by exists e.
  - destruct r as [[]|]; [by eapply places_wakes|by subst|by subst].
  - destruct r; [done|]. by left.
  - unfold woken in Hw. repeat case_match; subst; try done. by eapply places_wakes.
  - done.
  - done.
Qed.

Lemma places_atomic w w' : places_ok (w_threads w) -> fifo_atomic w w' -> places_ok (w_threads w').
Proof. intros H [t Hs|t Hs]; [by eapply places_fifo|by eapply places_free]. Qed.

(** The stretches of a run are calls of ThrPool's functions. *)
Lemma atomic_calls w0 w :
  places_ok (w_threads w0) -> rtc (atomic_step fifo_code) w0 w -> rtc fifo_atomic w0 w /\ places_ok (w_threads w).
Proof.
  intros H0 Hr. revert H0. induction Hr as [w|w w1 w2 Hs _ IH]; intros H0; [done|].
  assert (fifo_atomic w w1) as H1.
  { destruct Hs as [t Hs|t Hs]; [|by eapply fifo_atomic_free]. eapply fifo_atomic_call, stretch_fifo_step; [|done].
    intros l Hl. exact (H0 t _ Hl). }
  destruct (IH (places_atomic _ _ H0 H1)) as [Hr Hp]. split; [by eapply rtc_l|done].
Qed.

(** Threads that have made no call yet, around a new queue. *)
Definition callers (progs : gmap nat (list call)) : gmap nat (place caller) :=
  (fun todo => Out (Caller F_next todo [])) <$> progs.
Definition fifo_start (limit : Z) (progs : gmap nat (list call)) : world (fifo T) caller :=
  World (fifo_new limit) None (callers progs).

Lemma callers_lookup progs t p : callers progs !! t = Some p -> exists l, p = Out l.
Proof. unfold callers. rewrite lookup_fmap. destruct (progs !! t); naive_solver. Qed.

Lemma fifo_starts limit progs : starts (fifo_start limit progs).
Proof. split; [done|]. intros t p Hp. cbn in Hp. by destruct (callers_lookup _ _ _ Hp) as [l ->]. Qed.
Lemma fifo_start_places limit progs : places_ok (w_threads (fifo_start limit progs)).
Proof. intros t p Hp. cbn in Hp. by destruct (callers_lookup _ _ _ Hp) as [l ->]. Qed.

(** Within a pass, the queue is as the test found it. *)
Definition tested (t : nat) (w : world (fifo T) caller) : Prop :=
  forall l, w_threads w !! t = Some (In l) ->
    match f_pc l with D_front | D_pop _ => q_ (w_shared w) <> [] | _ => True end.

Lemma tested_own t w w' : tested t w -> own_step fifo_code t w w' -> tested t w'.
Proof.
  intros H0 Hs. destruct Hs as [f m ts l f' l' Hl Hi|f m ts l f' l' c u lu Hl Hi Hu|f m ts l f' l' c Hl Hi Hn|f m ts l f' l' Hl Hi];
    intros x; cbn [w_threads w_shared]; rewrite lookup_insert_eq; intros [= <-];
    specialize (H0 l Hl); cbn [w_shared] in H0; cbn in Hi; unfold fifo_inside in Hi;
    destruct f as [q m0]; cbn [q_ max_] in *; destruct (f_pc l) eqn:Hp; repeat case_match; simplify_eq; cbn; done.
Qed.

Lemma tested_owns t w w' : tested t w -> rtc (own_step fifo_code t) w w' -> tested t w'.
Proof. intros H0 Hr. apply (rtc_invariant (own_step fifo_code t) (tested t) w); [apply tested_own|done|done]. Qed.

Lemma tested_lock t w w' : places_ok (w_threads w) -> lock_step t w w' -> tested t w'.
Proof.
  intros Hp Hs. destruct Hs as [f m ts l m' Hl Hm]. intros x. cbn. rewrite lookup_insert_eq. intros [= <-].
  destruct (Hp t _ Hl) as [[] ->]; done.
Qed.

(** C9. The queue's statements implement its calls. Any number of threads call
    [enq], [deq] and [size] of one queue and run their statements in any
    interleaving: whenever the mutex is free, the state is one that whole passes
    [enq], [deq] and [size] of ThrPool reach, one at a time, each waking at most
    one thread; and [front] and [pop_front] are never called on an empty list. *)
Theorem fifo_refines limit progs w :
  rtc (micro_step fifo_code) (fifo_start limit progs) w ->
  (w_mutex w = None -> rtc fifo_atomic (fifo_start limit progs) w) /\
  forall t why, ~ crashes fifo_code t w why.
Proof.
  intros Hr. destruct (reduced_runs _ _ _ (fifo_starts limit progs) Hr) as [Ho Hred].
  pose proof (fun w => atomic_calls _ w (fifo_start_places limit progs)) as Hcalls. split.
  - intros Hm. rewrite Hm in Hred. by apply Hcalls.
  - intros t why Hc. assert (forall l, w_threads w !! t = Some (In l) -> w_mutex w = Some t) as Hin
      by (intros l Hl; apply (Ho t); by exists (In l)).
    destruct Hc as [(l & Hl & Hi)|(l & Hl & Hd)].
    + rewrite (Hin l Hl) in Hred. destruct Hred as (w1 & w2 & H1 & Hlock & Hown).
      pose proof (tested_owns t w2 w (tested_lock t w1 w2 (proj2 (Hcalls w1 H1)) Hlock) Hown l Hl) as Ht.
      cbn in Hi. unfold fifo_inside in Hi. destruct (f_pc l); repeat case_match; simplify_eq; by apply Ht.
    + assert (w_mutex w = Some t) as Hm.
      { apply (Ho t). destruct Hl as [Hl|(l0 & g & c & Hl & _)]; by eexists. }
      unfold ScopedLock_dtor in Hd. by rewrite Hm, decide_True in Hd.
Qed.

(** ** No lost wake-ups *)
Definition deq_awake (p : place caller) : bool :=
  match p with Locking l => match f_pc l with D_test => true | _ => false end | _ => false end.
Definition enq_awake (p : place caller) : bool :=
  match p with Locking l => match f_pc l with E_test _ _ => true | _ => false end | _ => false end.

Definition counted (P : place caller -> bool) (ts : gmap nat (place caller)) : nat :=
  total (fun p => Nat.b2n (P p)) ts.

Lemma counted_insert P t p p' ts :
  ts !! t = Some p -> (counted P (<[t := p']> ts) + Nat.b2n (P p) = counted P ts + Nat.b2n (P p'))%nat.
Proof. exact (total_insert (fun p => Nat.b2n (P p)) ts t p p'). Qed.

Definition waits (c : nat) (ts : gmap nat (place caller)) : Prop := exists u l, ts !! u = Some (Waiting c l).

Lemma waits_insert c t (p : place caller) ts : (forall l, p <> Waiting c l) -> waits c (<[t := p]> ts) -> waits c ts.
Proof.
  intros Hp (u & l & Hu). exists u, l. destruct (decide (t = u)) as [<-|].
  - rewrite lookup_insert_eq in Hu. injection Hu as E. by destruct (Hp l).
  - by rewrite lookup_insert_ne in Hu.
Qed.

Lemma wakes_place c ts ts' t (p : place caller) :
  wakes c ts ts' -> ts !! t = Some p -> (forall d l, p <> Waiting d l) -> ts' !! t = Some p.
Proof.
  intros [(u & lu & Hu & ->)|[_ ->]] Ht Hp; [|done]. rewrite lookup_insert_ne; [done|].
  intros ->. rewrite Ht in Hu. injection Hu as ->. by eapply Hp.
Qed.

(** A signal wakes one thread if any waits, and one of the right kind. *)
Lemma wakes_effect c ts ts' :
  places_ok ts -> wakes c ts ts' ->
  (forall d, waits d ts' -> waits d ts) /\
  (waits c ts -> forall P, exists l, place_ok (Waiting c l) /\
     (counted P ts' + Nat.b2n (P (Waiting c l)) = counted P ts + Nat.b2n (P (Locking l)))%nat) /\
  (~ waits c ts -> ts' = ts).
Proof.
  intros Hok [(u & lu & Hu & ->)|[Hn ->]].
  - split; [intros d; by apply waits_insert|]. split.
    + intros _ P. exists lu. split; [exact (Hok u _ Hu)|by apply counted_insert].
    + intros []. by exists u, lu.
  - split; [done|]. split; [|done]. intros (u & l & Hu). by destruct (Hn u l).
Qed.

(** While a thread sleeps for an element, as many are on their way to take one
    as there are elements; and likewise for room. *)
Record awake_ok (f : fifo T) (ts : gmap nat (place caller)) : Prop := {
  a_deq : waits non_empty_c_ ts -> zlen (q_ f) <= Z.of_nat (counted deq_awake ts);
  a_enq : waits has_space_c_ ts -> max_ f - zlen (q_ f) <= Z.of_nat (counted enq_awake ts);
  a_max : waits has_space_c_ ts -> max_ f <> 0;
  a_room : max_ f <> 0 -> zlen (q_ f) <= max_ f }.

Lemma wakes_empty ts ts' :
  places_ok ts -> wakes non_empty_c_ ts ts' ->
  counted enq_awake ts' = counted enq_awake ts /\
  (waits non_empty_c_ ts -> counted deq_awake ts' = S (counted deq_awake ts)).
Proof.
  intros Hok Hw. destruct (wakes_effect _ _ _ Hok Hw) as (_ & Hsome & Hnone).
  split.
  - destruct Hw as [(u & lu & Hu & _)|[Hn ->]]; [|done].
    destruct (Hsome (ex_intro _ u (ex_intro _ lu Hu)) enq_awake) as (l & [[_ Hp]|[[=] _]] & Hc).
    cbn in Hc. rewrite Hp in Hc. cbn in Hc. lia.
  - intros Hwait. destruct (Hsome Hwait deq_awake) as (l & [[_ Hp]|[[=] _]] & Hc).
    cbn in Hc. rewrite Hp in Hc. cbn in Hc. lia.
Qed.

Lemma wakes_space ts ts' :
  places_ok ts -> wakes has_space_c_ ts ts' ->
  counted deq_awake ts' = counted deq_awake ts /\
  (waits has_space_c_ ts -> counted enq_awake ts' = S (counted enq_awake ts)).
Proof.
  intros Hok Hw. destruct (wakes_effect _ _ _ Hok Hw) as (_ & Hsome & Hnone).
  split.
  - destruct Hw as [(u & lu & Hu & _)|[Hn ->]]; [|done].
    destruct (Hsome (ex_intro _ u (ex_intro _ lu Hu)) deq_awake) as (l & [[[=] _]|[_ [e Hp]]] & Hc).
    cbn in Hc. rewrite Hp in Hc. cbn in Hc. lia.
  - intros Hwait. destruct (Hsome Hwait enq_awake) as (l & [[[=] _]|[_ [e Hp]]] & Hc).
    cbn in Hc. rewrite Hp in Hc. cbn in Hc. lia.
Qed.

Lemma awake_enq t f ts l e b f' r ts' :
  places_ok ts -> awake_ok f ts -> 0 <= max_ f -> ts !! t = Some (Locking l) -> f_pc l = E_test e b ->
  enq f e b = (f', r) -> match r with Return true => wakes non_empty_c_ ts ts' | _ => ts' = ts end ->
  awake_ok f' (<[t := match r with Return x => Out (returns l (REnq x)) | Wait => Waiting has_space_c_ l end]> ts').
Proof.
  intros Hok [Hd He Hm Hr] Hmax Ht Hp Henq Hw. unfold enq in Henq.
  assert (deq_awake (Locking l) = false /\ enq_awake (Locking l) = true) as [Hld Hle] by (cbn; by rewrite Hp).
  destruct ((max_ f =? 0) || (zlen (q_ f) <? max_ f)) eqn:Hroom.
  - simplify_eq. destruct (wakes_effect _ _ _ Hok Hw) as (Hback & _ & _).
    destruct (wakes_empty _ _ Hok Hw) as [Hce Hcd].
    assert (ts' !! t = Some (Locking l)) as Ht' by (by eapply wakes_place).
    pose proof (counted_insert deq_awake t _ (Out (returns l (REnq true))) _ Ht') as Cd.
    pose proof (counted_insert enq_awake t _ (Out (returns l (REnq true))) _ Ht') as Ce.
    rewrite Hld in Cd. rewrite Hle in Ce. cbn in Cd, Ce.
    assert (zlen (q_ f ++ [e]) = zlen (q_ f) + 1) as Hlen by apply zlen_app.
    split; cbn [q_ max_]; rewrite ?Hlen.
    + intros Hwt%waits_insert%Hback; [|done]. specialize (Hd Hwt). specialize (Hcd Hwt). lia.
    + intros Hwt%waits_insert%Hback; [|done]. specialize (He Hwt). lia.
    + intros Hwt%waits_insert%Hback; [|done]. by apply Hm.
    + intros Hne. apply orb_true_iff in Hroom as [?%Z.eqb_eq|?%Z.ltb_lt]; lia.
  - apply orb_false_iff in Hroom as [Hz%Z.eqb_neq Hge%Z.ltb_ge].
    assert (ts' = ts /\ f' = f) as [-> ->] by (destruct b; simplify_eq; done).
    set (p := match r with Return x => Out (returns l (REnq x)) | Wait => Waiting has_space_c_ l end).
    assert ((forall l', p <> Waiting non_empty_c_ l') /\ deq_awake p = false) as [Hpw Hpd]
      by (destruct r; done).
    pose proof (counted_insert deq_awake t _ p _ Ht) as Cd. rewrite Hld, Hpd in Cd. cbn in Cd.
    split; try done; [|lia]. intros Hwt%waits_insert; [|done]. specialize (Hd Hwt). lia.
Qed.

Lemma awake_deq t f ts l f' r ts' :
  places_ok ts -> awake_ok f ts -> 0 <= max_ f -> ts !! t = Some (Locking l) -> f_pc l = D_test ->
  deq f = (f', r) -> woken (max_ f) (q_ f') r ts ts' ->
  awake_ok f' (<[t := match r with Return e => Out (returns l (RDeq e)) | Wait => Waiting non_empty_c_ l end]> ts').
Proof.
  intros Hok [Hd He Hm Hr] Hmax Ht Hp Hdeq Hw. destruct f as [q m]. unfold deq in Hdeq. cbn [q_ max_] in *.
  assert (deq_awake (Locking l) = true /\ enq_awake (Locking l) = false) as [Hld Hle] by (cbn; by rewrite Hp).
  destruct q as [|e q]; simplify_eq; cbn [woken q_ max_] in *.
  - subst ts'. pose proof (counted_insert enq_awake t _ (Waiting non_empty_c_ l) _ Ht) as Ce.
    rewrite Hle in Ce. cbn in Ce. rewrite zlen_nil in *.
    split; cbn [q_ max_]; rewrite ?zlen_nil; try done; [lia| |].
    + intros Hwt%waits_insert; [|done]. specialize (He Hwt). lia.
    + intros Hwt%waits_insert; [|done]. by apply Hm.
  - rewrite zlen_cons in *. assert (exists c, (ts' = ts /\ m = 0) \/ (c = has_space_c_ /\ wakes c ts ts')) as Hcase.
    { exists has_space_c_. destruct (Z.eqb_spec m 0) as [->|Hne]; cbn in Hw; [by left|].
      rewrite (proj2 (Z.ltb_lt _ _)) in Hw by (specialize (Hr Hne); lia). by right. }
    assert (ts' !! t = Some (Locking l)) as Ht'.
    { destruct Hcase as (c & [[-> _]|[_ Hwk]]); [done|by eapply wakes_place]. }
    pose proof (counted_insert deq_awake t _ (Out (returns l (RDeq e))) _ Ht') as Cd.
    pose proof (counted_insert enq_awake t _ (Out (returns l (RDeq e))) _ Ht') as Ce.
    rewrite Hld in Cd. rewrite Hle in Ce. cbn in Cd, Ce.
    destruct Hcase as (c & [[-> ->]|[-> Hwk]]).
    + split; cbn [q_ max_]; [|intros Hwt%waits_insert; [by destruct (Hm Hwt)|done]..|done].
      intros Hwt%waits_insert; [|done]. specialize (Hd Hwt). lia.
    + destruct (wakes_effect _ _ _ Hok Hwk) as (Hback & _ & _). destruct (wakes_space _ _ Hok Hwk) as [Hcd Hce].
      split; cbn [q_ max_].
      * intros Hwt%waits_insert%Hback; [|done]. specialize (Hd Hwt). lia.
      * intros Hwt%waits_insert%Hback; [|done]. specialize (He Hwt). specialize (Hce Hwt). lia.
      * intros Hwt%waits_insert%Hback; [|done]. by apply Hm.
      * intros Hne. specialize (Hr Hne). lia.
Qed.

Lemma awake_free t w w' :
  awake_ok (w_shared w) (w_threads w) -> free_step fifo_code t w w' -> awake_ok (w_shared w') (w_threads w').
Proof.
  intros [Hd He Hm Hr] Hs.
  assert (exists p p', w_threads w !! t = Some p /\ deq_awake p = false /\ enq_awake p = false /\
    (forall c l, p' <> Waiting c l) /\ w' = World (w_shared w) (w_mutex w) (<[t := p']> (w_threads w)))
    as (p & p' & Ht & Hpd & Hpe & Hp' & ->).
  { destruct Hs as [f m ts l l' b Hl Ho|f m ts c l Hl]; cbn in *.
    - unfold fifo_outside in Ho. destruct (f_todo l) as [|c r]; simplify_eq.
      by exists (Out l), (Locking (Caller (entry c) r (f_got l))).
    - by exists (Waiting c l), (Locking l). }
  pose proof (counted_insert deq_awake t _ p' _ Ht) as Cd. pose proof (counted_insert enq_awake t _ p' _ Ht) as Ce.
  rewrite Hpd in Cd. rewrite Hpe in Ce. cbn in Cd, Ce.
  split; cbn [w_shared w_threads]; [| | |done]; intros Hwt%waits_insert; try done.
  - specialize (Hd Hwt). lia.
  - specialize (He Hwt). lia.
  - by apply Hm.
Qed.

Lemma awake_look t f ts l r :
  awake_ok f ts -> ts !! t = Some (Locking l) -> f_pc l = S_size -> awake_ok f (<[t := Out (returns l r)]> ts).
Proof.
  intros [Hd He Hm Hr] Ht Hp.
  pose proof (counted_insert deq_awake t _ (Out (returns l r)) _ Ht) as Cd.
  pose proof (counted_insert enq_awake t _ (Out (returns l r)) _ Ht) as Ce.
  cbn in Cd, Ce. rewrite Hp in Cd, Ce. cbn in Cd, Ce.
  split; [| | |done]; intros Hwt%waits_insert; try done.
  - specialize (Hd Hwt). lia.
  - specialize (He Hwt). lia.
  - by apply Hm.
Qed.

Definition fifo_ok (w : world (fifo T) caller) : Prop :=
  places_ok (w_threads w) /\ awake_ok (w_shared w) (w_threads w) /\ 0 <= max_ (w_shared w).

Lemma fifo_ok_step w w' : fifo_ok w -> fifo_atomic w w' -> fifo_ok w'.
Proof.
  intros (Hp & Ha & Hmax) Hs. split; [by eapply places_atomic|]. destruct Hs as [t Hs|t Hs].
  - destruct Hs as [f ts l e b f' r ts' Hl Hpc He Hw|f ts l f' r ts' Hl Hpc He Hw|f ts l Hl Hpc]; cbn in *.
    + split; [by eapply awake_enq|]. unfold enq in He. repeat case_match; by simplify_eq.
    + split; [by eapply awake_deq|]. unfold deq in He. repeat case_match; by simplify_eq.
    + split; [by apply awake_look|done].
  - split; [by eapply awake_free|]. by destruct Hs.
Qed.

Lemma counted_choose P ts : (0 < counted P ts)%nat -> exists u p, ts !! u = Some p /\ P p = true.
Proof.
  intros (u & p & Hu & Hp)%total_choose. exists u, p. split; [done|]. destruct (P p); [done|cbn in Hp; lia].
Qed.

Lemma wakes_total c (ts : gmap nat (place caller)) : exists ts', wakes c ts ts'.
Proof.
  destruct (decide (filter (fun kp : nat * place caller => match kp.2 with Waiting d _ => (d =? c)%nat | _ => false end = true) ts = ∅))
    as [E|(u & p & Hu)%map_choose].
  - exists ts. right. split; [|done]. intros u l Hu.
    apply (map_filter_empty_not_lookup _ _ u (Waiting c l) E); [cbn; by rewrite Nat.eqb_refl|done].
  - apply map_lookup_filter_Some in Hu as [Hu HP]. cbn in HP. destruct p as [| | |d l|]; try done.
    apply Nat.eqb_eq in HP as ->. eexists. left. by exists u, l.
Qed.

(** C10. The queue's signals are enough. Threads call [enq], [deq] and [size] in
    any interleaving of their statements, condition variables waking one waiter a
    signal. Whenever the mutex is free: if a thread sleeps in [deq] although the
    queue has an element, then some thread is about to take the mutex that goes
    through and takes one; and if a thread sleeps in [enq] although there is room,
    some thread is that goes through and adds its element. So threads never all
    sleep on a queue that is neither empty nor full. *)
Theorem fifo_no_lost_wakeup limit progs w t l :
  0 <= limit < 2 ^ 31 ->
  rtc (micro_step fifo_code) (fifo_start limit progs) w -> w_mutex w = None ->
  (w_threads w !! t = Some (Waiting non_empty_c_ l) -> q_ (w_shared w) <> [] ->
   exists u lu e w', w_threads w !! u = Some (Locking lu) /\ stretch fifo_code u w w' /\
     w_threads w' !! u = Some (Out (returns lu (RDeq e)))) /\
  (w_threads w !! t = Some (Waiting has_space_c_ l) -> zlen (q_ (w_shared w)) < max_ (w_shared w) ->
   exists u lu w', w_threads w !! u = Some (Locking lu) /\ stretch fifo_code u w w' /\
     w_threads w' !! u = Some (Out (returns lu (REnq true)))).
Proof.
  intros Hlim Hr Hm. assert (fifo_ok w) as (Hp & [Hd He _ _] & _).
  { destruct (reduced_runs _ _ _ (fifo_starts limit progs) Hr) as [_ Hred]. rewrite Hm in Hred.
    apply atomic_calls in Hred as [Hcalls _]; [|apply fifo_start_places].
    apply (rtc_invariant fifo_atomic fifo_ok (fifo_start limit progs)); [apply fifo_ok_step|done|].
    split; [apply fifo_start_places|]. cbn. rewrite u32_small by (unfold is_u32; lia). split; [|lia].
    assert (forall c, ~ waits c (callers progs)) as Hno.
    { intros c (u & x & Hu). by destruct (callers_lookup _ _ _ Hu). }
    split; try (by intros ?%Hno). cbn. rewrite u32_small by (unfold is_u32; lia). change (zlen []) with 0. lia. }
  destruct w as [f m ts]. cbn in *. subst m.
  split; intros Hl Hq.
  - destruct (counted_choose deq_awake ts) as (u & p & Hu & HP).
    { specialize (Hd ltac:(by exists t, l)). destruct (q_ f) as [|e q]; [done|]. rewrite zlen_cons in Hd.
      pose proof (zlen_nonneg q). lia. }
    destruct p as [|lu| | |]; try done. cbn in HP. destruct (f_pc lu) eqn:Hpc; try done.
    destruct (q_ f) as [|e q] eqn:Eq; [done|]. destruct (wakes_total has_space_c_ ts) as [ts1 Hts1].
    exists u, lu, e. eexists. split; [done|]. split.
    + apply stretch_fifo_step; [intros x Hx; cbn in Hx; by apply (Hp u (Locking x))|].
      eapply fifo_deq with (ts' := if negb (max_ f =? 0) && (zlen q <? max_ f) then ts1 else ts);
        [done|done|unfold deq; rewrite Eq; reflexivity|]. cbn. by destruct (negb (max_ f =? 0) && _).
    + cbn. apply lookup_insert_eq.
  - destruct (counted_choose enq_awake ts) as (u & p & Hu & HP).
    { specialize (He ltac:(by exists t, l)). lia. }
    destruct p as [|lu| | |]; try done. cbn in HP. destruct (f_pc lu) as [|e b| | | | | | | | | |] eqn:Hpc; try done.
    destruct (wakes_total non_empty_c_ ts) as [ts1 Hts1].
    exists u, lu. eexists. split; [done|]. split.
    + apply stretch_fifo_step; [intros x Hx; cbn in Hx; by apply (Hp u (Locking x))|].
      eapply (fifo_enq _ _ _ _ e b _ (Return true) ts1); [done|done| |done].
      unfold enq. rewrite (proj2 (Z.ltb_lt _ _) Hq), orb_true_r. reflexivity.
    + cbn. apply lookup_insert_eq.
Qed.
End Fifo.
Arguments call : clear implicits.
Arguments caller : clear implicits.

(** Two threads sleep in [deq]; a third adds an element, which wakes the first. *)
Definition takers : gmap nat (list (call Z)) := <[0%nat := [Deq]]> (<[1%nat := [Deq]]> {[2%nat := [Enq 7 true]]}).
Definition after_add : world (fifo Z) (caller Z) :=
  World (Fifo [7] 5) None
    (<[0%nat := Locking (Caller D_test [] [])]> (<[1%nat := Waiting non_empty_c_ (Caller D_test [] [])]>
      {[2%nat := Out (Caller F_next [] [REnq true])]})).

Lemma after_add_reached : rtc (micro_step fifo_code) (fifo_start 5 takers) after_add.
Proof.
  apply atomic_micro.
  assert (forall t w w', fifo_step t w w' ->
    (forall l, w_threads w !! t = Some (Locking l) -> at_entry l) -> @atomic_step (fifo Z) (caller Z) fifo_code w w') as Hcall.
  { intros t w w' Hs He. by eapply atomic_stretch, stretch_fifo_step. }
  assert (fifo_start 5 takers = World (Fifo [] 5) None
    (<[0%nat := Out (Caller F_next [Deq] [])]> (<[1%nat := Out (Caller F_next [Deq] [])]>
      {[2%nat := Out (Caller F_next [Enq 7 true] [])]}))) as -> by reflexivity.
  do 3 (eapply rtc_l; [match goal with |- atomic_step _ (World _ _ ?ts) _ =>
      first [eapply (atomic_free _ _ _ 0), (free_outside _ _ _ _ _ _ _ true); [reflexivity|reflexivity]
            |eapply (atomic_free _ _ _ 1), (free_outside _ _ _ _ _ _ _ true); [reflexivity|reflexivity]
            |eapply (atomic_free _ _ _ 2), (free_outside _ _ _ _ _ _ _ true); [reflexivity|reflexivity]] end|]).
  eapply rtc_l; [eapply (Hcall 0%nat); [eapply fifo_deq; [reflexivity|reflexivity|reflexivity|reflexivity]|]|].
  { intros l [= <-]. by exists Deq. }
  eapply rtc_l; [eapply (Hcall 1%nat); [eapply fifo_deq; [reflexivity|reflexivity|reflexivity|reflexivity]|]|].
  { intros l [= <-]. by exists Deq. }
  eapply rtc_l; [eapply (Hcall 2%nat); [eapply (fifo_enq _ _ _ _ 7 true); [reflexivity|reflexivity|reflexivity|
    left; exists 0%nat, (Caller D_test [] []); split; reflexivity]|]|].
  { intros l [= <-]. by exists (Enq 7 true). }
  exact (rtc_refl _ _).
Qed.

Lemma fifo_refines_witness :
  rtc fifo_atomic (fifo_start 5 takers) after_add /\ forall t why, ~ crashes fifo_code t after_add why.
Proof.
  destruct (fifo_refines 5 takers after_add after_add_reached) as [Hr Hc]. split; [exact (Hr eq_refl)|exact Hc].
Defined.

Lemma fifo_no_lost_wakeup_witness :
  exists u lu e w', w_threads after_add !! u = Some (Locking lu) /\ stretch fifo_code u after_add w' /\
    w_threads w' !! u = Some (Out (returns lu (RDeq e))).
Proof.
  refine (proj1 (fifo_no_lost_wakeup 5 takers after_add 1 (Caller D_test [] []) _ after_add_reached eq_refl) _ _).
  - lia.
  - reflexivity.
  - done.
Defined.
