(* ===== verification/ObjJob.v ===== *)
(** * Jobs that call methods: ThrPool::addObjJob of rpc/thr_pool.h

    The method call travels to the worker in a heap object, objfunc_wrapper,
    that the job's function deletes after the call. [done] collects the calls
    made, [accepted] those addObjJob returned true for, [lost] the objects of
    those it returned false for. *)

From S2P Require Import Prelude ThrPool.
Local Open Scope Z_scope.

Record objfunc_wrapper := ObjFunc { of_o : Z; of_m : Z; of_a : Z }.

(** &objfunc_wrapper::func *)
Definition func_ptr : Z := 1.

Record objpool := ObjPool {
  op_pool : ThrPool;
  op_heap : gmap Z objfunc_wrapper;
  op_done : list objfunc_wrapper;
  op_accepted : list objfunc_wrapper;
  op_lost : list Z }.

Definition objpool_new (sz : Z) (blocking : bool) : objpool := ObjPool (ThrPool_new sz blocking) ∅ [] [] [].

(** addObjJob(o, m, a): new objfunc_wrapper, then addJob. A blocking pool that
    is full makes the caller wait, which is a step not taken yet. *)
Definition addObjJob (s : objpool) (x : objfunc_wrapper) : option (objpool * bool) :=
  let ptr := fresh (dom (op_heap s)) in
  let heap := <[ptr := x]> (op_heap s) in
  match addJob (op_pool s) func_ptr ptr with
  | (p, Return true) => Some (ObjPool p heap (op_done s) (op_accepted s ++ [x]) (op_lost s), true)
  | (p, Return false) => Some (ObjPool p heap (op_done s) (op_accepted s) (op_lost s ++ [ptr]), false)
  | (_, Wait) => None
  end.

(** objfunc_wrapper::func(vvv) *)
Definition func (s : objpool) (vvv : Z) : outcome objpool :=
  match op_heap s !! vvv with
  | None => Crash UseAfterFree
  | Some x => Ok (ObjPool (op_pool s) (delete vvv (op_heap s)) (op_done s ++ [x]) (op_accepted s) (op_lost s))
  end.

(** A worker takes a job and runs it. *)
Definition obj_worker (s : objpool) : option (outcome objpool) :=
  match q_ (jobq_ (op_pool s)), do_worker (op_pool s) with
  | j :: _, Some p =>
      let s := ObjPool p (op_heap s) (op_done s) (op_accepted s) (op_lost s) in
      Some (match j_f j with Some _ => func s (j_a j) | None => Ok s end)
  | _, _ => None
  end.

Inductive obj_step : objpool -> objpool -> Prop :=
  | os_add s x s' b : addObjJob s x = Some (s', b) -> obj_step s s'
  | os_work s s' : obj_worker s = Some (Ok s') -> obj_step s s'.

(** ** The invariant *)
Definition ptrs (s : objpool) : list Z := map j_a (q_ (jobq_ (op_pool s))) ++ op_lost s.

Record obj_inv (s : objpool) : Prop := {
  oi_jobs : Forall (fun j => j_f j = Some func_ptr) (q_ (jobq_ (op_pool s)));
  oi_nodup : NoDup (ptrs s);
  oi_heap p : p ∈ ptrs s <-> p ∈ dom (op_heap s);
  oi_order : exists xs, Forall2 (fun j x => op_heap s !! j_a j = Some x) (q_ (jobq_ (op_pool s))) xs /\
    op_done s ++ xs = op_accepted s }.

Lemma obj_inv_new sz blocking : obj_inv (objpool_new sz blocking).
Proof. split; [done|constructor|cbn; set_solver|by exists []]. Qed.

Lemma fresh_notin (h : gmap Z objfunc_wrapper) : fresh (dom h) ∉ dom h.
Proof. apply is_fresh. Qed.

Lemma order_insert q xs (h : gmap Z objfunc_wrapper) ptr x :
  ptr ∉ dom h -> Forall2 (fun j y => h !! j_a j = Some y) q xs ->
  Forall2 (fun j y => <[ptr := x]> h !! j_a j = Some y) q xs.
Proof.
  intros Hn Hq. eapply Forall2_impl; [exact Hq|]. intros j y Hj. rewrite lookup_insert_ne; [done|].
  intros ->. apply Hn. by apply elem_of_dom_2 in Hj.
Qed.

Lemma obj_inv_add s x s' b : obj_inv s -> addObjJob s x = Some (s', b) -> obj_inv s'.
Proof.
  intros [Hj Hnd Hh (xs & Hxs & Hacc)] Ha. unfold addObjJob in Ha.
  pose proof (fresh_notin (op_heap s)) as Hf. set (ptr := fresh (dom (op_heap s))) in *.
  assert (ptr ∉ ptrs s) as Hp by (by rewrite Hh). unfold ptrs in *.
  unfold addJob, enq in Ha. destruct (_ || _); [|destruct (blockadd_ _)]; try done; injection Ha as <- <-;
    cbn [op_pool set_jobq jobq_ q_ op_heap op_done op_accepted op_lost] in *.
  - split; cbn [op_pool set_jobq jobq_ q_ op_heap op_done op_accepted op_lost ptrs].
    + apply Forall_app. by repeat constructor.
    + unfold ptrs. cbn. rewrite map_app, <- (assoc_L (++)). cbn.
      rewrite <- Permutation_middle. by apply NoDup_cons.
    + intros p. unfold ptrs. cbn. rewrite map_app, dom_insert, !elem_of_app, elem_of_union, <- Hh, elem_of_app. set_solver.
    + exists (xs ++ [x]). split; [|by rewrite (assoc_L (++)), Hacc]. apply Forall2_app; [by apply order_insert|].
      repeat constructor. cbn. by rewrite lookup_insert_eq.
  - split; cbn [op_pool set_jobq jobq_ q_ op_heap op_done op_accepted op_lost ptrs].
    + done.
    + unfold ptrs. cbn. rewrite (assoc_L (++)). apply NoDup_app. split; [done|]. split; [set_solver|apply NoDup_singleton].
    + intros p. unfold ptrs. cbn. rewrite dom_insert, !elem_of_app, elem_of_union, <- Hh, elem_of_app. set_solver.
    + exists xs. split; [by apply order_insert|done].
Qed.

(** A worker finds its object, and nobody else has it. *)
Lemma obj_worker_ok s r : obj_inv s -> obj_worker s = Some r -> exists s', r = Ok s' /\ obj_inv s'.
Proof.
  intros [Hj Hnd Hh (xs & Hxs & Hacc)] Hw. unfold obj_worker, do_worker, takeJob, deq in Hw. unfold ptrs in *.
  destruct (q_ (jobq_ (op_pool s))) as [|j q] eqn:Eq; [done|]. destruct (p_live (op_pool s)); [done|].
  apply Forall_cons in Hj as [Hf Hj]. apply Forall2_cons_inv_l in Hxs as (x & xs' & Hx & Hxs & ->).
  rewrite Hf in Hw. cbn [is_some] in Hw. unfold func in Hw. cbn [op_heap] in Hw. rewrite Hx in Hw.
  injection Hw as <-. eexists. split; [reflexivity|].
  cbn [map app] in Hnd, Hh. apply NoDup_cons in Hnd as [Hnot Hnd].
  split; cbn [op_pool set_jobq jobq_ q_ op_heap op_done op_accepted op_lost].
  - exact Hj.
  - exact Hnd.
  - intros p. unfold ptrs. cbn [op_pool set_jobq jobq_ q_ op_lost]. rewrite dom_delete, elem_of_difference, <- Hh.
    set_solver.
  - exists xs'. split.
    + clear -Hxs Hnot. induction Hxs as [|j' x' q xs Hj' _ IH]; constructor.
      * rewrite lookup_delete_ne; [done|]. intros E. apply Hnot. rewrite E. set_solver.
      * apply IH. set_solver.
    + by rewrite <- Hacc, <- (assoc_L (++)).
Qed.

(** Methods run by the pool: however callers and workers interleave, a
    worker never uses a deleted argument object, the calls made are the accepted
    ones, each once and in order, and the heap holds exactly the objects of the
    jobs still queued and those of the calls that were turned down, which
    nothing ever deletes. *)
Theorem method_jobs_run_once sz blocking s :
  rtc obj_step (objpool_new sz blocking) s ->
  (forall r, obj_worker s = Some r -> exists s', r = Ok s') /\
  op_done s `prefix_of` op_accepted s /\
  (q_ (jobq_ (op_pool s)) = [] -> op_done s = op_accepted s /\ size (op_heap s) = length (op_lost s)).
Proof.
  intros Hr. assert (obj_inv s) as Hinv.
  { apply (rtc_invariant obj_step obj_inv (objpool_new sz blocking)); [|done|apply obj_inv_new].
    intros u v Hu Hst. destruct Hst as [u x v b Ha|u v Hw]; [by eapply obj_inv_add|].
    destruct (obj_worker_ok _ _ Hu Hw) as (? & [= <-] & ?). done. }
  split; [|split].
  - intros r Hw. destruct (obj_worker_ok s r Hinv Hw) as (s' & -> & _). by exists s'.
  - destruct (oi_order s Hinv) as (xs & _ & <-). by apply prefix_app_r.
  - intros Hq. destruct Hinv as [_ Hnd Hh (xs & Hxs & Hacc)]. unfold ptrs in *. rewrite Hq in *. cbn in Hnd, Hh.
    apply Forall2_nil_inv_l in Hxs as ->. rewrite app_nil_r in Hacc. split; [exact Hacc|].
    rewrite <- size_dom, <- (size_list_to_set (C := gset Z) (op_lost s) Hnd). f_equal.
    apply set_eq. intros p. by rewrite elem_of_list_to_set, Hh.
Qed.

(** Two calls, run in turn. *)
Module Demo.
Definition x1 := ObjFunc 10 20 30.
Definition x2 := ObjFunc 11 21 31.
Definition s0 := objpool_new 1 false.
Definition step (s : objpool) (x : objfunc_wrapper) : objpool :=
  match addObjJob s x with Some (s', _) => s' | None => s end.
Definition s2 := step (step s0 x1) x2.
Definition work (s : objpool) : objpool := match obj_worker s with Some (Ok s') => s' | _ => s end.
Definition s4 := work (work s2).

Lemma s4_reachable : rtc obj_step s0 s4.
Proof.
  eapply rtc_l; [apply (os_add s0 x1 (step s0 x1) true); vm_compute; reflexivity|].
  eapply rtc_l; [apply (os_add (step s0 x1) x2 s2 true); vm_compute; reflexivity|].
  eapply rtc_l; [apply (os_work s2 (work s2)); vm_compute; reflexivity|].
  eapply rtc_once, (os_work (work s2) s4). vm_compute. reflexivity.
Qed.
End Demo.

Lemma method_jobs_run_once_witness :
  op_done Demo.s4 = [Demo.x1; Demo.x2] /\ size (op_heap Demo.s4) = 0%nat.
Proof.
  destruct (method_jobs_run_once 1 false Demo.s4 Demo.s4_reachable) as (_ & _ & H).
  destruct H as [-> ->]; [vm_compute; reflexivity|]. split; vm_compute; reflexivity.
Defined.
