(* ===== verification/MethodThread.v ===== *)
(** * Starting threads: rpc/method_thread.h

    method_thread(o, detach, m, a...) starts a thread that runs a method of an
    object. The method and its arguments travel in a heap object XXX that the
    parent allocates and the child reads, deletes and then acts on. The model
    has the heap, the children by where they are in XXX::yyy, and the calls that
    have been made; parents and children interleave freely. *)

From S2P Require Import Prelude.
Local Open Scope Z_scope.

(** What class XXX holds: the object, the method and its arguments (by value),
    one template per number of them. *)
Inductive arguments := Args0 | Args1 (a : Z) | Args2 (a1 a2 : Z) | Args3 (a1 a2 a3 : Z).
Record xxx := XXX { x_o : Z; x_m : Z; x_a : arguments }.
#[export] Instance arguments_eq_dec : EqDecision arguments.
Proof. solve_decision. Defined.
#[export] Instance xxx_eq_dec : EqDecision xxx.
Proof. solve_decision. Defined.

(** Where a child is in XXX::yyy. *)
Inductive child :=
  | Y_start (vvv : Z)               (** XXX *x = (XXX* )vvv *)
  | Y_loaded (x : xxx) (vvv : Z)    (** the fields are copied, before delete x *)
  | Y_deleted (x : xxx)             (** before method_thread_child() and the call *)
  | Y_done.

#[export] Instance child_eq_dec : EqDecision child.
Proof. solve_decision. Defined.

Record world := World {
  heap : gmap Z xxx;
  children : gmap nat child;        (** by pthread_t *)
  detached : gset nat;
  called : list xxx;                (** (o->*m)(a...), in order *)
  exited : bool }.                  (** exit(1) *)

Definition world_new : world := World ∅ ∅ ∅ [] false.

(** [method_thread_parent]; [res] is what pthread_create() gives: a new thread's
    id, or an error. *)
Definition method_thread_parent (w : world) (arg : Z) (detach : bool) (res : option nat)
    : outcome (world * option nat) :=
  match res with
  | None => Ok (World (heap w) (children w) (detached w) (called w) true, None)
  | Some th =>
      Ok (World (heap w) (<[th := Y_start arg]> (children w))
            (if detach then {[th]} ∪ detached w else detached w) (called w) (exited w), Some th)
  end.

(** [new XXX]: an address nothing lives at. *)
Definition alloc (w : world) (x : xxx) : world * Z :=
  let p := fresh (dom (heap w)) in
  (World (<[p := x]> (heap w)) (children w) (detached w) (called w) (exited w), p).

(** The four templates. *)
Definition method_thread0 (w : world) (o : Z) (detach : bool) (m : Z) (res : option nat) :=
  let '(w, x) := alloc w (XXX o m Args0) in method_thread_parent w x detach res.
Definition method_thread1 (w : world) (o : Z) (detach : bool) (m a : Z) (res : option nat) :=
  let '(w, x) := alloc w (XXX o m (Args1 a)) in method_thread_parent w x detach res.
Definition method_thread2 (w : world) (o : Z) (detach : bool) (m a1 a2 : Z) (res : option nat) :=
  let '(w, x) := alloc w (XXX o m (Args2 a1 a2)) in method_thread_parent w x detach res.
Definition method_thread3 (w : world) (o : Z) (detach : bool) (m a1 a2 a3 : Z) (res : option nat) :=
  let '(w, x) := alloc w (XXX o m (Args3 a1 a2 a3)) in method_thread_parent w x detach res.

(** A call of one of them. *)
Definition method_thread (w : world) (detach : bool) (x : xxx) (res : option nat)
    : outcome (world * option nat) :=
  match x_a x with
  | Args0 => method_thread0 w (x_o x) detach (x_m x) res
  | Args1 a => method_thread1 w (x_o x) detach (x_m x) a res
  | Args2 a1 a2 => method_thread2 w (x_o x) detach (x_m x) a1 a2 res
  | Args3 a1 a2 a3 => method_thread3 w (x_o x) detach (x_m x) a1 a2 a3 res
  end.

Definition set_child (w : world) (th : nat) (c : child) : world :=
  World (heap w) (<[th := c]> (children w)) (detached w) (called w) (exited w).

(** One step of XXX::yyy; [method_thread_child] only sets the thread's
    cancellation state. *)
Definition yyy (w : world) (th : nat) : option (outcome world) :=
  match children w !! th with
  | Some (Y_start vvv) => Some (
      match heap w !! vvv with
      | Some x => Ok (set_child w th (Y_loaded x vvv))
      | None => Crash UseAfterFree
      end)
  | Some (Y_loaded x vvv) => Some (
      match heap w !! vvv with
      | Some _ => Ok (set_child (World (delete vvv (heap w)) (children w) (detached w) (called w) (exited w))
                        th (Y_deleted x))
      | None => Crash UseAfterFree
      end)
  | Some (Y_deleted x) => Some (Ok (set_child
      (World (heap w) (children w) (detached w) (called w ++ [x]) (exited w)) th Y_done))
  | Some Y_done | None => None
  end.

(** ** Interleavings; [asked] collects the calls of method_thread that returned *)
Inductive mt_step : world * list xxx -> world * list xxx -> Prop :=
  | mt_call w asked detach x th w' :
      exited w = false -> children w !! th = None ->
      method_thread w detach x (Some th) = Ok (w', Some th) -> mt_step (w, asked) (w', asked ++ [x])
  | mt_child w asked th w' : exited w = false -> yyy w th = Some (Ok w') -> mt_step (w, asked) (w', asked).

(** A failing pthread_create() ends the process. *)
Lemma method_thread_error w detach x :
  exists w', method_thread w detach x None = Ok (w', None) /\ exited w' = true.
Proof.
  destruct x as [o m a]. unfold method_thread. cbn [x_a x_o x_m].
  destruct a; eexists; split; reflexivity.
Qed.

(** The closure a child still has to call, and the heap cell it owns. *)
Definition owes (h : gmap Z xxx) (c : child) : list xxx :=
  match c with
  | Y_start p => match h !! p with Some x => [x] | None => [] end
  | Y_loaded x _ | Y_deleted x => [x]
  | Y_done => []
  end.
Definition cell (c : child) : option Z :=
  match c with Y_start p | Y_loaded _ p => Some p | _ => None end.
Definition owed (h : gmap Z xxx) (cs : gmap nat child) : list xxx :=
  concat (map (fun e => owes h e.2) (map_to_list cs)).

Lemma owed_insert h cs th c : cs !! th = None -> owed h (<[th := c]> cs) ≡ₚ owes h c ++ owed h cs.
Proof. intros Hn. unfold owed. rewrite (map_to_list_insert cs th c Hn). done. Qed.

Lemma owed_split h cs th c : cs !! th = Some c -> owed h cs ≡ₚ owes h c ++ owed h (delete th cs).
Proof.
  intros Hc. rewrite <- (insert_delete_id cs th c Hc) at 1. apply owed_insert, lookup_delete_eq.
Qed.

Lemma owed_replace h cs th c : owed h (<[th := c]> cs) ≡ₚ owes h c ++ owed h (delete th cs).
Proof. rewrite <- insert_delete_eq. apply owed_insert, lookup_delete_eq. Qed.

Lemma owed_heap h h' cs :
  (forall th c, cs !! th = Some c -> owes h c = owes h' c) -> owed h cs = owed h' cs.
Proof.
  intros He. unfold owed. f_equal. apply map_ext_in. intros [th c] Hin.
  apply (He th), elem_of_map_to_list, list_elem_of_In, Hin.
Qed.

(** Every cell belongs to exactly one child, which holds what it says; the calls
    asked for are those made and those still owed. *)
Record mt_inv (ws : world * list xxx) : Prop := {
  mi_cell th c p : children ws.1 !! th = Some c -> cell c = Some p -> heap ws.1 !! p <> None;
  mi_owner p : heap ws.1 !! p <> None -> exists th c, children ws.1 !! th = Some c /\ cell c = Some p;
  mi_unique th th' c c' p : children ws.1 !! th = Some c -> children ws.1 !! th' = Some c' ->
    cell c = Some p -> cell c' = Some p -> th = th';
  mi_calls : ws.2 ≡ₚ called ws.1 ++ owed (heap ws.1) (children ws.1) }.

Lemma method_thread_ok w detach x th w' :
  method_thread w detach x (Some th) = Ok (w', Some th) ->
  let p := fresh (dom (heap w)) in
  heap w' = <[p := x]> (heap w) /\ children w' = <[th := Y_start p]> (children w) /\
  called w' = called w /\ exited w' = exited w.
Proof.
  destruct x as [o m a]. unfold method_thread. cbn [x_a x_o x_m].
  destruct a; (intros [= <-]); cbn [heap children called exited]; done.
Qed.

Lemma mt_inv_new : mt_inv (world_new, []).
Proof.
  split; cbn.
  - intros th c p H. by rewrite lookup_empty in H.
  - intros p H. by rewrite lookup_empty in H.
  - intros th th' c c' p H. by rewrite lookup_empty in H.
  - done.
Qed.

Lemma fresh_free (h : gmap Z xxx) : h !! fresh (dom h) = None.
Proof. apply not_elem_of_dom, is_fresh. Qed.

(** A new call: its cell is fresh, so no other child's changes. *)
Lemma mt_inv_call w asked detach x th w' :
  mt_inv (w, asked) -> children w !! th = None ->
  method_thread w detach x (Some th) = Ok (w', Some th) -> mt_inv (w', asked ++ [x]).
Proof.
  intros [Hc Ho Hu Hp] Hn Hm. cbn [fst snd] in *.
  destruct (method_thread_ok _ _ _ _ _ Hm) as (Hh & Hcs & Hcl & _).
  set (p := fresh (dom (heap w))) in *. pose proof (fresh_free (heap w)) as Hfree. fold p in Hfree.
  assert (forall th' c, children w !! th' = Some c -> cell c <> Some p) as Hnot.
  { intros th' c Hl Hcell. by apply (Hc _ _ _ Hl Hcell). }
  split; cbn [fst snd]; rewrite ?Hh, ?Hcs, ?Hcl.
  - intros t c q Hl Hcell. destruct (decide (q = p)) as [->|Hq]; [by rewrite lookup_insert_eq|].
    rewrite lookup_insert_ne by done. destruct (decide (t = th)) as [->|].
    + rewrite lookup_insert_eq in Hl. injection Hl as <-. by injection Hcell as ->.
    + rewrite lookup_insert_ne in Hl by done. by apply (Hc _ _ _ Hl).
  - intros q Hq. destruct (decide (q = p)) as [->|Hne].
    + exists th, (Y_start p). by rewrite lookup_insert_eq.
    + rewrite lookup_insert_ne in Hq by done. destruct (Ho q Hq) as (t & c & Hl & Hcell).
      exists t, c. rewrite lookup_insert_ne by congruence. done.
  - intros t t' c c' q Hl Hl' Hcell Hcell'.
    apply lookup_insert_Some in Hl as [[<- <-]|[Ht Hl]];
      apply lookup_insert_Some in Hl' as [[<- <-]|[Ht' Hl']]; [done| | |by eapply Hu].
    + injection Hcell as <-. by destruct (Hnot _ _ Hl' Hcell').
    + injection Hcell' as <-. by destruct (Hnot _ _ Hl Hcell).
  - rewrite owed_insert by done. cbn [owes]. rewrite lookup_insert_eq.
    rewrite <- (owed_heap (heap w)), Hp; [by rewrite <- app_assoc, (Permutation_app_comm [x])|].
    intros t [q| | |] Hl; try done. cbn [owes]. rewrite lookup_insert_ne; [done|].
    intros <-. by apply (Hnot _ _ Hl).
Qed.

(** Replacing a child by one with the same cell, over the same heap. *)
Lemma cells_same w th c c' :
  children w !! th = Some c -> cell c' = cell c ->
  (forall t d p, children (set_child w th c') !! t = Some d -> cell d = Some p ->
     exists d0, children w !! t = Some d0 /\ cell d0 = Some p) /\
  (forall t d p, children w !! t = Some d -> cell d = Some p ->
     exists d0, children (set_child w th c') !! t = Some d0 /\ cell d0 = Some p).
Proof.
  intros Hl He. cbn [children set_child].
  split; intros t d p Ht Hd; (destruct (decide (t = th)) as [->|];
    [rewrite lookup_insert_eq in *|rewrite lookup_insert_ne in * by done; eauto]).
  - injection Ht as <-. exists c. by rewrite <- He.
  - rewrite Hl in Ht. injection Ht as <-. exists c'. by rewrite He.
Qed.

Lemma mt_inv_same w asked th c c' cl :
  mt_inv (w, asked) -> children w !! th = Some c -> cell c' = cell c ->
  called w ++ owes (heap w) c ≡ₚ cl ++ owes (heap w) c' ->
  mt_inv (set_child (World (heap w) (children w) (detached w) cl (exited w)) th c', asked).
Proof.
  intros HI Hl He Hcl. destruct (cells_same w th c c' Hl He) as [Hold Hnew].
  destruct HI as [Hc Ho Hu Hp]. split; cbn [fst snd heap called children set_child] in *.
  - intros t d p Ht Hd. destruct (Hold t d p Ht Hd) as (d0 & H0 & Hd0). by apply (Hc _ _ _ H0).
  - intros p Hh. destruct (Ho p Hh) as (t & d & Ht & Hd).
    destruct (Hnew t d p Ht Hd) as (d0 & H0 & Hd0). by exists t, d0.
  - intros t t' d d' p Ht Ht' Hd Hd'.
    destruct (Hold t d p Ht Hd) as (? & ? & ?), (Hold t' d' p Ht' Hd') as (? & ? & ?). eauto.
  - rewrite Hp, owed_replace, (owed_split _ _ _ _ Hl), !app_assoc, Hcl. done.
Qed.

(** [delete x]: nobody else holds the cell. *)
Lemma mt_inv_delete w asked th x p :
  mt_inv (w, asked) -> children w !! th = Some (Y_loaded x p) ->
  mt_inv (set_child (World (delete p (heap w)) (children w) (detached w) (called w) (exited w))
            th (Y_deleted x), asked).
Proof.
  intros [Hc Ho Hu Hp] Hl. cbn [fst snd] in *.
  assert (forall t d, children w !! t = Some d -> t <> th -> cell d <> Some p) as Hnot.
  { intros t d Ht Hne Hd. by apply Hne, (Hu t th d _ p Ht Hl). }
  split; cbn [fst snd heap called children set_child].
  - intros t d q Ht Hd. destruct (decide (t = th)) as [->|].
    { rewrite lookup_insert_eq in Ht. by injection Ht as <-. }
    rewrite lookup_insert_ne in Ht by done. pose proof (Hnot t d Ht ltac:(done)) as Hq.
    rewrite lookup_delete_ne by congruence. by apply (Hc t d).
  - intros q Hq. destruct (decide (q = p)) as [->|]; [by rewrite lookup_delete_eq in Hq|].
    rewrite lookup_delete_ne in Hq by done. destruct (Ho q Hq) as (t & d & Ht & Hd).
    exists t, d. rewrite lookup_insert_ne; [done|]. intros <-. rewrite Hl in Ht. injection Ht as <-.
    cbn [cell] in Hd. congruence.
  - intros t t' d d' q Ht Ht' Hd Hd'.
    destruct (decide (t = th)) as [->|]; [rewrite lookup_insert_eq in Ht; by injection Ht as <-|].
    destruct (decide (t' = th)) as [->|]; [rewrite lookup_insert_eq in Ht'; by injection Ht' as <-|].
    rewrite !lookup_insert_ne in * by done. eauto.
  - rewrite Hp, owed_replace, (owed_split _ _ _ _ Hl). cbn [owes].
    rewrite (owed_heap (heap w) (delete p (heap w))); [done|].
    intros t [q| | |] Ht; try done. apply lookup_delete_Some in Ht as [Hne Ht]. cbn [owes].
    rewrite lookup_delete_ne; [done|]. intros <-. by apply (Hnot t (Y_start p) Ht).
Qed.

(** XXX::yyy never reads or deletes a cell that is gone, and keeps the invariant. *)
Lemma yyy_ok w asked th r :
  mt_inv (w, asked) -> yyy w th = Some r -> exists w', r = Ok w' /\ mt_inv (w', asked).
Proof.
  intros HI. unfold yyy. destruct (children w !! th) as [c|] eqn:Hl; [|done].
  destruct c as [p|x p|x|]; [| | |done]; intros [= <-].
  - pose proof (mi_cell _ HI th _ p Hl eq_refl) as Hh. cbn [fst] in Hh.
    destruct (heap w !! p) as [x|] eqn:Hx; [|done]. eexists. split; [done|].
    destruct w as [h cs dt cl ex]. eapply (mt_inv_same (World h cs dt cl ex) asked th _ _ cl HI Hl); [done|].
    cbn [owes heap called] in *. by rewrite Hx.
  - pose proof (mi_cell _ HI th _ p Hl eq_refl) as Hh. cbn [fst] in Hh.
    destruct (heap w !! p) as [y|] eqn:Hx; [|done]. eexists. split; [done|].
    by apply mt_inv_delete.
  - eexists. split; [done|]. eapply (mt_inv_same w asked th _ _ _ HI Hl); [done|].
    cbn [owes]. by rewrite app_nil_r.
Qed.

Lemma mt_inv_reach ws : rtc mt_step (world_new, []) ws -> mt_inv ws.
Proof.
  apply (rtc_ind_r (fun ws => mt_inv ws)); [apply mt_inv_new|].
  intros ? ? _ Hst HI. destruct Hst as [w asked detach x th w' _ Hn Hm|w asked th w' _ Hy].
  - by eapply mt_inv_call.
  - destruct (yyy_ok _ _ _ _ HI Hy) as (? & [= <-] & H). exact H.
Qed.

Lemma owed_done h cs : (forall th c, cs !! th = Some c -> c = Y_done) -> owed h cs = [].
Proof.
  intros Hd. unfold owed. apply concat_nil_Forall, Forall_map, Forall_forall.
  intros [th c] Hin. apply elem_of_map_to_list in Hin. by rewrite (Hd th c Hin).
Qed.

(** However the parents and the new threads interleave, a thread started
    by method_thread never reads or deletes an argument block that is already
    gone and can always take its next step, no method runs that was not asked
    for or more often than it was asked for, and once every thread has finished
    the methods that ran are exactly the calls that were asked for, with their
    own objects and arguments, and no argument block is left on the heap. *)
Theorem threads_run_their_method w asked :
  rtc mt_step (world_new, []) (w, asked) ->
  (forall th c, children w !! th = Some c -> c <> Y_done -> exists w', yyy w th = Some (Ok w')) /\
  called w ⊆+ asked /\
  ((forall th c, children w !! th = Some c -> c = Y_done) -> called w ≡ₚ asked /\ heap w = ∅).
Proof.
  intros HI%mt_inv_reach. pose proof (mi_calls _ HI) as Hp. cbn [fst snd] in Hp.
  split; [|split].
  - intros th c Hl Hnd. assert (exists r, yyy w th = Some r) as [r Hr].
    { unfold yyy. rewrite Hl. destruct c; [| | |done]; eexists; reflexivity. }
    destruct (yyy_ok w asked th r HI Hr) as (w' & -> & _). by exists w'.
  - rewrite Hp. apply submseteq_inserts_r. done.
  - intros Hd. rewrite owed_done, app_nil_r in Hp by exact Hd. split; [by symmetry|].
    apply map_eq. intros p. rewrite lookup_empty. destruct (heap w !! p) eqn:Hh; [|done].
    destruct (mi_owner _ HI p) as (th & c & Hl & Hc); [cbn [fst]; congruence|].
    by rewrite (Hd th c Hl) in Hc.
Qed.

(** Two threads, of a method of one argument and one of none; the second runs first. *)
Module Demo.
Definition a := XXX 10 1 (Args1 7).
Definition b := XXX 11 2 Args0.
Definition start (w : world) (x : xxx) (th : nat) : world :=
  match method_thread w true x (Some th) with Ok (w', _) => w' | Crash _ => w end.
Definition go (w : world) (th : nat) : world :=
  match yyy w th with Some (Ok w') => w' | _ => w end.
Definition w2 := start (start world_new a 1) b 2.
Definition w8 := fold_left go [2; 1; 2; 2; 1; 1]%nat w2.

Lemma go_reach w asked th :
  exited w = false -> (if yyy w th is Some (Ok _) then True else False) ->
  mt_step (w, asked) (go w th, asked).
Proof.
  intros Hx Hy. apply (mt_child w asked th); [done|]. unfold go.
  destruct (yyy w th) as [[w'|]|]; done.
Qed.

Lemma run_reach l : forall w asked,
  (forall k, k < length l -> let w' := fold_left go (take k l) w in
     exited w' = false /\ if yyy w' (nth k l 0%nat) is Some (Ok _) then True else False)%nat ->
  rtc mt_step (w, asked) (fold_left go l w, asked).
Proof.
  induction l as [|th l IH]; intros w asked H; [done|].
  destruct (H 0%nat ltac:(cbn; lia)) as [H0 H1].
  eapply rtc_l; [apply (go_reach w asked th H0 H1)|]. cbn [fold_left]. apply IH.
  intros k Hk. apply (H (S k)). cbn. lia.
Qed.

Lemma w8_reachable : rtc mt_step (world_new, []) (w8, [a; b]).
Proof.
  eapply rtc_l; [apply (mt_call _ [] true a 1 (start world_new a 1)); vm_compute; reflexivity|].
  eapply rtc_l; [apply (mt_call _ [a] true b 2 w2); vm_compute; reflexivity|].
  apply run_reach. intros k Hk. cbn in Hk.
  do 6 (destruct k as [|k]; [vm_compute; split; [reflexivity|exact I]|]). lia.
Qed.

Lemma finished : map_Forall (fun _ c => c = Y_done) (children w8).
Proof. apply (bool_decide_unpack _). vm_compute. exact I. Qed.
End Demo.

Lemma threads_run_their_method_witness :
  called Demo.w8 = [Demo.b; Demo.a] /\ called Demo.w8 ≡ₚ [Demo.a; Demo.b] /\ heap Demo.w8 = ∅.
Proof.
  split; [vm_compute; reflexivity|].
  apply (threads_run_their_method Demo.w8 [Demo.a; Demo.b]); [exact Demo.w8_reachable|].
  apply Demo.finished.
Defined.
