(* ===== verification/AioMgr.v ===== *)
(** * Waiting on descriptors: the aio_mgr classes of rpc/pollmgr.h and rpc/pollmgr.cc

    [SelectAIO] keeps two fd_sets and the highest descriptor in them, and a pipe
    that wakes the thread in select(); [EPollAIO] keeps a status word per
    descriptor and the kernel's interest table. Both promise the abstract class
    aio_mgr: two sets of descriptors, watched for reading and for writing.
    [AioMgr] states that promise and each class discharges it. *)

From S2P Require Import Prelude.
Local Open Scope Z_scope.

Definition MAX_POLL_FDS : Z := 128.

Inductive poll_flag := CB_NONE | CB_RDONLY | CB_WRONLY | CB_RDWR | CB_MASK.
#[export] Instance poll_flag_eq_dec : EqDecision poll_flag.
Proof. solve_decision. Defined.
Definition flag_int (f : poll_flag) : Z :=
  match f with
  | CB_NONE => 0 | CB_RDONLY => 1 | CB_WRONLY => 16 | CB_RDWR => 17 | CB_MASK => Z.lnot 17
  end.

(** The flags the callers pass. *)
Definition direction (f : poll_flag) : bool :=
  match f with CB_RDONLY | CB_WRONLY | CB_RDWR => true | _ => false end.
Definition reads_of (f : poll_flag) (fd : Z) : gset Z :=
  match f with CB_RDONLY | CB_RDWR => {[fd]} | _ => ∅ end.
Definition writes_of (f : poll_flag) (fd : Z) : gset Z :=
  match f with CB_WRONLY | CB_RDWR => {[fd]} | _ => ∅ end.

(** ** fd_set: FD_SETSIZE bits, the macros are undefined outside them *)
Definition FD_SETSIZE : Z := 1024.
Definition in_fd_set (fd : Z) : bool := (0 <=? fd) && (fd <? FD_SETSIZE).
Definition FD_SET (fd : Z) (s : gset Z) : outcome (gset Z) :=
  if in_fd_set fd then Ok ({[fd]} ∪ s) else Crash OutOfBounds.
Definition FD_CLR (fd : Z) (s : gset Z) : outcome (gset Z) :=
  if in_fd_set fd then Ok (s ∖ {[fd]}) else Crash OutOfBounds.
Definition FD_ISSET (fd : Z) (s : gset Z) : outcome bool :=
  if in_fd_set fd then Ok (bool_decide (fd ∈ s)) else Crash OutOfBounds.

(** ** SelectAIO *)
Record SelectAIO := Select {
  rfds : gset Z; wfds : gset Z; highfds : Z;
  pipe_rd : Z;          (** pipefd_[0] *)
  pipe_bytes : Z }.     (** bytes written to pipefd_[1] and not read yet *)

Definition SelectAIO_new (pipefd0 : Z) : outcome SelectAIO :=
  r ← FD_SET pipefd0 ∅; Ok (Select r ∅ pipefd0 pipefd0 0).

(** [write(pipefd_[1], &tmp, 1)]. The pipe is taken to have room: a full one
    (64 KiB on Linux, a byte for each change the loop has not seen) would make
    the caller wait for the loop. *)
Definition poke (s : SelectAIO) : SelectAIO :=
  Select (rfds s) (wfds s) (highfds s) (pipe_rd s) (pipe_bytes s + 1).

Definition select_watch_fd (s : SelectAIO) (fd : Z) (flag : poll_flag) : outcome SelectAIO :=
  let high := if highfds s <=? fd then fd else highfds s in
  '(r, w) ← (match flag with
             | CB_RDONLY => r ← FD_SET fd (rfds s); Ok (r, wfds s)
             | CB_WRONLY => w ← FD_SET fd (wfds s); Ok (rfds s, w)
             | _ => r ← FD_SET fd (rfds s); w ← FD_SET fd (wfds s); Ok (r, w)
             end);
  Ok (poke (Select r w high (pipe_rd s) (pipe_bytes s))).

Definition select_is_watched (s : SelectAIO) (fd : Z) (flag : poll_flag) : outcome bool :=
  match flag with
  | CB_RDONLY => FD_ISSET fd (rfds s)
  | CB_WRONLY => FD_ISSET fd (wfds s)
  | _ => r ← FD_ISSET fd (rfds s); w ← FD_ISSET fd (wfds s); Ok (r && w)
  end.

(** The loop that looks for the highest descriptor left. *)
Definition new_high (s : SelectAIO) : Z :=
  foldl (fun newh i => if bool_decide (i ∈ rfds s) then i
                       else if bool_decide (i ∈ wfds s) then i else newh)
    (pipe_rd s) (seqZ 0 (highfds s + 1)).

(** The [if] after the sets have changed: [fd] may have been the highest. *)
Definition settle (s : SelectAIO) (fd : Z) : SelectAIO :=
  if bool_decide (fd ∉ rfds s) && bool_decide (fd ∉ wfds s) && (fd =? highfds s)
  then Select (rfds s) (wfds s) (new_high s) (pipe_rd s) (pipe_bytes s) else s.

Definition select_unwatch_fd (s : SelectAIO) (fd : Z) (flag : poll_flag) : outcome (SelectAIO * bool) :=
  '(r, w) ← (match flag with
             | CB_RDONLY => r ← FD_CLR fd (rfds s); Ok (r, wfds s)
             | CB_WRONLY => w ← FD_CLR fd (wfds s); Ok (rfds s, w)
             | CB_RDWR => w ← FD_CLR fd (wfds s); r ← FD_CLR fd (rfds s); Ok (r, w)
             | _ => Crash AssertFailed
             end);
  let s := settle (Select r w (highfds s) (pipe_rd s) (pipe_bytes s)) fd in
  let s := match flag with CB_RDWR => poke s | _ => s end in
  Ok (s, bool_decide (fd ∉ rfds s) && bool_decide (fd ∉ wfds s)).

(** [wait_ready] after select() has returned the sets [tr] and [tw] for the
    copies taken before: the loop over the descriptors. *)
Definition ready_lists (pipe0 : Z) (tr tw : gset Z) (high : Z) : list Z * list Z :=
  let fds := seqZ 0 (high + 1) in
  (filter (fun fd => fd ∈ tr /\ fd <> pipe0) fds,
   filter (fun fd => fd ∈ tw /\ ~ (fd = pipe0 /\ fd ∈ tr)) fds).

(** The pipe is read, one byte, when select() reports it. *)
Definition select_collect (s : SelectAIO) (tr tw : gset Z) (high : Z)
    : outcome (SelectAIO * (list Z * list Z)) :=
  s ← (if bool_decide (pipe_rd s ∈ tr) && (pipe_rd s <=? high)
       then _ ← cassert (0 <? pipe_bytes s);
            Ok (Select (rfds s) (wfds s) (highfds s) (pipe_rd s) (pipe_bytes s - 1))
       else Ok s);
  Ok (s, ready_lists (pipe_rd s) tr tw high).

(** ** EPollAIO *)
Definition EPOLLIN : Z := 1.
Definition EPOLLOUT : Z := 4.
Definition EPOLLET : Z := 2 ^ 31.
Inductive epoll_op := EPOLL_CTL_ADD | EPOLL_CTL_MOD | EPOLL_CTL_DEL.

(** The kernel's side, of which the class relies on three things: a descriptor that
    is not in the table can be added, and one that is there changed or removed.
    [None] is any error. *)
Class EpollKernel := {
  epoll_ctl : gmap Z Z -> epoll_op -> Z -> Z -> option (gmap Z Z);
  epoll_ctl_add k fd ev : k !! fd = None -> epoll_ctl k EPOLL_CTL_ADD fd ev = Some (<[fd := ev]> k);
  epoll_ctl_mod k fd ev old : k !! fd = Some old -> epoll_ctl k EPOLL_CTL_MOD fd ev = Some (<[fd := ev]> k);
  epoll_ctl_del k fd ev old : k !! fd = Some old -> epoll_ctl k EPOLL_CTL_DEL fd ev = Some (delete fd k) }.

Record EPollAIO := EPoll { fdstatus : list Z; ep_kernel : gmap Z Z }.
Definition EPollAIO_new : EPollAIO := EPoll (replicate (Z.to_nat MAX_POLL_FDS) 0) ∅.

Definition poll_flag_to_event (flag : poll_flag) : Z :=
  match flag with
  | CB_RDONLY => EPOLLIN
  | CB_WRONLY => EPOLLOUT
  | _ => Z.lor EPOLLIN EPOLLOUT
  end.

(** The events for a status word. *)
Definition epoll_events (status : Z) : Z :=
  let ev := EPOLLET in
  let ev := if negb (Z.land status 1 =? 0) then Z.lor ev EPOLLIN else ev in
  if negb (Z.land status 16 =? 0) then Z.lor ev EPOLLOUT else ev.

Definition epoll_watch_fd `{EpollKernel} (s : EPollAIO) (fd : Z) (flag : poll_flag) : outcome EPollAIO :=
  _ ← cassert (fd <? MAX_POLL_FDS);
  st ← array_get (fdstatus s) fd;
  let op := if negb (st =? 0) then EPOLL_CTL_MOD else EPOLL_CTL_ADD in
  let st := Z.lor st (flag_int flag) in
  l ← array_set (fdstatus s) fd st;
  let ev := epoll_events st in
  _ ← (match flag with
       | CB_RDWR => cassert (ev =? Z.lor (Z.lor EPOLLET EPOLLIN) EPOLLOUT)
       | _ => Ok tt
       end);
  match epoll_ctl (ep_kernel s) op fd ev with
  | Some k => Ok (EPoll l k)
  | None => Crash AssertFailed
  end.

Definition epoll_unwatch_fd `{EpollKernel} (s : EPollAIO) (fd : Z) (flag : poll_flag) : outcome (EPollAIO * bool) :=
  _ ← cassert (fd <? MAX_POLL_FDS);
  st ← array_get (fdstatus s) fd;
  let st := Z.land st (Z.lnot (flag_int flag)) in
  l ← array_set (fdstatus s) fd st;
  let del := st =? 0 in
  let op := if del then EPOLL_CTL_DEL else EPOLL_CTL_MOD in
  let ev := epoll_events st in
  _ ← (match flag with CB_RDWR => cassert del | _ => Ok tt end);
  match epoll_ctl (ep_kernel s) op fd ev with
  | Some k => Ok (EPoll l k, del)
  | None => Crash AssertFailed
  end.

Definition epoll_is_watched (s : EPollAIO) (fd : Z) (flag : poll_flag) : outcome bool :=
  _ ← cassert (fd <? MAX_POLL_FDS);
  st ← array_get (fdstatus s) fd;
  Ok (Z.land st (flag_int CB_MASK) =? flag_int flag).

(** [wait_ready] on what epoll_wait() returned: events and descriptors. *)
Definition epoll_collect (ready : list (Z * Z)) : list Z * list Z :=
  (map snd (filter (fun e => Z.land e.1 EPOLLIN <> 0) ready),
   map snd (filter (fun e => Z.land e.1 EPOLLOUT <> 0) ready)).

(** ** The promise of aio_mgr *)

(** Descriptors a client may register; [reserved] is one the class keeps for
    itself. *)
Definition client_fd (reserved : option Z) (fd : Z) : Prop :=
  0 <= fd < MAX_POLL_FDS /\ reserved <> Some fd.

Class AioMgr (A : Type) := {
  aio_watch : A -> Z -> poll_flag -> outcome A;
  aio_unwatch : A -> Z -> poll_flag -> outcome (A * bool);
  aio_readers : A -> gset Z;
  aio_writers : A -> gset Z;
  aio_reserved : A -> option Z;
  aio_ok : A -> Prop;
  aio_watch_law s fd f :
    aio_ok s -> client_fd (aio_reserved s) fd -> direction f = true ->
    exists s', aio_watch s fd f = Ok s' /\ aio_ok s' /\ aio_reserved s' = aio_reserved s /\
      aio_readers s' = reads_of f fd ∪ aio_readers s /\
      aio_writers s' = writes_of f fd ∪ aio_writers s;
  aio_unwatch_law s fd f :
    aio_ok s -> client_fd (aio_reserved s) fd -> direction f = true ->
    fd ∈ aio_readers s ∪ aio_writers s ->
    exists s', aio_unwatch s fd f
        = Ok (s', bool_decide (fd ∉ aio_readers s') && bool_decide (fd ∉ aio_writers s')) /\
      aio_ok s' /\ aio_reserved s' = aio_reserved s /\
      aio_readers s' = aio_readers s ∖ reads_of f fd /\
      aio_writers s' = aio_writers s ∖ writes_of f fd }.

(** *** SelectAIO keeps it *)

(** [highfds_] is the highest descriptor in the two sets. *)
Record select_ok (s : SelectAIO) : Prop := {
  so_pipe : pipe_rd s ∈ rfds s;
  so_range fd : fd ∈ rfds s ∪ wfds s -> 0 <= fd <= highfds s;
  so_max : highfds s ∈ rfds s ∪ wfds s;
  so_size : highfds s < FD_SETSIZE;
  so_bytes : 0 <= pipe_bytes s }.

Lemma in_fd_set_true fd : 0 <= fd < FD_SETSIZE -> in_fd_set fd = true.
Proof. intros. unfold in_fd_set. by rewrite (proj2 (Z.leb_le _ _)), (proj2 (Z.ltb_lt _ _)) by lia. Qed.

Lemma seqZ_succ n : 0 <= n -> seqZ 0 (n + 1) = seqZ 0 n ++ [n].
Proof. intros Hn. rewrite (seqZ_app 0 n 1) by lia. by rewrite Z.add_0_l. Qed.

(** The loop finds the largest member up to [n], or returns what it started with. *)
Lemma highest_loop (a b : gset Z) d n :
  -1 <= n ->
  let h := foldl (fun newh i => if bool_decide (i ∈ a) then i else if bool_decide (i ∈ b) then i else newh)
             d (seqZ 0 (n + 1)) in
  (forall i, 0 <= i <= n -> i ∈ a ∪ b -> i <= h /\ h ∈ a ∪ b /\ 0 <= h <= n).
Proof.
  intros Hn h. subst h.
  assert (exists k : nat, n = Z.of_nat k - 1) as [k ->] by (exists (Z.to_nat (n + 1)); lia).
  clear Hn. induction k as [|k IH]; intros i Hi Hin; [lia|].
  replace (Z.of_nat (S k) - 1 + 1) with (Z.of_nat k + 1) in * by lia.
  rewrite seqZ_succ, foldl_app by lia. cbn [foldl].
  replace (Z.of_nat k - 1 + 1) with (Z.of_nat k) in IH by lia.
  case_bool_decide as Ha; [split_and!; [lia|set_solver|lia|lia]|].
  case_bool_decide as Hb; [split_and!; [lia|set_solver|lia|lia]|].
  destruct (decide (i = Z.of_nat k)) as [->|Hne]; [set_solver|].
  destruct (IH i) as (? & ? & ?); [lia|done|]. split_and!; [done|done|lia|lia].
Qed.

Lemma select_watch_ok s fd f :
  select_ok s -> 0 <= fd < FD_SETSIZE -> direction f = true ->
  exists s', select_watch_fd s fd f = Ok s' /\ select_ok s' /\ pipe_rd s' = pipe_rd s /\
    rfds s' = reads_of f fd ∪ rfds s /\ wfds s' = writes_of f fd ∪ wfds s /\
    pipe_bytes s' = pipe_bytes s + 1.
Proof.
  intros [Hp Hr Hm Hs Hb] Hfd Hf. unfold select_watch_fd, FD_SET. rewrite in_fd_set_true by done.
  set (h := if highfds s <=? fd then fd else highfds s).
  assert (fd <= h /\ highfds s <= h /\ h < FD_SETSIZE /\ (h = fd \/ h = highfds s)) as (H1 & H2 & H3 & H4).
  { subst h. destruct (Z.leb_spec (highfds s) fd); split_and!; lia. }
  destruct f; try done; cbn [mbind outcome_bind reads_of writes_of];
    (eexists; split; [reflexivity|]; cbn [rfds wfds pipe_rd pipe_bytes poke];
     split; [|split_and!; [done|set_solver|set_solver|done]];
     constructor; cbn [rfds wfds pipe_rd pipe_bytes poke highfds];
     [set_solver
     |intros x Hx; destruct (decide (x = fd)) as [->|]; [lia|];
      assert (x ∈ rfds s ∪ wfds s) as Hx' by set_solver; specialize (Hr x Hx'); lia
     |destruct H4 as [->| ->]; set_solver|done|lia]).
Qed.

(** Before [settle] the highest descriptor may be [fd], which is gone. *)
Lemma settle_ok s fd :
  pipe_rd s ∈ rfds s -> (forall x, x ∈ rfds s ∪ wfds s -> 0 <= x <= highfds s) ->
  (highfds s ∈ rfds s ∪ wfds s \/ highfds s = fd) -> highfds s < FD_SETSIZE -> 0 <= pipe_bytes s ->
  select_ok (settle s fd) /\ rfds (settle s fd) = rfds s /\ wfds (settle s fd) = wfds s /\
  pipe_rd (settle s fd) = pipe_rd s /\ pipe_bytes (settle s fd) = pipe_bytes s.
Proof.
  intros Hp Hr Hm Hs Hb. unfold settle.
  destruct (bool_decide (fd ∉ rfds s) && bool_decide (fd ∉ wfds s) && (fd =? highfds s)) eqn:G; (split; [|done]).
  - assert (pipe_rd s ∈ rfds s ∪ wfds s) as Hpu by (apply elem_of_union; by left).
    destruct (Hr (pipe_rd s) Hpu) as [? ?].
    assert (forall i, i ∈ rfds s ∪ wfds s -> i <= new_high s /\ new_high s ∈ rfds s ∪ wfds s /\
      0 <= new_high s <= highfds s) as Hh.
    { intros i Hi. apply (highest_loop (rfds s) (wfds s) (pipe_rd s) (highfds s)); [lia|by apply Hr|done]. }
    destruct (Hh (pipe_rd s) Hpu) as (? & ? & ?).
    constructor; cbn [rfds wfds pipe_rd pipe_bytes highfds]; try done; [|lia].
    intros x Hx. split; [by apply Hr|by apply Hh].
  - constructor; try done. destruct Hm as [Hm|Hm]; [done|].
    rewrite Hm, Z.eqb_refl, andb_true_r in G. rewrite Hm.
    apply andb_false_iff in G as [G|G]; apply bool_decide_eq_false, dec_stable in G;
      apply elem_of_union; by (left + right).
Qed.

Lemma poke_ok s : select_ok s -> select_ok (poke s).
Proof. intros []. constructor; cbn [poke rfds wfds pipe_rd pipe_bytes highfds]; try done; lia. Qed.

Lemma select_unwatch_ok s fd f :
  select_ok s -> 0 <= fd < FD_SETSIZE -> fd <> pipe_rd s -> direction f = true ->
  exists s', select_unwatch_fd s fd f = Ok (s', bool_decide (fd ∉ rfds s') && bool_decide (fd ∉ wfds s')) /\
    select_ok s' /\ pipe_rd s' = pipe_rd s /\
    rfds s' = rfds s ∖ reads_of f fd /\ wfds s' = wfds s ∖ writes_of f fd /\
    pipe_bytes s' = pipe_bytes s + (if decide (f = CB_RDWR) then 1 else 0).
Proof.
  intros [Hp Hr Hm Hs Hb] Hfd Hne Hf. unfold select_unwatch_fd, FD_CLR. rewrite in_fd_set_true by done.
  destruct (settle_ok (Select (rfds s ∖ reads_of f fd) (wfds s ∖ writes_of f fd) (highfds s) (pipe_rd s)
    (pipe_bytes s)) fd) as (Hok & E1 & E2 & E3 & E4); cbn [rfds wfds pipe_rd pipe_bytes highfds];
    [destruct f; set_solver|intros x Hx; apply Hr; set_solver| |done|done|].
  { destruct (decide (highfds s = fd)); [by right|left]. destruct f; set_solver. }
  cbn [rfds wfds pipe_rd pipe_bytes] in E1, E2, E3, E4.
  destruct f; try done; cbn [mbind outcome_bind reads_of writes_of] in *;
    rewrite ?difference_empty_L in *; (eexists; split; [reflexivity|]);
    (split; [by try apply poke_ok|]); cbn [poke rfds wfds pipe_rd pipe_bytes];
    rewrite ?decide_True, ?decide_False by done; split_and!; try done; lia.
Qed.

#[export] Program Instance select_aio : AioMgr SelectAIO := {|
  aio_watch := select_watch_fd;
  aio_unwatch := select_unwatch_fd;
  aio_readers s := rfds s ∖ {[pipe_rd s]};
  aio_writers s := wfds s ∖ {[pipe_rd s]};
  aio_reserved s := Some (pipe_rd s);
  aio_ok := select_ok |}.
Next Obligation.
  intros s fd f Hok [Hfd Hp] Hf. destruct (select_watch_ok s fd f Hok) as (s' & E & Hok' & Hpp & Hr & Hw & _);
    [unfold FD_SETSIZE, MAX_POLL_FDS in *; lia|done|].
  exists s'. split; [done|]. split; [done|]. rewrite Hpp, Hr, Hw. split; [done|].
  assert (fd <> pipe_rd s) by congruence. destruct f; try done; set_solver.
Qed.
Next Obligation.
  intros s fd f Hok [Hfd Hp] Hf _. assert (fd <> pipe_rd s) as Hne by congruence.
  destruct (select_unwatch_ok s fd f Hok) as (s' & E & Hok' & Hpp & Hr & Hw & _);
    [unfold FD_SETSIZE, MAX_POLL_FDS in *; lia|done|done|].
  exists s'. split; [|split; [done|]; rewrite Hpp; split; [done|]; rewrite Hr, Hw; set_solver].
  rewrite E. do 2 f_equal. rewrite Hpp. f_equal; apply bool_decide_ext; set_solver.
Qed.

Lemma SelectAIO_new_ok p s : SelectAIO_new p = Ok s -> select_ok s /\ pipe_rd s = p.
Proof.
  unfold SelectAIO_new, FD_SET. destruct (in_fd_set p) eqn:E; [|done]. intros [= <-].
  unfold in_fd_set in E. bool_to_prop. split; [|done].
  constructor; cbn [rfds wfds highfds pipe_rd pipe_bytes]; set_solver by lia.
Qed.

(** *** EPollAIO keeps it *)
Definition status (s : EPollAIO) (fd : Z) : Z := default 0 (fdstatus s !! Z.to_nat fd).

(** A status word has only the two direction bits, and the kernel watches what
    the status words say. *)
Record epoll_ok (s : EPollAIO) : Prop := {
  eo_length : zlen (fdstatus s) = MAX_POLL_FDS;
  eo_status fd : status s fd ∈ [0; 1; 16; 17];
  eo_kernel fd : 0 <= fd < MAX_POLL_FDS ->
    ep_kernel s !! fd = if status s fd =? 0 then None else Some (epoll_events (status s fd)) }.

Definition watched_bit (bit : Z) (s : EPollAIO) : gset Z :=
  list_to_set (filter (fun fd => Z.land (status s fd) bit <> 0) (seqZ 0 MAX_POLL_FDS)).

Lemma elem_of_watched_bit bit s fd :
  fd ∈ watched_bit bit s <-> 0 <= fd < MAX_POLL_FDS /\ Z.land (status s fd) bit <> 0.
Proof.
  unfold watched_bit. rewrite elem_of_list_to_set, list_elem_of_filter, elem_of_seqZ, Z.add_0_l. tauto.
Qed.

Lemma array_get_status s fd :
  epoll_ok s -> 0 <= fd < MAX_POLL_FDS -> array_get (fdstatus s) fd = Ok (status s fd).
Proof.
  intros [Hl _ _] Hfd. unfold array_get, status. rewrite (proj2 (Z.ltb_ge _ _)) by lia.
  destruct (fdstatus s !! Z.to_nat fd) eqn:E; [done|].
  apply lookup_ge_None in E. unfold zlen in Hl. lia.
Qed.

(** Storing a status word and telling the kernel. *)
Definition store_status (s : EPollAIO) (fd st : Z) : EPollAIO :=
  EPoll (<[Z.to_nat fd := st]> (fdstatus s))
        (if st =? 0 then delete fd (ep_kernel s) else <[fd := epoll_events st]> (ep_kernel s)).

Lemma status_store s fd st x :
  epoll_ok s -> 0 <= fd < MAX_POLL_FDS -> 0 <= x < MAX_POLL_FDS ->
  status (store_status s fd st) x = if decide (x = fd) then st else status s x.
Proof.
  intros [Hl _ _] Hfd Hx. unfold status, store_status. cbn [fdstatus]. unfold zlen in Hl.
  destruct (decide (x = fd)) as [->|Hne].
  - by rewrite list_lookup_insert_eq by lia.
  - by rewrite list_lookup_insert_ne by lia.
Qed.

Lemma store_status_ok s fd st :
  epoll_ok s -> 0 <= fd < MAX_POLL_FDS -> st ∈ [0; 1; 16; 17] -> epoll_ok (store_status s fd st).
Proof.
  intros Hok Hfd Hst. pose proof Hok as [Hl Hs Hk]. constructor.
  - unfold zlen in *. cbn [store_status fdstatus]. by rewrite length_insert.
  - intros x. unfold status, store_status. cbn [fdstatus].
    destruct (decide (Z.to_nat x = Z.to_nat fd)) as [->|Hne].
    + rewrite list_lookup_insert_eq by (unfold zlen in Hl; lia). done.
    + rewrite list_lookup_insert_ne by done. apply Hs.
  - intros x Hx. rewrite status_store by done. cbn [store_status ep_kernel].
    destruct (decide (x = fd)) as [->|Hne].
    + destruct (st =? 0); [apply lookup_delete_eq|apply lookup_insert_eq].
    + rewrite <- Hk by done. destruct (st =? 0); [by rewrite lookup_delete_ne|by rewrite lookup_insert_ne].
Qed.

Lemma watched_bit_store bit s fd st :
  epoll_ok s -> 0 <= fd < MAX_POLL_FDS ->
  watched_bit bit (store_status s fd st) =
    if Z.land st bit =? 0 then watched_bit bit s ∖ {[fd]} else {[fd]} ∪ watched_bit bit s.
Proof.
  intros Hok Hfd. apply set_eq. intros x.
  assert (x ∈ watched_bit bit (store_status s fd st) <->
    0 <= x < MAX_POLL_FDS /\ Z.land (if decide (x = fd) then st else status s x) bit <> 0) as ->.
  { rewrite elem_of_watched_bit. split; intros [Hx Hb]; (split; [done|]); by rewrite status_store in *. }
  destruct (Z.eqb_spec (Z.land st bit) 0) as [E|E].
  - rewrite elem_of_difference, elem_of_watched_bit, elem_of_singleton.
    destruct (decide (x = fd)) as [->|]; tauto.
  - rewrite elem_of_union, elem_of_watched_bit, elem_of_singleton.
    destruct (decide (x = fd)) as [->|]; tauto.
Qed.

(** The four status words, as a case analysis. *)
Ltac status_cases H :=
  repeat (apply elem_of_cons in H as [H|H]); [..|by apply not_elem_of_nil in H].

Lemma epoll_watch_ok `{EpollKernel} s fd f :
  epoll_ok s -> 0 <= fd < MAX_POLL_FDS -> direction f = true ->
  epoll_watch_fd s fd f = Ok (store_status s fd (Z.lor (status s fd) (flag_int f))) /\
  Z.lor (status s fd) (flag_int f) ∈ [1; 16; 17].
Proof.
  intros Hok Hfd Hf. unfold epoll_watch_fd. rewrite (proj2 (Z.ltb_lt _ _)) by lia.
  cbn [cassert mbind outcome_bind]. rewrite array_get_status by done. cbn [mbind outcome_bind].
  unfold array_set. rewrite (eo_length s Hok), (proj2 (Z.leb_le _ _)), (proj2 (Z.ltb_lt _ _)) by lia.
  cbn [andb mbind outcome_bind]. unfold store_status.
  pose proof (eo_kernel s Hok fd Hfd) as Hk. pose proof (eo_status s Hok fd) as Hs.
  status_cases Hs; rewrite Hs in Hk |- *; destruct f; try done; cbn in Hk |- *;
    first [rewrite epoll_ctl_add by done|erewrite epoll_ctl_mod by done|erewrite epoll_ctl_del by done]; (split; [reflexivity|set_solver]).
Qed.

Lemma epoll_unwatch_ok `{EpollKernel} s fd f :
  epoll_ok s -> 0 <= fd < MAX_POLL_FDS -> direction f = true -> status s fd <> 0 ->
  let st := Z.land (status s fd) (Z.lnot (flag_int f)) in
  epoll_unwatch_fd s fd f = Ok (store_status s fd st, st =? 0) /\ st ∈ [0; 1; 16].
Proof.
  intros Hok Hfd Hf Hne. unfold epoll_unwatch_fd. rewrite (proj2 (Z.ltb_lt _ _)) by lia.
  cbn [cassert mbind outcome_bind]. rewrite array_get_status by done. cbn [mbind outcome_bind].
  unfold array_set. rewrite (eo_length s Hok), (proj2 (Z.leb_le _ _)), (proj2 (Z.ltb_lt _ _)) by lia.
  cbn [andb mbind outcome_bind]. unfold store_status.
  pose proof (eo_kernel s Hok fd Hfd) as Hk. pose proof (eo_status s Hok fd) as Hs.
  status_cases Hs; rewrite Hs in Hk, Hne |- *; try done; destruct f; try done; cbn in Hk |- *;
    first [rewrite epoll_ctl_add by done|erewrite epoll_ctl_mod by done|erewrite epoll_ctl_del by done]; (split; [reflexivity|set_solver]).
Qed.

#[export] Program Instance epoll_aio `{EpollKernel} : AioMgr EPollAIO := {|
  aio_watch := epoll_watch_fd;
  aio_unwatch := epoll_unwatch_fd;
  aio_readers := watched_bit 1;
  aio_writers := watched_bit 16;
  aio_reserved _ := None;
  aio_ok := epoll_ok |}.
Next Obligation.
  intros HK s fd f Hok [Hfd _] Hf. destruct (epoll_watch_ok s fd f Hok Hfd Hf) as [E Hst].
  exists (store_status s fd (Z.lor (status s fd) (flag_int f))). split; [done|].
  split; [apply store_status_ok; [done|done|set_solver]|]. split; [done|].
  rewrite !watched_bit_store by done.
  pose proof (elem_of_watched_bit 1 s fd) as H1. pose proof (elem_of_watched_bit 16 s fd) as H16.
  pose proof (eo_status s Hok fd) as Hs.
  status_cases Hs; rewrite Hs in H1, H16 |- *; destruct f; try done; cbn in H1, H16 |- *; set_solver.
Qed.
Next Obligation.
  intros HK s fd f Hok [Hfd _] Hf Hin.
  pose proof (elem_of_watched_bit 1 s fd) as H1. pose proof (elem_of_watched_bit 16 s fd) as H16.
  assert (status s fd <> 0) as Hne.
  { intros E. rewrite E in H1, H16. cbn in H1, H16. set_solver. }
  destruct (epoll_unwatch_ok s fd f Hok Hfd Hf Hne) as [E Hst].
  set (st := Z.land (status s fd) (Z.lnot (flag_int f))) in *.
  assert (fd ∈ watched_bit 1 (store_status s fd st) <-> Z.land st 1 <> 0) as Hb1.
  { rewrite elem_of_watched_bit, status_store, decide_True by done. tauto. }
  assert (fd ∈ watched_bit 16 (store_status s fd st) <-> Z.land st 16 <> 0) as Hb16.
  { rewrite elem_of_watched_bit, status_store, decide_True by done. tauto. }
  exists (store_status s fd st). split.
  { rewrite E. do 2 f_equal. clear -Hst Hb1 Hb16. clearbody st. status_cases Hst; subst st; cbn in *.
    - rewrite !bool_decide_true by tauto. done.
    - rewrite (bool_decide_false (_ ∉ watched_bit 1 _)) by (rewrite Hb1; intros Hn; by apply Hn). done.
    - rewrite (bool_decide_false (_ ∉ watched_bit 16 _)) by (rewrite Hb16; intros Hn; by apply Hn).
      by rewrite andb_false_r. }
  split; [apply store_status_ok; [done|done|set_solver]|]. split; [done|].
  rewrite !watched_bit_store by done. subst st. clear E Hst Hb1 Hb16 Hin.
  pose proof (eo_status s Hok fd) as Hs.
  status_cases Hs; rewrite Hs in H1, H16, Hne |- *; try done; destruct f; try done; cbn in H1, H16 |- *; set_solver.
Qed.

Lemma EPollAIO_new_ok : epoll_ok EPollAIO_new.
Proof.
  assert (forall fd, status EPollAIO_new fd = 0) as H0.
  { intros fd. unfold status, EPollAIO_new. cbn [fdstatus].
    destruct (replicate _ 0 !! Z.to_nat fd) eqn:E; [|done]. by apply lookup_replicate in E as [-> _]. }
  constructor; [done| |]; intros fd; rewrite H0; [set_solver|]. intros _. apply lookup_empty.
Qed.

(** ** Runs *)
Inductive aio_op := Watch (fd : Z) (f : poll_flag) | Unwatch (fd : Z) (f : poll_flag).

(** The abstract run: two sets, and what unwatch_fd answers. *)
Definition abs_step (rw : gset Z * gset Z) (op : aio_op) : (gset Z * gset Z) * list bool :=
  match op with
  | Watch fd f => ((reads_of f fd ∪ rw.1, writes_of f fd ∪ rw.2), [])
  | Unwatch fd f =>
      let r := rw.1 ∖ reads_of f fd in let w := rw.2 ∖ writes_of f fd in
      ((r, w), [bool_decide (fd ∉ r) && bool_decide (fd ∉ w)])
  end.
Fixpoint abs_run (rw : gset Z * gset Z) (ops : list aio_op) : (gset Z * gset Z) * list bool :=
  match ops with
  | [] => (rw, [])
  | op :: ops => let '(rw, a) := abs_step rw op in let '(rw, b) := abs_run rw ops in (rw, a ++ b)
  end.

(** What a user of aio_mgr keeps to: its own descriptors, one of the three
    directions, and taking back only what it has registered. *)
Definition allowed (reserved : option Z) (rw : gset Z * gset Z) (op : aio_op) : Prop :=
  match op with
  | Watch fd f => client_fd reserved fd /\ direction f = true
  | Unwatch fd f => client_fd reserved fd /\ direction f = true /\ fd ∈ rw.1 ∪ rw.2
  end.
Fixpoint allowed_run (reserved : option Z) (rw : gset Z * gset Z) (ops : list aio_op) : Prop :=
  match ops with
  | [] => True
  | op :: ops => allowed reserved rw op /\ allowed_run reserved (abs_step rw op).1 ops
  end.

Section Runs.
Context `{AioMgr A}.

Definition aio_step (s : A) (op : aio_op) : outcome (A * list bool) :=
  match op with
  | Watch fd f => s ← aio_watch s fd f; Ok (s, [])
  | Unwatch fd f => '(s, b) ← aio_unwatch s fd f; Ok (s, [b])
  end.
Fixpoint aio_run (s : A) (ops : list aio_op) : outcome (A * list bool) :=
  match ops with
  | [] => Ok (s, [])
  | op :: ops => '(s, a) ← aio_step s op; '(s, b) ← aio_run s ops; Ok (s, a ++ b)
  end.

(** A class that keeps the promise runs like the two sets. *)
Lemma aio_run_abstract s ops :
  aio_ok s -> allowed_run (aio_reserved s) (aio_readers s, aio_writers s) ops ->
  exists s', aio_run s ops = Ok (s', (abs_run (aio_readers s, aio_writers s) ops).2) /\ aio_ok s' /\
    (aio_readers s', aio_writers s') = (abs_run (aio_readers s, aio_writers s) ops).1.
Proof.
  revert s. induction ops as [|op ops IH]; intros s Hok Hal; [by exists s|].
  destruct Hal as [Hop Hal]. cbn [aio_run abs_run].
  assert (exists s1, aio_step s op = Ok (s1, (abs_step (aio_readers s, aio_writers s) op).2) /\ aio_ok s1 /\
    aio_reserved s1 = aio_reserved s /\
    (aio_readers s1, aio_writers s1) = (abs_step (aio_readers s, aio_writers s) op).1)
    as (s1 & E1 & Hok1 & Hres1 & Hrw1).
  { destruct op as [fd f|fd f]; cbn [allowed fst snd] in Hop; cbn [aio_step abs_step fst snd].
    - destruct Hop as [Hfd Hf]. destruct (aio_watch_law s fd f Hok Hfd Hf) as (s1 & -> & ? & ? & Hr & Hw).
      exists s1. by rewrite Hr, Hw.
    - destruct Hop as (Hfd & Hf & Hin).
      destruct (aio_unwatch_law s fd f Hok Hfd Hf Hin) as (s1 & -> & ? & ? & Hr & Hw).
      exists s1. cbn [mbind outcome_bind]. by rewrite Hr, Hw. }
  rewrite E1. cbn [mbind outcome_bind]. destruct (abs_step _ op) as [rw a]. cbn [fst snd] in *. subst rw.
  rewrite <- Hres1 in Hal. destruct (IH s1 Hok1 Hal) as (s2 & E2 & Hok2 & Hrw2). exists s2.
  rewrite E2. cbn [mbind outcome_bind]. by destruct (abs_run _ ops).
Qed.
End Runs.

Lemma allowed_run_weaken reserved rw ops : allowed_run reserved rw ops -> allowed_run None rw ops.
Proof.
  revert rw. induction ops as [|op ops IH]; intros rw; [done|]. intros [Hop Hal]. split; [|by apply IH].
  destruct op; cbn [allowed client_fd] in *; unfold client_fd in *; naive_solver.
Qed.

(** [is_watched] works on SelectAIO, where it says whether every direction
    asked about is watched; EPollAIO masks the status with CB_MASK, the
    complement of the direction bits, so it denies every direction of every
    descriptor, watched or not. *)
Lemma is_watched_select_epoll s e fd f :
  select_ok s -> epoll_ok e -> 0 <= fd < MAX_POLL_FDS -> direction f = true ->
  select_is_watched s fd f
    = Ok (bool_decide (reads_of f fd ⊆ rfds s) && bool_decide (writes_of f fd ⊆ wfds s)) /\
  epoll_is_watched e fd f = Ok false.
Proof.
  intros Hs He Hfd Hf. split.
  - unfold select_is_watched, FD_ISSET. rewrite in_fd_set_true by (unfold FD_SETSIZE, MAX_POLL_FDS in *; lia).
    destruct f; try done; cbn [mbind outcome_bind reads_of writes_of]; f_equal;
      rewrite ?(bool_decide_true (∅ ⊆ _)) by set_solver; rewrite ?andb_true_r; cbn [andb];
      try (apply bool_decide_ext; set_solver).
    f_equal; apply bool_decide_ext; set_solver.
  - unfold epoll_is_watched. rewrite (proj2 (Z.ltb_lt _ _)) by lia. cbn [cassert mbind outcome_bind].
    rewrite array_get_status by done. cbn [mbind outcome_bind]. pose proof (eo_status e He fd) as Hst.
    status_cases Hst; rewrite Hst; by destruct f.
Qed.

(** C35. SelectAIO and EPollAIO are interchangeable behind aio_mgr as far as watch_fd
    and unwatch_fd go: on every allowed sequence of these calls neither fails,
    both answer the same, and both end up watching the same descriptors for
    reading and for writing (select's wake-up pipe apart). They are not in what
    is_watched answers afterwards: SelectAIO says whether every direction asked
    about is watched, EPollAIO always no. *)
Theorem select_epoll_agree `{EpollKernel} p s0 ops :
  SelectAIO_new p = Ok s0 -> allowed_run (Some p) (∅, ∅) ops ->
  exists s e ans, aio_run s0 ops = Ok (s, ans) /\ aio_run EPollAIO_new ops = Ok (e, ans) /\
    rfds s ∖ {[pipe_rd s]} = watched_bit 1 e /\ wfds s ∖ {[pipe_rd s]} = watched_bit 16 e /\
    forall fd f, 0 <= fd < MAX_POLL_FDS -> direction f = true ->
      select_is_watched s fd f
        = Ok (bool_decide (reads_of f fd ⊆ rfds s) && bool_decide (writes_of f fd ⊆ wfds s)) /\
      epoll_is_watched e fd f = Ok false.
Proof.
  intros Hnew Hal. destruct (SelectAIO_new_ok p s0 Hnew) as [Hok Hp].
  assert (rfds s0 ∖ {[pipe_rd s0]} = ∅ /\ wfds s0 ∖ {[pipe_rd s0]} = ∅) as [Hr Hw].
  { clear -Hnew. unfold SelectAIO_new, FD_SET in Hnew. destruct (in_fd_set p); [|done].
    injection Hnew as <-. cbn [rfds wfds pipe_rd]. set_solver. }
  assert (watched_bit 1 EPollAIO_new = ∅ /\ watched_bit 16 EPollAIO_new = ∅) as [Hr' Hw'] by done.
  destruct (aio_run_abstract s0 ops) as (s & E & Hs_ok & Hs); [done| |].
  { cbn [aio_reserved aio_readers aio_writers select_aio]. by rewrite Hr, Hw, Hp. }
  destruct (aio_run_abstract EPollAIO_new ops) as (e & E' & He_ok & He); [apply EPollAIO_new_ok| |].
  { cbn [aio_reserved aio_readers aio_writers epoll_aio]. rewrite Hr', Hw'. by apply (allowed_run_weaken (Some p)). }
  cbn [aio_readers aio_writers select_aio epoll_aio] in *. rewrite Hr, Hw in E, Hs. rewrite Hr', Hw' in E', He.
  eexists s, e, _. split; [exact E|]. split; [exact E'|]. split; [congruence|]. split; [congruence|].
  intros fd f Hfd Hf. by apply is_watched_select_epoll.
Qed.

(** select() is asked about every watched descriptor: after any calls of
    watch_fd and unwatch_fd on descriptors below FD_SETSIZE other than the
    wake-up pipe, [highfds_] is the largest descriptor in the two sets, the pipe
    is still among them, and no index leaves the sets. *)
Theorem highfds_is_highest p s0 ops :
  SelectAIO_new p = Ok s0 ->
  Forall (fun op => match op with Watch fd f | Unwatch fd f =>
            0 <= fd < FD_SETSIZE /\ fd <> p /\ direction f = true end) ops ->
  exists s ans, aio_run s0 ops = Ok (s, ans) /\ p ∈ rfds s /\ highfds s ∈ rfds s ∪ wfds s /\
    highfds s < FD_SETSIZE /\ forall fd, fd ∈ rfds s ∪ wfds s -> 0 <= fd <= highfds s.
Proof.
  intros Hnew Hops. destruct (SelectAIO_new_ok p s0 Hnew) as [Hok Hp].
  assert (exists s ans, aio_run s0 ops = Ok (s, ans) /\ select_ok s /\ pipe_rd s = p) as (s & ans & E & Hs & Hp').
  2: { exists s, ans. split; [done|]. rewrite <- Hp' at 1. by destruct Hs. }
  clear Hnew. revert s0 Hok Hp. induction Hops as [|op ops Hop _ IH]; intros s0 Hok Hp; [by exists s0, []|].
  cbn [aio_run]. destruct op as [fd f|fd f]; destruct Hop as (Hfd & Hne & Hf); cbn [aio_step aio_watch aio_unwatch select_aio].
  - destruct (select_watch_ok s0 fd f Hok Hfd Hf) as (s1 & -> & Hok1 & Hp1 & _). cbn [mbind outcome_bind].
    destruct (IH s1 Hok1) as (s & ans & -> & ?); [congruence|]. by exists s, ans.
  - destruct (select_unwatch_ok s0 fd f Hok Hfd) as (s1 & -> & Hok1 & Hp1 & _); [congruence|done|].
    cbn [mbind outcome_bind]. destruct (IH s1 Hok1) as (s & ans & -> & ?); [congruence|]. by eexists s, _.
Qed.

(** A kernel with room for every descriptor. *)
Definition roomy_ctl (k : gmap Z Z) (op : epoll_op) (fd ev : Z) : option (gmap Z Z) :=
  match op, k !! fd with
  | EPOLL_CTL_ADD, None => Some (<[fd := ev]> k)
  | EPOLL_CTL_MOD, Some _ => Some (<[fd := ev]> k)
  | EPOLL_CTL_DEL, Some _ => Some (delete fd k)
  | _, _ => None
  end.

#[export] Instance roomy_epoll : EpollKernel.
Proof. refine {| epoll_ctl := roomy_ctl |}; intros k fd ev; intros; unfold roomy_ctl; by simplify_option_eq. Defined.

(** The pipe is descriptor 3; two connections come and go. *)
Definition demo_ops : list aio_op :=
  [Watch 5 CB_RDONLY; Watch 7 CB_RDONLY; Watch 7 CB_WRONLY; Unwatch 7 CB_WRONLY; Unwatch 7 CB_RDWR].

Lemma select_epoll_agree_witness :
  exists s0 s e, SelectAIO_new 3 = Ok s0 /\ aio_run s0 demo_ops = Ok (s, [false; true]) /\
    aio_run EPollAIO_new demo_ops = Ok (e, [false; true]) /\ rfds s ∖ {[pipe_rd s]} = watched_bit 1 e /\
    epoll_is_watched e 5 CB_RDONLY = Ok false.
Proof.
  destruct (select_epoll_agree 3 (Select {[3]} ∅ 3 3 0) demo_ops) as (s & e & ans & E1 & E2 & Hr & _ & Hisw).
  - by vm_compute.
  - repeat split; try done; apply (bool_decide_unpack _); by vm_compute.
  - assert (ans = [false; true]) as ->
      by (assert (match aio_run EPollAIO_new demo_ops with Ok (_, a) => a | Crash _ => [] end = ans) as <-
            by (by rewrite E2); by vm_compute).
    exists (Select {[3]} ∅ 3 3 0), s, e. split; [by vm_compute|]. split; [exact E1|]. split; [exact E2|].
    split; [exact Hr|]. by apply (Hisw 5 CB_RDONLY).
Defined.

Lemma highfds_is_highest_witness :
  exists s ans, aio_run (Select {[3]} ∅ 3 3 0) demo_ops = Ok (s, ans) /\ 3 ∈ rfds s /\
    forall fd, fd ∈ rfds s ∪ wfds s -> 0 <= fd <= highfds s.
Proof.
  destruct (highfds_is_highest 3 (Select {[3]} ∅ 3 3 0) demo_ops) as (s & ans & E & H1 & _ & _ & H2).
  - by vm_compute.
  - repeat constructor; done.
  - exists s, ans. split; [exact E|]. split; [exact H1|exact H2].
Defined.

Lemma is_watched_select_epoll_witness :
  exists s e, SelectAIO_new 3 = Ok s /\ epoll_watch_fd EPollAIO_new 7 CB_RDONLY = Ok e /\
    epoll_is_watched e 7 CB_RDONLY = Ok false.
Proof.
  exists (Select {[3]} ∅ 3 3 0).
  destruct (epoll_watch_ok EPollAIO_new 7 CB_RDONLY EPollAIO_new_ok) as [E _]; [done|done|].
  eexists. split; [by vm_compute|]. split; [exact E|].
  apply (is_watched_select_epoll (Select {[3]} ∅ 3 3 0)); [|apply store_status_ok|done|done].
  - apply (SelectAIO_new_ok 3). by vm_compute.
  - apply EPollAIO_new_ok.
  - done.
  - apply (bool_decide_unpack _). by vm_compute.
Defined.
