(* ===== verification/PollMgr.v ===== *)
(** * The poll manager: class PollMgr of rpc/pollmgr.h and rpc/pollmgr.cc

    One thread sits in [wait_loop]: it waits in select() and calls the
    callbacks of the descriptors that are ready, without holding the mutex;
    connections register and remove descriptors from their own threads.
    [block_remove_fd] is the handshake that lets a connection be deleted: it
    waits until the loop has come round. [loop] is where the loop's thread is,
    [waiting], [woken] and [roused] are the threads inside [block_remove_fd]; each
    operation under the mutex is one step, so the order of steps is any
    interleaving. pthread_cond_wait may return without a broadcast. *)

From S2P Require Import Prelude AioMgr.
Local Open Scope Z_scope.

(** Where [wait_loop] is. A ready descriptor is a pair: is it for writing, and
    which. The test of callbacks_[fd] and its use are two reads of the array. *)
Inductive loop_pc :=
  | L_top                                       (** ScopedLock; pending_change_ *)
  | L_copy                                      (** wait_ready, before the copy of the sets *)
  | L_select (r w : gset Z) (high : Z)          (** in select() *)
  | L_next (todo : list (bool * Z))             (** the two for loops *)
  | L_deref (wr : bool) (fd : Z) (todo : list (bool * Z))
  | L_call (wr : bool) (fd ch : Z) (todo : list (bool * Z)).   (** in ch's callback *)

Record pollmgr := MkPollMgr {
  callbacks : list (option Z);
  aio : SelectAIO;
  pending_change : bool;
  loop : loop_pc;
  waiting : gmap nat Z;     (** threads in pthread_cond_wait, by descriptor *)
  woken : gmap nat Z;       (** broadcast to, not yet returned *)
  roused : gmap nat Z;      (** woken up without a broadcast, not yet returned *)
  quiet : gset Z;           (** removed and not added since; for the theorems *)
  astray : bool }.          (** a roused thread has returned; for the theorems *)

Definition PollMgr_new (pipefd0 : Z) : outcome pollmgr :=
  a ← SelectAIO_new pipefd0;
  Ok (MkPollMgr (replicate (Z.to_nat MAX_POLL_FDS) None) a false L_top ∅ ∅ ∅ ∅ false).

Definition with_aio (s : pollmgr) (a : SelectAIO) : pollmgr :=
  MkPollMgr (callbacks s) a (pending_change s) (loop s) (waiting s) (woken s) (roused s) (quiet s) (astray s).
Definition with_callbacks (s : pollmgr) (l : list (option Z)) : pollmgr :=
  MkPollMgr l (aio s) (pending_change s) (loop s) (waiting s) (woken s) (roused s) (quiet s) (astray s).
Definition with_loop (s : pollmgr) (l : loop_pc) : pollmgr :=
  MkPollMgr (callbacks s) (aio s) (pending_change s) l (waiting s) (woken s) (roused s) (quiet s) (astray s).
Definition with_quiet (s : pollmgr) (q : gset Z) : pollmgr :=
  MkPollMgr (callbacks s) (aio s) (pending_change s) (loop s) (waiting s) (woken s) (roused s) q (astray s).

(** ** Operations *)
Definition add_callback (s : pollmgr) (fd : Z) (flag : poll_flag) (ch : Z) : outcome pollmgr :=
  _ ← cassert (fd <? MAX_POLL_FDS);
  a ← select_watch_fd (aio s) fd flag;
  cb ← array_get (callbacks s) fd;
  _ ← cassert (match cb with None => true | Some ch' => ch' =? ch end);
  l ← array_set (callbacks s) fd (Some ch);
  Ok (with_quiet (with_callbacks (with_aio s a) l) (quiet s ∖ {[fd]})).

Definition del_callback (s : pollmgr) (fd : Z) (flag : poll_flag) : outcome pollmgr :=
  '(a, gone) ← select_unwatch_fd (aio s) fd flag;
  if gone : bool
  then l ← array_set (callbacks s) fd None; Ok (with_callbacks (with_aio s a) l)
  else Ok (with_aio s a).

Definition has_callback (s : pollmgr) (fd : Z) (flag : poll_flag) (c : Z) : outcome bool :=
  cb ← array_get (callbacks s) fd;
  match cb with
  | None => Ok false
  | Some ch => if negb (ch =? c) then Ok false else select_is_watched (aio s) fd flag
  end.

(** [block_remove_fd] by thread [t], up to and into its wait. *)
Definition block_remove_enter (s : pollmgr) (t : nat) (fd : Z) : outcome pollmgr :=
  '(a, _) ← select_unwatch_fd (aio s) fd CB_RDWR;
  Ok (MkPollMgr (callbacks s) a true (loop s) (<[t := fd]> (waiting s)) (woken s) (roused s) (quiet s) (astray s)).

(** pthread_cond_wait of thread [t] returns although nobody broadcast. *)
Definition rouse (s : pollmgr) (t : nat) : option pollmgr :=
  match waiting s !! t with
  | None => None
  | Some fd => Some (MkPollMgr (callbacks s) (aio s) (pending_change s) (loop s) (delete t (waiting s)) (woken s)
                       (<[t := fd]> (roused s)) (quiet s) (astray s))
  end.

(** The rest, once the thread's wait has returned and it has the mutex. It does not
    look whether it was broadcast to. *)
Definition block_remove_return (s : pollmgr) (t : nat) : option (outcome pollmgr) :=
  match woken s !! t, roused s !! t with
  | Some fd, _ => Some (
      l ← array_set (callbacks s) fd None;
      Ok (MkPollMgr l (aio s) (pending_change s) (loop s) (waiting s) (delete t (woken s)) (roused s)
            ({[fd]} ∪ quiet s) (astray s)))
  | None, Some fd => Some (
      l ← array_set (callbacks s) fd None;
      Ok (MkPollMgr l (aio s) (pending_change s) (loop s) (waiting s) (woken s) (delete t (roused s)) (quiet s) true))
  | None, None => None
  end.

(** One step of the loop's thread; [sel] is what select() returns ([None] for
    EINTR), when it is in select(). *)
Definition loop_step (s : pollmgr) (sel : option (gset Z * gset Z)) : outcome pollmgr :=
  match loop s with
  | L_top =>
      if pending_change s
      then Ok (MkPollMgr (callbacks s) (aio s) false L_copy ∅ (woken s ∪ waiting s) (roused s) (quiet s) (astray s))
      else Ok (with_loop s L_copy)
  | L_copy => Ok (with_loop s (L_select (rfds (aio s)) (wfds (aio s)) (highfds (aio s))))
  | L_select r w high =>
      match sel with
      | None => Ok (with_loop s L_top)
      | Some (tr, tw) =>
          '(a, (readable, writable)) ← select_collect (aio s) tr tw high;
          Ok (with_loop (with_aio s a)
                (L_next (map (pair false) readable ++ map (pair true) writable)))
      end
  | L_next [] => Ok (with_loop s L_top)
  | L_next ((wr, fd) :: todo) =>
      cb ← array_get (callbacks s) fd;
      match cb with
      | None => Ok (with_loop s (L_next todo))
      | Some _ => Ok (with_loop s (L_deref wr fd todo))
      end
  | L_deref wr fd todo =>
      cb ← array_get (callbacks s) fd;
      match cb with
      | None => Crash NullDereference
      | Some ch => Ok (with_loop s (L_call wr fd ch todo))
      end
  | L_call _ _ _ todo => Ok (with_loop s (L_next todo))
  end.

(** ** Interleavings *)

(** What select() may return for the sets it was given: ready members of them,
    the pipe only when there is a byte in it. *)
Definition select_may_return (s : pollmgr) (sel : option (gset Z * gset Z)) : Prop :=
  match loop s, sel with
  | L_select r w high, Some (tr, tw) =>
      tr ⊆ r /\ tw ⊆ w /\ tr ∪ tw <> ∅ /\ (pipe_rd (aio s) ∈ tr -> 0 < pipe_bytes (aio s))
  | _, _ => True
  end.

(** A descriptor other than the wake-up pipe. *)
Definition own_fd (s : pollmgr) (fd : Z) : Prop := 0 <= fd < MAX_POLL_FDS /\ fd <> pipe_rd (aio s).

Definition removing (s : pollmgr) (fd : Z) : Prop :=
  exists t, waiting s !! t = Some fd \/ woken s !! t = Some fd \/ roused s !! t = Some fd.

(** Connections register a descriptor only while they are not removing it
    (they set dead_ first, under their own mutex), and use del_callback only
    from their callbacks. *)
Inductive poll_step : pollmgr -> pollmgr -> Prop :=
  | ps_add s s' fd flag ch :
      own_fd s fd -> direction flag = true -> ~ removing s fd ->
      add_callback s fd flag ch = Ok s' -> poll_step s s'
  | ps_del s s' fd flag wr cur ch todo :
      loop s = L_call wr cur ch todo -> own_fd s fd -> direction flag = true ->
      del_callback s fd flag = Ok s' -> poll_step s s'
  | ps_block s s' t fd :
      own_fd s fd -> waiting s !! t = None -> woken s !! t = None -> roused s !! t = None ->
      block_remove_enter s t fd = Ok s' -> poll_step s s'
  | ps_rouse s s' t : rouse s t = Some s' -> poll_step s s'
  | ps_return s s' t : block_remove_return s t = Some (Ok s') -> poll_step s s'
  | ps_loop s s' sel : select_may_return s sel -> loop_step s sel = Ok s' -> poll_step s s'.

(** The descriptors the loop may still call back for before it looks again. *)
Definition mentions (l : loop_pc) (fd : Z) : Prop :=
  match l with
  | L_top | L_copy => False
  | L_select r w _ => fd ∈ r ∪ w
  | L_next todo => fd ∈ map snd todo
  | L_deref _ cur todo | L_call _ cur _ todo => fd = cur \/ fd ∈ map snd todo
  end.

(** Nothing in the poll manager will lead to a callback for [fd]. *)
Definition inert (s : pollmgr) (fd : Z) : Prop :=
  (fd ∉ rfds (aio s) ∪ wfds (aio s)) /\ ~ mentions (loop s) fd.

Record poll_inv (s : pollmgr) : Prop := {
  pi_aio : select_ok (aio s);
  pi_length : zlen (callbacks s) = MAX_POLL_FDS;
  pi_small fd : fd ∈ rfds (aio s) ∪ wfds (aio s) -> fd <> pipe_rd (aio s) -> fd < MAX_POLL_FDS;
  pi_pipe_w : pipe_rd (aio s) ∉ wfds (aio s);
  pi_waiting t fd : waiting s !! t = Some fd ->
    own_fd s fd /\ (fd ∉ rfds (aio s) ∪ wfds (aio s)) /\ pending_change s = true;
  pi_woken t fd : woken s !! t = Some fd -> own_fd s fd /\ inert s fd;
  pi_roused t fd : roused s !! t = Some fd -> own_fd s fd;
  pi_quiet fd : fd ∈ quiet s -> own_fd s fd /\ inert s fd /\ array_get (callbacks s) fd = Ok None;
  pi_loop : match loop s with
            | L_select r w high =>
                pipe_rd (aio s) ∈ r /\ (pipe_rd (aio s) ∉ w) /\
                (forall fd, fd ∈ r ∪ w -> 0 <= fd <= high /\ (fd <> pipe_rd (aio s) -> fd < MAX_POLL_FDS))
            | L_next todo => Forall (fun e => own_fd s e.2) todo
            | L_deref _ cur todo =>
                own_fd s cur /\ Forall (fun e => own_fd s e.2) todo /\
                (astray s = false -> exists ch, array_get (callbacks s) cur = Ok (Some ch))
            | L_call _ cur _ todo => own_fd s cur /\ Forall (fun e => own_fd s e.2) todo
            | _ => True
            end;
  pi_poked : pending_change s = true ->
    match loop s with L_copy | L_select _ _ _ => 0 < pipe_bytes (aio s) | _ => True end;
  pi_disjoint t fd : waiting s !! t = Some fd -> woken s !! t = None }.

Lemma poll_inv_new p s : PollMgr_new p = Ok s -> poll_inv s.
Proof.
  unfold PollMgr_new. destruct (SelectAIO_new p) as [a|] eqn:E; [|done]. intros [= <-].
  destruct (SelectAIO_new_ok p a E) as [Hok Hp].
  assert (rfds a = {[p]} /\ wfds a = ∅) as [Hr Hw].
  { unfold SelectAIO_new, FD_SET in E. destruct (in_fd_set p); [|done]. injection E as <-.
    cbn [rfds wfds]. set_solver. }
  constructor; cbn [aio callbacks waiting woken roused quiet astray loop pending_change]; try done.
  - intros fd. rewrite Hr, Hw, Hp. set_solver.
  - rewrite Hw. set_solver.
Qed.

(** Registering: [fd] enters the sets, so nobody may count on its silence. *)
Lemma inv_add s s' fd flag ch :
  poll_inv s -> own_fd s fd -> direction flag = true -> ~ removing s fd ->
  add_callback s fd flag ch = Ok s' -> poll_inv s'.
Proof.
  intros [Ha Hlen Hsm Hpw Hwait Hwok Hrsd Hq Hloop Hpoke Hdis] [Hfd Hne] Hf Hrem E. unfold add_callback in E.
  destruct (cassert _) as [[]|]; [|done]. cbn [mbind outcome_bind] in E.
  destruct (select_watch_ok (aio s) fd flag Ha) as (a & Ea & Ha' & Hp & Hr & Hw & Hb);
    [unfold FD_SETSIZE, MAX_POLL_FDS in *; lia|done|].
  rewrite Ea in E. cbn [mbind outcome_bind] in E.
  destruct (array_get (callbacks s) fd) as [cb|]; [|done]. cbn [mbind outcome_bind] in E.
  destruct (cassert _) as [[]|]; [|done]. cbn [mbind outcome_bind] in E.
  rewrite array_set_ok in E by lia. cbn [mbind outcome_bind] in E. injection E as <-.
  assert (forall x, x <> fd -> x ∉ rfds (aio s) ∪ wfds (aio s) -> x ∉ rfds a ∪ wfds a) as Hother.
  { intros x Hx. rewrite Hr, Hw. destruct flag; try done; cbn [reads_of writes_of]; set_solver. }
  assert (forall x, x ∈ rfds a ∪ wfds a -> x = fd \/ x ∈ rfds (aio s) ∪ wfds (aio s)) as Hin.
  { intros x. rewrite Hr, Hw. destruct flag; try done; cbn [reads_of writes_of]; set_solver. }
  unfold inert, own_fd in *.
  constructor; unfold inert, own_fd; cbn [aio callbacks waiting woken roused quiet astray loop pending_change with_quiet with_callbacks with_aio];
    rewrite ?Hp.
  - done.
  - by rewrite zlen_insert.
  - intros x Hx Hxp. destruct (Hin x Hx) as [->|Hx']; [lia|]. by apply Hsm.
  - rewrite Hw. destruct flag; try done; cbn [writes_of]; set_solver.
  - intros t x Hx. destruct (Hwait t x Hx) as (? & ? & ?). split; [done|]. split; [|done].
    apply Hother; [|done]. intros ->. apply Hrem. exists t. by left.
  - intros t x Hx. destruct (Hwok t x Hx) as (? & ? & ?). split; [done|]. split; [|done].
    apply Hother; [|done]. intros ->. apply Hrem. exists t. by right; left.
  - done.
  - intros x Hx. assert (x <> fd /\ x ∈ quiet s) as [Hxf Hx'] by set_solver.
    destruct (Hq x Hx') as (? & (? & ?) & ?). split; [done|].
    split; [split; [by apply Hother|done]|].
    by rewrite array_get_insert, decide_False by (lia || congruence).
  - destruct (loop s); try done. destruct Hloop as (? & ? & Hch). do 2 (split; [done|]). intros Hast.
    destruct (Hch Hast) as [ch' Hch'].
    rewrite array_get_insert by lia. destruct (decide (fd = fd0)); [by exists ch|by exists ch'].
  - intros Hpend. specialize (Hpoke Hpend). destruct (loop s); try done; lia.
  - done.
Qed.

(** Taking a direction back makes the sets smaller. *)
Lemma inv_unwatch s a fd flag gone :
  poll_inv s -> own_fd s fd -> direction flag = true ->
  select_unwatch_fd (aio s) fd flag = Ok (a, gone) -> poll_inv (with_aio s a) /\
  (flag = CB_RDWR -> (fd ∉ rfds a ∪ wfds a) /\ 0 < pipe_bytes a).
Proof.
  intros [Ha Hlen Hsm Hpw Hwait Hwok Hrsd Hq Hloop Hpoke Hdis] [Hfd Hne] Hf E.
  destruct (select_unwatch_ok (aio s) fd flag Ha) as (a' & Ea & Ha' & Hp & Hr & Hw & Hb);
    [unfold FD_SETSIZE, MAX_POLL_FDS in *; lia|done|done|].
  rewrite Ea in E. injection E as <- _.
  assert (forall x, x ∉ rfds (aio s) ∪ wfds (aio s) -> x ∉ rfds a' ∪ wfds a') as Hother.
  { intros x. rewrite Hr, Hw. set_solver. }
  unfold inert, own_fd in *. split.
  - constructor; unfold inert, own_fd; cbn [aio callbacks waiting woken roused quiet astray loop pending_change with_aio]; rewrite ?Hp.
    + done.
    + done.
    + intros x Hx Hxp. apply Hsm; [|done]. rewrite Hr, Hw in Hx. set_solver.
    + rewrite Hw. set_solver.
    + intros t x Hx. destruct (Hwait t x Hx) as (? & ? & ?). split; [done|]. split; [by apply Hother|done].
    + intros t x Hx. destruct (Hwok t x Hx) as (? & ? & ?). split; [done|]. split; [by apply Hother|done].
    + done.
    + intros x Hx. destruct (Hq x Hx) as (? & (? & ?) & ?). split; [done|].
      split; [split; [by apply Hother|done]|done].
    + done.
    + intros Hpend. specialize (Hpoke Hpend). rewrite Hb. destruct (loop s); try done; case_decide; lia.
    + done.
  - intros ->. rewrite Hr, Hw, Hb, decide_True by done. cbn [reads_of writes_of].
    split; [set_solver|]. pose proof (so_bytes _ Ha). lia.
Qed.

(** Clearing a slot of [callbacks_] that the loop is not looking at. *)
Lemma inv_clear s fd l :
  poll_inv s -> own_fd s fd -> array_set (callbacks s) fd None = Ok l ->
  (forall wr todo, loop s <> L_deref wr fd todo) -> poll_inv (with_callbacks s l).
Proof.
  intros [Ha Hlen Hsm Hpw Hwait Hwok Hrsd Hq Hloop Hpoke Hdis] [Hfd Hne] E Hnd.
  rewrite array_set_ok in E by lia. injection E as <-.
  constructor; cbn [aio callbacks waiting woken roused quiet astray loop pending_change with_callbacks]; try done.
  - by rewrite zlen_insert.
  - intros x Hx. destruct (Hq x Hx) as (? & ? & ?). do 2 (split; [done|]).
    rewrite array_get_insert by lia. by case_decide.
  - destruct (loop s) as [| | | |wr cur todo|]; try done. destruct Hloop as (? & ? & Hch). do 2 (split; [done|]).
    intros Hast. rewrite array_get_insert, decide_False; [by apply Hch| |lia]. intros ->. by apply (Hnd wr todo).
Qed.

Lemma inv_del s s' fd flag wr cur ch todo :
  poll_inv s -> loop s = L_call wr cur ch todo -> own_fd s fd -> direction flag = true ->
  del_callback s fd flag = Ok s' -> poll_inv s'.
Proof.
  intros Hinv Hl Hfd Hf E. unfold del_callback in E.
  destruct (select_unwatch_fd (aio s) fd flag) as [[a gone]|] eqn:Ea; [|done]. cbn [mbind outcome_bind] in E.
  destruct (inv_unwatch s a fd flag gone Hinv Hfd Hf Ea) as [Hinv' _].
  destruct gone; [|by injection E as <-].
  destruct (array_set (callbacks s) fd None) as [l|] eqn:El; [|done]. injection E as <-.
  apply (inv_clear (with_aio s a) fd l Hinv').
  - destruct Hfd as [? Hne]. split; [done|]. cbn [aio with_aio].
    destruct (select_unwatch_ok (aio s) fd flag (pi_aio s Hinv)) as (a' & Ea' & _ & Hp & _);
      [unfold FD_SETSIZE, MAX_POLL_FDS in *; lia|done|done|]. rewrite Ea' in Ea. injection Ea as <- _. by rewrite Hp.
  - done.
  - intros wr' todo'. cbn [loop with_aio]. by rewrite Hl.
Qed.

Lemma inv_block s s' t fd :
  poll_inv s -> own_fd s fd -> waiting s !! t = None -> woken s !! t = None ->
  block_remove_enter s t fd = Ok s' -> poll_inv s'.
Proof.
  intros Hinv Hfd Ht1 Ht2 E. unfold block_remove_enter in E.
  destruct (select_unwatch_fd (aio s) fd CB_RDWR) as [[a gone]|] eqn:Ea; [|done]. injection E as <-.
  destruct (inv_unwatch s a fd CB_RDWR gone Hinv Hfd eq_refl Ea) as [Hinv' Hnew].
  destruct (Hnew eq_refl) as [Hout Hb].
  assert (own_fd (with_aio s a) fd) as Hfd'.
  { destruct Hfd as [? Hne]. split; [done|]. cbn [aio with_aio].
    destruct (select_unwatch_ok (aio s) fd CB_RDWR (pi_aio s Hinv)) as (a' & Ea' & _ & Hp & _);
      [unfold FD_SETSIZE, MAX_POLL_FDS in *; lia|done|done|]. rewrite Ea' in Ea. injection Ea as <- _. by rewrite Hp. }
  destruct Hinv' as [? ? ? ? Hwait ? ? ? ? ? Hdis]. unfold inert, own_fd in *.
  constructor; unfold inert, own_fd; cbn [aio callbacks waiting woken roused quiet astray loop pending_change with_aio] in *; try done.
  - intros t' x Hx. destruct (decide (t = t')) as [->|Hne].
    + rewrite lookup_insert_eq in Hx. by injection Hx as <-.
    + rewrite lookup_insert_ne in Hx by done. by destruct (Hwait t' x Hx) as (? & ? & ?).
  - intros _. by destruct (loop s).
  - intros t' x Hx. destruct (decide (t = t')) as [->|Hne]; [done|].
    rewrite lookup_insert_ne in Hx by done. by apply (Hdis t' x).
Qed.

Lemma inv_rouse s s' t : poll_inv s -> rouse s t = Some s' -> poll_inv s'.
Proof.
  intros [] E. unfold rouse in E. destruct (waiting s !! t) as [fd|] eqn:Ht; [|done]. injection E as <-.
  constructor; cbn [aio callbacks waiting woken roused quiet astray loop pending_change]; try done.
  - intros t' x Hx. apply lookup_delete_Some in Hx as [_ Hx]. by apply (pi_waiting0 t').
  - intros t' x Hx. destruct (decide (t = t')) as [<-|Hne].
    + rewrite lookup_insert_eq in Hx. injection Hx as <-. by apply (pi_waiting0 t).
    + rewrite lookup_insert_ne in Hx by done. by apply (pi_roused0 t').
  - intros t' x Hx. apply lookup_delete_Some in Hx as [_ Hx]. by apply (pi_disjoint0 t' x).
Qed.

(** The return of a thread that was broadcast to: the loop has passed the top since
    the descriptor left the sets. *)
Lemma inv_return_woken s s' t fd :
  poll_inv s -> woken s !! t = Some fd -> block_remove_return s t = Some (Ok s') -> poll_inv s'.
Proof.
  intros Hinv Ht E. unfold block_remove_return in E. rewrite Ht in E.
  destruct (pi_woken s Hinv t fd Ht) as [Hfd [Hout Hment]].
  destruct (array_set (callbacks s) fd None) as [l|] eqn:El; [|done]. injection E as <-.
  assert (poll_inv (with_callbacks s l)) as [].
  { apply (inv_clear s fd l Hinv Hfd El). intros wr todo Hl. rewrite Hl in Hment. cbn in Hment. tauto. }
  constructor; cbn [aio callbacks waiting woken roused quiet astray loop pending_change with_callbacks] in *; try done.
  - intros t' x Hx. apply lookup_delete_Some in Hx as [_ Hx]. by apply (pi_woken0 t').
  - intros x Hx. destruct (decide (x = fd)) as [->|Hne]; [|apply pi_quiet0; set_solver].
    split; [done|]. split; [done|]. rewrite array_set_ok in El by (destruct Hfd; rewrite (pi_length s Hinv); lia).
    injection El as <-. rewrite array_get_insert by (destruct Hfd; rewrite (pi_length s Hinv); lia).
    by rewrite decide_True.
  - intros t' x Hx. rewrite lookup_delete. by case_decide; [|apply (pi_disjoint0 t' x)].
Qed.

(** The return of a thread that was not: it clears a slot the loop may be using. *)
Lemma inv_return_roused s s' t fd :
  poll_inv s -> woken s !! t = None -> roused s !! t = Some fd -> block_remove_return s t = Some (Ok s') -> poll_inv s'.
Proof.
  intros [] Hw Ht E. unfold block_remove_return in E. rewrite Hw, Ht in E. destruct (pi_roused0 t fd Ht) as [Hfd _].
  rewrite array_set_ok in E by lia. injection E as <-.
  constructor; cbn [aio callbacks waiting woken roused quiet astray loop pending_change]; try done.
  - by rewrite zlen_insert.
  - intros t' x Hx. apply lookup_delete_Some in Hx as [_ Hx]. by apply (pi_roused0 t').
  - intros x Hx. destruct (pi_quiet0 x Hx) as (? & ? & ?). do 2 (split; [done|]).
    rewrite array_get_insert by lia. by case_decide.
  - destruct (loop s); try done. by destruct pi_loop0 as (? & ? & _).
Qed.

Lemma inv_return s s' t : poll_inv s -> block_remove_return s t = Some (Ok s') -> poll_inv s'.
Proof.
  intros Hinv E. destruct (woken s !! t) as [fd|] eqn:Hw; [by eapply inv_return_woken|].
  destruct (roused s !! t) as [fd|] eqn:Hr; [by eapply inv_return_roused|].
  unfold block_remove_return in E. by rewrite Hw, Hr in E.
Qed.

(** select()'s answer turned into the list of callbacks. *)
Lemma collect_ok s r w high tr tw :
  poll_inv s -> loop s = L_select r w high -> select_may_return s (Some (tr, tw)) ->
  exists a rd wr, select_collect (aio s) tr tw high = Ok (a, (rd, wr)) /\
    rfds a = rfds (aio s) /\ wfds a = wfds (aio s) /\ highfds a = highfds (aio s) /\
    pipe_rd a = pipe_rd (aio s) /\ 0 <= pipe_bytes a /\
    (forall fd, fd ∈ rd ++ wr -> fd ∈ r ∪ w /\ own_fd s fd).
Proof.
  intros Hinv Hl Hsel. unfold select_may_return in Hsel. rewrite Hl in Hsel. destruct Hsel as (Hr & Hw & _ & Hp).
  pose proof (pi_loop s Hinv) as Hpl. rewrite Hl in Hpl. destruct Hpl as (Hpr & Hpw & Hrange).
  pose proof (so_bytes _ (pi_aio s Hinv)) as Hb.
  assert (forall fd, fd ∈ (ready_lists (pipe_rd (aio s)) tr tw high).1 ++ (ready_lists (pipe_rd (aio s)) tr tw high).2 ->
    fd ∈ r ∪ w /\ own_fd s fd) as Hall.
  { intros fd. unfold ready_lists. cbn [fst snd]. rewrite elem_of_app, !list_elem_of_filter.
    intros [[[H1 H2] _]|[[H1 H2] _]].
    - assert (fd ∈ r ∪ w) as Hin by (apply elem_of_union; left; by apply Hr). split; [done|].
      destruct (Hrange fd Hin) as [? Hsm]. split; [|done]. specialize (Hsm H2). lia.
    - assert (fd ∈ w) as Hin by (by apply Hw). assert (fd <> pipe_rd (aio s)) as Hne by (by intros ->).
      assert (fd ∈ r ∪ w) as Hin' by (apply elem_of_union; by right). split; [done|].
      destruct (Hrange fd Hin') as [? Hsm]. split; [|done]. specialize (Hsm Hne). lia. }
  unfold select_collect. destruct (bool_decide (pipe_rd (aio s) ∈ tr) && (pipe_rd (aio s) <=? high)) eqn:E.
  - apply andb_true_iff in E as [E _]. apply bool_decide_eq_true in E. specialize (Hp E).
    rewrite (proj2 (Z.ltb_lt _ _)) by lia. cbn [cassert mbind outcome_bind pipe_rd].
    eexists _, _, _. split; [reflexivity|]. cbn [rfds wfds highfds pipe_rd pipe_bytes].
    split_and!; try done. lia.
  - cbn [mbind outcome_bind]. eexists _, _, _. split; [reflexivity|]. done.
Qed.

Lemma elem_of_todo fd (rd wr : list Z) :
  fd ∈ map snd (map (pair false) rd ++ map (pair true) wr) -> fd ∈ rd ++ wr.
Proof. rewrite map_app, !map_map. cbn [snd]. by rewrite !map_id. Qed.

(** The loop moves on to a place that mentions no more than before. *)
Lemma inv_move s l :
  poll_inv s -> (forall fd, mentions l fd -> mentions (loop s) fd) ->
  match l with
  | L_next todo => Forall (fun e => own_fd s e.2) todo
  | L_deref _ cur todo => own_fd s cur /\ Forall (fun e => own_fd s e.2) todo /\
      (astray s = false -> exists ch, array_get (callbacks s) cur = Ok (Some ch))
  | L_call _ cur _ todo => own_fd s cur /\ Forall (fun e => own_fd s e.2) todo
  | L_top => True
  | _ => False
  end -> poll_inv (with_loop s l).
Proof.
  intros [] Hm Hl. unfold inert in *.
  constructor; unfold inert; cbn [aio callbacks waiting woken roused quiet astray loop pending_change with_loop]; try done.
  - intros t fd Ht. destruct (pi_woken0 t fd Ht) as (? & ? & ?). split; [done|]. split; [done|]. naive_solver.
  - intros fd Hf. destruct (pi_quiet0 fd Hf) as (? & (? & ?) & ?). split; [done|]. split; [|done]. naive_solver.
  - by destruct l.
  - by destruct l.
Qed.

Lemma inv_loop s s' sel :
  poll_inv s -> select_may_return s sel -> loop_step s sel = Ok s' -> poll_inv s'.
Proof.
  intros Hinv Hsel E. pose proof (pi_loop s Hinv) as Hpl. unfold loop_step in E.
  destruct (loop s) as [| |r w high|[|[wr fd] todo]|wr fd todo|wr fd ch todo] eqn:Hl.
  - destruct Hinv. unfold inert in *. rewrite Hl in *. destruct (pending_change s) eqn:Hpc; injection E as <-;
      constructor; unfold inert; cbn [aio callbacks waiting woken roused quiet astray loop pending_change with_loop mentions]; try done.
    + intros t fd Ht. apply lookup_union_Some_raw in Ht as [Ht|[_ Ht]].
      * by destruct (pi_woken0 t fd Ht) as (? & ? & ?).
      * destruct (pi_waiting0 t fd Ht) as (? & ? & _). split; [done|]. split; [done|]. by intros [].
    + by rewrite Hpc.
    + by rewrite Hpc.
  - injection E as <-. destruct Hinv. unfold inert in *. rewrite Hl in *.
    constructor; unfold inert; cbn [aio callbacks waiting woken roused quiet astray loop pending_change with_loop mentions]; try done.
    + intros t fd Ht. by destruct (pi_woken0 t fd Ht) as (? & ? & ?).
    + intros fd Hf. by destruct (pi_quiet0 fd Hf) as (? & (? & ?) & ?).
    + split; [apply pi_aio0|]. split; [done|]. intros fd Hf. split; [by apply pi_aio0|]. by apply pi_small0.
  - destruct sel as [[tr tw]|]; [|injection E as <-; by apply inv_move].
    destruct (collect_ok s r w high tr tw Hinv Hl Hsel) as (a & rd & wl & Ec & H1 & H2 & H3 & H4 & H5 & Hall).
    rewrite Ec in E. cbn [mbind outcome_bind] in E. injection E as <-.
    assert (poll_inv (with_aio (with_loop s (L_next (map (pair false) rd ++ map (pair true) wl))) a)) as Hdone; [|done].
    assert (poll_inv (with_loop s (L_next (map (pair false) rd ++ map (pair true) wl)))) as [].
    { apply inv_move; [done| |].
      - intros fd Hfd%elem_of_todo. rewrite Hl. by apply Hall.
      - apply Forall_forall. intros e He. apply Hall, elem_of_todo, list_elem_of_fmap. by exists e. }
    unfold inert, own_fd in *.
    constructor; unfold inert, own_fd; cbn [aio callbacks waiting woken roused quiet astray loop pending_change with_loop with_aio] in *;
      rewrite ?H1, ?H2, ?H4; try done.
    destruct pi_aio0. constructor; rewrite ?H1, ?H2, ?H3, ?H4; done.
  - injection E as <-. by apply inv_move.
  - apply Forall_cons in Hpl as [Hfd Htodo].
    destruct (array_get (callbacks s) fd) as [[ch|]|] eqn:Eg; [| |done]; cbn [mbind outcome_bind] in E; injection E as <-;
      (apply inv_move; [done| |]).
    + intros x Hx. rewrite Hl. cbn in *. set_solver.
    + split; [done|]. split; [done|]. intros _. by exists ch.
    + intros x Hx. rewrite Hl. cbn in *. set_solver.
    + done.
  - destruct Hpl as (Hfd & Htodo & _). destruct (array_get (callbacks s) fd) as [[ch|]|]; [|done|done].
    cbn [mbind outcome_bind] in E. injection E as <-. apply inv_move; [done|by rewrite Hl|done].
  - destruct Hpl as (Hfd & Htodo). injection E as <-. apply inv_move; [done| |done].
    intros x Hx. rewrite Hl. cbn in *. tauto.
Qed.

Lemma poll_inv_step s s' : poll_inv s -> poll_step s s' -> poll_inv s'.
Proof.
  intros Hinv Hs. destruct Hs.
  - by eapply inv_add.
  - by eapply inv_del.
  - by eapply inv_block.
  - by eapply inv_rouse.
  - by eapply inv_return.
  - by eapply inv_loop.
Qed.

Definition poll_reachable (p : Z) (s : pollmgr) : Prop :=
  exists s0, PollMgr_new p = Ok s0 /\ rtc poll_step s0 s.

Lemma poll_reachable_inv p s : poll_reachable p s -> poll_inv s.
Proof.
  intros (s0 & E & Hr). apply (rtc_invariant poll_step poll_inv s0); [|done|by apply (poll_inv_new p)].
  intros ? ? ? ?. by eapply poll_inv_step.
Qed.

(** ** Theorems *)

(** C22. What block_remove_fd guarantees when its wait ended with wait_loop's
    broadcast: when it returns, the loop's thread is not in a callback for the
    descriptor, has no call for it left to make and is not waiting on it in
    select(); and that stays so, through every interleaving of the other
    operations, other waits that return without a broadcast among them, until
    someone registers the descriptor again. The wait is not in a loop, so if it
    returns by itself nothing of this holds ([unguarded_wait]). *)
Theorem block_remove_fd_guarantee p s :
  poll_reachable p s ->
  (forall t fd s', woken s !! t = Some fd -> block_remove_return s t = Some (Ok s') ->
     fd ∈ quiet s' /\ ~ mentions (loop s') fd) /\
  (forall fd, fd ∈ quiet s -> ~ mentions (loop s) fd /\ array_get (callbacks s) fd = Ok None) /\
  (forall fd s', fd ∈ quiet s -> poll_step s s' ->
     fd ∈ quiet s' \/ exists flag ch, add_callback s fd flag ch = Ok s').
Proof.
  intros Hr. pose proof (poll_reachable_inv p s Hr) as Hinv. split_and!.
  - intros t fd s' Ht E. destruct (pi_woken s Hinv t fd Ht) as [_ [_ Hm]].
    unfold block_remove_return in E. rewrite Ht in E.
    destruct (array_set (callbacks s) fd None); [|done]. injection E as <-. cbn [quiet loop]. split; [set_solver|done].
  - intros fd Hq. by destruct (pi_quiet s Hinv fd Hq) as (_ & [_ ?] & ?).
  - intros fd s' Hq Hs. destruct Hs as [s s' x flag ch _ _ _ E|s s' x flag ? ? ? ? _ _ _ E|s s' t x _ _ _ _ E|s s' t E|s s' t E|s s' sel _ E].
    + destruct (decide (x = fd)) as [->|Hne]; [right; by exists flag, ch|left]. unfold add_callback in E.
      repeat (match type of E with context [mbind _ ?m] => destruct m; [cbn [mbind outcome_bind] in E|done] end).
      injection E as <-. cbn [quiet with_quiet]. set_solver.
    + left. unfold del_callback in E. destruct (select_unwatch_fd _ _ _) as [[a gone]|]; [|done].
      cbn [mbind outcome_bind] in E. destruct gone; [|by injection E as <-].
      destruct (array_set _ _ _); [|done]. by injection E as <-.
    + left. unfold block_remove_enter in E. destruct (select_unwatch_fd _ _ _) as [[a gone]|]; [|done].
      by injection E as <-.
    + left. unfold rouse in E. destruct (waiting s !! t); [|done]. by injection E as <-.
    + left. unfold block_remove_return in E. destruct (woken s !! t); [|destruct (roused s !! t); [|done]];
        (destruct (array_set _ _ _); [|done]); injection E as <-; cbn [quiet]; set_solver.
    + left. unfold loop_step in E.
      destruct (loop s) as [| |r w high|[|[wr y] todo]|wr y todo|wr y ch todo].
      * destruct (pending_change s); by injection E as <-.
      * by injection E as <-.
      * destruct sel as [[tr tw]|]; [|by injection E as <-].
        destruct (select_collect _ _ _ _) as [[a [rd wl]]|]; [|done]. by injection E as <-.
      * by injection E as <-.
      * destruct (array_get _ _) as [[]|]; try done; by injection E as <-.
      * destruct (array_get _ _) as [[]|]; try done; by injection E as <-.
      * by injection E as <-.
Qed.

(** The loop's thread can always take its next step, or a wait that returned by
    itself has cleared the callback it was about to call. *)
Lemma loop_step_ok s sel :
  poll_inv s -> select_may_return s sel ->
  (exists s', loop_step s sel = Ok s') \/
  (astray s = true /\ (exists wr fd todo, loop s = L_deref wr fd todo) /\ loop_step s sel = Crash NullDereference).
Proof.
  intros Hinv Hsel. pose proof (pi_loop s Hinv) as Hpl. pose proof (pi_length s Hinv) as Hlen. unfold loop_step.
  destruct (loop s) as [| |r w high|[|[wr fd] todo]|wr fd todo|wr fd ch todo] eqn:Hl; try by left; eexists.
  - left. destruct (pending_change s); by eexists.
  - left. destruct sel as [[tr tw]|]; [|by eexists].
    destruct (collect_ok s r w high tr tw Hinv Hl Hsel) as (a & rd & wl & -> & _). by eexists.
  - left. apply Forall_cons in Hpl as [[Hfd _] _]. cbn [snd] in Hfd.
    destruct (array_get_some (callbacks s) fd) as [cb ->]; [lia|]. destruct cb; by eexists.
  - destruct Hpl as ([Hfd _] & _ & Hch). destruct (array_get_some (callbacks s) fd) as [[ch|] E]; [lia| |]; rewrite E in Hch |- *.
    + left. by eexists.
    + right. destruct (astray s); [by split; [|split; [by eexists _, _, _|]]|]. by destruct (Hch eq_refl).
Qed.

(** The loop does not take the process down as long as no wait of block_remove_fd
    has returned by itself: whatever select() returns and however the other
    threads interleave, no assertion of [wait_loop] or [wait_ready] fails, no
    index leaves callbacks_, and the callback the loop tested is still there when
    it calls it, although it holds no lock. *)
Theorem wait_loop_never_crashes p s sel :
  poll_reachable p s -> astray s = false -> select_may_return s sel -> exists s', loop_step s sel = Ok s'.
Proof.
  intros Hr Ha Hsel. destruct (loop_step_ok s sel (poll_reachable_inv p s Hr) Hsel) as [?|[Ha' _]]; [done|congruence].
Qed.

(** Steps of the loop's thread alone. *)
Definition loop_runs (s s' : pollmgr) : Prop :=
  exists sel, select_may_return s sel /\ loop_step s sel = Ok s'.

Lemma loop_runs_inv s s' : poll_inv s -> loop_runs s s' -> poll_inv s'.
Proof. intros Hinv (sel & Hsel & E). by apply (inv_loop s s' sel). Qed.

(** From its list of callbacks the loop comes back to the top. *)
Lemma loop_to_top todo s :
  poll_inv s -> loop s = L_next todo ->
  exists s', rtc loop_runs s s' /\ loop s' = L_top /\ waiting s' = waiting s /\ poll_inv s'.
Proof.
  revert s. induction todo as [|[wr fd] todo IH]; intros s Hinv Hl.
  { exists (with_loop s L_top). assert (loop_runs s (with_loop s L_top)) as Hs.
    { exists None. split; [by unfold select_may_return; rewrite Hl|]. unfold loop_step. by rewrite Hl. }
    split; [by apply rtc_once|]. split; [done|]. split; [done|]. by apply (loop_runs_inv s). }
  assert (exists s1, rtc loop_runs s s1 /\ loop s1 = L_next todo /\ waiting s1 = waiting s /\ poll_inv s1)
    as (s1 & Hr1 & Hl1 & Hw1 & Hi1).
  { pose proof (pi_loop s Hinv) as Hpl. rewrite Hl in Hpl. apply Forall_cons in Hpl as [[Hfd _] _]. cbn [snd] in Hfd.
    pose proof (pi_length s Hinv) as Hlen.
    destruct (array_get_some (callbacks s) fd) as [cb Hcb]; [lia|]. destruct cb as [ch|].
    - assert (loop_runs s (with_loop s (L_deref wr fd todo))) as H1.
      { exists None. split; [by unfold select_may_return; rewrite Hl|]. unfold loop_step. by rewrite Hl, Hcb. }
      assert (loop_runs (with_loop s (L_deref wr fd todo)) (with_loop s (L_call wr fd ch todo))) as H2.
      { exists None. split; [done|]. unfold loop_step. cbn [loop with_loop callbacks]. by rewrite Hcb. }
      assert (loop_runs (with_loop s (L_call wr fd ch todo)) (with_loop s (L_next todo))) as H3 by (by exists None).
      exists (with_loop s (L_next todo)). split; [by do 2 (eapply rtc_l; [done|]); apply rtc_once|].
      split; [done|]. split; [done|]. eapply loop_runs_inv; [|done]. eapply loop_runs_inv; [|done].
      by eapply loop_runs_inv.
    - assert (loop_runs s (with_loop s (L_next todo))) as H1.
      { exists None. split; [by unfold select_may_return; rewrite Hl|]. unfold loop_step. by rewrite Hl, Hcb. }
      exists (with_loop s (L_next todo)). split; [by apply rtc_once|]. split; [done|]. split; [done|].
      by apply (loop_runs_inv s). }
  destruct (IH s1 Hi1 Hl1) as (s2 & Hr2 & ? & Hw2 & ?). exists s2. split; [by etrans|]. split; [done|].
  split; [congruence|done].
Qed.

(** Wherever it is, the loop gets to its list of callbacks or to the top: in
    select() it is not stuck, since a removal leaves a byte in the pipe. *)
Lemma loop_to_next s :
  poll_inv s -> pending_change s = true ->
  (exists s', rtc loop_runs s s' /\ (loop s' = L_top \/ exists todo, loop s' = L_next todo) /\
    waiting s' = waiting s /\ poll_inv s') \/
  (astray s = true /\ loop_step s None = Crash NullDereference).
Proof.
  intros Hinv Hp. pose proof (pi_poked s Hinv Hp) as Hb. pose proof (pi_loop s Hinv) as Hpl.
  assert (forall s1 r w high, poll_inv s1 -> loop s1 = L_select r w high -> 0 < pipe_bytes (aio s1) ->
    waiting s1 = waiting s -> exists s', rtc loop_runs s1 s' /\
    (loop s' = L_top \/ exists todo, loop s' = L_next todo) /\ waiting s' = waiting s /\ poll_inv s') as Hsel.
  { intros s1 r w high Hi1 Hl1 Hb1 Hw1.
    assert (select_may_return s1 (Some ({[pipe_rd (aio s1)]}, ∅))) as Hm.
    { unfold select_may_return. rewrite Hl1. pose proof (pi_loop s1 Hi1) as Hpl1. rewrite Hl1 in Hpl1.
      destruct Hpl1 as (Hpr & _). split_and!; [set_solver|set_solver|set_solver|done]. }
    destruct (loop_step_ok s1 _ Hi1 Hm) as [[s' E]|(_ & (? & ? & ? & ?) & _)]; [|congruence]. exists s'.
    assert (loop_runs s1 s') as Hrun by (by eexists). split; [by apply rtc_once|].
    pose proof (loop_runs_inv s1 s' Hi1 Hrun) as Hi'. unfold loop_step in E. rewrite Hl1 in E.
    destruct (select_collect _ _ _ _) as [[a [rd wl]]|]; [|done]. cbn [mbind outcome_bind] in E. injection E as <-.
    split; [right; by eexists|]. done. }
  destruct (loop s) as [| |r w high|todo|wr fd todo|wr fd ch todo] eqn:Hl.
  - left. exists s. split; [done|]. split; [by left|done].
  - left. set (s1 := with_loop s (L_select (rfds (aio s)) (wfds (aio s)) (highfds (aio s)))).
    assert (loop_runs s s1) as Hrun.
    { exists None. split; [by unfold select_may_return; rewrite Hl|]. unfold loop_step. by rewrite Hl. }
    destruct (Hsel s1 (rfds (aio s)) (wfds (aio s)) (highfds (aio s))) as (s' & Hr' & Hrest);
      [by apply (loop_runs_inv s)|done|done|done|].
    exists s'. split; [by eapply rtc_l|done].
  - left. by apply (Hsel s r w high).
  - left. exists s. split; [done|]. split; [right; by exists todo|done].
  - destruct (loop_step_ok s None Hinv) as [[s1 E]|(Ha & _ & E)]; [by unfold select_may_return; rewrite Hl| |by right].
    left. assert (loop_runs s s1) as H1.
    { exists None. split; [by unfold select_may_return; rewrite Hl|done]. }
    unfold loop_step in E. rewrite Hl in E. destruct (array_get _ _) as [[ch|]|]; [|done|done]. injection E as <-.
    assert (loop_runs (with_loop s (L_call wr fd ch todo)) (with_loop s (L_next todo))) as H2 by (by exists None).
    exists (with_loop s (L_next todo)). split; [by eapply rtc_l; [done|]; apply rtc_once|].
    split; [right; by exists todo|]. split; [done|]. eapply loop_runs_inv; [|done]. by eapply loop_runs_inv.
  - left. assert (loop_runs s (with_loop s (L_next todo))) as H1.
    { exists None. split; [by unfold select_may_return; rewrite Hl|]. unfold loop_step. by rewrite Hl. }
    exists (with_loop s (L_next todo)). split; [by apply rtc_once|].
    split; [right; by exists todo|]. split; [done|]. by apply (loop_runs_inv s).
Qed.

(** C23. A removal is not lost: in every reachable state with a thread waiting in
    block_remove_fd, pending_change_ is set and the loop's thread on its own,
    given only that the callbacks return, gets to wake that thread; select()
    does not hold it up, because a byte is left in the pipe. The one thing that
    can stop the loop is a wait of another block_remove_fd that returned without
    a broadcast before: it may have cleared the callback the loop was about to
    call, and then the loop dereferences NULL. *)
Theorem removal_completes p s t fd :
  poll_reachable p s -> waiting s !! t = Some fd ->
  pending_change s = true /\
  (forall r w high, loop s = L_select r w high -> pipe_rd (aio s) ∈ r /\ 0 < pipe_bytes (aio s)) /\
  ((exists s', rtc loop_runs s s' /\ woken s' !! t = Some fd) \/
   (astray s = true /\ loop_step s None = Crash NullDereference)).
Proof.
  intros Hr Ht. pose proof (poll_reachable_inv p s Hr) as Hinv.
  destruct (pi_waiting s Hinv t fd Ht) as (_ & _ & Hp). split; [done|]. split.
  { intros r w high Hl. pose proof (pi_loop s Hinv) as Hpl. pose proof (pi_poked s Hinv Hp) as Hb.
    rewrite Hl in Hpl, Hb. by destruct Hpl as (? & _). }
  destruct (loop_to_next s Hinv Hp) as [(s0 & Hr0 & Hl0 & Hw0 & Hi0)|]; [left|by right].
  assert (exists s1, rtc loop_runs s s1 /\ loop s1 = L_top /\ waiting s1 = waiting s /\ poll_inv s1)
    as (s1 & Hr1 & Hl1 & Hw1 & Hi1).
  { destruct Hl0 as [Hl0|[todo Hl0]]; [by exists s0|].
    destruct (loop_to_top todo s0 Hi0 Hl0) as (s2 & Hr2 & Hl2 & Hw2 & Hi2). exists s2.
    split; [by etrans|]. split; [done|]. split; [congruence|done]. }
  rewrite <- Hw1 in Ht. destruct (pi_waiting s1 Hi1 t fd Ht) as (_ & _ & Hp1).
  eexists. split; [eapply rtc_r; [exact Hr1|]; exists None; split|].
  - unfold select_may_return. by rewrite Hl1.
  - unfold loop_step. rewrite Hl1, Hp1. reflexivity.
  - cbn [woken]. apply lookup_union_Some_raw. right. split; [|done]. by apply (pi_disjoint s1 Hi1 t fd).
Qed.

(** ** Schedules *)
Inductive poll_act :=
  | Add (fd : Z) (flag : poll_flag) (ch : Z) | Del (fd : Z) (flag : poll_flag)
  | Block (t : nat) (fd : Z) | Rouse (t : nat) | Return (t : nat) | Run (sel : option (gset Z * gset Z)).

#[export] Instance own_fd_dec s fd : Decision (own_fd s fd).
Proof. unfold own_fd. apply _. Defined.
#[export] Instance select_may_return_dec s sel : Decision (select_may_return s sel).
Proof. unfold select_may_return. destruct (loop s), sel as [[tr tw]|]; apply _. Defined.

Definition not_removing (s : pollmgr) (fd : Z) : Prop :=
  map_Forall (fun _ x => x <> fd) (waiting s) /\ map_Forall (fun _ x => x <> fd) (woken s) /\
  map_Forall (fun _ x => x <> fd) (roused s).
#[export] Instance not_removing_dec s fd : Decision (not_removing s fd).
Proof. unfold not_removing. apply _. Defined.

Definition ok_of {A} (o : outcome A) : option A := match o with Ok a => Some a | Crash _ => None end.

(** One action, if it is allowed and does not crash. *)
Definition poll_do (s : pollmgr) (a : poll_act) : option pollmgr :=
  match a with
  | Add fd flag ch =>
      if decide (own_fd s fd /\ direction flag = true /\ not_removing s fd)
      then ok_of (add_callback s fd flag ch) else None
  | Del fd flag =>
      match loop s with
      | L_call _ _ _ _ => if decide (own_fd s fd /\ direction flag = true)
                          then ok_of (del_callback s fd flag) else None
      | _ => None
      end
  | Block t fd =>
      if decide (own_fd s fd /\ waiting s !! t = None /\ woken s !! t = None /\ roused s !! t = None)
      then ok_of (block_remove_enter s t fd) else None
  | Rouse t => rouse s t
  | Return t => match block_remove_return s t with Some o => ok_of o | None => None end
  | Run sel => if decide (select_may_return s sel) then ok_of (loop_step s sel) else None
  end.

Fixpoint poll_schedule (s : pollmgr) (acts : list poll_act) : option pollmgr :=
  match acts with
  | [] => Some s
  | a :: acts => match poll_do s a with Some s => poll_schedule s acts | None => None end
  end.

Lemma ok_of_Some {A} (o : outcome A) a : ok_of o = Some a -> o = Ok a.
Proof. destruct o; [|done]. by intros [= ->]. Qed.

Lemma poll_do_step s a s' : poll_do s a = Some s' -> poll_step s s'.
Proof.
  destruct a as [fd flag ch|fd flag|t fd|t|t|sel]; cbn [poll_do]; intros E.
  - destruct (decide _) as [(H1 & H2 & Hw & Hk & Hu)|]; [|done]. apply ok_of_Some in E.
    apply (ps_add s s' fd flag ch); try done.
    intros (t & [Ht|[Ht|Ht]]); [by apply (Hw t fd Ht)|by apply (Hk t fd Ht)|by apply (Hu t fd Ht)].
  - destruct (loop s) as [| | | | |wr cur ch todo] eqn:Hl; try done. destruct (decide _) as [(H1 & H2)|]; [|done].
    apply ok_of_Some in E. by apply (ps_del s s' fd flag wr cur ch todo).
  - destruct (decide _) as [(H1 & H2 & H3 & H4)|]; [|done]. apply ok_of_Some in E. by apply (ps_block s s' t fd).
  - by apply (ps_rouse s s' t).
  - destruct (block_remove_return s t) as [o|] eqn:Eo; [|done]. apply ok_of_Some in E. subst o.
    by apply (ps_return s s' t).
  - destruct (decide _) as [Hs|]; [|done]. apply ok_of_Some in E. by apply (ps_loop s s' sel).
Qed.

Lemma poll_schedule_reachable p s0 acts s :
  PollMgr_new p = Ok s0 -> poll_schedule s0 acts = Some s -> poll_reachable p s.
Proof.
  intros E0 E. exists s0. split; [done|]. clear E0. revert s0 E.
  induction acts as [|a acts IH]; intros s0 E; cbn [poll_schedule] in E; [by injection E as ->|].
  destruct (poll_do s0 a) as [s1|] eqn:E1; [|done]. eapply rtc_l; [by eapply poll_do_step|by apply IH].
Qed.

(** The pipe is descriptor 3; connection 50 on descriptor 5 becomes readable,
    and while its callback runs thread 1 removes it. *)
Definition demo_busy : list poll_act :=
  [Add 5 CB_RDONLY 50; Run None; Run None; Run (Some ({[5]}, ∅)); Run None; Run None; Block 1 5].

Definition demo_pollmgr : pollmgr :=
  MkPollMgr (replicate (Z.to_nat MAX_POLL_FDS) None) (Select {[3]} ∅ 3 3 0) false L_top ∅ ∅ ∅ ∅ false.
Definition after (acts : list poll_act) : pollmgr := default demo_pollmgr (poll_schedule demo_pollmgr acts).

Lemma after_reachable acts :
  is_some (poll_schedule demo_pollmgr acts) = true -> poll_reachable 3 (after acts).
Proof.
  intros H. apply (poll_schedule_reachable 3 demo_pollmgr acts); [by vm_compute|].
  unfold after. by destruct (poll_schedule demo_pollmgr acts).
Qed.

(** The callback is still running while the removal waits; once the loop has
    come round, the removal returns and the descriptor is silent. *)
Lemma block_remove_fd_guarantee_witness :
  mentions (loop (after demo_busy)) 5 /\
  exists s', block_remove_return (after (demo_busy ++ [Run None; Run None; Run None])) 1 = Some (Ok s') /\
    5 ∈ quiet s' /\ ~ mentions (loop s') 5.
Proof.
  split; [by left|].
  set (s := after (demo_busy ++ [Run None; Run None; Run None])).
  assert (woken s !! 1%nat = Some 5) as Hw by (by vm_compute).
  destruct (block_remove_fd_guarantee 3 s) as (H1 & _); [by apply after_reachable; vm_compute|].
  destruct (block_remove_return s 1) as [[s'|]|] eqn:E; [|by vm_compute in E|by vm_compute in E].
  exists s'. split; [reflexivity|]. exact (H1 1%nat 5 s' Hw E).
Defined.

Lemma wait_loop_never_crashes_witness : exists s', loop_step (after demo_busy) None = Ok s'.
Proof. apply (wait_loop_never_crashes 3); [by apply after_reachable; vm_compute|by vm_compute|done]. Defined.

Lemma removal_completes_witness :
  exists s', rtc loop_runs (after demo_busy) s' /\ woken s' !! 1%nat = Some 5.
Proof.
  destruct (removal_completes 3 (after demo_busy) 1 5) as (_ & _ & [Hs|[Ha _]]);
    [by apply after_reachable; vm_compute|by vm_compute|exact Hs|by vm_compute in Ha].
Defined.

(** [block_remove_fd] does not look at pending_change_ again after its wait: a
    wake-up that no broadcast caused, which pthread_cond_wait allows, lets it
    return while the callback is running, and before that, between the loop's test
    and its use of the callback, it makes the loop dereference NULL. *)
Example unguarded_wait :
  (poll_reachable 3 (after (demo_busy ++ [Rouse 1; Return 1])) /\
   mentions (loop (after (demo_busy ++ [Rouse 1; Return 1]))) 5) /\
  let demo_tested := take 5 demo_busy ++ [Block 1 5; Rouse 1; Return 1] in
  poll_reachable 3 (after demo_tested) /\ loop_step (after demo_tested) None = Crash NullDereference.
Proof.
  split; [split; [by apply after_reachable; vm_compute|by left]|].
  split; [by apply after_reachable; vm_compute|by vm_compute].
Qed.
