(* ===== verification/LockServer.v ===== *)
(** * The lock service: lock_server.h and lock_server.cc

    A table of locks, each a flag with a mutex and a condition variable. Every
    request runs in its own pool thread; [run_thread] is one step of one thread
    from one call into pthreads to the next, so the order of steps is any
    interleaving. [acquire] and [release] are the program counters [pc].
    The history [events] (grants and releases, newest first) is there for the
    theorems only. *)

From S2P Require Import Prelude.
Local Open Scope Z_scope.

(** lock_protocol::xxstatus *)
Inductive xxstatus := OK | RETRY | RPCERR | NOENT | IOERR.
#[export] Instance xxstatus_eq_dec : EqDecision xxstatus.
Proof. solve_decision. Defined.

(** lock_protocol::rpc_numbers *)
Definition proc_acquire : Z := 28673.   (** 0x7001 *)
Definition proc_release : Z := 28674.
Definition proc_stat : Z := 28676.

(** struct lock_t: the mutex by its owner. The condition variable needs no
    state of its own: the threads waiting on it are those at [A_wait]. *)
Record lock_t := Lock { l_m : option nat; l_isLocked : bool }.
Definition lock_t_new : lock_t := Lock None false.

(** Where a thread is in [acquire] or [release]: before the named step. *)
Inductive pc :=
  | A_count      (** if(!locks.count(lid)) *)
  | A_create     (** locks[lid] = lock_t() *)
  | A_lock       (** pthread_mutex_lock *)
  | A_check      (** while(locks[lid].isLocked) *)
  | A_wait       (** inside pthread_cond_wait, not yet signalled *)
  | A_wake       (** signalled, to take the mutex again *)
  | A_set        (** locks[lid].isLocked = true *)
  | A_unlock     (** pthread_mutex_unlock *)
  | A_return     (** granted *)
  | R_lock       (** pthread_mutex_lock *)
  | R_clear      (** locks[lid].isLocked = false *)
  | R_signal     (** pthread_cond_signal *)
  | R_unlock     (** pthread_mutex_unlock *)
  | R_return.
#[export] Instance pc_eq_dec : EqDecision pc.
Proof. solve_decision. Defined.

Record thread := Thread { t_clt : Z; t_lid : Z; t_pc : pc }.

Inductive event := Granted (clt lid : Z) | Released (clt lid : Z).

Record lock_server := LockServer {
  nacquire : Z;
  locks : gmap Z lock_t;
  threads : gmap nat thread;
  events : list event }.

Definition lock_server_new : lock_server := LockServer 0 ∅ ∅ [].

(** ** Operations *)

(** [locks[lid]]: operator[] makes a lock that is not there. *)
Definition lock_at (s : lock_server) (lid : Z) : lock_t :=
  default lock_t_new (locks s !! lid).

Definition set_lock (s : lock_server) (lid : Z) (l : lock_t) : lock_server :=
  LockServer (nacquire s) (<[lid := l]> (locks s)) (threads s) (events s).
Definition goto (s : lock_server) (t : nat) (th : thread) (p : pc) : lock_server :=
  LockServer (nacquire s) (locks s) (<[t := Thread (t_clt th) (t_lid th) p]> (threads s)) (events s).
Definition record (s : lock_server) (e : event) : lock_server :=
  LockServer (nacquire s) (locks s) (threads s) (e :: events s).

(** A request comes in. *)
Definition enter (s : lock_server) (t : nat) (clt lid : Z) (p : pc) : lock_server :=
  LockServer (nacquire s) (locks s) (<[t := Thread clt lid p]> (threads s)) (events s).

(** [stat]: the result and the status *)
Definition stat (s : lock_server) (clt lid r : Z) : Z * xxstatus := (nacquire s, OK).

(** pthread_mutex_lock: [None] while another thread has it. *)
Definition mutex_lock (l : lock_t) (t : nat) : option lock_t :=
  match l_m l with None => Some (Lock (Some t) (l_isLocked l)) | Some _ => None end.
Definition mutex_unlock (l : lock_t) : lock_t := Lock None (l_isLocked l).

Definition waiting (lid : Z) (th : thread) : bool :=
  (t_lid th =? lid) && bool_decide (t_pc th = A_wait).

(** pthread_cond_signal: one waiting thread is woken if there is one; [pick] is
    the scheduler's choice ([None] when it is not a possible one). *)
Definition cond_signal (s : lock_server) (lid : Z) (pick : nat) : option lock_server :=
  match threads s !! pick with
  | Some th =>
      if waiting lid th then Some (goto s pick th A_wake)
      else if bool_decide (map_Forall (fun _ th => waiting lid th = false) (threads s))
           then Some s else None
  | None =>
      if bool_decide (map_Forall (fun _ th => waiting lid th = false) (threads s))
      then Some s else None
  end.

(** One step of thread [t]; [None] when it is blocked or has returned. A waiting
    thread can also wake up without a signal. The server takes no mutex around
    its table: each call of the map is one step here, which two threads that
    are inside it at once (a data race on std::map) do not promise. *)
Definition run_thread (s : lock_server) (t pick : nat) : option lock_server :=
  match threads s !! t with
  | None => None
  | Some th =>
      let lid := t_lid th in
      let l := lock_at s lid in
      match t_pc th with
      | A_count =>
          Some (goto s t th (if is_some (locks s !! lid) then A_lock else A_create))
      | A_create => Some (goto (set_lock s lid lock_t_new) t th A_lock)
      | A_lock | A_wake =>
          match mutex_lock l t with
          | Some l => Some (goto (set_lock s lid l) t th A_check)
          | None => None
          end
      | A_check =>
          if l_isLocked l then Some (goto (set_lock s lid (mutex_unlock l)) t th A_wait)
          else Some (goto (set_lock s lid l) t th A_set)
      | A_wait => Some (goto (set_lock s lid l) t th A_wake)
      | A_set =>
          Some (record (goto (set_lock s lid (Lock (l_m l) true)) t th A_unlock)
                  (Granted (t_clt th) lid))
      | A_unlock => Some (goto (set_lock s lid (mutex_unlock l)) t th A_return)
      | R_lock =>
          match mutex_lock l t with
          | Some l => Some (goto (set_lock s lid l) t th R_clear)
          | None => None
          end
      | R_clear =>
          Some (record (goto (set_lock s lid (Lock (l_m l) false)) t th R_signal)
                  (Released (t_clt th) lid))
      | R_signal =>
          match cond_signal s lid pick with
          | Some s => Some (goto (set_lock s lid l) t th R_unlock)
          | None => None
          end
      | R_unlock => Some (goto (set_lock s lid (mutex_unlock l)) t th R_return)
      | A_return | R_return => None
      end
  end.

(** The server's steps: a request arrives in a fresh thread, or a thread runs. *)
Inductive lock_step : lock_server -> lock_server -> Prop :=
  | step_enter s t clt lid p :
      threads s !! t = None -> p = A_count \/ p = R_lock ->
      lock_step s (enter s t clt lid p)
  | step_run s t pick s' : run_thread s t pick = Some s' -> lock_step s s'.

(** ** Histories *)
Definition about (lid : Z) (e : event) : bool :=
  match e with Granted _ l | Released _ l => l =? lid end.

(** Whether the lock is held after a history (newest event first). *)
Fixpoint held (lid : Z) (es : list event) : bool :=
  match es with
  | [] => false
  | e :: es =>
      if about lid e then match e with Granted _ _ => true | Released _ _ => false end
      else held lid es
  end.

(** Every grant of [lid] finds it not held. *)
Fixpoint exclusive (lid : Z) (es : list event) : Prop :=
  match es with
  | [] => True
  | e :: es =>
      exclusive lid es /\
      match e with Granted _ l => l = lid -> held lid es = false | Released _ _ => True end
  end.

(** ** Requests that do not race to create a lock *)

(** As [lock_step], but the first request for a lock that is not in the table
    gets past its creation before another one for the same lock comes in. *)
Inductive calm_step : lock_server -> lock_server -> Prop :=
  | calm_enter s t clt lid p :
      threads s !! t = None -> p = A_count \/ p = R_lock ->
      is_some (locks s !! lid) = true \/ map_Forall (fun _ th => t_lid th <> lid) (threads s) ->
      calm_step s (enter s t clt lid p)
  | calm_run s t pick s' : run_thread s t pick = Some s' -> calm_step s s'.

Definition has_mutex (p : pc) : bool :=
  match p with A_check | A_set | A_unlock | R_clear | R_signal | R_unlock => true | _ => false end.

(** Steps on the way to look at a lock that has become free. *)
Definition active (p : pc) : bool :=
  match p with A_wake | A_check | A_set | R_signal => true | _ => false end.

Record inv (s : lock_server) : Prop := {
  i_own t th : threads s !! t = Some th -> has_mutex (t_pc th) = true ->
    l_m (lock_at s (t_lid th)) = Some t;
  i_owner lid t : l_m (lock_at s lid) = Some t ->
    exists th, threads s !! t = Some th /\ t_lid th = lid /\ has_mutex (t_pc th) = true;
  i_set t th : threads s !! t = Some th -> t_pc th = A_set ->
    l_isLocked (lock_at s (t_lid th)) = false;
  i_flag lid : l_isLocked (lock_at s lid) = held lid (events s);
  i_exclusive lid : exclusive lid (events s);
  i_wakeup t th : threads s !! t = Some th -> t_pc th = A_wait ->
    l_isLocked (lock_at s (t_lid th)) = false ->
    exists t' th', threads s !! t' = Some th' /\ t_lid th' = t_lid th /\ active (t_pc th') = true;
  i_unique t t' th th' : threads s !! t = Some th -> threads s !! t' = Some th' ->
    t_lid th = t_lid th' -> locks s !! t_lid th = None -> t = t';
  i_create t th : threads s !! t = Some th -> t_pc th = A_create -> locks s !! t_lid th = None }.

Lemma inv_new : inv lock_server_new.
Proof.
  split; unfold lock_at; cbn [threads locks lock_server_new events]; intros *;
    rewrite ?lookup_empty; try done.
Qed.

(** Thread [t] moves to [p] with its lock now [l'] and the history [es]. *)
Definition moved (s : lock_server) (t : nat) (th : thread) (p : pc) (l' : lock_t) (es : list event)
    : lock_server :=
  LockServer (nacquire s) (<[t_lid th := l']> (locks s))
    (<[t := Thread (t_clt th) (t_lid th) p]> (threads s)) es.

Lemma lock_at_moved s t th p l' es lid :
  lock_at (moved s t th p l' es) lid = if decide (t_lid th = lid) then l' else lock_at s lid.
Proof. unfold lock_at, moved. cbn [locks]. rewrite lookup_insert. by case_decide. Qed.

Lemma threads_moved s t th p l' es t' :
  threads (moved s t th p l' es) !! t' =
    if decide (t = t') then Some (Thread (t_clt th) (t_lid th) p) else threads s !! t'.
Proof. unfold moved. cbn [threads]. by rewrite lookup_insert. Qed.

(** What has to hold of a move for the invariant to survive it. *)
Record move_ok (s : lock_server) (t : nat) (th : thread) (p : pc) (l' : lock_t) (es : list event) : Prop := {
  mv_mutex : l_m l' = if has_mutex p then Some t
                      else if has_mutex (t_pc th) then None else l_m (lock_at s (t_lid th));
  mv_take : has_mutex p = true -> has_mutex (t_pc th) = true \/ l_m (lock_at s (t_lid th)) = None;
  mv_flag : l_isLocked l' = l_isLocked (lock_at s (t_lid th)) \/ has_mutex (t_pc th) = true;
  mv_set : p = A_set -> l_isLocked l' = false;
  mv_create : p <> A_create;
  mv_held lid : l_isLocked (if decide (t_lid th = lid) then l' else lock_at s lid) = held lid es;
  mv_exclusive lid : exclusive lid es;
  mv_wake : l_isLocked l' = true \/ active p = true \/
    (active (t_pc th) = false /\ p <> A_wait /\ l_isLocked l' = l_isLocked (lock_at s (t_lid th))) \/
    (p <> A_wait /\ forall t' th', t' <> t -> threads s !! t' = Some th' -> t_lid th' = t_lid th ->
       t_pc th' = A_wait -> exists t2 th2, t2 <> t /\ threads s !! t2 = Some th2 /\
       t_lid th2 = t_lid th /\ active (t_pc th2) = true) }.

Lemma inv_moved s t th p l' es :
  inv s -> threads s !! t = Some th -> move_ok s t th p l' es -> inv (moved s t th p l' es).
Proof.
  intros Hinv Ht [Hmutex Htake Hflag Hset Hcreate Hheld Hexcl Hwake]. split.
  - intros t' th'. rewrite threads_moved, lock_at_moved. case_decide as Et.
    + intros [= <-]. cbn [t_lid t_pc]. intros Hp. by rewrite decide_True, Hmutex, Hp, Et by done.
    + intros Hth' Hp'. pose proof (i_own s Hinv t' th' Hth' Hp') as Ho. case_decide as El; [|done].
      rewrite <- El in Ho. rewrite Hmutex. destruct (has_mutex p) eqn:Hp.
      { destruct (Htake eq_refl) as [Hq|Hn]; [|congruence].
        pose proof (i_own s Hinv t th Ht Hq). congruence. }
      destruct (has_mutex (t_pc th)) eqn:Hq; [|done].
      pose proof (i_own s Hinv t th Ht Hq). congruence.
  - intros lid t'. rewrite threads_moved, lock_at_moved. case_decide as El.
    + rewrite Hmutex. destruct (has_mutex p) eqn:Hp.
      { intros [= ->]. rewrite decide_True by done. by eexists. }
      destruct (has_mutex (t_pc th)) eqn:Hq; [done|]. intros Ho.
      destruct (i_owner s Hinv _ _ Ho) as (th' & Hth' & Hl & Hm). rewrite decide_False by congruence.
      exists th'. split_and!; [done|congruence|done].
    + intros Ho. destruct (i_owner s Hinv _ _ Ho) as (th' & Hth' & Hl & Hm).
      rewrite decide_False by congruence. by exists th'.
  - intros t' th'. rewrite threads_moved, lock_at_moved. case_decide as Et.
    + intros [= <-]. cbn [t_pc t_lid]. intros Hp. by rewrite decide_True, Hset.
    + intros Hth' Hp'. pose proof (i_set s Hinv t' th' Hth' Hp') as Hf. case_decide as El; [|done].
      rewrite <- El in Hf. destruct Hflag as [->|Hq]; [done|].
      pose proof (i_own s Hinv t th Ht Hq) as H1.
      pose proof (i_own s Hinv t' th' Hth') as H2. rewrite Hp', <- El, H1 in H2.
      specialize (H2 eq_refl). congruence.
  - intros lid. rewrite lock_at_moved. apply Hheld.
  - apply Hexcl.
  - intros t' th'. rewrite lock_at_moved, threads_moved. intros Hth' Hp' Hfree.
    assert (forall t2 th2, t2 <> t -> threads s !! t2 = Some th2 ->
      threads (moved s t th p l' es) !! t2 = Some th2) as Hkeep.
    { intros t2 th2 Hne H2. by rewrite threads_moved, decide_False. }
    assert (active p = true -> t_lid th = t_lid th' -> exists t2 th2,
      threads (moved s t th p l' es) !! t2 = Some th2 /\ t_lid th2 = t_lid th' /\ active (t_pc th2) = true) as Hact.
    { intros Ha El. exists t, (Thread (t_clt th) (t_lid th) p). by rewrite threads_moved, decide_True. }
    destruct (decide (t = t')) as [Et|Et].
    + simplify_eq. cbn [t_lid t_pc] in *. rewrite decide_True in Hfree by done.
      destruct Hwake as [?|[?|[(_ & ? & _)|[? _]]]]; [congruence|by subst p|done|done].
    + destruct (decide (t_lid th = t_lid th')) as [El|El].
      * destruct Hwake as [?|[Ha|[(Ha & Hp & Hf)|[Hp Hw]]]]; [congruence|by apply Hact| |].
        -- rewrite El in Hf. destruct (i_wakeup s Hinv t' th' Hth' Hp') as (t2 & th2 & H2 & L2 & A2); [congruence|].
           exists t2, th2. split; [|done]. apply Hkeep; [|done]. congruence.
        -- destruct (Hw t' th') as (t2 & th2 & N2 & H2 & L2 & A2); [congruence|done|done|done|].
           exists t2, th2. split_and!; [by apply Hkeep|congruence|done].
      * destruct (i_wakeup s Hinv t' th' Hth' Hp') as (t2 & th2 & H2 & L2 & A2); [done|].
        exists t2, th2. split; [|done]. apply Hkeep; [|done]. congruence.
  - intros t1 t2 th1 th2. rewrite !threads_moved. cbn [moved locks]. rewrite lookup_insert.
    intros H1 H2 El Hn. case_decide as E1; [done|].
    repeat case_decide; simplify_eq/=; try done. by eapply (i_unique s Hinv).
  - intros t' th'. rewrite threads_moved. cbn [moved locks]. rewrite lookup_insert. intros Hth' Hp'.
    case_decide as Et; [by simplify_eq/=|].
    pose proof (i_create s Hinv t' th' Hth' Hp') as Hn. case_decide as El; [|done].
    destruct Et. symmetry. apply (i_unique s Hinv t' t th' th); congruence.
Qed.

(** Histories that grow by one event about a lock. *)
Lemma held_cons s th l' e :
  inv s -> about (t_lid th) e = true ->
  l_isLocked l' = match e with Granted _ _ => true | Released _ _ => false end ->
  forall lid, l_isLocked (if decide (t_lid th = lid) then l' else lock_at s lid) = held lid (e :: events s).
Proof.
  intros Hinv Ha Hl lid. simpl. case_decide as El.
  - by rewrite <- El, Ha.
  - rewrite (i_flag s Hinv). destruct (about lid e) eqn:E; [|done].
    destruct e; simpl in *; bool_to_prop; congruence.
Qed.

Lemma held_same s th l' :
  inv s -> l_isLocked l' = l_isLocked (lock_at s (t_lid th)) ->
  forall lid, l_isLocked (if decide (t_lid th = lid) then l' else lock_at s lid) = held lid (events s).
Proof.
  intros Hinv Hl lid. case_decide as El; [|apply (i_flag s Hinv)]. subst lid.
  rewrite Hl. apply (i_flag s Hinv).
Qed.

(** A waiting thread that wakes up. *)
Lemma inv_wake s t th :
  inv s -> threads s !! t = Some th -> t_pc th = A_wait ->
  inv (moved s t th A_wake (lock_at s (t_lid th)) (events s)).
Proof.
  intros Hinv Ht Hp. apply inv_moved; [done|done|].
  split; rewrite ?Hp; try done; auto using i_exclusive.
  by apply held_same.
Qed.

(** Taking a free mutex to look at the lock or to clear it. *)
Lemma inv_take_mutex s t th l p :
  inv s -> threads s !! t = Some th -> mutex_lock (lock_at s (t_lid th)) t = Some l ->
  has_mutex (t_pc th) = false -> (p = A_check \/ p = R_clear /\ t_pc th = R_lock) ->
  inv (moved s t th p l (events s)).
Proof.
  intros Hinv Ht Hl Hq Hp. unfold mutex_lock in Hl.
  destruct (l_m (lock_at s (t_lid th))) eqn:Hm; simplify_eq.
  apply inv_moved; [done|done|]. destruct Hp as [->|[-> Hpc]]; split; rewrite ?Hq, ?Hm; cbn; try done; auto using i_exclusive.
  all: try by apply held_same. right. right. left. by rewrite Hpc.
Qed.

(** Giving the mutex back. *)
Lemma inv_unlock s t th p :
  inv s -> threads s !! t = Some th -> (t_pc th = A_unlock \/ t_pc th = R_unlock) ->
  (p = A_return \/ p = R_return) ->
  inv (moved s t th p (mutex_unlock (lock_at s (t_lid th))) (events s)).
Proof.
  intros Hinv Ht Hq Hp. apply inv_moved; [done|done|].
  destruct Hq as [Hq|Hq], Hp as [-> | ->]; split; rewrite ?Hq; cbn; try done; auto using i_exclusive;
    try (by apply held_same); right; right; left; done.
Qed.

(** Setting or clearing the flag with the mutex held. *)
Lemma inv_set_flag s t th :
  inv s -> threads s !! t = Some th -> t_pc th = A_set ->
  inv (moved s t th A_unlock (Lock (l_m (lock_at s (t_lid th))) true)
         (Granted (t_clt th) (t_lid th) :: events s)).
Proof.
  intros Hinv Ht Hp. pose proof (i_own s Hinv t th Ht) as Hm. rewrite Hp in Hm. specialize (Hm eq_refl).
  apply inv_moved; [done|done|]. split; rewrite ?Hp; cbn; try done; auto.
  - apply (held_cons s th (Lock _ true) (Granted (t_clt th) (t_lid th))); cbn; [done|apply Z.eqb_refl|done].
  - intros lid. split; [apply (i_exclusive s Hinv)|]. intros <-.
    rewrite <- (i_flag s Hinv). by apply (i_set s Hinv t th).
Qed.

Lemma inv_clear_flag s t th :
  inv s -> threads s !! t = Some th -> t_pc th = R_clear ->
  inv (moved s t th R_signal (Lock (l_m (lock_at s (t_lid th))) false)
         (Released (t_clt th) (t_lid th) :: events s)).
Proof.
  intros Hinv Ht Hp. pose proof (i_own s Hinv t th Ht) as Hm. rewrite Hp in Hm. specialize (Hm eq_refl).
  apply inv_moved; [done|done|]. split; rewrite ?Hp; cbn; try done; auto.
  - apply (held_cons s th (Lock _ false) (Released (t_clt th) (t_lid th))); cbn; [done|apply Z.eqb_refl|done].
  - intros lid. split; [apply (i_exclusive s Hinv)|done].
Qed.

(** The while condition. *)
Lemma inv_check s t th :
  inv s -> threads s !! t = Some th -> t_pc th = A_check ->
  inv (if l_isLocked (lock_at s (t_lid th))
       then moved s t th A_wait (mutex_unlock (lock_at s (t_lid th))) (events s)
       else moved s t th A_set (lock_at s (t_lid th)) (events s)).
Proof.
  intros Hinv Ht Hp. pose proof (i_own s Hinv t th Ht) as Hm. rewrite Hp in Hm. specialize (Hm eq_refl).
  destruct (l_isLocked (lock_at s (t_lid th))) eqn:Hf; (apply inv_moved; [done|done|]);
    split; rewrite ?Hp; cbn; try done; auto using i_exclusive.
  all: by apply held_same.
Qed.

(** The signal: afterwards nobody waits, or somebody has been woken. *)
Lemma inv_signal s t th p' s' pick :
  inv s -> threads s !! t = Some th -> t_pc th = R_signal -> p' = R_unlock ->
  cond_signal s (t_lid th) pick = Some s' ->
  inv (moved s' t th p' (lock_at s (t_lid th)) (events s)).
Proof.
  intros Hinv Ht Hp -> Hs. pose proof (i_own s Hinv t th Ht) as Hm. rewrite Hp in Hm. specialize (Hm eq_refl).
  assert (inv s' /\ threads s' !! t = Some th /\ lock_at s' (t_lid th) = lock_at s (t_lid th) /\
    events s' = events s /\
    forall t' th', t' <> t -> threads s' !! t' = Some th' -> t_lid th' = t_lid th -> t_pc th' = A_wait ->
      exists t2 th2, t2 <> t /\ threads s' !! t2 = Some th2 /\ t_lid th2 = t_lid th /\ active (t_pc th2) = true)
    as (Hinv' & Ht' & Hl & He & Hw).
  { assert (map_Forall (fun _ th' => waiting (t_lid th) th' = false) (threads s) -> s' = s ->
      forall t' th', threads s' !! t' = Some th' -> t_lid th' = t_lid th -> t_pc th' = A_wait -> False) as Hnone.
    { intros Hall -> t' th' Hth' El Hp'. specialize (Hall t' th' Hth'). unfold waiting in Hall.
      by rewrite El, Z.eqb_refl, bool_decide_true in Hall. }
    unfold cond_signal in Hs. destruct (threads s !! pick) as [w|] eqn:Hw.
    - destruct (waiting (t_lid th) w) eqn:Hwait.
      + unfold waiting in Hwait. apply andb_true_iff in Hwait as [El%Z.eqb_eq Hpw%bool_decide_eq_true].
        simplify_eq. assert (pick <> t) as Hne by (intros ->; congruence).
        assert (goto s pick w A_wake = moved s pick w A_wake (lock_at s (t_lid w)) (events s)) as ->.
        { unfold goto, moved. f_equal. symmetry. apply insert_id. unfold lock_at.
          assert (l_m (lock_at s (t_lid w)) = Some t) as Hm' by congruence. unfold lock_at in Hm'.
          by destruct (locks s !! t_lid w). }
        split_and!.
        * by apply inv_wake.
        * by rewrite threads_moved, decide_False.
        * rewrite lock_at_moved. case_decide; [congruence|done].
        * done.
        * intros _ _ _ _ _ _. exists pick, (Thread (t_clt w) (t_lid w) A_wake).
          by rewrite threads_moved, decide_True.
      + case_bool_decide as Hall; simplify_eq. split_and!; try done.
        intros t' th' _ Hth' El Hp'. destruct (Hnone Hall eq_refl t' th' Hth' El Hp').
    - case_bool_decide as Hall; simplify_eq. split_and!; try done.
      intros t' th' _ Hth' El Hp'. destruct (Hnone Hall eq_refl t' th' Hth' El Hp'). }
  rewrite <- Hl, <- He. apply inv_moved; [done|done|].
  split; rewrite ?Hp; cbn; try done; auto using i_exclusive.
  - congruence.
  - by apply held_same.
Qed.

(** The table lookup of [acquire]. *)
Lemma inv_count s t th :
  inv s -> threads s !! t = Some th -> t_pc th = A_count ->
  inv (goto s t th (if is_some (locks s !! t_lid th) then A_lock else A_create)).
Proof.
  intros Hinv Ht Hp. destruct (locks s !! t_lid th) as [l|] eqn:Hl; cbn [is_some].
  - replace (goto s t th A_lock) with (moved s t th A_lock (lock_at s (t_lid th)) (events s)).
    + apply inv_moved; [done|done|]. split; rewrite ?Hp; cbn; try done; auto using i_exclusive.
      * by apply held_same.
      * right. right. left. done.
    + unfold goto, moved. f_equal. apply insert_id. unfold lock_at. by rewrite Hl.
  - assert (forall t' th', threads (goto s t th A_create) !! t' = Some th' ->
      exists th0, threads s !! t' = Some th0 /\ t_lid th' = t_lid th0 /\
        (t_pc th' = t_pc th0 \/ t' = t /\ t_pc th' = A_create)) as Hback.
    { intros t' th'. cbn [goto threads]. rewrite lookup_insert. case_decide; [|by eauto].
      intros [= <-]. subst t'. exists th. cbn. auto. }
    split; cbn [goto locks events]; try apply Hinv; change (lock_at (goto s t th A_create)) with (lock_at s).
    + intros t' th' H1 H2. destruct (Hback t' th' H1) as (th0 & H0 & -> & [E|[_ E]]); rewrite E in H2; [|done].
      by apply (i_own s Hinv).
    + intros lid t' Ho. destruct (i_owner s Hinv lid t' Ho) as (th' & H1 & H2 & H3).
      exists th'. cbn [goto threads]. rewrite lookup_insert, decide_False; [done|]. intros ->. rewrite Ht in H1. simplify_eq.
      by rewrite Hp in H3.
    + intros t' th' H1 H2. destruct (Hback t' th' H1) as (th0 & H0 & -> & [E|[_ E]]); rewrite E in H2; [|done].
      by apply (i_set s Hinv t').
    + intros t' th' H1 H2 H3. destruct (Hback t' th' H1) as (th0 & H0 & E0 & [E|[_ E]]); rewrite E in H2; [|done].
      rewrite E0 in H3 |- *. destruct (i_wakeup s Hinv t' th0 H0 H2 H3) as (t2 & th2 & H4 & H5 & H6).
      exists t2, th2. cbn [goto threads]. rewrite lookup_insert, decide_False; [done|]. intros <-. rewrite Ht in H4. simplify_eq.
      by rewrite Hp in H6.
    + intros t1 t2 th1 th2 H1 H2. destruct (Hback t1 th1 H1) as (th3 & H3 & -> & _).
      destruct (Hback t2 th2 H2) as (th4 & H4 & -> & _). by apply (i_unique s Hinv).
    + intros t' th' H1 H2. destruct (Hback t' th' H1) as (th0 & H0 & -> & [E|[-> E]]).
      * apply (i_create s Hinv t'); congruence.
      * rewrite Ht in H0. by simplify_eq.
Qed.

Lemma inv_enter s t clt lid p :
  inv s -> threads s !! t = None -> p = A_count \/ p = R_lock ->
  is_some (locks s !! lid) = true \/ map_Forall (fun _ th => t_lid th <> lid) (threads s) ->
  inv (enter s t clt lid p).
Proof.
  intros Hinv Ht Hp Hlid.
  assert (forall t' th', threads (enter s t clt lid p) !! t' = Some th' ->
    threads s !! t' = Some th' \/ (t' = t /\ th' = Thread clt lid p)) as Hback.
  { intros t' th'. cbn [enter threads]. rewrite lookup_insert. case_decide; [|by left].
    intros [= <-]. by right. }
  assert (forall t' th', threads s !! t' = Some th' -> threads (enter s t clt lid p) !! t' = Some th') as Hfwd.
  { intros t' th' H1. cbn [enter threads]. rewrite lookup_insert, decide_False; congruence. }
  split; cbn [enter locks events]; try apply Hinv; change (lock_at (enter s t clt lid p)) with (lock_at s).
  - intros t' th' H1 H2. destruct (Hback t' th' H1) as [H0|[-> ->]]; [by apply (i_own s Hinv)|].
    cbn in H2. destruct Hp as [-> | ->]; done.
  - intros lid' t' Ho. destruct (i_owner s Hinv lid' t' Ho) as (th' & H1 & H2 & H3). exists th'. eauto.
  - intros t' th' H1 H2. destruct (Hback t' th' H1) as [H0|[-> ->]]; [by apply (i_set s Hinv t')|].
    cbn in H2. destruct Hp as [-> | ->]; done.
  - intros t' th' H1 H2 H3. destruct (Hback t' th' H1) as [H0|[-> ->]].
    + destruct (i_wakeup s Hinv t' th' H0 H2 H3) as (t2 & th2 & H4 & ?). exists t2, th2. eauto.
    + cbn in H2. destruct Hp as [-> | ->]; done.
  - intros t1 t2 th1 th2 H1 H2 El Hn.
    assert (forall t3 th3, threads s !! t3 = Some th3 -> t_lid th3 = lid -> locks s !! lid = None -> False) as Hno.
    { intros t3 th3 H3 E3 Hn3. rewrite Hn3 in Hlid. destruct Hlid as [?|Hall]; [done|].
      by apply (Hall t3 th3 H3). }
    destruct (Hback t1 th1 H1) as [H3|[-> ->]], (Hback t2 th2 H2) as [H4|[-> ->]]; cbn in *.
    + by apply (i_unique s Hinv t1 t2 th1 th2).
    + destruct (Hno t1 th1 H3 El). congruence.
    + destruct (Hno t2 th2 H4); congruence.
    + done.
  - intros t' th' H1 H2. destruct (Hback t' th' H1) as [H0|[-> ->]]; [by apply (i_create s Hinv t')|].
    cbn in H2. destruct Hp as [-> | ->]; done.
Qed.

Lemma inv_step s s' : inv s -> calm_step s s' -> inv s'.
Proof.
  intros Hinv Hstep. revert Hinv. destruct Hstep as [s t clt lid p Ht Hp Hl|s t pick s' Hrun]; intros Hinv.
  { by apply inv_enter. }
  unfold run_thread in Hrun. destruct (threads s !! t) as [th|] eqn:Ht; [|done].
  destruct (t_pc th) eqn:Hp; simplify_eq.
  - by apply inv_count.
  - apply (inv_moved s t th A_lock lock_t_new (events s)); [done|done|].
    pose proof (i_create s Hinv t th Ht Hp) as Hn.
    assert (lock_at s (t_lid th) = lock_t_new) as Hl by (unfold lock_at; by rewrite Hn).
    split; rewrite ?Hp, ?Hl; cbn; try done; auto using i_exclusive.
    + apply held_same; [done|]. by rewrite Hl.
    + right. right. left. done.
  - destruct (mutex_lock _ t) as [l|] eqn:Hm; simplify_eq.
    apply (inv_take_mutex s t th l A_check); auto. by rewrite Hp.
  - pose proof (inv_check s t th Hinv Ht Hp) as Hc. by destruct (l_isLocked _); simplify_eq.
  - by apply (inv_wake s t th).
  - destruct (mutex_lock _ t) as [l|] eqn:Hm; simplify_eq.
    apply (inv_take_mutex s t th l A_check); auto. by rewrite Hp.
  - by apply (inv_set_flag s t th).
  - apply (inv_unlock s t th A_return); auto.
  - destruct (mutex_lock _ t) as [l|] eqn:Hm; simplify_eq.
    apply (inv_take_mutex s t th l R_clear); auto. by rewrite Hp.
  - by apply (inv_clear_flag s t th).
  - destruct (cond_signal _ _ _) as [s1|] eqn:Hs; simplify_eq.
    assert (events s1 = events s) as He.
    { unfold cond_signal in Hs. repeat case_match; by simplify_eq. }
    pose proof (inv_signal s t th R_unlock s1 pick Hinv Ht Hp eq_refl Hs) as Hi.
    by rewrite <- He in Hi.
  - apply (inv_unlock s t th R_return); auto.
Qed.

Lemma calm_inv s : rtc calm_step lock_server_new s -> inv s.
Proof. intros Hs. eapply rtc_invariant; [exact inv_step|exact Hs|apply inv_new]. Qed.

(** C4. Mutual exclusion. Over all interleavings of any number of acquire and
    release requests, with spurious wake-ups, if a lock's first request gets
    past creating it before the next one comes in: no lock is ever granted
    while it is held, and the server's flag says whether it is. *)
Theorem mutual_exclusion s lid :
  rtc calm_step lock_server_new s ->
  exclusive lid (events s) /\ l_isLocked (lock_at s lid) = held lid (events s).
Proof.
  intros Hs. pose proof (calm_inv s Hs) as Hinv. split; [apply (i_exclusive s Hinv)|apply (i_flag s Hinv)].
Qed.

(** ** Running schedules *)
Fixpoint run_schedule (s : lock_server) (ts : list nat) : option lock_server :=
  match ts with
  | [] => Some s
  | t :: ts => match run_thread s t 0 with Some s => run_schedule s ts | None => None end
  end.

Lemma run_schedule_lock_steps s ts s' : run_schedule s ts = Some s' -> rtc lock_step s s'.
Proof.
  revert s. induction ts as [|t ts IH]; simpl; intros s; [by intros [= <-]|].
  destruct (run_thread s t 0) as [s1|] eqn:E; [|done]. intros Hs.
  eapply rtc_l; [by eapply step_run|]. by apply IH.
Qed.
Lemma run_schedule_calm_steps s ts s' : run_schedule s ts = Some s' -> rtc calm_step s s'.
Proof.
  revert s. induction ts as [|t ts IH]; simpl; intros s; [by intros [= <-]|].
  destruct (run_thread s t 0) as [s1|] eqn:E; [|done]. intros Hs.
  eapply rtc_l; [by eapply calm_run|]. by apply IH.
Qed.

(** Client 8 acquires lock 5; client 9 then asks for it and waits. *)
Definition contended : option lock_server :=
  s ← run_schedule (enter lock_server_new 1 8 5 A_count) [1; 1; 1; 1; 1; 1]%nat;
  run_schedule (enter s 2 9 5 A_count) [2; 2; 2]%nat.

Lemma contended_reachable s : contended = Some s -> rtc calm_step lock_server_new s.
Proof.
  unfold contended. destruct (run_schedule (enter lock_server_new 1 8 5 A_count) _) as [s1|] eqn:E1; [|done].
  cbn [mbind option_bind]. intros E2. assert (threads s1 !! 2%nat = None /\ is_some (locks s1 !! 5) = true) as [H1 H2].
  { vm_compute in E1. simplify_eq. by vm_compute. }
  eapply rtc_l; [apply (calm_enter _ 1 8 5 A_count); [done|by left|]|].
  { right. apply map_Forall_empty. }
  etrans; [by eapply run_schedule_calm_steps|].
  eapply rtc_l; [apply (calm_enter _ 2 9 5 A_count); [done|by left|by left]|].
  by eapply run_schedule_calm_steps.
Qed.

Lemma mutual_exclusion_witness :
  exists s, contended = Some s /\ (t_pc <$> threads s !! 2%nat) = Some A_wait /\
    l_isLocked (lock_at s 5) = held 5 (events s).
Proof.
  destruct contended as [s|] eqn:E; [|by vm_compute in E]. exists s. split; [done|]. split.
  - vm_compute in E. by simplify_eq.
  - apply (mutual_exclusion s 5). by apply contended_reachable.
Defined.

(** Without that condition mutual exclusion fails: two clients that ask for a
    lock that is not in the table at the same time can both be granted it. Both
    find it missing; the one that creates it second overwrites the lock the
    first has already been granted. *)
Theorem creation_race_double_grant :
  exists s, rtc lock_step lock_server_new s /\
    events s = [Granted 9 5; Granted 8 5] /\ ~ exclusive 5 (events s).
Proof.
  destruct (run_schedule (enter (enter lock_server_new 1 8 5 A_count) 2 9 5 A_count)
    [1; 2; 1; 1; 1; 1; 2; 2; 2; 2]%nat) as [s|] eqn:E; [|by vm_compute in E].
  exists s. split.
  - eapply rtc_l; [apply (step_enter _ 1 8 5 A_count); [done|by left]|].
    eapply rtc_l; [apply (step_enter _ 2 9 5 A_count); [done|by left]|].
    by eapply run_schedule_lock_steps.
  - assert (events s = [Granted 9 5; Granted 8 5]) as -> by (vm_compute in E; by simplify_eq).
    split; [done|]. intros [_ H]. by specialize (H eq_refl).
Qed.

(** [stat] reports 0 for every lock in every reachable state, however many
    grants there were: no step changes [nacquire]. *)
Theorem stat_is_always_zero s clt lid r :
  rtc lock_step lock_server_new s -> stat s clt lid r = (0, OK).
Proof.
  intros Hs. unfold stat. f_equal.
  apply (rtc_invariant lock_step (fun s => nacquire s = 0) lock_server_new s); [|done|done].
  intros a b Ha Hstep. revert Ha. destruct Hstep as [a t c l p|a t pick b Hrun]; [done|]. intros Ha.
  unfold run_thread, mutex_lock, cond_signal in Hrun. repeat case_match; by simplify_eq/=.
Qed.

Lemma stat_is_always_zero_witness :
  exists s, contended = Some s /\ events s = [Granted 8 5] /\ stat s 8 5 77 = (0, OK).
Proof.
  destruct contended as [s|] eqn:E; [|by vm_compute in E]. exists s. split; [done|].
  split; [vm_compute in E; by simplify_eq|]. apply stat_is_always_zero.
  unfold contended in E. destruct (run_schedule (enter lock_server_new 1 8 5 A_count) _) as [s1|] eqn:E1; [|done].
  cbn [mbind option_bind] in E. assert (threads s1 !! 2%nat = None) as H1 by (vm_compute in E1; simplify_eq; by vm_compute).
  eapply rtc_l; [apply (step_enter _ 1 8 5 A_count); [done|by left]|].
  etrans; [by eapply run_schedule_lock_steps|].
  eapply rtc_l; [apply (step_enter _ 2 9 5 A_count); [done|by left]|].
  by eapply run_schedule_lock_steps.
Defined.
