(* ===== verification/LockLive.v ===== *)
(** * The lock service makes progress: lock_server.cc

    What one step of a server thread does to the others, and that waiting clients
    are not left behind: unless a lock that is waited for is held, some thread can
    go on, and only finitely often. *)

From S2P Require Import Prelude LockServer.
Local Open Scope Z_scope.

(** ** What one step of a server thread does *)
Definition acquiring (p : pc) : bool :=
  match p with R_lock | R_clear | R_signal | R_unlock | R_return => false | _ => true end.
Definition granted (p : pc) : bool := match p with A_unlock | A_return => true | _ => false end.
Definition unreleased (p : pc) : bool := match p with R_lock | R_clear => true | _ => false end.

(** A thread that did not run is as it was, or has been woken. *)
Definition undisturbed (s s' : lock_server) (t : nat) : Prop :=
  threads s' !! t = threads s !! t \/
  exists th, threads s !! t = Some th /\ t_pc th = A_wait /\
    threads s' !! t = Some (Thread (t_clt th) (t_lid th) A_wake).

Lemma cond_signal_undisturbed s lid pick s' :
  cond_signal s lid pick = Some s' -> events s' = events s /\ forall t, undisturbed s s' t.
Proof.
  unfold cond_signal. intros Hs.
  assert (forall t, undisturbed s s t) as Hrefl by (by left).
  destruct (threads s !! pick) as [w|] eqn:Hw; [destruct (waiting lid w) eqn:Hwait|];
    try (case_bool_decide; by simplify_eq).
  simplify_eq. split; [done|]. intros t. destruct (decide (pick = t)) as [<-|].
  - right. exists w. unfold waiting in Hwait. apply andb_true_iff in Hwait as [_ Hp%bool_decide_eq_true].
    cbn [goto threads]. by rewrite lookup_insert_eq.
  - left. cbn [goto threads]. by rewrite lookup_insert_ne.
Qed.

Lemma run_thread_effect s t pick s' :
  run_thread s t pick = Some s' ->
  exists th p, threads s !! t = Some th /\ threads s' !! t = Some (Thread (t_clt th) (t_lid th) p) /\
    (forall t', t' <> t -> undisturbed s s' t') /\
    acquiring p = acquiring (t_pc th) /\
    granted p = granted (t_pc th) || bool_decide (t_pc th = A_set) /\
    unreleased p = unreleased (t_pc th) && negb (bool_decide (t_pc th = R_clear)) /\
    events s' = (match t_pc th with
                 | A_set => [Granted (t_clt th) (t_lid th)]
                 | R_clear => [Released (t_clt th) (t_lid th)]
                 | _ => [] end) ++ events s.
Proof.
  unfold run_thread. destruct (threads s !! t) as [th|] eqn:Ht; [|done]. intros Hrun. exists th.
  assert (forall (l : gmap Z lock_t) p es t', t' <> t ->
    undisturbed s (LockServer (nacquire s) l (<[t := Thread (t_clt th) (t_lid th) p]> (threads s)) es) t') as Hother.
  { intros l p es t' Hne. left. cbn [threads]. by rewrite lookup_insert_ne. }
  destruct (t_pc th) eqn:Hp; simplify_eq;
    try (destruct (mutex_lock _ t); simplify_eq);
    try (destruct (l_isLocked _); simplify_eq);
    try (eexists; split; [done|]; split; [apply lookup_insert_eq|];
         split; [intros t' Hne; by apply Hother|]; done).
  - destruct (is_some _); eexists; (split; [done|]); (split; [apply lookup_insert_eq|]);
      (split; [intros t' Hne; by apply Hother|]); done.
  - destruct (cond_signal s (t_lid th) pick) as [s1|] eqn:Hs; simplify_eq.
    destruct (cond_signal_undisturbed _ _ _ _ Hs) as [He Hu].
    exists R_unlock. split; [done|]. split; [apply lookup_insert_eq|]. split; [|done].
    intros t' Hne. unfold undisturbed. cbn [goto set_lock threads]. rewrite lookup_insert_ne by done. apply Hu.
Qed.

(** A lock stays in the table. *)
Lemma run_thread_locks s t pick s' lid :
  run_thread s t pick = Some s' -> is_some (locks s !! lid) = true -> is_some (locks s' !! lid) = true.
Proof.
  assert (forall l x, is_some (locks s !! lid) = true -> is_some (<[l := x]> (locks s) !! lid) = true) as Hins.
  { intros l x H. destruct (decide (l = lid)) as [->|]; [by rewrite lookup_insert_eq|by rewrite lookup_insert_ne]. }
  unfold run_thread. destruct (threads s !! t) as [th|]; [|done]. intros Hrun Hl.
  destruct (t_pc th); try (destruct (mutex_lock _ t));
    try match type of Hrun with context [cond_signal s ?l ?k] => destruct (cond_signal s l k) as [s1|] eqn:Hs end;
    simplify_eq; cbn; try done; try (by apply Hins); try (by destruct (l_isLocked _); simplify_eq; apply Hins).
  unfold cond_signal in Hs. repeat case_match; simplify_eq; by apply Hins.
Qed.

(** ** The measure

    A signal wakes a thread, which may test the flag and wait again: what that
    costs is part of what the signal is worth. *)
Definition pc_weight (th : thread) : nat :=
  match t_pc th with
  | A_count => 7 | A_create => 6 | A_lock => 5 | A_wake => 5 | A_check => 4 | A_wait => 3
  | A_set => 2 | A_unlock => 1 | A_return => 0
  | R_lock => 6 | R_clear => 5 | R_signal => 4 | R_unlock => 1 | R_return => 0
  end.
Lemma run_thread_weight ls t th pick ls' :
  threads ls !! t = Some th -> t_pc th <> A_wait -> run_thread ls t pick = Some ls' ->
  (total pc_weight (threads ls') < total pc_weight (threads ls))%nat.
Proof.
  intros Ht Hnw Hrun. unfold run_thread in Hrun. rewrite Ht in Hrun.
  pose proof (fun p => total_insert pc_weight (threads ls) t th (Thread (t_clt th) (t_lid th) p) Ht) as Hw.
  assert (pc_weight th = pc_weight (Thread (t_clt th) (t_lid th) (t_pc th))) as Hth by done.
  destruct (t_pc th) eqn:Hp; simplify_eq; cbn in Hth; rewrite Hth in Hw;
    try (destruct (mutex_lock _ t); simplify_eq); try (destruct (l_isLocked _); simplify_eq);
    try (cbn [goto set_lock record threads]; match goal with |- context [Thread _ _ ?p] => specialize (Hw p) end;
         cbn in Hw; lia).
  - specialize (Hw (if is_some (locks ls !! t_lid th) then A_lock else A_create)).
    cbn [goto threads]. destruct (is_some _); cbn in Hw; lia.
  - destruct (cond_signal ls (t_lid th) pick) as [ls1|] eqn:Hs; simplify_eq. cbn [goto set_lock threads].
    unfold cond_signal in Hs. destruct (threads ls !! pick) as [w|] eqn:Ew; [destruct (waiting (t_lid th) w) eqn:Hwait|].
    + simplify_eq. cbn [goto threads]. unfold waiting in Hwait. apply andb_true_iff in Hwait as [_ Hpw%bool_decide_eq_true].
      assert (pick <> t) by congruence.
      pose proof (total_insert pc_weight (threads ls) pick w (Thread (t_clt w) (t_lid w) A_wake) Ew) as Hw1.
      assert (<[pick := Thread (t_clt w) (t_lid w) A_wake]> (threads ls) !! t = Some th) as Ht1 by (by rewrite lookup_insert_ne).
      pose proof (total_insert pc_weight _ t th (Thread (t_clt th) (t_lid th) R_unlock) Ht1) as Hw2.
      unfold pc_weight in Hw1 at 2 4. rewrite Hpw in Hw1. rewrite Hth in Hw2. cbn in Hw1, Hw2. lia.
    + case_bool_decide; simplify_eq. specialize (Hw R_unlock). cbn in Hw. lia.
    + case_bool_decide; simplify_eq. specialize (Hw R_unlock). cbn in Hw. lia.
Qed.

(** A server thread that has a mutex can run, and so can one that waits for a
    mutex, or the thread that has it. *)
Definition can_run (ls : lock_server) : Prop :=
  exists u thu pick ls', threads ls !! u = Some thu /\ t_pc thu <> A_wait /\ run_thread ls u pick = Some ls'.

Lemma cond_signal_total ls lid : exists pick ls', cond_signal ls lid pick = Some ls'.
Proof.
  destruct (decide (map_Forall (fun _ th => waiting lid th = false) (threads ls))) as [Hn|Hy].
  - exists O. unfold cond_signal. destruct (threads ls !! 0%nat) as [th|] eqn:E.
    + rewrite (Hn O th E). rewrite bool_decide_true by done. by eexists.
    + rewrite bool_decide_true by done. by eexists.
  - apply map_not_Forall in Hy as (u & th & Hu & Hw); [|apply _].
    exists u. unfold cond_signal. rewrite Hu. destruct (waiting lid th); [by eexists|done].
Qed.

Lemma mutex_owner_runs ls t th : threads ls !! t = Some th -> has_mutex (t_pc th) = true -> can_run ls.
Proof.
  intros Ht Hm. destruct (cond_signal_total ls (t_lid th)) as (pick & ls1 & Hs).
  exists t, th, pick. unfold run_thread. rewrite Ht.
  destruct (t_pc th) eqn:Hp; try done; try destruct (l_isLocked _); rewrite ?Hs; by eexists.
Qed.

Lemma mutex_wanted_runs ls t th :
  inv ls -> threads ls !! t = Some th -> t_pc th ∈ [A_lock; A_wake; R_lock] -> can_run ls.
Proof.
  intros Hinv Ht Hp. destruct (l_m (lock_at ls (t_lid th))) as [o|] eqn:Ho.
  - destruct (i_owner ls Hinv _ _ Ho) as (tho & H1 & _ & H3). by eapply mutex_owner_runs.
  - exists t, th, O. unfold run_thread. rewrite Ht. unfold mutex_lock. rewrite Ho.
    rewrite !elem_of_cons, elem_of_nil in Hp. destruct Hp as [->|[->|[->|[]]]]; by eexists.
Qed.

Lemma server_progress ls t th :
  inv ls -> threads ls !! t = Some th -> t_pc th <> A_return -> t_pc th <> R_return ->
  can_run ls \/ (t_pc th = A_wait /\ held (t_lid th) (events ls) = true).
Proof.
  intros Hinv Ht Hn1 Hn2. destruct (has_mutex (t_pc th)) eqn:Hm; [left; by eapply mutex_owner_runs|].
  destruct (t_pc th) eqn:Hp; try done.
  - left. exists t, th, O. unfold run_thread. rewrite Ht, Hp. by eexists.
  - left. exists t, th, O. unfold run_thread. rewrite Ht, Hp. by eexists.
  - left. eapply mutex_wanted_runs; [done|done|]. rewrite Hp. set_solver.
  - rewrite <- (i_flag ls Hinv). destruct (l_isLocked (lock_at ls (t_lid th))) eqn:Hl; [by right|left].
    destruct (i_wakeup ls Hinv t th Ht Hp Hl) as (u & thu & Hu & _ & Ha).
    destruct (has_mutex (t_pc thu)) eqn:Hmu; [by eapply mutex_owner_runs|].
    destruct (t_pc thu) eqn:Hpu; try done. eapply mutex_wanted_runs; [done|exact Hu|]. rewrite Hpu. set_solver.
  - left. eapply mutex_wanted_runs; [done|done|]. rewrite Hp. set_solver.
  - left. eapply mutex_wanted_runs; [done|done|]. rewrite Hp. set_solver.
Qed.

(** ** No lost wake-up *)

(** A step of a thread that is not asleep: no new request, no spurious wake-up. *)
Inductive awake_step (s s' : lock_server) : Prop :=
  | awake_run t th pick :
      threads s !! t = Some th -> t_pc th <> A_wait -> run_thread s t pick = Some s' -> awake_step s s'.

(** Every request has returned or waits for a lock that is held. *)
Definition settled (s : lock_server) : Prop :=
  map_Forall (fun _ th => t_pc th = A_return \/ t_pc th = R_return \/
    t_pc th = A_wait /\ held (t_lid th) (events s) = true) (threads s).
#[export] Instance settled_dec s : Decision (settled s).
Proof. unfold settled. apply _. Defined.

Lemma awake_calm s s' : awake_step s s' -> calm_step s s'.
Proof. intros [t th pick _ _ Hrun]. by eapply calm_run. Qed.

Lemma settled_or_awake s : inv s -> settled s \/ exists s', awake_step s s'.
Proof.
  intros Hinv. destruct (decide (settled s)) as [|Hn]; [by left|right].
  apply map_not_Forall in Hn as (t & th & Ht & Hn); [|apply _].
  destruct (server_progress s t th Hinv Ht) as [(u & thu & pick & s' & Hu & Hw & Hrun)|[Hp Hh]].
  - intros Hp. apply Hn. by left.
  - intros Hp. apply Hn. right. by left.
  - exists s'. by eapply awake_run.
  - destruct Hn. right. right. done.
Qed.

(** A request that has been granted its lock since [s] was at [A_wait] or before. *)
Definition got_since (s s' : lock_server) (t : nat) (lid : Z) : Prop :=
  exists es th, events s' = es ++ events s /\ threads s' !! t = Some th /\ t_lid th = lid /\
    acquiring (t_pc th) = true /\ (granted (t_pc th) = true -> exists clt, Granted clt lid ∈ es).

Lemma got_since_step s s1 s2 t lid : got_since s s1 t lid -> awake_step s1 s2 -> got_since s s2 t lid.
Proof.
  intros (es & th & He & Ht & Hl & Ha & Hg) [u thu pick Hu _ Hrun].
  destruct (run_thread_effect _ _ _ _ Hrun) as (th1 & p & Hu' & Hu2 & Hother & Hacq & Hgr & _ & He2).
  rewrite Hu in Hu'. injection Hu' as <-.
  set (new := match t_pc thu with A_set => _ | R_clear => _ | _ => [] end) in He2.
  exists (new ++ es). destruct (decide (u = t)) as [->|Hne].
  - rewrite Ht in Hu. injection Hu as <-. eexists. split; [by rewrite He2, He, (assoc_L (++))|]. split; [exact Hu2|].
    split; [done|]. split; [by cbn; rewrite Hacq|]. cbn [t_pc]. rewrite Hgr. intros [Hg1|Hset%bool_decide_eq_true]%orb_true_iff.
    + destruct (Hg Hg1) as (clt & Hin). exists clt. apply elem_of_app. by right.
    + exists (t_clt th). unfold new. rewrite Hset, Hl. apply elem_of_app. left. apply list_elem_of_here.
  - assert (forall clt, Granted clt lid ∈ es -> Granted clt lid ∈ new ++ es) as Hgrow
      by (intros; apply elem_of_app; by right).
    destruct (Hother t (not_eq_sym Hne)) as [Hsame|(th1 & H1 & Hw & H2)].
    + exists th. split; [by rewrite He2, He, (assoc_L (++))|]. rewrite Hsame. do 3 (split; [done|]). naive_solver.
    + rewrite Ht in H1. injection H1 as <-. eexists. split; [by rewrite He2, He, (assoc_L (++))|]. by rewrite H2.
Qed.

Lemma held_granted lid es es' :
  held lid (es ++ es') = true -> held lid es' = false -> exists clt, Granted clt lid ∈ es.
Proof.
  intros Hh Hn. induction es as [|e es IH]; [cbn in Hh; congruence|]. cbn [app held] in Hh.
  destruct (about lid e) eqn:Ea.
  - destruct e as [clt l|clt l]; [|done]. cbn in Ea. apply Z.eqb_eq in Ea as ->. exists clt. apply list_elem_of_here.
  - destruct (IH Hh) as (clt & Hin). exists clt. by right.
Qed.

(** C32. No lost wake-up. Under the condition of mutual_exclusion (a lock's first
    request gets past creating it before the next one comes in): if no new
    request comes in and waits only return when signalled, every step takes
    something off a measure, and as long as some request has neither returned nor
    waits for a lock that is held, some thread can make a step. So the server
    settles, whatever the schedule; and if a client was waiting for a lock that
    was not held, that lock has been granted again by then. *)
Theorem no_lost_wakeup s :
  rtc calm_step lock_server_new s ->
  (forall s', awake_step s s' -> (total pc_weight (threads s') < total pc_weight (threads s))%nat) /\
  (settled s \/ exists s', awake_step s s') /\
  (forall s' t th, rtc awake_step s s' -> settled s' ->
     threads s !! t = Some th -> t_pc th = A_wait -> held (t_lid th) (events s) = false ->
     exists es clt, events s' = es ++ events s /\ Granted clt (t_lid th) ∈ es).
Proof.
  intros Hs. pose proof (calm_inv s Hs) as Hinv. split; [|split].
  - intros s' [t th pick Ht Hn Hrun]. by eapply run_thread_weight.
  - by apply settled_or_awake.
  - intros s' t th Hr Hset Ht Hp Hfree.
    assert (got_since s s' t (t_lid th)) as (es & th' & He & Ht' & Hl & Ha & Hg).
    { apply (rtc_invariant awake_step (fun x => got_since s x t (t_lid th)) s); [|done|].
      - intros x y Hx Hxy. by eapply got_since_step.
      - exists [], th. do 3 (split; [done|]). rewrite Hp. done. }
    exists es. cut (exists clt, Granted clt (t_lid th) ∈ es); [naive_solver|].
    destruct (Hset t th' Ht') as [Hr'|[Hr'|[_ Hheld]]].
    + apply Hg. by rewrite Hr'.
    + by rewrite Hr' in Ha.
    + rewrite Hl, He in Hheld. by eapply held_granted.
Qed.

(** Client 8 has cleared the flag and is about to signal client 9. *)
Definition handover : option lock_server :=
  s ← contended; run_schedule (enter s 3 8 5 R_lock) [3; 3]%nat.

Lemma handover_reachable s : handover = Some s -> rtc calm_step lock_server_new s.
Proof.
  unfold handover. destruct contended as [s1|] eqn:E1; [|done]. cbn [mbind option_bind]. intros E2.
  assert (threads s1 !! 3%nat = None /\ is_some (locks s1 !! 5) = true) as [H1 H2].
  { vm_compute in E1. simplify_eq. by vm_compute. }
  etrans; [by eapply contended_reachable|].
  eapply rtc_l; [apply (calm_enter _ 3 8 5 R_lock); [done|by right|by left]|].
  by eapply run_schedule_calm_steps.
Qed.

Lemma no_lost_wakeup_witness :
  exists s, handover = Some s /\ threads s !! 2%nat = Some (Thread 9 5 A_wait) /\ held 5 (events s) = false /\
    exists s', awake_step s s'.
Proof.
  destruct handover as [s|] eqn:E; [|by vm_compute in E]. exists s. split; [done|].
  assert (threads s !! 2%nat = Some (Thread 9 5 A_wait) /\ held 5 (events s) = false) as [H1 H2].
  { vm_compute in E. simplify_eq. by vm_compute. }
  split; [done|]. split; [done|].
  destruct (no_lost_wakeup s (handover_reachable s E)) as (_ & [Hset|Hstep] & _); [|exact Hstep].
  destruct (Hset 2%nat _ H1) as [Hp|[Hp|[_ Hh]]]; [discriminate Hp|discriminate Hp|]. cbn in Hh. congruence.
Defined.
