(* ===== verification/LockTester.v ===== *)
(** * The lock tester: lock_tester.cc

    The tester's threads take and release locks through lock_client and count,
    in [ct], who is between a grant and a release. The model runs the threads
    of its tests 2 to 5 together with the lock server of LockServer: a call of
    the client is a request of the server that the thread waits for. test1, one
    client by itself, is run as a program and shown to come to its end. *)

From S2P Require Import Prelude LockServer LockLive.
Local Open Scope Z_scope.

(** ** The tester's own checks; exit(1) is [None] *)
Definition ct_new : list Z := replicate 256 0.

Definition check_grant (ct : list Z) (lid : Z) : option (list Z) :=
  let x := Z.to_nat (Z.land lid 255) in
  let c := default 0 (ct !! x) in
  if negb (c =? 0) then None else Some (<[x := c + 1]> ct).

Definition check_release (ct : list Z) (lid : Z) : option (list Z) :=
  let x := Z.to_nat (Z.land lid 255) in
  let c := default 0 (ct !! x) in
  if negb (c =? 1) then None else Some (<[x := c - 1]> ct).

(** ** Threads *)

(** Where a thread is in the body of its loop. *)
Inductive phase :=
  | T_next                 (** before lc[..]->acquire(a) *)
  | T_acquiring (t : nat)  (** in it, request [t] of the server *)
  | T_granted              (** before check_grant(a) *)
  | T_inside               (** before check_release(a) *)
  | T_leaving              (** before lc[..]->release(a) *)
  | T_releasing (t : nat). (** in it *)

Record tthread := TThread { tt_clt : Z; tt_lid : Z; tt_left : nat; tt_phase : phase }.
Definition set_phase (th : tthread) (p : phase) : tthread :=
  TThread (tt_clt th) (tt_lid th) (tt_left th) p.

Definition a : Z := 1.
Definition nt : nat := 10.

(** The threads main starts for each test; [lc i] is the id of client [i]. *)
Definition test2 (lc : nat -> Z) (i : nat) : tthread := TThread (lc i) a 1 T_next.
Definition test3 (lc : nat -> Z) (i : nat) : tthread := TThread (lc i) a 10 T_next.
Definition test4 (lc : nat -> Z) (i : nat) : tthread := TThread (lc 0%nat) a 10 T_next.
Definition test5 (lc : nat -> Z) (i : nat) : tthread :=
  TThread (if (i <? 5)%nat then lc 0%nat else lc 1%nat) a 10 T_next.

Definition started (n : nat) (test : nat -> tthread) : gmap nat tthread :=
  list_to_map (map (fun i => (i, test i)) (seq 0 n)).

Record tester := Tester { te_server : lock_server; te_ct : list Z; te_threads : gmap nat tthread }.
Definition advance (s : tester) (k : nat) (th : tthread) (p : phase) : tester :=
  Tester (te_server s) (te_ct s) (<[k := set_phase th p]> (te_threads s)).
Definition with_server (s : tester) (ls : lock_server) : tester :=
  Tester ls (te_ct s) (te_threads s).
Definition with_ct (s : tester) (ct : list Z) : tester :=
  Tester (te_server s) ct (te_threads s).

(** The steps of the tests' threads, each a loop of acquire, check_grant,
    check_release and release, and of the server. A call of lock_client is a
    request in a server thread of its own. *)
Inductive tester_step : tester -> tester -> Prop :=
  | t_acquire s k th n t :
      te_threads s !! k = Some th -> tt_phase th = T_next -> tt_left th = S n -> threads (te_server s) !! t = None ->
      tester_step s (advance (with_server s (enter (te_server s) t (tt_clt th) (tt_lid th) A_count))
                       k (TThread (tt_clt th) (tt_lid th) n T_next) (T_acquiring t))
  | t_acquired s k th t sth :
      te_threads s !! k = Some th -> tt_phase th = T_acquiring t ->
      threads (te_server s) !! t = Some sth -> t_pc sth = A_return ->
      tester_step s (advance s k th T_granted)
  | t_check_grant s k th ct :
      te_threads s !! k = Some th -> tt_phase th = T_granted -> check_grant (te_ct s) (tt_lid th) = Some ct ->
      tester_step s (advance (with_ct s ct) k th T_inside)
  | t_check_release s k th ct :
      te_threads s !! k = Some th -> tt_phase th = T_inside -> check_release (te_ct s) (tt_lid th) = Some ct ->
      tester_step s (advance (with_ct s ct) k th T_leaving)
  | t_release s k th t :
      te_threads s !! k = Some th -> tt_phase th = T_leaving -> threads (te_server s) !! t = None ->
      tester_step s (advance (with_server s (enter (te_server s) t (tt_clt th) (tt_lid th) R_lock))
                       k th (T_releasing t))
  | t_released s k th t sth :
      te_threads s !! k = Some th -> tt_phase th = T_releasing t ->
      threads (te_server s) !! t = Some sth -> t_pc sth = R_return ->
      tester_step s (advance s k th T_next)
  | t_server s t pick ls : run_thread (te_server s) t pick = Some ls -> tester_step s (with_server s ls).

(** ** The invariant *)
Definition request (th : tthread) : option nat :=
  match tt_phase th with T_acquiring t | T_releasing t => Some t | _ => None end.
Definition wants (th : tthread) : bool := match tt_phase th with T_acquiring _ => true | _ => false end.

(** A thread holds its lock from the moment the server grants it until the
    moment the server clears the flag. *)
Definition holds (ls : lock_server) (th : tthread) : bool :=
  match tt_phase th with
  | T_next => false
  | T_acquiring t => match threads ls !! t with Some sth => granted (t_pc sth) | None => false end
  | T_granted | T_inside | T_leaving => true
  | T_releasing t => match threads ls !! t with Some sth => unreleased (t_pc sth) | None => false end
  end.

Definition inside (th : tthread) : bool := match tt_phase th with T_inside => true | _ => false end.
Definition slot (th : tthread) : nat := Z.to_nat (Z.land (tt_lid th) 255).

(** Every unfinished request is the call of exactly one thread. *)
Record requests_ok (ls : lock_server) (ts : gmap nat tthread) : Prop := {
  r_request k th t : ts !! k = Some th -> request th = Some t ->
    exists sth, threads ls !! t = Some sth /\ t_lid sth = tt_lid th /\ acquiring (t_pc sth) = wants th;
  r_own k k' th th' t : ts !! k = Some th -> ts !! k' = Some th' ->
    request th = Some t -> request th' = Some t -> k = k';
  r_idle t sth : threads ls !! t = Some sth ->
    (exists k th, ts !! k = Some th /\ request th = Some t) \/ t_pc sth = A_return \/ t_pc sth = R_return }.

(** A lock has at most one holder, and then the server has it as held. *)
Record holders_ok (ls : lock_server) (ts : gmap nat tthread) : Prop := {
  h_held k th : ts !! k = Some th -> holds ls th = true -> held (tt_lid th) (events ls) = true;
  h_unique k k' th th' : ts !! k = Some th -> ts !! k' = Some th' ->
    holds ls th = true -> holds ls th' = true -> tt_lid th = tt_lid th' -> k = k' }.

(** [ct] counts the threads between their two checks. *)
Record counts_ok (ct : list Z) (ts : gmap nat tthread) : Prop := {
  c_length : length ct = 256%nat;
  c_inside k th : ts !! k = Some th -> inside th = true -> ct !! slot th = Some 1;
  c_outside x : (x < 256)%nat -> (forall k th, ts !! k = Some th -> inside th = true -> slot th <> x) ->
    ct !! x = Some 0 }.

(** The names of the locks differ in their first byte. *)
Definition names_ok (ts : gmap nat tthread) : Prop :=
  forall k k' th th', ts !! k = Some th -> ts !! k' = Some th' -> slot th = slot th' -> tt_lid th = tt_lid th'.

(** The locks the threads use are in the server's table: nobody creates them. *)
Definition made_locks (ls : lock_server) (ts : gmap nat tthread) : Prop :=
  map_Forall (fun _ th => is_some (locks ls !! tt_lid th) = true) ts.

Record tinv (s : tester) : Prop := {
  j_server : inv (te_server s);
  j_requests : requests_ok (te_server s) (te_threads s);
  j_holders : holders_ok (te_server s) (te_threads s);
  j_counts : counts_ok (te_ct s) (te_threads s);
  j_names : names_ok (te_threads s);
  j_made : made_locks (te_server s) (te_threads s) }.

Lemma slot_bound th : (slot th < 256)%nat.
Proof.
  unfold slot. change 255 with (Z.ones 8). rewrite Z.land_ones by lia.
  pose proof (Z.mod_pos_bound (tt_lid th) (2 ^ 8)). lia.
Qed.

Lemma names_ok_insert ts k th th' :
  names_ok ts -> ts !! k = Some th -> tt_lid th' = tt_lid th -> names_ok (<[k := th']> ts).
Proof.
  intros Hn Hk Hl k1 k2 th1 th2 H1 H2 Hs.
  apply lookup_insert_Some in H1 as [[<- <-]|[_ H1]]; apply lookup_insert_Some in H2 as [[<- <-]|[_ H2]].
  - done.
  - rewrite Hl. apply (Hn k k2 th th2); [done|done|]. unfold slot in *. by rewrite <- Hl.
  - rewrite Hl. apply (Hn k1 k th1 th); [done|done|]. unfold slot in *. by rewrite <- Hl.
  - by apply (Hn k1 k2).
Qed.

(** A step of one thread that leaves who holds what as it is. *)
Lemma holders_insert ls ls' ts k th th' :
  holders_ok ls ts -> ts !! k = Some th -> tt_lid th' = tt_lid th -> holds ls' th' = holds ls th ->
  events ls' = events ls -> (forall k2 th2, k2 <> k -> ts !! k2 = Some th2 -> holds ls' th2 = holds ls th2) ->
  holders_ok ls' (<[k := th']> ts).
Proof.
  intros [Hh Hu] Hk Hl Hhold He Hother. split.
  - intros k1 th1 H1. rewrite He. apply lookup_insert_Some in H1 as [[<- <-]|[Hne H1]].
    + rewrite Hhold, Hl. by apply (Hh k).
    + rewrite (Hother k1) by done. by apply (Hh k1).
  - intros k1 k2 th1 th2 H1 H2.
    apply lookup_insert_Some in H1 as [[<- <-]|[Hne1 H1]]; apply lookup_insert_Some in H2 as [[<- <-]|[Hne2 H2]];
      [done| | |]; rewrite ?Hhold, ?Hl, ?(Hother k1 th1), ?(Hother k2 th2) by done; by apply Hu.
Qed.

(** A step that does not pass a check. *)
Lemma counts_insert ct ts k th th' :
  counts_ok ct ts -> ts !! k = Some th -> inside th = false -> inside th' = false ->
  counts_ok ct (<[k := th']> ts).
Proof.
  intros [Hlen Hin Hout] Hk Hi Hi'. split; [done| |].
  - intros k1 th1 H1 Hins. apply lookup_insert_Some in H1 as [[<- <-]|[_ H1]]; [congruence|]. by apply (Hin k1).
  - intros x Hx Hno. apply Hout; [done|]. intros k1 th1 H1 Hins. apply (Hno k1 th1); [|done].
    rewrite lookup_insert_ne; [done|]. congruence.
Qed.

(** Nobody else is inside while a thread holds a lock of the same name. *)
Lemma alone s k th k' th' :
  tinv s -> te_threads s !! k = Some th -> holds (te_server s) th = true ->
  te_threads s !! k' = Some th' -> inside th' = true -> slot th' = slot th -> k' = k.
Proof.
  intros [_ _ Hh _ Hn _] Hk Hhold Hk' Hin Hs. apply (h_unique _ _ Hh k' k th' th); try done.
  - unfold holds, inside in *. by destruct (tt_phase th').
  - by apply (Hn k' k).
Qed.

(** The checks never fail. *)
Lemma check_grant_ok s k th :
  tinv s -> te_threads s !! k = Some th -> tt_phase th = T_granted ->
  check_grant (te_ct s) (tt_lid th) = Some (<[slot th := 1]> (te_ct s)).
Proof.
  intros Hinv Hk Hp. unfold check_grant. fold (slot th).
  rewrite (c_outside _ _ (j_counts s Hinv) (slot th) (slot_bound th)); [done|].
  intros k' th' Hk' Hin Hs. assert (k' = k) as ->.
  { apply (alone s k th k' th'); try done. unfold holds. by rewrite Hp. }
  rewrite Hk in Hk'. injection Hk' as <-. unfold inside in Hin. by rewrite Hp in Hin.
Qed.

Lemma check_release_ok s k th :
  tinv s -> te_threads s !! k = Some th -> tt_phase th = T_inside ->
  check_release (te_ct s) (tt_lid th) = Some (<[slot th := 0]> (te_ct s)).
Proof.
  intros Hinv Hk Hp. unfold check_release. fold (slot th).
  rewrite (c_inside _ _ (j_counts s Hinv) k th); [done|done|]. unfold inside. by rewrite Hp.
Qed.

Lemma requests_enter ls ts k th th' t clt p :
  requests_ok ls ts -> ts !! k = Some th -> request th = None -> request th' = Some t ->
  threads ls !! t = None -> acquiring p = wants th' ->
  requests_ok (enter ls t clt (tt_lid th') p) (<[k := th']> ts).
Proof.
  intros [Hr Ho Hi] Hk Hn Hreq Hfree Hp.
  assert (forall k1 th1 t1, ts !! k1 = Some th1 -> request th1 = Some t1 -> t1 <> t) as Hold.
  { intros k1 th1 t1 H1 E ->. destruct (Hr _ _ _ H1 E) as (sth & Hs & _). congruence. }
  split; cbn [enter threads].
  - intros k1 th1 t1 H1 E. apply lookup_insert_Some in H1 as [[<- <-]|[_ H1]].
    + rewrite Hreq in E. injection E as <-. rewrite lookup_insert_eq. by eexists.
    + pose proof (Hold _ _ _ H1 E). rewrite lookup_insert_ne by done. by apply (Hr k1).
  - intros k1 k2 th1 th2 t1 H1 H2 E1 E2.
    apply lookup_insert_Some in H1 as [[<- <-]|[_ H1]]; apply lookup_insert_Some in H2 as [[<- <-]|[_ H2]];
      [done| | |by eapply Ho].
    + destruct (Hold k2 th2 t1 H2 E2). congruence.
    + destruct (Hold k1 th1 t1 H1 E1). congruence.
  - intros t1 sth Hs. apply lookup_insert_Some in Hs as [[<- <-]|[Hne Hs]].
    + left. exists k, th'. by rewrite lookup_insert_eq.
    + destruct (Hi t1 sth Hs) as [(k1 & th1 & H1 & E)|?]; [left|by right]. exists k1, th1.
      rewrite lookup_insert_ne; [done|]. congruence.
Qed.

Lemma requests_done ls ts k th th' :
  requests_ok ls ts -> ts !! k = Some th -> request th' = None ->
  (forall t sth, request th = Some t -> threads ls !! t = Some sth -> t_pc sth = A_return \/ t_pc sth = R_return) ->
  requests_ok ls (<[k := th']> ts).
Proof.
  intros [Hr Ho Hi] Hk Hn Hret. split.
  - intros k1 th1 t1 H1 E. apply lookup_insert_Some in H1 as [[<- <-]|[_ H1]]; [congruence|]. by apply (Hr k1).
  - intros k1 k2 th1 th2 t1 H1 H2 E1 E2.
    apply lookup_insert_Some in H1 as [[<- <-]|[_ H1]]; [congruence|].
    apply lookup_insert_Some in H2 as [[<- <-]|[_ H2]]; [congruence|]. by eapply Ho.
  - intros t1 sth Hs. destruct (Hi t1 sth Hs) as [(k1 & th1 & H1 & E)|?]; [|by right].
    destruct (decide (k1 = k)) as [->|Hne].
    + right. rewrite Hk in H1. injection H1 as <-. by apply (Hret t1).
    + left. exists k1, th1. by rewrite lookup_insert_ne.
Qed.

(** A thread's request does not see the others' requests come in. *)
Lemma holds_enter ls ts k th t clt lid p :
  requests_ok ls ts -> ts !! k = Some th -> threads ls !! t = None ->
  holds (enter ls t clt lid p) th = holds ls th.
Proof.
  intros [Hr _ _] Hk Hfree. unfold holds. pose proof (fun t' => Hr k th t' Hk) as Hreq. unfold request in Hreq.
  destruct (tt_phase th) as [|t'| | | |t']; try done;
    destruct (Hreq t' eq_refl) as (sth & Hs & _); cbn [enter threads]; rewrite lookup_insert_ne by congruence; done.
Qed.

(** A server step seen from a tester thread. *)
Lemma undisturbed_lookup ls ls' t sth :
  undisturbed ls ls' t -> threads ls !! t = Some sth ->
  exists sth', threads ls' !! t = Some sth' /\ t_lid sth' = t_lid sth /\
    acquiring (t_pc sth') = acquiring (t_pc sth) /\ granted (t_pc sth') = granted (t_pc sth) /\
    unreleased (t_pc sth') = unreleased (t_pc sth).
Proof.
  intros [He|(th & Hth & Hp & He)] Hs; rewrite He; [by exists sth|].
  rewrite Hth in Hs. injection Hs as <-. eexists. split; [done|]. by rewrite Hp.
Qed.

Lemma undisturbed_back ls ls' t sth' :
  undisturbed ls ls' t -> threads ls' !! t = Some sth' ->
  exists sth, threads ls !! t = Some sth /\ (t_pc sth' = t_pc sth \/ t_pc sth = A_wait).
Proof.
  intros [He|(th & Hth & Hp & He)] Hs; rewrite He in Hs.
  - exists sth'. split; [done|by left].
  - exists th. split; [done|by right].
Qed.

Lemma requests_run ls ts t pick ls' :
  requests_ok ls ts -> run_thread ls t pick = Some ls' -> requests_ok ls' ts.
Proof.
  intros [Hr Ho Hi] Hrun. pose proof Hrun as (th & p & Ht & Ht' & Hu & Hacq & _)%run_thread_effect.
  split; [|done|].
  - intros k1 th1 t1 H1 E. destruct (Hr k1 th1 t1 H1 E) as (sth & Hs & Hl & Ha).
    destruct (decide (t1 = t)) as [->|Hne].
    + rewrite Ht in Hs. injection Hs as <-. eexists. split; [exact Ht'|]. cbn [t_lid t_pc]. by rewrite Hacq.
    + destruct (undisturbed_lookup _ _ _ _ (Hu t1 Hne) Hs) as (sth' & Hs' & Hl' & Ha' & _).
      exists sth'. split; [done|]. by rewrite Hl', Ha'.
  - intros t1 sth' Hs'.
    assert (exists sth, threads ls !! t1 = Some sth /\ (t1 = t \/ t_pc sth' = t_pc sth \/ t_pc sth = A_wait))
      as (sth & Hs & Hpc).
    { destruct (decide (t1 = t)) as [->|Hne]; [exists th; auto|].
      destruct (undisturbed_back _ _ _ _ (Hu t1 Hne) Hs') as (sth & Hs & Hpc). exists sth. auto. }
    destruct (Hi t1 sth Hs) as [?|Hret]; [by left|]. destruct Hpc as [->|[Hpc|Hpc]].
    + rewrite Ht in Hs. injection Hs as <-. unfold run_thread in Hrun. rewrite Ht in Hrun.
      destruct Hret as [Hp|Hp]; by rewrite Hp in Hrun.
    + right. by rewrite Hpc.
    + rewrite Hpc in Hret. by destruct Hret.
Qed.

Lemma holds_run ls ts t ls' th p k th1 :
  requests_ok ls ts -> threads ls !! t = Some th ->
  threads ls' !! t = Some (Thread (t_clt th) (t_lid th) p) -> (forall t', t' <> t -> undisturbed ls ls' t') ->
  ts !! k = Some th1 ->
  holds ls' th1 = if decide (request th1 = Some t) then (if wants th1 then granted p else unreleased p)
                  else holds ls th1.
Proof.
  intros [Hr _ _] Ht Ht' Hu Hk. pose proof (fun t' => Hr k th1 t' Hk) as Hreq. unfold request, wants in *. unfold holds.
  destruct (tt_phase th1) as [|t1| | | |t1]; try done; destruct (Hreq t1 eq_refl) as (sth & Hs & _);
    case_decide as E; [by injection E as ->; rewrite Ht'| |by injection E as ->; rewrite Ht'|];
    (destruct (undisturbed_lookup _ _ _ _ (Hu t1 ltac:(congruence)) Hs) as (sth' & -> & _ & _ & Hg & Hun));
    by rewrite Hs.
Qed.

(** The thread whose request a running server thread serves. *)
Lemma served_by ls ts t th :
  requests_ok ls ts -> threads ls !! t = Some th -> t_pc th <> A_return -> t_pc th <> R_return ->
  exists k th1, ts !! k = Some th1 /\ request th1 = Some t /\ tt_lid th1 = t_lid th /\
    wants th1 = acquiring (t_pc th).
Proof.
  intros Hr Ht Hn1 Hn2. destruct (r_idle _ _ Hr t th Ht) as [(k & th1 & Hk & E)|[?|?]]; [|done|done].
  destruct (r_request _ _ Hr k th1 t Hk E) as (sth & Hs & Hl & Ha). rewrite Ht in Hs. injection Hs as <-.
  by exists k, th1.
Qed.

Lemma holds_request ls ts k th1 t th :
  requests_ok ls ts -> ts !! k = Some th1 -> request th1 = Some t -> threads ls !! t = Some th ->
  holds ls th1 = if wants th1 then granted (t_pc th) else unreleased (t_pc th).
Proof.
  intros Hr Hk E Ht. unfold holds, wants, request in *.
  destruct (tt_phase th1); try done; injection E as ->; by rewrite Ht.
Qed.

Lemma held_other lid lid' es e :
  about lid e = true -> lid <> lid' -> held lid' (e :: es) = held lid' es.
Proof.
  intros Ha Hne. cbn [held]. destruct (about lid' e) eqn:E; [|done].
  destruct e; cbn in *; bool_to_prop; congruence.
Qed.

(** A server step seen from all of them: only the thread it runs for can come to
    hold its lock or cease to. *)
Lemma run_holds ls ts t pick ls' :
  requests_ok ls ts -> run_thread ls t pick = Some ls' ->
  exists th k0 th0, threads ls !! t = Some th /\ ts !! k0 = Some th0 /\ request th0 = Some t /\ tt_lid th0 = t_lid th /\
    (forall k th1, ts !! k = Some th1 -> k <> k0 -> holds ls' th1 = holds ls th1) /\
    match t_pc th with
    | A_set => holds ls' th0 = true /\ events ls' = Granted (t_clt th) (t_lid th) :: events ls
    | R_clear => holds ls th0 = true /\ holds ls' th0 = false /\
                 events ls' = Released (t_clt th) (t_lid th) :: events ls
    | _ => holds ls' th0 = holds ls th0 /\ events ls' = events ls
    end.
Proof.
  intros Hr Hrun. pose proof Hrun as (th & p & Ht & Ht' & Hu & _ & Hg & Hun & He)%run_thread_effect.
  assert (t_pc th <> A_return /\ t_pc th <> R_return) as [Hnr1 Hnr2].
  { unfold run_thread in Hrun. rewrite Ht in Hrun. by split; intros Hp; rewrite Hp in Hrun. }
  destruct (served_by ls ts t th Hr Ht Hnr1 Hnr2) as (k0 & th0 & Hk0 & E0 & Hl0 & Hw0).
  pose proof (fun k th1 => holds_run ls ts t ls' th p k th1 Hr Ht Ht' Hu) as Hholds.
  exists th, k0, th0. do 4 (split; [done|]). split.
  - intros k th1 Hk Hne. rewrite (Hholds k th1 Hk). destruct (decide (request th1 = Some t)) as [E|]; [|reflexivity].
    destruct Hne. by eapply (r_own _ _ Hr).
  - pose proof (holds_request ls ts k0 th0 t th Hr Hk0 E0 Ht) as H0. pose proof (Hholds k0 th0 Hk0) as H0'.
    rewrite decide_True in H0' by done. rewrite H0, H0', Hw0, Hg, Hun, He. clear.
    destruct (t_pc th); cbn; repeat case_bool_decide; done.
Qed.

Lemma holders_run ls ts t pick ls' :
  inv ls -> requests_ok ls ts -> holders_ok ls ts -> run_thread ls t pick = Some ls' -> holders_ok ls' ts.
Proof.
  intros Hinv Hr [Hh Huq] Hrun.
  destruct (run_holds ls ts t pick ls' Hr Hrun) as (th & k0 & th0 & Ht & Hk0 & E0 & Hl0 & Hother & Hpc).
  destruct (decide (t_pc th = A_set)) as [Hset|Hset]; [|destruct (decide (t_pc th = R_clear)) as [Hclr|Hclr]].
  - (* the grant *)
    rewrite Hset in Hpc. destruct Hpc as [_ He].
    pose proof (i_set ls Hinv t th Ht Hset) as Hfree. rewrite (i_flag ls Hinv) in Hfree.
    assert (forall k th1, ts !! k = Some th1 -> k <> k0 -> holds ls' th1 = true -> tt_lid th1 <> t_lid th) as Hno.
    { intros k th1 Hk Hne Hhold Hl. rewrite (Hother k th1 Hk Hne) in Hhold. pose proof (Hh k th1 Hk Hhold). congruence. }
    split.
    + intros k th1 Hk Hhold. rewrite He. destruct (decide (k = k0)) as [->|Hne].
      * rewrite Hk0 in Hk. injection Hk as <-. cbn [held about]. by rewrite Hl0, Z.eqb_refl.
      * rewrite (held_other (t_lid th)); [|by cbn; rewrite Z.eqb_refl|by apply not_eq_sym, (Hno k)].
        apply (Hh k); [done|]. by rewrite <- (Hother k th1).
    + intros k1 k2 th1 th2 H1 H2 Hh1 Hh2 Hl.
      destruct (decide (k1 = k0)) as [->|N1], (decide (k2 = k0)) as [->|N2].
      * done.
      * destruct (Hno k2 th2 H2 N2 Hh2). congruence.
      * destruct (Hno k1 th1 H1 N1 Hh1). congruence.
      * rewrite (Hother k1 th1), (Hother k2 th2) in * by done. by apply (Huq k1 k2 th1 th2).
  - (* the release *)
    rewrite Hclr in Hpc. destruct Hpc as (H0 & H0' & He).
    assert (forall k th1, ts !! k = Some th1 -> holds ls' th1 = true -> k <> k0) as Hnot
      by (intros k th1 Hk Hhold ->; congruence).
    split.
    + intros k th1 Hk Hhold. pose proof (Hnot k th1 Hk Hhold) as Hne. rewrite (Hother k th1 Hk Hne) in Hhold.
      rewrite He, (held_other (t_lid th)); [by apply (Hh k)|by cbn; rewrite Z.eqb_refl|].
      intros Hl. apply Hne, (Huq k k0 th1 th0); congruence.
    + intros k1 k2 th1 th2 H1 H2 Hh1 Hh2 Hl. rewrite (Hother k1 th1 H1 (Hnot k1 th1 H1 Hh1)) in Hh1.
      rewrite (Hother k2 th2 H2 (Hnot k2 th2 H2 Hh2)) in Hh2. by apply (Huq k1 k2 th1 th2).
  - (* any other step *)
    assert (holds ls' th0 = holds ls th0 /\ events ls' = events ls) as [H0 He] by (by destruct (t_pc th)).
    assert (forall k th1, ts !! k = Some th1 -> holds ls' th1 = holds ls th1) as Hsame.
    { intros k th1 Hk. destruct (decide (k = k0)) as [->|]; [|by apply (Hother k)]. congruence. }
    split.
    + intros k th1 Hk. rewrite (Hsame k th1 Hk), He. by apply (Hh k).
    + intros k1 k2 th1 th2 H1 H2. rewrite (Hsame k1 th1 H1), (Hsame k2 th2 H2). by apply Huq.
Qed.

(** The checks themselves. *)
Lemma counts_grant s k th :
  tinv s -> te_threads s !! k = Some th -> tt_phase th = T_granted ->
  counts_ok (<[slot th := 1]> (te_ct s)) (<[k := set_phase th T_inside]> (te_threads s)).
Proof.
  intros Hinv Hk Hp. pose proof (j_counts s Hinv) as [Hlen Hin Hout].
  assert (slot th < length (te_ct s))%nat as Hb by (rewrite Hlen; apply slot_bound).
  split; [by rewrite length_insert| |].
  - intros k1 th1 H1 Hi. destruct (decide (slot th1 = slot th)) as [->|Hne]; [by apply list_lookup_insert_eq|].
    rewrite list_lookup_insert_ne by done.
    apply lookup_insert_Some in H1 as [[<- <-]|[_ H1]]; [done|by apply (Hin k1)].
  - intros x Hx Hno. rewrite list_lookup_insert_ne.
    2: { intros <-. apply (Hno k (set_phase th T_inside)); [by rewrite lookup_insert_eq|done|done]. }
    apply Hout; [done|]. intros k1 th1 H1 Hi. apply (Hno k1 th1); [|done].
    rewrite lookup_insert_ne; [done|]. intros <-. rewrite Hk in H1. injection H1 as <-.
    unfold inside in Hi. by rewrite Hp in Hi.
Qed.

Lemma counts_release s k th :
  tinv s -> te_threads s !! k = Some th -> tt_phase th = T_inside ->
  counts_ok (<[slot th := 0]> (te_ct s)) (<[k := set_phase th T_leaving]> (te_threads s)).
Proof.
  intros Hinv Hk Hp. pose proof (j_counts s Hinv) as [Hlen Hin Hout].
  assert (slot th < length (te_ct s))%nat as Hb by (rewrite Hlen; apply slot_bound).
  assert (holds (te_server s) th = true) as Hhold by (unfold holds; by rewrite Hp).
  split; [by rewrite length_insert| |].
  - intros k1 th1 H1 Hi. apply lookup_insert_Some in H1 as [[<- <-]|[Hne H1]]; [done|].
    rewrite list_lookup_insert_ne; [by apply (Hin k1)|]. intros Hs. apply Hne. symmetry.
    by apply (alone s k th k1 th1).
  - intros x Hx Hno. destruct (decide (slot th = x)) as [<-|Hne]; [by apply list_lookup_insert_eq|].
    rewrite list_lookup_insert_ne by done. apply Hout; [done|]. intros k1 th1 H1 Hi.
    destruct (decide (k1 = k)) as [->|]; [congruence|]. apply (Hno k1 th1); [by rewrite lookup_insert_ne|done].
Qed.

Lemma made_insert ls ts k th th' :
  made_locks ls ts -> ts !! k = Some th -> tt_lid th' = tt_lid th -> made_locks ls (<[k := th']> ts).
Proof. intros Hm Hk Hl. apply map_Forall_insert_2; [rewrite Hl; by apply (Hm k)|done]. Qed.

(** A request for a lock that is there. *)
Lemma enter_calm s k th t p :
  tinv s -> te_threads s !! k = Some th -> threads (te_server s) !! t = None -> p = A_count \/ p = R_lock ->
  calm_step (te_server s) (enter (te_server s) t (tt_clt th) (tt_lid th) p).
Proof. intros Hinv Hk Ht Hp. apply calm_enter; [done|done|]. left. by apply (j_made s Hinv k). Qed.

Lemma tinv_step s s' : tinv s -> tester_step s s' -> tinv s'.
Proof.
  intros Hinv Hstep. pose proof Hinv as [Hs Hr Hh Hc Hn Hm].
  destruct Hstep as [s k th n t Hk Hp Hl Ht|s k th t sth Hk Hp Hth Hret|s k th ct Hk Hp Hct|s k th ct Hk Hp Hct
                    |s k th t Hk Hp Ht|s k th t sth Hk Hp Hth Hret|s t pick ls Hrun].
  - set (th' := set_phase (TThread (tt_clt th) (tt_lid th) n T_next) (T_acquiring t)).
    split; cbn [te_server te_threads te_ct advance with_server].
    + eapply inv_step; [exact Hs|]. by apply (enter_calm s k); [| | |left].
    + apply (requests_enter _ _ k th th'); try done; unfold request; by rewrite Hp.
    + apply (holders_insert (te_server s) _ _ k th); try done.
      * unfold holds. cbn [tt_phase th' set_phase enter threads]. by rewrite Hp, lookup_insert_eq.
      * intros k2 th2 _ H2. by apply (holds_enter _ (te_threads s) k2).
    + apply (counts_insert _ _ k th); try done. unfold inside. by rewrite Hp.
    + by apply (names_ok_insert _ k th).
    + by apply (made_insert _ _ k th).
  - split; cbn [te_server te_threads te_ct advance].
    + done.
    + apply (requests_done _ _ k th); try done. intros t1 sth1. unfold request. rewrite Hp.
      intros [= <-] Hs1. left. congruence.
    + apply (holders_insert (te_server s) _ _ k th); try done. unfold holds. rewrite Hp. cbn. by rewrite Hth, Hret.
    + apply (counts_insert _ _ k th); try done. unfold inside. by rewrite Hp.
    + by apply (names_ok_insert _ k th).
    + by apply (made_insert _ _ k th).
  - rewrite (check_grant_ok s k th Hinv Hk Hp) in Hct. injection Hct as <-.
    split; cbn [te_server te_threads te_ct advance with_ct].
    + done.
    + apply (requests_done _ _ k th); try done. unfold request. by rewrite Hp.
    + apply (holders_insert (te_server s) _ _ k th); try done. unfold holds. by rewrite Hp.
    + by apply counts_grant.
    + by apply (names_ok_insert _ k th).
    + by apply (made_insert _ _ k th).
  - rewrite (check_release_ok s k th Hinv Hk Hp) in Hct. injection Hct as <-.
    split; cbn [te_server te_threads te_ct advance with_ct].
    + done.
    + apply (requests_done _ _ k th); try done. unfold request. by rewrite Hp.
    + apply (holders_insert (te_server s) _ _ k th); try done. unfold holds. by rewrite Hp.
    + by apply counts_release.
    + by apply (names_ok_insert _ k th).
    + by apply (made_insert _ _ k th).
  - split; cbn [te_server te_threads te_ct advance with_server].
    + eapply inv_step; [exact Hs|]. by apply (enter_calm s k); [| | |right].
    + apply (requests_enter _ _ k th (set_phase th (T_releasing t))); try done; unfold request; by rewrite Hp.
    + apply (holders_insert (te_server s) _ _ k th); try done.
      * unfold holds. cbn [tt_phase set_phase enter threads]. by rewrite Hp, lookup_insert_eq.
      * intros k2 th2 _ H2. by apply (holds_enter _ (te_threads s) k2).
    + apply (counts_insert _ _ k th); try done. unfold inside. by rewrite Hp.
    + by apply (names_ok_insert _ k th).
    + by apply (made_insert _ _ k th).
  - split; cbn [te_server te_threads te_ct advance].
    + done.
    + apply (requests_done _ _ k th); try done. intros t1 sth1. unfold request. rewrite Hp.
      intros [= <-] Hs1. right. congruence.
    + apply (holders_insert (te_server s) _ _ k th); try done. unfold holds. rewrite Hp. cbn. by rewrite Hth, Hret.
    + apply (counts_insert _ _ k th); try done. unfold inside. by rewrite Hp.
    + by apply (names_ok_insert _ k th).
    + by apply (made_insert _ _ k th).
  - split; cbn [te_server te_threads te_ct with_server]; [|by eapply requests_run|by eapply holders_run|done|done|].
    + eapply inv_step; [exact Hs|by eapply calm_run].
    + intros k th Hk. by eapply run_thread_locks, (Hm k).
Qed.

(** ** Starting a test on a quiet server *)
Definition quiet (ls : lock_server) : Prop :=
  rtc calm_step lock_server_new ls /\
  map_Forall (fun _ th => t_pc th = A_return \/ t_pc th = R_return) (threads ls).

Lemma started_lookup n test k th : started n test !! k = Some th -> th = test k.
Proof.
  unfold started. intros Hk%elem_of_list_to_map_2. apply list_elem_of_fmap in Hk as (i & E & _). by simplify_eq.
Qed.

Lemma tinv_start ls n test :
  quiet ls -> is_some (locks ls !! a) = true -> (forall i, tt_phase (test i) = T_next) -> (forall i, tt_lid (test i) = a) ->
  tinv (Tester ls ct_new (started n test)).
Proof.
  intros [Hreach Hq] Hmade Hp Hl.
  split; cbn [te_server te_threads te_ct].
  - by apply calm_inv.
  - split.
    + intros k th t Hk%started_lookup. subst th. unfold request. by rewrite Hp.
    + intros k k' th th' t Hk%started_lookup _. subst th. unfold request. by rewrite Hp.
    + intros t sth Hs. right. by apply (Hq t).
  - split; intros k; [intros th Hk%started_lookup|intros k' th th' Hk%started_lookup _]; subst th; unfold holds; by rewrite Hp.
  - split; [done| |].
    + intros k th Hk%started_lookup. subst th. unfold inside. by rewrite Hp.
    + intros x Hx _. unfold ct_new. by apply lookup_replicate_2.
  - intros k k' th th' Hk%started_lookup Hk'%started_lookup _. subst. by rewrite !Hl.
  - intros k th Hk%started_lookup. subst. by rewrite Hl.
Qed.

(** The lock tester never complains. Run the threads of tests 2 to 5, any
    number of them, against a lock server that serves no other requests and has
    the lock in its table already: in every interleaving of the threads and of the
    server's own threads, a check_grant never finds the lock counted already and a
    check_release never finds it not counted: no two clients are between a grant
    and a release. *)
Theorem lock_tester_never_fails ls lc n test s :
  quiet ls -> is_some (locks ls !! a) = true -> test ∈ [test2 lc; test3 lc; test4 lc; test5 lc] ->
  rtc tester_step (Tester ls ct_new (started n test)) s ->
  (forall k th, te_threads s !! k = Some th -> tt_phase th = T_granted ->
     exists ct, check_grant (te_ct s) (tt_lid th) = Some ct) /\
  (forall k th, te_threads s !! k = Some th -> tt_phase th = T_inside ->
     exists ct, check_release (te_ct s) (tt_lid th) = Some ct) /\
  (forall k k' th th', te_threads s !! k = Some th -> te_threads s !! k' = Some th' ->
     inside th = true -> inside th' = true -> tt_lid th = tt_lid th' -> k = k').
Proof.
  intros Hq Hmade Htest Hr. assert (tinv s) as Hinv.
  { apply (rtc_invariant tester_step tinv (Tester ls ct_new (started n test))); [apply tinv_step|done|].
    assert ((forall i, tt_phase (test i) = T_next) /\ forall i, tt_lid (test i) = a) as [H1 H2];
      [|by apply tinv_start].
    rewrite !elem_of_cons, elem_of_nil in Htest. destruct Htest as [->|[->|[->|[->|[]]]]]; done. }
  split; [|split].
  - intros k th Hk Hp. eexists. by apply (check_grant_ok s k th).
  - intros k th Hk Hp. eexists. by apply (check_release_ok s k th).
  - intros k k' th th' Hk Hk' Hi Hi' Hl. apply (h_unique _ _ (j_holders s Hinv) k k' th th'); try done.
    + unfold holds, inside in *. by destruct (tt_phase th).
    + unfold holds, inside in *. by destruct (tt_phase th').
Qed.

(** ** test1: one client by itself

    The main thread calls one client and nobody else uses the server: each
    request runs alone until it returns. The scheduler's choice at a signal does
    not matter, as nobody waits. *)
Definition b : Z := 2.

Fixpoint run_alone (fuel : nat) (ls : lock_server) (t : nat) : lock_server :=
  match fuel with
  | O => ls
  | S fuel => match run_thread ls t t with Some ls => run_alone fuel ls t | None => ls end
  end.

(** A call of lock_client: the server's state when the request has returned, at
    most [fuel] steps later; [None] if it has not. *)
Definition call_alone (fuel : nat) (ls : lock_server) (t : nat) (clt lid : Z) (p : pc) : option lock_server :=
  let ls := run_alone fuel (enter ls t clt lid p) t in
  match threads ls !! t with
  | Some th => if bool_decide (t_pc th = A_return \/ t_pc th = R_return) then Some ls else None
  | None => None
  end.

Inductive instr := Acquire (lid : Z) | Release (lid : Z) | CheckGrant (lid : Z) | CheckRelease (lid : Z).

(** The longest request, an acquire that makes its lock, takes six steps. *)
Fixpoint run_test (prog : list instr) (clt : Z) (t : nat) (ls : lock_server) (ct : list Z)
    : option (lock_server * list Z) :=
  match prog with
  | [] => Some (ls, ct)
  | Acquire lid :: prog => ls ← call_alone 6 ls t clt lid A_count; run_test prog clt (S t) ls ct
  | Release lid :: prog => ls ← call_alone 6 ls t clt lid R_lock; run_test prog clt (S t) ls ct
  | CheckGrant lid :: prog => ct ← check_grant ct lid; run_test prog clt t ls ct
  | CheckRelease lid :: prog => ct ← check_release ct lid; run_test prog clt t ls ct
  end.

Definition test1 : list instr :=
  [Acquire a; CheckGrant a; Release a; CheckRelease a;
   Acquire a; CheckGrant a; Release a; CheckRelease a;
   Acquire a; CheckGrant a; Acquire b; CheckGrant b; Release b; CheckRelease b; Release a; CheckRelease a].

(** What a call sees of the server: the lock, and that nobody waits for it. *)
Record unattended (ls : lock_server) (t : nat) : Prop := {
  u_fresh t' : (t <= t')%nat -> threads ls !! t' = None;
  u_nobody lid : map_Forall (fun _ th => waiting lid th = false) (threads ls) }.
Definition free_lock (ls : lock_server) (lid : Z) : Prop :=
  locks ls !! lid = None \/ locks ls !! lid = Some (Lock None false).

(** The server after a call: the lock as said, the thread at its return. *)
Definition served (ls : lock_server) (t : nat) (clt lid : Z) (p : pc) (held : bool) (e : event) : lock_server :=
  LockServer (nacquire ls) (<[lid := Lock None held]> (locks ls)) (<[t := Thread clt lid p]> (threads ls))
    (e :: events ls).

Lemma served_unattended ls t clt lid p held e :
  unattended ls t -> p = A_return \/ p = R_return -> unattended (served ls t clt lid p held e) (S t).
Proof.
  intros [Hf Hn] Hp. split; cbn [served threads].
  - intros t' Ht. rewrite lookup_insert_ne by lia. apply Hf. lia.
  - intros lid'. apply map_Forall_insert_2; [|done]. unfold waiting. cbn [t_lid t_pc].
    rewrite (bool_decide_false (p = A_wait)) by (by destruct Hp as [-> | ->]). apply andb_false_r.
Qed.

Lemma run_alone_step n ls t ls' : run_thread ls t t = Some ls' -> run_alone (S n) ls t = run_alone n ls' t.
Proof. intros E. cbn [run_alone]. by rewrite E. Qed.

Ltac alone_state := unfold goto, set_lock, record;
  cbn [threads locks events nacquire t_lid t_clt t_pc mutex_unlock l_m l_isLocked]; rewrite ?insert_insert_eq.
Ltac alone_step := erewrite run_alone_step by
  (unfold run_thread, lock_at; cbn [threads locks]; rewrite ?lookup_insert_eq; cbn; reflexivity); alone_state.

Lemma acquire_alone ls t clt lid :
  free_lock ls lid ->
  call_alone 6 ls t clt lid A_count = Some (served ls t clt lid A_return true (Granted clt lid)).
Proof.
  intros Hl. unfold call_alone.
  assert (run_alone 6 (enter ls t clt lid A_count) t = served ls t clt lid A_return true (Granted clt lid)) as ->.
  { unfold enter. destruct Hl as [Hl|Hl];
      erewrite run_alone_step by (unfold run_thread; cbn [threads locks]; rewrite lookup_insert_eq;
        cbn [t_pc t_lid]; rewrite Hl; cbn; reflexivity); alone_state.
    - do 5 alone_step. reflexivity.
    - erewrite run_alone_step by (unfold run_thread, lock_at; cbn [threads locks]; rewrite lookup_insert_eq;
        cbn [t_pc t_lid]; rewrite Hl; cbn; reflexivity); alone_state.
      do 3 alone_step. cbn [run_alone]. unfold run_thread. cbn [threads]. by rewrite lookup_insert_eq. }
  cbn [served threads]. by rewrite lookup_insert_eq, bool_decide_true by (by left).
Qed.

Lemma release_alone ls t clt lid :
  unattended ls t -> locks ls !! lid = Some (Lock None true) ->
  call_alone 6 ls t clt lid R_lock = Some (served ls t clt lid R_return false (Released clt lid)).
Proof.
  intros Hu Hl. unfold call_alone.
  assert (run_alone 6 (enter ls t clt lid R_lock) t = served ls t clt lid R_return false (Released clt lid)) as ->.
  { unfold enter.
    erewrite run_alone_step by (unfold run_thread, lock_at; cbn [threads locks]; rewrite lookup_insert_eq;
      cbn [t_pc t_lid]; rewrite Hl; cbn; reflexivity); alone_state.
    alone_step.
    erewrite run_alone_step.
    2: { unfold run_thread, cond_signal; cbn [threads]. rewrite lookup_insert_eq. cbn [t_pc t_lid]. unfold waiting at 1.
      cbn [t_pc t_lid]. rewrite (bool_decide_false (R_signal = A_wait)) by done. rewrite andb_false_r.
      rewrite bool_decide_true; [reflexivity|]. apply map_Forall_insert_2; [apply andb_false_r|apply Hu]. }
    unfold lock_at. cbn [locks]. rewrite lookup_insert_eq. cbn [default]. alone_state.
    alone_step. cbn [run_alone]. unfold run_thread. cbn [threads]. by rewrite lookup_insert_eq. }
  cbn [served threads]. by rewrite lookup_insert_eq, bool_decide_true by (by right).
Qed.

Lemma free_served ls t clt lid p held e lid' :
  free_lock (served ls t clt lid p held e) lid' <->
  if decide (lid = lid') then held = false else free_lock ls lid'.
Proof.
  unfold free_lock. cbn [served locks]. destruct (decide (lid = lid')) as [<-|].
  - rewrite lookup_insert_eq. split; [by intros [|[=]]|intros ->; by right].
  - by rewrite lookup_insert_ne.
Qed.

(** A round of test1: what is granted is counted, and the other way round. *)
Lemma run_acquire lid prog clt t ls ct ct' :
  unattended ls t -> free_lock ls lid -> check_grant ct lid = Some ct' ->
  run_test (Acquire lid :: CheckGrant lid :: prog) clt t ls ct =
    run_test prog clt (S t) (served ls t clt lid A_return true (Granted clt lid)) ct'.
Proof. intros Hu Hl Hc. cbn [run_test]. rewrite (acquire_alone _ _ _ _ Hl). cbn. by rewrite Hc. Qed.

Lemma run_release lid prog clt t ls ct ct' :
  unattended ls t -> locks ls !! lid = Some (Lock None true) -> check_release ct lid = Some ct' ->
  run_test (Release lid :: CheckRelease lid :: prog) clt t ls ct =
    run_test prog clt (S t) (served ls t clt lid R_return false (Released clt lid)) ct'.
Proof. intros Hu Hl Hc. cbn [run_test]. rewrite (release_alone _ _ _ _ Hu Hl). cbn. by rewrite Hc. Qed.

Ltac test1_free :=
  repeat (rewrite free_served;
    first [rewrite decide_True by (unfold a, b; lia)|rewrite decide_False by (unfold a, b; lia)]); done.
Ltac test1_side := repeat apply served_unattended; auto; fail.

(** test1 comes to its end with every check passed and leaves both locks free,
    on any server where they are free and no request is in progress. *)
Theorem test1_passes clt t ls :
  unattended ls t -> free_lock ls a -> free_lock ls b ->
  exists ls', run_test test1 clt t ls ct_new = Some (ls', ct_new) /\
    unattended ls' (t + 8) /\ free_lock ls' a /\ free_lock ls' b /\ is_some (locks ls' !! a) = true.
Proof.
  intros Hu Ha Hb. unfold test1. eexists.
  split; [|split].
  { erewrite run_acquire; [|test1_side|done|vm_compute; reflexivity].
    erewrite run_release; [|test1_side|apply lookup_insert_eq|vm_compute; reflexivity].
    erewrite run_acquire; [|test1_side|test1_free|vm_compute; reflexivity].
    erewrite run_release; [|test1_side|apply lookup_insert_eq|vm_compute; reflexivity].
    erewrite run_acquire; [|test1_side|test1_free|vm_compute; reflexivity].
    erewrite run_acquire; [|test1_side|test1_free|vm_compute; reflexivity].
    erewrite run_release; [|test1_side|apply lookup_insert_eq|vm_compute; reflexivity].
    erewrite run_release; [|test1_side| |vm_compute; reflexivity].
    2: { cbn [served locks]. rewrite !lookup_insert_ne by done. apply lookup_insert_eq. }
    reflexivity. }
  - replace (t + 8)%nat with (S (S (S (S (S (S (S (S t)))))))) by lia. test1_side.
  - split; [test1_free|]. split; [test1_free|]. cbn [served locks]. by rewrite lookup_insert_eq.
Qed.

Lemma test1_passes_witness : exists ls', run_test test1 7 0 lock_server_new ct_new = Some (ls', ct_new).
Proof.
  destruct (test1_passes 7 0 lock_server_new) as (ls' & E & _).
  - split; [done|]. intros lid. apply map_Forall_empty.
  - by left.
  - by left.
  - exists ls'. exact E.
Defined.

(** ** Thread 0 of test3 gets the lock *)
Lemma server_runs s ls ts ls' :
  run_schedule ls ts = Some ls' -> rtc tester_step (with_server s ls) (with_server s ls').
Proof.
  revert ls. induction ts as [|t ts IH]; intros ls; cbn [run_schedule]; [by intros [= <-]|].
  destruct (run_thread ls t 0) as [ls1|] eqn:E; [|done]. intros Hts.
  eapply rtc_l; [exact (t_server (with_server s ls) t 0 ls1 E)|]. by apply IH.
Qed.

Module Demo.
Definition lc (i : nat) : Z := 8 + Z.of_nat i.

(** A server on which the lock has been taken and released once. *)
Definition used : lock_server :=
  default lock_server_new (
    ls ← call_alone 6 lock_server_new 0 8 a A_count; call_alone 6 ls 1 8 a R_lock).
Definition s0 : tester := Tester used ct_new (started 2 (test3 lc)).
Definition s1 : tester :=
  advance (with_server s0 (enter used 2 8 a A_count)) 0 (TThread 8 a 9 T_next) (T_acquiring 2).
Definition ls2 : lock_server := default lock_server_new (run_schedule (te_server s1) [2; 2; 2; 2; 2]%nat).
Definition s3 : tester := advance (with_server s1 ls2) 0 (TThread 8 a 9 (T_acquiring 2)) T_granted.

Lemma quiet_new : quiet lock_server_new.
Proof. split; [done|]. apply map_Forall_empty. Qed.

Lemma quiet_used : quiet used /\ locks used !! a = Some lock_t_new.
Proof.
  split; [|by vm_compute]. split; [|by apply (bool_decide_unpack _); vm_compute].
  eapply rtc_l; [apply (calm_enter _ 0 8 a A_count); [done|by left|right; apply map_Forall_empty]|].
  etrans; [apply (run_schedule_calm_steps _ [0; 0; 0; 0; 0; 0]%nat); vm_compute; reflexivity|].
  eapply rtc_l; [apply (calm_enter _ 1 8 a R_lock); [by vm_compute|by right|left; by vm_compute]|].
  apply (run_schedule_calm_steps _ [1; 1; 1; 1]%nat). vm_compute. reflexivity.
Qed.

Lemma s3_reachable : rtc tester_step s0 s3.
Proof.
  eapply rtc_l.
  { apply (t_acquire s0 0 (TThread 8 a 10 T_next) 9 2); vm_compute; reflexivity. }
  change (advance (with_server s0 (enter (te_server s0) 2 (tt_clt (TThread 8 a 10 T_next))
    (tt_lid (TThread 8 a 10 T_next)) A_count)) 0
    (TThread (tt_clt (TThread 8 a 10 T_next)) (tt_lid (TThread 8 a 10 T_next)) 9 T_next) (T_acquiring 2))
    with (with_server s1 (te_server s1)).
  etrans; [apply (server_runs s1 (te_server s1) [2; 2; 2; 2; 2]%nat ls2); vm_compute; reflexivity|].
  apply rtc_once, (t_acquired (with_server s1 ls2) 0 (TThread 8 a 9 (T_acquiring 2)) 2 (Thread 8 a A_return));
    vm_compute; reflexivity.
Qed.
End Demo.

Lemma lock_tester_never_fails_witness :
  (tt_phase <$> te_threads Demo.s3 !! 0%nat) = Some T_granted /\
  exists ct, check_grant (te_ct Demo.s3) a = Some ct.
Proof.
  split; [vm_compute; reflexivity|]. destruct Demo.quiet_used as [Hq Hl].
  apply (lock_tester_never_fails Demo.used Demo.lc 2 (test3 Demo.lc) Demo.s3) with (k := 0%nat)
    (th := TThread 8 a 9 T_granted).
  - exact Hq.
  - by rewrite Hl.
  - right. left.
  - exact Demo.s3_reachable.
  - vm_compute. reflexivity.
  - reflexivity.
Defined.
