(* ===== verification/LockPool.v ===== *)
(** * The lock service on its thread pool: lock_smain.cc and rpcs's dispatch pool

    [rpcs] runs its handlers on a pool of ten threads, and lock_server::acquire
    waits inside its handler. The model puts the lock server of LockServer behind
    the pool's queue: clients call, each worker takes a request, runs it step by
    step to its end and takes the next. What RPC adds (headers, retransmission,
    the reply window) is left out here: a call is its request and its reply. *)

From S2P Require Import Prelude ThrPool LockServer.
Local Open Scope Z_scope.

(** The methods lock_smain registers: [stat] returns at once, the others are
    the program counters of LockServer. *)
Inductive lock_method := H_stat | H_thread (p : pc).
Definition lock_smain : gmap Z lock_method :=
  <[proc_stat := H_stat]> (<[proc_acquire := H_thread A_count]> {[proc_release := H_thread R_lock]}).

Record request := Request { q_client : nat; q_proc : Z; q_clt : Z; q_lid : Z }.

(** A client of one lock: whether it has it, and the call it waits for. *)
Record client := Client { c_id : Z; c_lid : Z; c_has : bool; c_call : option Z }.

(** The server process with its clients. A worker is idle, or runs a thread of
    the lock server for a client; [v_next] is the next thread's name. *)
Record service := Service {
  v_server : lock_server;
  v_jobs : fifo request;
  v_workers : list (option (nat * nat));
  v_next : nat;
  v_clients : list client }.

(** The pool of rpcs: ThrPool(10, false). *)
Definition pool_size : Z := 10.
Definition service_new (clients : list client) : service :=
  Service lock_server_new (fifo_new (100 * pool_size)) (replicate (Z.to_nat pool_size) None) 0 clients.

(** ** Steps *)
Definition may_call (c : client) (proc : Z) : bool :=
  (negb (is_some (c_call c))) &&
  (if proc =? proc_acquire then negb (c_has c) else if proc =? proc_release then c_has c else proc =? proc_stat).

(** lock_client calls [proc]: the request is queued, unless the queue is full. *)
Definition act_call (v : service) (k : nat) (proc : Z) : option service :=
  c ← v_clients v !! k;
  if may_call c proc then
    match enq (v_jobs v) (Request k proc (c_id c) (c_lid c)) false with
    | (q, Return true) =>
        Some (Service (v_server v) q (v_workers v) (v_next v)
                (<[k := Client (c_id c) (c_lid c) (c_has c) (Some proc)]> (v_clients v)))
    | _ => None
    end
  else None.

(** The reply to client [k] arrives. *)
Definition reply (cs : list client) (k : nat) : list client :=
  match cs !! k with
  | Some c =>
      <[k := Client (c_id c) (c_lid c)
          (if bool_decide (c_call c = Some proc_acquire) then true
           else if bool_decide (c_call c = Some proc_release) then false else c_has c) None]> cs
  | None => cs
  end.

(** Worker [w] takes a job. No procedures but the registered ones are called. *)
Definition act_take (v : service) (w : nat) : option service :=
  match v_workers v !! w, deq (v_jobs v) with
  | Some None, (q, Return r) =>
      h ← lock_smain !! q_proc r;
      match h with
      | H_stat => Some (Service (v_server v) q (v_workers v) (v_next v) (reply (v_clients v) (q_client r)))
      | H_thread p =>
          Some (Service (enter (v_server v) (v_next v) (q_clt r) (q_lid r) p) q
                  (<[w := Some (v_next v, q_client r)]> (v_workers v)) (S (v_next v)) (v_clients v))
      end
  | _, _ => None
  end.

(** Worker [w] goes on with the handler it is in. *)
Definition act_run (v : service) (w pick : nat) : option service :=
  match v_workers v !! w with
  | Some (Some (t, _)) =>
      ls ← run_thread (v_server v) t pick;
      Some (Service ls (v_jobs v) (v_workers v) (v_next v) (v_clients v))
  | _ => None
  end.

(** The handler returns: the client gets its reply, the worker is idle. *)
Definition act_finish (v : service) (w : nat) : option service :=
  match v_workers v !! w with
  | Some (Some (t, k)) =>
      th ← threads (v_server v) !! t;
      if bool_decide (t_pc th = A_return \/ t_pc th = R_return)
      then Some (Service (v_server v) (v_jobs v) (<[w := None]> (v_workers v)) (v_next v) (reply (v_clients v) k))
      else None
  | _ => None
  end.

Inductive action := Call (k : nat) (proc : Z) | Take (w : nat) | Run (w pick : nat) | Finish (w : nat).
Definition act (v : service) (x : action) : option service :=
  match x with
  | Call k proc => act_call v k proc
  | Take w => act_take v w
  | Run w pick => act_run v w pick
  | Finish w => act_finish v w
  end.

Definition service_step (v v' : service) : Prop := exists x, act v x = Some v'.

Fixpoint acts (v : service) (xs : list action) : option service :=
  match xs with
  | [] => Some v
  | x :: xs => v ← act v x; acts v xs
  end.

Lemma acts_steps v xs v' : acts v xs = Some v' -> rtc service_step v v'.
Proof.
  revert v. induction xs as [|x xs IH]; intros v; cbn; [by intros [= <-]|].
  destruct (act v x) as [v1|] eqn:E; [|done]. cbn. intros Hxs. eapply rtc_l; [by exists x|by apply IH].
Qed.

(** ** Every call has its place *)
Definition busy (v : service) : list nat := omap (fmap snd) (v_workers v).
Definition pending (v : service) : list nat := map q_client (q_ (v_jobs v)) ++ busy v.
Definition calling (cs : list client) (k : nat) : Prop := exists c, cs !! k = Some c /\ c_call c <> None.

Record service_inv (n : nat) (v : service) : Prop := {
  i_workers : length (v_workers v) = Z.to_nat pool_size;
  i_clients : length (v_clients v) = n;
  i_max : max_ (v_jobs v) = 100 * pool_size;
  i_nodup : NoDup (pending v);
  i_calling k : k ∈ pending v <-> calling (v_clients v) k }.

Lemma busy_take ws w x :
  ws !! w = Some None -> omap (fmap snd) (<[w := Some x]> ws) ≡ₚ x.2 :: omap (fmap (M := option) (@snd nat nat)) ws.
Proof.
  intros Hw. rewrite <- (take_drop_middle ws w None Hw) at 2. rewrite insert_take_drop by (by eapply lookup_lt_Some).
  rewrite !omap_app. cbn. by rewrite Permutation_middle.
Qed.

Lemma busy_finish ws w x :
  ws !! w = Some (Some x) -> omap (fmap snd) ws ≡ₚ x.2 :: omap (fmap (M := option) (@snd nat nat)) (<[w := None]> ws).
Proof.
  intros Hw. rewrite <- (take_drop_middle ws w (Some x) Hw) at 1. rewrite insert_take_drop by (by eapply lookup_lt_Some).
  rewrite !omap_app. cbn. by rewrite Permutation_middle.
Qed.

Lemma idle_worker (ws : list (option (nat * nat))) :
  (length (omap (fmap (M := option) (@snd nat nat)) ws) < length ws)%nat -> exists w, ws !! w = Some None.
Proof.
  induction ws as [|[x|] ws IH]; cbn; intros Hl; [lia| |by exists 0%nat].
  destruct IH as [w Hw]; [lia|]. by exists (S w).
Qed.

Lemma length_reply cs k : length (reply cs k) = length cs.
Proof. unfold reply. destruct (cs !! k); [apply length_insert|done]. Qed.

Lemma calling_reply cs k k' : calling (reply cs k) k' <-> calling cs k' /\ k' <> k.
Proof.
  unfold reply, calling. destruct (cs !! k) as [c|] eqn:E; [|naive_solver].
  pose proof (lookup_lt_Some _ _ _ E). destruct (decide (k' = k)) as [->|Hne].
  - rewrite list_lookup_insert_eq by done. naive_solver.
  - rewrite list_lookup_insert_ne by done. naive_solver.
Qed.

Lemma calling_call cs k c proc k' :
  cs !! k = Some c ->
  calling (<[k := Client (c_id c) (c_lid c) (c_has c) (Some proc)]> cs) k' <-> calling cs k' \/ k' = k.
Proof.
  intros E. pose proof (lookup_lt_Some _ _ _ E). unfold calling. destruct (decide (k' = k)) as [->|Hne].
  - rewrite list_lookup_insert_eq by done. naive_solver.
  - rewrite list_lookup_insert_ne by done. naive_solver.
Qed.

(** A call that is over leaves the list of pending ones. *)
Lemma pending_reply ks k cs :
  NoDup (k :: ks) -> (forall k', k' ∈ k :: ks <-> calling cs k') ->
  NoDup ks /\ forall k', k' ∈ ks <-> calling (reply cs k) k'.
Proof.
  intros [Hk Hks]%NoDup_cons Hc. split; [done|]. intros k'. rewrite calling_reply, <- Hc, elem_of_cons.
  split; [|naive_solver]. intros Hk'. split; [by right|]. by intros ->.
Qed.

Lemma inv_call n v k proc v' : service_inv n v -> act_call v k proc = Some v' -> service_inv n v'.
Proof.
  intros [Hw Hn Hm Hnd Hc] Ha. unfold act_call in Ha. destruct (v_clients v !! k) as [c|] eqn:E; [|done].
  cbn in Ha. destruct (may_call c proc) eqn:Hmay; [|done]. unfold enq in Ha.
  destruct (_ || _); [|done]. injection Ha as <-.
  assert (k ∉ pending v) as Hk.
  { rewrite Hc. intros (c' & E' & Hcall). apply andb_true_iff in Hmay as [Hmay _].
    rewrite E in E'. injection E' as <-. by destruct (c_call c). }
  assert (pending (Service (v_server v) (Fifo (q_ (v_jobs v) ++ [Request k proc (c_id c) (c_lid c)]) (max_ (v_jobs v)))
    (v_workers v) (v_next v) (<[k := Client (c_id c) (c_lid c) (c_has c) (Some proc)]> (v_clients v)))
    ≡ₚ k :: pending v) as Hp.
  { unfold pending, busy. cbn [v_jobs q_ v_workers]. rewrite map_app. cbn [map q_client].
    rewrite <- (assoc_L (++)). cbn [app]. by rewrite <- Permutation_middle. }
  split; [done| |done| |]; cbn [v_clients].
  - by rewrite length_insert.
  - rewrite Hp. by constructor.
  - intros k'. rewrite Hp, elem_of_cons, calling_call, Hc by done. naive_solver.
Qed.

Lemma inv_take n v w v' : service_inv n v -> act_take v w = Some v' -> service_inv n v'.
Proof.
  intros [Hw Hn Hm Hnd Hc] Ha. unfold act_take, deq in Ha.
  destruct (v_workers v !! w) as [[|]|] eqn:Ew; try done.
  destruct (q_ (v_jobs v)) as [|r q] eqn:Eq; [done|].
  assert (pending v = q_client r :: (map q_client q ++ busy v)) as Hp by (unfold pending; by rewrite Eq).
  destruct (lock_smain !! q_proc r) as [[|p]|]; [| |done]; cbn in Ha; injection Ha as <-.
  - rewrite Hp in Hnd, Hc. destruct (pending_reply _ _ _ Hnd Hc) as [Hnd' Hc'].
    split; [done| |done|done|exact Hc']. cbn [v_clients]. by rewrite length_reply.
  - assert (pending (Service (enter (v_server v) (v_next v) (q_clt r) (q_lid r) p) (Fifo q (max_ (v_jobs v)))
      (<[w := Some (v_next v, q_client r)]> (v_workers v)) (S (v_next v)) (v_clients v)) ≡ₚ pending v) as Hp'.
    { rewrite Hp. unfold pending, busy. cbn [v_jobs q_ v_workers]. rewrite (busy_take _ _ _ Ew). cbn [snd].
      by rewrite <- Permutation_middle. }
    split; [|done|done| |]; cbn [v_workers v_clients].
    + by rewrite length_insert.
    + by rewrite Hp'.
    + intros k. by rewrite Hp'.
Qed.

Lemma inv_finish n v w v' : service_inv n v -> act_finish v w = Some v' -> service_inv n v'.
Proof.
  intros [Hw Hn Hm Hnd Hc] Ha. unfold act_finish in Ha.
  destruct (v_workers v !! w) as [[[t k]|]|] eqn:Ew; try done.
  destruct (threads (v_server v) !! t) as [th|]; [|done]. cbn in Ha.
  destruct (bool_decide _); [|done]. injection Ha as <-.
  assert (pending v ≡ₚ k :: (map q_client (q_ (v_jobs v)) ++ omap (fmap snd) (<[w := None]> (v_workers v)))) as Hp.
  { unfold pending, busy. rewrite (busy_finish _ _ _ Ew). cbn [snd]. by rewrite <- Permutation_middle. }
  rewrite Hp in Hnd. setoid_rewrite Hp in Hc. destruct (pending_reply _ _ _ Hnd Hc) as [Hnd' Hc'].
  split; cbn [v_workers v_clients].
  - by rewrite length_insert.
  - by rewrite length_reply.
  - done.
  - exact Hnd'.
  - exact Hc'.
Qed.

Lemma inv_service_step n v v' : service_inv n v -> service_step v v' -> service_inv n v'.
Proof.
  intros Hinv [[k proc|w|w pick|w] Ha]; cbn [act] in Ha.
  - by eapply inv_call.
  - by eapply inv_take.
  - unfold act_run in Ha. destruct (v_workers v !! w) as [[[t k]|]|]; try done.
    destruct (run_thread (v_server v) t pick); [|done]. injection Ha as <-. by destruct Hinv.
  - by eapply inv_finish.
Qed.

Lemma inv_service_new cs : Forall (fun c => c_call c = None) cs -> service_inv (length cs) (service_new cs).
Proof.
  intros Hcs. split; [done|done|done| |].
  - by vm_compute; constructor.
  - intros k. change (pending (service_new cs)) with (@nil nat). split; [by intros ?%elem_of_nil|].
    intros (c & E & Hcall). destruct Hcall. by eapply (Forall_lookup_1 _ _ _ _ Hcs).
Qed.

(** ** Every worker waiting *)
Definition blocked_pc (p : pc) : bool :=
  match p with A_count | A_lock | A_check | A_wait | A_wake => true | _ => false end.

(** All workers are in acquire for a lock that is held. *)
Definition stuck_worker (ls : lock_server) (lid : Z) (x : option (nat * nat)) : bool :=
  match x with
  | Some (t, _) => match threads ls !! t with Some th => (t_lid th =? lid) && blocked_pc (t_pc th) | None => false end
  | None => false
  end.
Definition exhausted (lid : Z) (v : service) : bool :=
  forallb (stuck_worker (v_server v) lid) (v_workers v) &&
  match locks (v_server v) !! lid with Some l => l_isLocked l | None => false end.

(** A blocked acquire that goes on is still blocked, and touches nothing else. *)
Lemma blocked_runs ls t pick th l ls' :
  threads ls !! t = Some th -> blocked_pc (t_pc th) = true ->
  locks ls !! t_lid th = Some l -> l_isLocked l = true -> run_thread ls t pick = Some ls' ->
  exists p l', blocked_pc p = true /\ l_isLocked l' = true /\ locks ls' !! t_lid th = Some l' /\
    threads ls' = <[t := Thread (t_clt th) (t_lid th) p]> (threads ls).
Proof.
  intros Ht Hb Hl Hlock Hrun. unfold run_thread, lock_at in Hrun. rewrite Ht, Hl in Hrun.
  change (default lock_t_new (Some l)) with l in Hrun. destruct (t_pc th); try done; cbn [is_some] in Hrun.
  - injection Hrun as <-. exists A_lock, l. by split_and!.
  - unfold mutex_lock in Hrun. destruct (l_m l); [done|]. injection Hrun as <-.
    exists A_check, (Lock (Some t) (l_isLocked l)). cbn. by rewrite lookup_insert_eq.
  - rewrite Hlock in Hrun. injection Hrun as <-. exists A_wait, (mutex_unlock l). cbn. by rewrite lookup_insert_eq.
  - injection Hrun as <-. exists A_wake, l. cbn. by rewrite lookup_insert_eq.
  - unfold mutex_lock in Hrun. destruct (l_m l); [done|]. injection Hrun as <-.
    exists A_check, (Lock (Some t) (l_isLocked l)). cbn. by rewrite lookup_insert_eq.
Qed.

Lemma stuck_worker_spec ls lid x :
  stuck_worker ls lid x = true ->
  exists t k th, x = Some (t, k) /\ threads ls !! t = Some th /\ t_lid th = lid /\ blocked_pc (t_pc th) = true.
Proof.
  unfold stuck_worker. destruct x as [[t k]|]; [|done]. destruct (threads ls !! t) as [th|] eqn:E; [|done].
  intros [Hl%Z.eqb_eq Hb]%andb_true_iff. by exists t, k, th.
Qed.

Lemma exhausted_step lid v v' :
  exhausted lid v = true -> service_step v v' ->
  exhausted lid v' = true /\ q_ (v_jobs v) `prefix_of` q_ (v_jobs v').
Proof.
  intros Hex [x Ha]. pose proof Hex as [Hws Hl]%andb_true_iff.
  destruct (locks (v_server v) !! lid) as [l|] eqn:El; [|done].
  assert (forall w x, v_workers v !! w = Some x -> stuck_worker (v_server v) lid x = true) as Hw.
  { intros w y Ew. rewrite forallb_forall in Hws. apply Hws. by eapply list_elem_of_In, list_elem_of_lookup_2. }
  destruct x as [k proc|w|w pick|w]; cbn [act] in Ha.
  - unfold act_call in Ha. destruct (v_clients v !! k) as [c|]; [|done]. cbn in Ha.
    destruct (may_call c proc); [|done]. unfold enq in Ha. destruct (_ || _); [|done]. injection Ha as <-.
    split; [exact Hex|]. cbn. by eexists.
  - unfold act_take in Ha. destruct (v_workers v !! w) as [[y|]|] eqn:Ew; try done.
    by specialize (Hw w None Ew).
  - unfold act_run in Ha. destruct (v_workers v !! w) as [[[t k]|]|] eqn:Ew; try done.
    destruct (run_thread (v_server v) t pick) as [ls|] eqn:Hrun; [|done]. injection Ha as <-. split; [|done].
    destruct (stuck_worker_spec _ _ _ (Hw w _ Ew)) as (t' & k' & th & E & Et & <- & Hb). injection E as <- <-.
    destruct (blocked_runs _ _ _ _ _ _ Et Hb El Hl Hrun) as (p & l' & Hp & Hl' & El' & Hts).
    unfold exhausted. cbn [v_server v_workers]. rewrite El', Hl', andb_true_r. apply forallb_forall.
    intros y Hy%list_elem_of_In. apply list_elem_of_lookup_1 in Hy as [w' Ew'].
    destruct (stuck_worker_spec _ _ _ (Hw w' _ Ew')) as (t1 & k1 & th1 & -> & Et1 & Hlid & Hb1).
    unfold stuck_worker. rewrite Hts. destruct (decide (t = t1)) as [<-|].
    + rewrite lookup_insert_eq. cbn. by rewrite Z.eqb_refl, Hp.
    + rewrite lookup_insert_ne, Et1 by done. by rewrite Hlid, Z.eqb_refl, Hb1.
  - unfold act_finish in Ha. destruct (v_workers v !! w) as [[[t k]|]|] eqn:Ew; try done.
    destruct (stuck_worker_spec _ _ _ (Hw w _ Ew)) as (t' & k' & th & E & Et & _ & Hb). injection E as <- <-.
    rewrite Et in Ha. cbn in Ha. rewrite bool_decide_false in Ha; [done|].
    intros [Hr|Hr]; by rewrite Hr in Hb.
Qed.

Lemma exhausted_forever lid v v' :
  exhausted lid v = true -> rtc service_step v v' ->
  exhausted lid v' = true /\ q_ (v_jobs v) `prefix_of` q_ (v_jobs v').
Proof.
  intros Hex Hr. induction Hr as [v|v v1 v2 Hs Hr IH]; [done|].
  destruct (exhausted_step lid v v1 Hex Hs) as [Hex1 Hpre]. destruct (IH Hex1) as [Hex2 Hpre2].
  split; [done|]. by etrans.
Qed.

(** ** Ten clients and eleven *)
Definition contenders (n : nat) (lid : Z) : list client :=
  map (fun i => Client (100 + Z.of_nat i) lid false None) (seq 0 n).

(** Client 0 gets the lock, ten others ask for it, client 0 gives it back. *)
Definition crowd : list action :=
  [Call 0 proc_acquire; Take 0; Run 0 0; Run 0 0; Run 0 0; Run 0 0; Run 0 0; Run 0 0; Finish 0]
  ++ concat (map (fun i => [Call (S i) proc_acquire; Take i; Run i 0; Run i 0; Run i 0]) (seq 0 10))
  ++ [Call 0 proc_release].
Definition crowded : service := default (service_new []) (acts (service_new (contenders 11 1)) crowd).

Lemma crowded_reachable : rtc service_step (service_new (contenders 11 1)) crowded.
Proof. apply (acts_steps _ crowd). vm_compute. reflexivity. Qed.

(** C31. Ten pool threads serve ten clients of the lock server, and no more. As
    long as there are at most ten clients, a request in the queue always finds
    an idle worker and no request is ever turned down, so the release that
    waiting acquires depend on can run. With eleven clients of one lock there
    is a reachable state in which the holder's release is queued behind ten
    waiting acquires: in every continuation it stays in the queue, the lock
    stays held and no worker is ever idle again. *)
Theorem pool_serves_ten_clients :
  (forall cs v, Forall (fun c => c_call c = None) cs -> zlen cs <= pool_size ->
     rtc service_step (service_new cs) v ->
     (q_ (v_jobs v) <> [] -> exists w, v_workers v !! w = Some None) /\
     (forall k c proc, v_clients v !! k = Some c -> may_call c proc = true -> is_some (act_call v k proc) = true)) /\
  (exists v r, rtc service_step (service_new (contenders 11 1)) v /\ q_proc r = proc_release /\
     forall v', rtc service_step v v' -> r ∈ q_ (v_jobs v') /\
       l_isLocked (lock_at (v_server v') (q_lid r)) = true /\ Forall (fun x => x <> None) (v_workers v')).
Proof.
  split.
  - intros cs v Hcs Hn Hr.
    assert (service_inv (length cs) v) as [Hw Hlen Hm Hnd Hc].
    { eapply (rtc_invariant service_step (service_inv (length cs))); [|exact Hr|by apply inv_service_new].
      intros x y. apply inv_service_step. }
    assert (length (pending v) <= length cs)%nat as Hp.
    { rewrite <- Hlen, <- (length_seq (length (v_clients v)) 0). apply submseteq_length, NoDup_submseteq; [done|].
      intros k (c & E & _)%Hc. apply elem_of_seq. apply lookup_lt_Some in E. lia. }
    unfold pending in Hp. rewrite length_app, length_map in Hp. unfold zlen, pool_size in *. split.
    + intros Hq. apply idle_worker. fold (busy v). rewrite Hw.
      destruct (q_ (v_jobs v)) as [|r q]; [done|]. cbn [length] in Hp. lia.
    + intros k c proc E Hmay. unfold act_call, enq. rewrite E. cbn [mbind option_bind]. rewrite Hmay, Hm.
      rewrite (proj2 (Z.ltb_lt (zlen (q_ (v_jobs v))) _)) by (unfold zlen; lia). by rewrite orb_true_r.
  - exists crowded, (Request 0 proc_release 100 1). split; [exact crowded_reachable|]. split; [done|].
    intros v' Hv'. destruct (exhausted_forever 1 crowded v') as [Hex Hpre]; [by vm_compute|exact Hv'|].
    apply andb_true_iff in Hex as [Hws Hl]. split; [|split].
    + replace (q_ (v_jobs crowded)) with [Request 0 proc_release 100 1] in Hpre by (by vm_compute).
      eapply elem_of_prefix; [|exact Hpre]. by left.
    + unfold lock_at. cbn [q_lid]. by destruct (locks (v_server v') !! 1).
    + apply Forall_forall. intros x Hx ->. rewrite forallb_forall in Hws.
      by specialize (Hws None (proj1 (list_elem_of_In _ _) Hx)).
Qed.
