(* ===== verification/ExtentServer.v ===== *)
(** * The extent service: extent_protocol.h, extent_server.h, extent_server.cc

    A map from extent ids to contents and attributes, and the interface
    [ExtentService] that the file system client is written against: what
    extent_client.cc promises its caller, whichever way the calls are carried
    to the server. *)

From S2P Require Import Prelude Marshall.
Local Open Scope Z_scope.

(** extent_protocol::xxstatus, as the ints the calls return *)
Definition OK : Z := 0.
Definition RPCERR : Z := 1.
Definition NOENT : Z := 2.
Definition IOERR : Z := 3.
Definition FBIG : Z := 4.

(** extent_protocol::rpc_numbers *)
Definition proc_put : Z := 24577.    (** 0x6001 *)
Definition proc_get : Z := 24578.
Definition proc_getattr : Z := 24579.
Definition proc_remove : Z := 24580.
Definition proc_setattr : Z := 24581.

Definition maxextent : Z := 8192 * 1000.

(** extent_protocol::attr, four [unsigned int]s *)
Record attr := Attr { a_atime : Z; a_mtime : Z; a_ctime : Z; a_size : Z }.
#[export] Instance attr_eq_dec : EqDecision attr.
Proof. solve_decision. Defined.

(** operator<< and operator>> of [attr] *)
Definition put_attr `{Memory} (m : marshall) (a : attr) : outcome marshall :=
  m ← put_u32 m (a_atime a);
  m ← put_u32 m (a_mtime a);
  m ← put_u32 m (a_ctime a);
  put_u32 m (a_size a).
Definition get_attr (u : unmarshall) (d : attr) : outcome (unmarshall * attr) :=
  '(u, atime) ← get_u32 u (a_atime d);
  '(u, mtime) ← get_u32 u (a_mtime d);
  '(u, ctime) ← get_u32 u (a_ctime d);
  '(u, size) ← get_u32 u (a_size d);
  Ok (u, Attr atime mtime ctime size).
Definition attr_c `{Memory} : codec attr := Codec put_attr get_attr.

Definition is_attr (a : attr) : Prop :=
  is_u32 (a_atime a) /\ is_u32 (a_mtime a) /\ is_u32 (a_ctime a) /\ is_u32 (a_size a).

(** Attributes cross the wire like every other value. *)
#[export] Program Instance attr_wire `{Memory} : Wire attr_c := {|
  image a := be32 (a_atime a) ++ be32 (a_mtime a) ++ be32 (a_ctime a) ++ be32 (a_size a);
  representable := is_attr;
  declared _ := True |}.
Next Obligation.
  intros H a _. cbn [Marshall.put attr_c]. unfold put_attr.
  do 3 apply (writes_seq _ _ _ _ (writes_put_u32 _)). apply writes_put_u32.
Qed.
Next Obligation.
  intros H a d (H1 & H2 & H3 & H4) _. cbn [Marshall.get attr_c]. unfold get_attr. intros u rest Hu.
  rewrite <- !(assoc_L (++)) in Hu.
  destruct (reads_u32 (a_atime a) (a_atime d) u _ Hu) as (u1 & -> & Hu1). cbn [mbind outcome_bind].
  destruct (reads_u32 (a_mtime a) (a_mtime d) u1 _ Hu1) as (u2 & -> & Hu2). cbn [mbind outcome_bind].
  destruct (reads_u32 (a_ctime a) (a_ctime d) u2 _ Hu2) as (u3 & -> & Hu3). cbn [mbind outcome_bind].
  destruct (reads_u32 (a_size a) (a_size d) u3 _ Hu3) as (u4 & -> & Hu4). cbn [mbind outcome_bind].
  exists u4. split; [|done]. do 2 f_equal. rewrite !u32_small by done. by destruct a.
Qed.

(** struct extentInfo *)
Record extentInfo := ExtentInfo { eAttr : attr; content : bytes }.

(** The server's map, and what its clock reads ([time(NULL)]). *)
Record extent_server := ExtentServer { extents : gmap Z extentInfo; clock : Z }.

(** [time_t] to [unsigned int] *)
Definition cur_time (s : extent_server) : Z := u32 (clock s).

Definition extent_server_new (now : Z) : extent_server :=
  ExtentServer {[1 := ExtentInfo (Attr (u32 now) (u32 now) (u32 now) 0) []]} now.

Definition set_extent (s : extent_server) (id : Z) (e : extentInfo) : extent_server :=
  ExtentServer (<[id := e]> (extents s)) (clock s).

(** ** Operations *)
Definition put (s : extent_server) (id : Z) (buf : bytes) : extent_server * Z :=
  if maxextent <? zlen buf then (s, FBIG)
  else
    match extents s !! id with
    | None =>
        let curTime := cur_time s in
        (set_extent s id (ExtentInfo (Attr curTime curTime curTime (u32 (zlen buf))) buf), OK)
    | Some it =>
        let curTime := cur_time s in
        (set_extent s id (ExtentInfo (Attr curTime curTime curTime (u32 (zlen buf))) buf), OK)
    end.

(** [buf] keeps its value when there is no such extent. *)
Definition get (s : extent_server) (id : Z) (buf : bytes) : bytes * Z :=
  match extents s !! id with
  | None => (buf, NOENT)
  | Some it => (content it, OK)
  end.

Definition getattr (s : extent_server) (id : Z) (a : attr) : attr * Z :=
  match extents s !! id with
  | None => (a, NOENT)
  | Some it => (eAttr it, OK)
  end.

(** std::string::resize pads with NUL characters. *)
Definition string_resize (b : bytes) (n : Z) : bytes :=
  take (Z.to_nat n) b ++ replicate (Z.to_nat n - length b) 0.

Definition setattr (s : extent_server) (id : Z) (a : attr) : extent_server * Z :=
  match extents s !! id with
  | None => (s, NOENT)
  | Some it =>
      let newSize := a_size a in
      let oldSize := a_size (eAttr it) in
      let curTime := cur_time s in
      if newSize =? oldSize then
        (set_extent s id (ExtentInfo (Attr curTime (a_mtime (eAttr it)) (a_ctime (eAttr it)) oldSize)
                            (content it)), OK)
      else
        (set_extent s id (ExtentInfo (Attr curTime curTime curTime newSize)
                            (string_resize (content it) newSize)), OK)
  end.

Definition remove (s : extent_server) (id : Z) : extent_server * Z := (s, IOERR).

(** ** The invariant: recorded sizes are the real ones *)
Definition extent_ok (e : extentInfo) : Prop :=
  is_attr (eAttr e) /\ a_size (eAttr e) = zlen (content e).
Definition server_ok (s : extent_server) : Prop := map_Forall (fun _ e => extent_ok e) (extents s).

Lemma string_resize_length b n : 0 <= n -> zlen (string_resize b n) = n.
Proof.
  intros Hn. unfold string_resize, zlen. rewrite length_app, length_take, length_replicate. lia.
Qed.

Lemma set_extent_ok s id e : server_ok s -> extent_ok e -> server_ok (set_extent s id e).
Proof. intros Hs He. by apply map_Forall_insert_2. Qed.

Lemma server_new_ok now : server_ok (extent_server_new now).
Proof.
  unfold server_ok, extent_server_new. simpl. intros id e.
  destruct (decide (id = 1)) as [->|Hne].
  - rewrite lookup_singleton_eq. intros [= <-]. split; [|done]. pose proof (u32_range now).
    split_and!; simpl; unfold is_u32 in *; try done.
  - by rewrite lookup_singleton_ne.
Qed.

Lemma cur_time_attr s n : is_u32 n -> is_attr (Attr (cur_time s) (cur_time s) (cur_time s) n).
Proof. intros. pose proof (u32_range (clock s)). by split_and!. Qed.

(** One request. *)
Inductive request :=
  | Put (id : Z) (buf : bytes) | Get (id : Z) | Getattr (id : Z)
  | Setattr (id : Z) (a : attr) | Remove (id : Z) | Tick (now : Z).

Definition serve (s : extent_server) (r : request) : extent_server :=
  match r with
  | Put id buf => (put s id buf).1
  | Setattr id a => (setattr s id a).1
  | Remove id => (remove s id).1
  | Get _ | Getattr _ => s
  | Tick now => ExtentServer (extents s) now
  end.

Definition well_typed (r : request) : Prop :=
  match r with Setattr _ a => is_attr a | _ => True end.

Lemma serve_ok s r : server_ok s -> well_typed r -> server_ok (serve s r).
Proof.
  intros Hs Hr. destruct r as [id buf|id|id|id a|id|now]; simpl in *; try done.
  - unfold put. destruct (Z.ltb_spec maxextent (zlen buf)); [done|].
    assert (is_u32 (zlen buf)) as Hz by (pose proof (zlen_nonneg buf); unfold is_u32, maxextent in *; lia).
    assert (extent_ok (ExtentInfo (Attr (cur_time s) (cur_time s) (cur_time s) (u32 (zlen buf))) buf)).
    { split; simpl; [apply cur_time_attr; apply u32_range|by apply u32_small]. }
    destruct (extents s !! id); by apply set_extent_ok.
  - unfold setattr. destruct (extents s !! id) as [it|] eqn:E; [|done].
    destruct (Hs id it E) as [(H1 & H2 & H3 & H4) Hsize]. destruct Hr as (_ & _ & _ & Hn).
    pose proof (u32_range (clock s)) as Ht.
    destruct (Z.eqb_spec (a_size a) (a_size (eAttr it))); apply set_extent_ok; try done.
    split; simpl; [by apply cur_time_attr|]. rewrite string_resize_length; [done|]. apply Hn.
Qed.

(** C39. The extent server keeps its attributes true: after any sequence of
    requests with well-typed arguments, starting from a fresh server, every
    extent's recorded size is the length of its content, and its times fit
    their fields. *)
Theorem sizes_match_contents now rs id e :
  Forall well_typed rs -> extents (foldl serve (extent_server_new now) rs) !! id = Some e ->
  a_size (eAttr e) = zlen (content e) /\ is_attr (eAttr e).
Proof.
  intros Hrs He.
  assert (forall s, server_ok s -> server_ok (foldl serve s rs)) as Hall.
  { clear He. induction Hrs as [|r rs Hr _ IH]; simpl; [done|]. intros s Hs. apply IH. by apply serve_ok. }
  destruct (Hall _ (server_new_ok now) id e He). done.
Qed.

Lemma sizes_match_contents_witness :
  let s := foldl serve (extent_server_new 100) [Put 7 (str "hello"); Setattr 7 (Attr 0 0 0 8)] in
  exists e, extents s !! 7 = Some e /\ content e = str "hello" ++ [0; 0; 0] /\ a_size (eAttr e) = zlen (content e).
Proof.
  intros s. destruct (extents s !! 7) as [e|] eqn:E; [|by vm_compute in E]. exists e. split; [done|]. split.
  - vm_compute in E. by simplify_eq.
  - apply (sizes_match_contents 100 [Put 7 (str "hello"); Setattr 7 (Attr 0 0 0 8)] 7 e).
    + repeat constructor; simpl; unfold is_attr, is_u32; simpl; lia.
    + exact E.
Defined.

(** The size limit is only enforced by put: no sequence of requests without
    setattr makes an extent larger than maxextent, but setattr alone grows one
    to any 32-bit size. *)
Theorem put_limit_and_setattr_bypass now rs id e :
  (Forall (fun r => match r with Setattr _ _ => False | _ => True end) rs ->
   extents (foldl serve (extent_server_new now) rs) !! id = Some e -> zlen (content e) <= maxextent) /\
  (forall n, maxextent < n < 2 ^ 32 ->
     extents (serve (extent_server_new now) (Setattr 1 (Attr 0 0 0 n))) !! 1
     = Some (ExtentInfo (Attr (u32 now) (u32 now) (u32 now) n) (replicate (Z.to_nat n) 0))).
Proof.
  split.
  - intros Hrs.
    assert (forall s, map_Forall (fun _ e => zlen (content e) <= maxextent) (extents s) ->
      map_Forall (fun _ e => zlen (content e) <= maxextent) (extents (foldl serve s rs))) as Hall.
    { induction Hrs as [|r rs Hr _ IH]; simpl; [done|]. intros s Hs. apply IH.
      destruct r as [i buf| | | | |]; try done. simpl. unfold put.
      destruct (Z.ltb_spec maxextent (zlen buf)); [done|].
      destruct (extents s !! i); by apply map_Forall_insert_2. }
    intros He. apply (Hall (extent_server_new now)) with id; [|done].
    simpl. intros i x. destruct (decide (i = 1)) as [->|].
    + rewrite lookup_singleton_eq. by intros [= <-].
    + by rewrite lookup_singleton_ne.
  - intros n Hn. unfold serve, setattr. cbn [extents extent_server_new]. rewrite lookup_singleton_eq.
    cbn [a_size eAttr content]. rewrite (proj2 (Z.eqb_neq _ _)) by (unfold maxextent in Hn; lia).
    cbn [fst set_extent extents]. rewrite lookup_insert, decide_True by done.
    unfold string_resize. cbn [length]. rewrite take_nil, Nat.sub_0_r. done.
Qed.

Lemma put_limit_and_setattr_bypass_witness :
  extents (serve (extent_server_new 100) (Setattr 1 (Attr 0 0 0 (maxextent + 1)))) !! 1
  = Some (ExtentInfo (Attr 100 100 100 (maxextent + 1)) (replicate (Z.to_nat (maxextent + 1)) 0)).
Proof.
  apply (put_limit_and_setattr_bypass 100 [] 1 (ExtentInfo (Attr 0 0 0 0) [])).
  unfold maxextent. lia.
Defined.

(** ** The interface: extent_client

    What a caller of extent_client relies on. [ec_model] is the server's map
    behind the calls; [ec_ready n] says that [n] more calls go through (a
    client endpoint has a bounded supply of transaction ids), as long as no
    content is larger than [ec_limit] (the size of a message is bounded). *)
Class ExtentService (St : Type) := {
  ec_get : St -> Z -> bytes -> outcome (St * bytes * Z);
  ec_put : St -> Z -> bytes -> outcome (St * Z);
  ec_getattr : St -> Z -> attr -> outcome (St * attr * Z);
  ec_setattr : St -> Z -> attr -> outcome (St * Z);
  ec_remove : St -> Z -> outcome (St * Z);
  ec_model : St -> gmap Z extentInfo;
  ec_ready : nat -> St -> Prop;
  ec_limit : Z;
  ec_limit_ok : maxextent <= ec_limit;
  ec_ready_less n s : ec_ready (S n) s -> ec_ready n s;
  ec_get_law n s id d :
    ec_ready (S n) s -> is_u64 id -> exists s', ec_ready n s' /\ ec_model s' = ec_model s /\
    match ec_model s !! id with
    | Some e => ec_get s id d = Ok (s', content e, OK)
    | None => exists d', ec_get s id d = Ok (s', d', NOENT)
    end;
  ec_put_law n s id buf :
    ec_ready (S n) s -> is_u64 id -> zlen buf <= ec_limit -> exists s', ec_ready n s' /\
    if maxextent <? zlen buf
    then exists st, ec_put s id buf = Ok (s', st) /\ st <> OK /\ ec_model s' = ec_model s
    else ec_put s id buf = Ok (s', OK) /\
         exists t, ec_model s' = <[id := ExtentInfo (Attr t t t (zlen buf)) buf]> (ec_model s);
  ec_getattr_law n s id d :
    ec_ready (S n) s -> is_u64 id -> exists s', ec_ready n s' /\ ec_model s' = ec_model s /\
    match ec_model s !! id with
    | Some e => ec_getattr s id d = Ok (s', eAttr e, OK)
    | None => exists d', ec_getattr s id d = Ok (s', d', NOENT)
    end;
  ec_setattr_law n s id a :
    ec_ready (S n) s -> is_u64 id -> is_attr a -> a_size a <= ec_limit -> exists s', ec_ready n s' /\
    match ec_model s !! id with
    | Some e => ec_setattr s id a = Ok (s', OK) /\ exists at', a_size at' = a_size a /\
        ec_model s' = <[id := ExtentInfo at'
          (if a_size a =? a_size (eAttr e) then content e else string_resize (content e) (a_size a))]> (ec_model s)
    | None => ec_setattr s id a = Ok (s', NOENT) /\ ec_model s' = ec_model s
    end;
  ec_remove_law n s id :
    ec_ready (S n) s -> is_u64 id -> exists s', ec_ready n s' /\ ec_remove s id = Ok (s', IOERR) /\
    ec_model s' = ec_model s }.

(** The server called directly. *)
#[export] Program Instance local_service : ExtentService extent_server := {|
  ec_get s id d := let '(b, st) := get s id d in Ok (s, b, st);
  ec_put s id buf := Ok (put s id buf);
  ec_getattr s id d := let '(a, st) := getattr s id d in Ok (s, a, st);
  ec_setattr s id a := Ok (setattr s id a);
  ec_remove s id := Ok (remove s id);
  ec_model := extents;
  ec_ready _ _ := True;
  ec_limit := 2 ^ 32 - 1 |}.
Next Obligation. done. Qed.
Next Obligation. done. Qed.
Next Obligation.
  intros n s id d _ _. exists s. split; [done|]. split; [done|]. unfold get.
  destruct (extents s !! id); [done|]. by exists d.
Qed.
Next Obligation.
  intros n s id buf _ _ _. unfold put. destruct (Z.ltb_spec maxextent (zlen buf)).
  - exists s. split; [done|]. by exists FBIG.
  - assert (u32 (zlen buf) = zlen buf) as Hz.
    { apply u32_small. pose proof (zlen_nonneg buf). unfold is_u32, maxextent in *. lia. }
    rewrite Hz. eexists. split; [done|]. destruct (extents s !! id); (split; [done|]); by exists (cur_time s).
Qed.
Next Obligation.
  intros n s id d _ _. exists s. split; [done|]. split; [done|]. unfold getattr.
  destruct (extents s !! id); [done|]. by exists d.
Qed.
Next Obligation.
  intros n s id a _ _ _ _. unfold setattr. destruct (extents s !! id) as [it|]; [|by exists s].
  destruct (Z.eqb_spec (a_size a) (a_size (eAttr it))) as [E|E]; eexists; (split; [done|]); (split; [done|]);
    eexists; (split; [|done]); simpl; congruence.
Qed.
Next Obligation. intros n s id _ _. by exists s. Qed.
