(* ===== verification/ExtentClient.v ===== *)
(** * The extent service over RPC: extent_client.cc and extent_smain.cc

    The server process registers the five methods of extent_server; the client
    calls them with the stubs of rpc.h. The stubs implement the interface
    [ExtentService], so everything proved of the file system client holds when
    its extents are behind the network, and a run of calls over RPC gives what
    the same calls on the server's object give. *)

From S2P Require Import Prelude Marshall Connection XidWindow TimeSpec Rpcs Serve Stubs Rpcc Remote Session.
From S2P Require Import ExtentServer.
Local Open Scope Z_scope.

(** What the uninitialised variables of the stubs and the handlers hold: an
    [int] and an [attr]. *)
Class Uninitialised := {
  un_int : Z;
  un_attr : attr;
  un_int_ok : is_i32 un_int;
  un_attr_ok : is_attr un_attr }.

Section ExtentRpc.
Context `{Memory} `{Environment} `{Uninitialised}.

(** ** The server process *)

(** The registered methods; [put], [setattr] and [remove] leave their result
    parameter alone. *)
Definition do_get (id : Z) (buf : bytes) (s : extent_server) : outcome (extent_server * bytes * Z) :=
  let '(buf, st) := get s id buf in Ok (s, buf, st).
Definition do_getattr (id : Z) (a : attr) (s : extent_server) : outcome (extent_server * attr * Z) :=
  let '(a, st) := getattr s id a in Ok (s, a, st).
Definition do_put (id : Z) (buf : bytes) (r : Z) (s : extent_server) : outcome (extent_server * Z * Z) :=
  let '(s, st) := put s id buf in Ok (s, r, st).
Definition do_remove (id r : Z) (s : extent_server) : outcome (extent_server * Z * Z) :=
  let '(s, st) := remove s id in Ok (s, r, st).
Definition do_setattr (id : Z) (a : attr) (r : Z) (s : extent_server) : outcome (extent_server * Z * Z) :=
  let '(s, st) := setattr s id a in Ok (s, r, st).

(** [main]: start the RPC server, make the service, register its methods. *)
Definition extent_smain (random now : Z) : outcome (rpcs extent_server) :=
  s ← rpcs_start random 0 un_int un_int (extent_server_new now);
  s ← reg1 s proc_get (h1_fn u64_c string_c un_int [] do_get);
  s ← reg1 s proc_getattr (h1_fn u64_c attr_c un_int un_attr do_getattr);
  s ← reg1 s proc_put (h1_fn2 u64_c string_c i32_c un_int [] un_int do_put);
  s ← reg1 s proc_remove (h1_fn u64_c i32_c un_int un_int do_remove);
  reg1 s proc_setattr (h1_fn2 u64_c attr_c i32_c un_int un_attr un_int do_setattr).

(** ** The client stubs *)
Abbreviation ext_link := (link extent_server).

Definition extent_client_get (cl : ext_link) (eid : Z) (buf : bytes) : outcome (ext_link * bytes * Z) :=
  call1 u64_c string_c cl proc_get eid buf to_max.
Definition extent_client_getattr (cl : ext_link) (eid : Z) (a : attr) : outcome (ext_link * attr * Z) :=
  call1 u64_c attr_c cl proc_getattr eid a to_max.
Definition extent_client_put (cl : ext_link) (eid : Z) (buf : bytes) : outcome (ext_link * Z) :=
  '(cl, _, ret) ← call2 u64_c string_c i32_c cl proc_put eid buf un_int to_max; Ok (cl, ret).
Definition extent_client_remove (cl : ext_link) (eid : Z) : outcome (ext_link * Z) :=
  '(cl, _, ret) ← call1 u64_c i32_c cl proc_remove eid un_int to_max; Ok (cl, ret).
Definition extent_client_setattr (cl : ext_link) (eid : Z) (a : attr) : outcome (ext_link * Z) :=
  '(cl, _, ret) ← call2 u64_c attr_c i32_c cl proc_setattr eid a un_int to_max; Ok (cl, ret).

(** The constructor: a new client endpoint, bound to the server; a failed bind
    is only printed. [new] is the connection connect_to_dst makes. *)
Definition extent_client_new (random : Z) (s : rpcs extent_server) (new : option (Z * connection))
    : outcome ext_link :=
  '(cl, _) ← bind (rpcc_new true random) s new un_int to_max; Ok cl.

(** ** Readiness *)

(** What fits a message: the reader's limit less the header and the length and
    id that go with a content. *)
Definition rpc_limit : Z := MAX_PDU - 36.

Definition registered (s : rpcs extent_server) : Prop :=
  s_procs s !! proc_get = Some (h1_fn u64_c string_c un_int [] do_get) /\
  s_procs s !! proc_getattr = Some (h1_fn u64_c attr_c un_int un_attr do_getattr) /\
  s_procs s !! proc_put = Some (h1_fn2 u64_c string_c i32_c un_int [] un_int do_put) /\
  s_procs s !! proc_remove = Some (h1_fn u64_c i32_c un_int un_int do_remove) /\
  s_procs s !! proc_setattr = Some (h1_fn2 u64_c attr_c i32_c un_int un_attr un_int do_setattr).

Definition fits (s : extent_server) : Prop :=
  map_Forall (fun _ e => zlen (content e) <= rpc_limit) (extents s).

Definition rpc_ready (n : nat) (cl : ext_link) : Prop :=
  session n cl /\ registered (l_server cl) /\ server_ok (s_app (l_server cl)) /\ fits (s_app (l_server cl)).

(** A handler's result that a message can carry. *)
Ltac fits_message := unfold rpc_limit in *; rewrite ?MAX_PDU_val in *; change RPC_HEADER_SZ with 24;
  cbn [image u64_wire i32_wire string_wire attr_wire]; rewrite ?zlen_app;
  repeat match goal with
  | |- context [zlen (be32 ?x)] => change (zlen (be32 x)) with 4
  | |- context [zlen (be64 ?x)] => change (zlen (be64 x)) with 8
  end; lia.

Lemma rpc_ready_next n m cl cl' :
  rpc_ready m cl -> session n cl' -> s_procs (l_server cl') = s_procs (l_server cl) ->
  server_ok (s_app (l_server cl')) -> fits (s_app (l_server cl')) -> rpc_ready n cl'.
Proof. intros (_ & Hreg & _) Hs Hp Hok Hf. unfold rpc_ready, registered in *. by rewrite Hp. Qed.

(** *** The stubs: each returns what the server's method returns *)
Lemma rpc_get_ok n cl id d :
  rpc_ready (S n) cl -> is_u64 id ->
  let app := s_app (l_server cl) in
  exists cl', extent_client_get cl id d = Ok (cl', (get app id []).1, (get app id []).2) /\
    rpc_ready n cl' /\ s_app (l_server cl') = app.
Proof.
  intros Hrdy Hid app. pose proof Hrdy as (Hs & Hreg & Hok & Hfit).
  destruct (get app id []) as [r st] eqn:E.
  assert (zlen r <= rpc_limit /\ 0 <= st < 2 ^ 31) as [Hr Hst].
  { unfold get in E. destruct (extents app !! id) as [e|] eqn:He; simplify_eq.
    - split; [by apply (Hfit id)|done].
    - split; [by vm_compute|done]. }
  destruct (call1_ok u64_c string_c n cl proc_get id un_int r d [] do_get app st to_max)
    as (cl' & Ec & Hs' & Ha & Hp); try done; try apply Hreg.
  - unfold do_get. fold app. by rewrite E.
  - cbn [representable string_wire]. unfold rpc_limit in Hr. rewrite MAX_PDU_val in Hr. lia.
  - fits_message.
  - exists cl'. split; [done|]. split; [|done]. by apply (rpc_ready_next _ (S n) cl); rewrite ?Ha.
Qed.

Lemma rpc_getattr_ok n cl id d :
  rpc_ready (S n) cl -> is_u64 id ->
  let app := s_app (l_server cl) in
  exists cl', extent_client_getattr cl id d = Ok (cl', (getattr app id un_attr).1, (getattr app id un_attr).2) /\
    rpc_ready n cl' /\ s_app (l_server cl') = app.
Proof.
  intros Hrdy Hid app. pose proof Hrdy as (Hs & Hreg & Hok & Hfit).
  destruct (getattr app id un_attr) as [r st] eqn:E.
  assert (is_attr r /\ 0 <= st < 2 ^ 31) as [Hr Hst].
  { unfold getattr in E. destruct (extents app !! id) as [e|] eqn:He; simplify_eq.
    - split; [by apply (Hok id)|done].
    - split; [apply un_attr_ok|done]. }
  destruct (call1_ok u64_c attr_c n cl proc_getattr id un_int r d un_attr do_getattr app st to_max)
    as (cl' & Ec & Hs' & Ha & Hp); try done; try apply Hreg.
  - unfold do_getattr. fold app. by rewrite E.
  - exists cl'. split; [done|]. split; [|done]. by apply (rpc_ready_next _ (S n) cl); rewrite ?Ha.
Qed.

Lemma put_fits s id buf : fits s -> fits (put s id buf).1.
Proof.
  intros Hf. unfold put. destruct (Z.ltb_spec maxextent (zlen buf)); [done|].
  assert (zlen buf <= rpc_limit) by (unfold rpc_limit, maxextent in *; rewrite MAX_PDU_val; lia).
  destruct (extents s !! id); by apply map_Forall_insert_2.
Qed.

Lemma setattr_fits s id a : is_attr a -> a_size a <= rpc_limit -> fits s -> fits (setattr s id a).1.
Proof.
  intros (_ & _ & _ & Hu) Ha Hf. unfold setattr. destruct (extents s !! id) as [it|] eqn:He; [|done].
  destruct (_ =? _); apply map_Forall_insert_2; try done; cbn [content].
  - by apply (Hf id).
  - rewrite string_resize_length; [done|apply Hu].
Qed.

Lemma rpc_put_ok n cl id buf :
  rpc_ready (S n) cl -> is_u64 id -> zlen buf <= rpc_limit ->
  let app := s_app (l_server cl) in
  exists cl', extent_client_put cl id buf = Ok (cl', (put app id buf).2) /\
    rpc_ready n cl' /\ s_app (l_server cl') = (put app id buf).1.
Proof.
  intros Hrdy Hid Hb app. pose proof Hrdy as (Hs & Hreg & Hok & Hfit).
  pose proof (serve_ok app (Put id buf) Hok I) as Hok'. pose proof (put_fits app id buf Hfit) as Hfit'.
  cbn [serve] in Hok'. destruct (put app id buf) as [app' st] eqn:E. cbn [fst snd] in *.
  assert (0 <= st < 2 ^ 31) as Hst.
  { unfold put in E. destruct (maxextent <? zlen buf); [by simplify_eq|].
    by destruct (extents app !! id); simplify_eq. }
  assert (do_put id buf un_int app = Ok (app', un_int, st)) as Em by (unfold do_put; by rewrite E).
  destruct (call2_ok u64_c string_c i32_c n cl proc_put id un_int buf [] un_int un_int un_int do_put app' st to_max)
    as (cl' & Ec & Hs' & Ha & Hp);
    [exact Hs|done|done|apply Hreg|done|exact Hid| |done|done|done|fits_message|exact Em|exact Hst
    |apply un_int_ok|done|].
  - cbn [representable string_wire]. unfold rpc_limit in Hb. rewrite MAX_PDU_val in Hb. lia.
  - exists cl'. unfold extent_client_put. rewrite Ec. split; [done|].
    split; [|done]. by apply (rpc_ready_next _ (S n) cl); rewrite ?Ha.
Qed.

Lemma rpc_setattr_ok n cl id a :
  rpc_ready (S n) cl -> is_u64 id -> is_attr a -> a_size a <= rpc_limit ->
  let app := s_app (l_server cl) in
  exists cl', extent_client_setattr cl id a = Ok (cl', (setattr app id a).2) /\
    rpc_ready n cl' /\ s_app (l_server cl') = (setattr app id a).1.
Proof.
  intros Hrdy Hid Hat Hsz app. pose proof Hrdy as (Hs & Hreg & Hok & Hfit).
  pose proof (serve_ok app (Setattr id a) Hok Hat) as Hok'. pose proof (setattr_fits app id a Hat Hsz Hfit) as Hfit'.
  cbn [serve] in Hok'. destruct (setattr app id a) as [app' st] eqn:E. cbn [fst snd] in *.
  assert (0 <= st < 2 ^ 31) as Hst.
  { unfold setattr in E. destruct (extents app !! id); [|by simplify_eq].
    destruct (_ =? _); by simplify_eq. }
  assert (do_setattr id a un_int app = Ok (app', un_int, st)) as Em by (unfold do_setattr; by rewrite E).
  destruct (call2_ok u64_c attr_c i32_c n cl proc_setattr id un_int a un_attr un_int un_int un_int do_setattr
    app' st to_max) as (cl' & Ec & Hs' & Ha & Hp);
    [exact Hs|done|done|apply Hreg|done|exact Hid|exact Hat|done|done|done|done|exact Em|exact Hst
    |apply un_int_ok|done|].
  - exists cl'. unfold extent_client_setattr. rewrite Ec. split; [done|].
    split; [|done]. by apply (rpc_ready_next _ (S n) cl); rewrite ?Ha.
Qed.

Lemma rpc_remove_ok n cl id :
  rpc_ready (S n) cl -> is_u64 id ->
  exists cl', extent_client_remove cl id = Ok (cl', IOERR) /\
    rpc_ready n cl' /\ s_app (l_server cl') = s_app (l_server cl).
Proof.
  intros Hrdy Hid. pose proof Hrdy as (Hs & Hreg & Hok & Hfit).
  destruct (call1_ok u64_c i32_c n cl proc_remove id un_int un_int un_int un_int do_remove
    (s_app (l_server cl)) IOERR to_max) as (cl' & Ec & Hs' & Ha & Hp); try done; try apply Hreg; try apply un_int_ok.
  exists cl'. unfold extent_client_remove. rewrite Ec. split; [done|].
  split; [|done]. by apply (rpc_ready_next _ (S n) cl); rewrite ?Ha.
Qed.

(** ** The stubs are an extent service *)
#[export] Program Instance rpc_service : ExtentService ext_link := {|
  ec_get := extent_client_get;
  ec_put := extent_client_put;
  ec_getattr := extent_client_getattr;
  ec_setattr := extent_client_setattr;
  ec_remove := extent_client_remove;
  ec_model cl := extents (s_app (l_server cl));
  ec_ready := rpc_ready;
  ec_limit := rpc_limit |}.
Next Obligation. unfold rpc_limit. rewrite MAX_PDU_val. unfold maxextent. lia. Qed.
Next Obligation. intros n s (? & ? & ?). split; [by apply session_less|done]. Qed.
Next Obligation.
  intros n s id d Hr Hid. destruct (rpc_get_ok n s id d Hr Hid) as (cl' & E & Hr' & Ha).
  exists cl'. split; [exact Hr'|]. rewrite Ha. split; [reflexivity|]. unfold get in E.
  destruct (extents (s_app (l_server s)) !! id); [exact E|]. eexists. exact E.
Qed.
Next Obligation.
  intros n s id buf Hr Hid Hb. destruct (rpc_put_ok n s id buf Hr Hid Hb) as (cl' & E & Hr' & Ha).
  exists cl'. split; [exact Hr'|]. rewrite Ha, E.
  destruct (@ec_put_law _ local_service 0 (s_app (l_server s)) id buf I Hid) as (s' & _ & Hlaw).
  { cbn [ec_limit local_service]. unfold rpc_limit in Hb. rewrite MAX_PDU_val in Hb. lia. }
  cbn [ec_put local_service ec_model] in Hlaw. destruct (maxextent <? zlen buf).
  - destruct Hlaw as (st & Hp & Hst & Hm). injection Hp as Hp. exists st. rewrite Hp. split_and!; [reflexivity|exact Hst|exact Hm].
  - destruct Hlaw as (Hp & t & Hm). injection Hp as Hp. rewrite Hp. split; [reflexivity|]. exists t. exact Hm.
Qed.
Next Obligation.
  intros n s id d Hr Hid. destruct (rpc_getattr_ok n s id d Hr Hid) as (cl' & E & Hr' & Ha).
  exists cl'. split; [exact Hr'|]. rewrite Ha. split; [reflexivity|]. unfold getattr in E.
  destruct (extents (s_app (l_server s)) !! id); [exact E|]. eexists. exact E.
Qed.
Next Obligation.
  intros n s id a Hr Hid Hat Hsz. destruct (rpc_setattr_ok n s id a Hr Hid Hat Hsz) as (cl' & E & Hr' & Ha).
  exists cl'. split; [exact Hr'|]. rewrite Ha, E.
  destruct (@ec_setattr_law _ local_service 0 (s_app (l_server s)) id a I Hid Hat) as (s' & _ & Hlaw).
  { cbn [ec_limit local_service]. unfold rpc_limit in Hsz. rewrite MAX_PDU_val in Hsz. lia. }
  cbn [ec_setattr local_service ec_model] in Hlaw. destruct (extents (s_app (l_server s)) !! id).
  - destruct Hlaw as (Hp & at' & Hz & Hm). injection Hp as Hp. rewrite Hp. split; [reflexivity|]. exists at'. split; [exact Hz|exact Hm].
  - destruct Hlaw as (Hp & Hm). injection Hp as Hp. rewrite Hp. split; [reflexivity|exact Hm].
Qed.
Next Obligation.
  intros n s id Hr Hid. destruct (rpc_remove_ok n s id Hr Hid) as (cl' & E & Hr' & Ha).
  exists cl'. split; [exact Hr'|]. split; [exact E|]. by rewrite Ha.
Qed.
End ExtentRpc.

(** ** Runs of calls *)

(** One call of a user of extent_client, and what the user may look at in its
    outcome: the status, and the result when the status is OK. *)
Inductive ec_call :=
  | CGet (id : Z) | CPut (id : Z) (buf : bytes) | CGetattr (id : Z) | CSetattr (id : Z) (a : attr)
  | CRemove (id : Z).
Record ec_answer := Answer { an_status : Z; an_content : option bytes; an_attr : option attr }.

Section Runs.
Context `{ExtentService St}.

Definition when_ok {A} (st : Z) (a : A) : option A := if st =? OK then Some a else None.

Definition run_call (s : St) (k : ec_call) : outcome (St * ec_answer) :=
  match k with
  | CGet id => '(s, b, st) ← ec_get s id []; Ok (s, Answer st (when_ok st b) None)
  | CPut id buf => '(s, st) ← ec_put s id buf; Ok (s, Answer st None None)
  | CGetattr id => '(s, a, st) ← ec_getattr s id (Attr 0 0 0 0); Ok (s, Answer st None (when_ok st a))
  | CSetattr id a => '(s, st) ← ec_setattr s id a; Ok (s, Answer st None None)
  | CRemove id => '(s, st) ← ec_remove s id; Ok (s, Answer st None None)
  end.

Fixpoint run_calls (s : St) (ks : list ec_call) : outcome (St * list ec_answer) :=
  match ks with
  | [] => Ok (s, [])
  | k :: ks => '(s, an) ← run_call s k; '(s, ans) ← run_calls s ks; Ok (s, an :: ans)
  end.
End Runs.

(** A call that fits the message size. *)
Definition sendable (k : ec_call) : Prop :=
  match k with
  | CGet id | CGetattr id | CRemove id => is_u64 id
  | CPut id buf => is_u64 id /\ zlen buf <= rpc_limit
  | CSetattr id a => is_u64 id /\ is_attr a /\ a_size a <= rpc_limit
  end.

Section Refinement.
Context `{Memory} `{Environment} `{Uninitialised}.

(** One step of the simulation: the server's object is the abstract state. *)
Lemma run_call_simulates n (cl : link extent_server) k :
  rpc_ready (S n) cl -> sendable k ->
  exists cl' an, run_call cl k = Ok (cl', an) /\ rpc_ready n cl' /\
    run_call (s_app (l_server cl)) k = Ok (s_app (l_server cl'), an).
Proof.
  intros Hr Hk. destruct k as [id|id buf|id|id a|id]; cbn [run_call sendable] in *.
  - destruct (rpc_get_ok n cl id [] Hr Hk) as (cl' & E & Hr' & Hs'). eexists cl', _.
    cbn [ec_get rpc_service local_service]. rewrite E. cbn [mbind outcome_bind].
    split; [reflexivity|]. split; [exact Hr'|]. rewrite Hs'. by destruct (get _ id []).
  - destruct Hk as [Hid Hb]. destruct (rpc_put_ok n cl id buf Hr Hid Hb) as (cl' & E & Hr' & Hs'). eexists cl', _.
    cbn [ec_put rpc_service local_service]. rewrite E. cbn [mbind outcome_bind].
    split; [reflexivity|]. split; [exact Hr'|]. rewrite Hs'. by destruct (put _ id buf).
  - destruct (rpc_getattr_ok n cl id (Attr 0 0 0 0) Hr Hk) as (cl' & E & Hr' & Hs'). eexists cl', _.
    cbn [ec_getattr rpc_service local_service]. rewrite E. cbn [mbind outcome_bind].
    split; [reflexivity|]. split; [exact Hr'|]. rewrite Hs'. unfold getattr.
    by destruct (extents (s_app (l_server cl)) !! id).
  - destruct Hk as (Hid & Ha & Hs). destruct (rpc_setattr_ok n cl id a Hr Hid Ha Hs) as (cl' & E & Hr' & Hs').
    eexists cl', _. cbn [ec_setattr rpc_service local_service]. rewrite E. cbn [mbind outcome_bind].
    split; [reflexivity|]. split; [exact Hr'|]. rewrite Hs'. by destruct (setattr _ id a).
  - destruct (rpc_remove_ok n cl id Hr Hk) as (cl' & E & Hr' & Hs'). eexists cl', _.
    cbn [ec_remove rpc_service local_service]. rewrite E. cbn [mbind outcome_bind].
    split; [reflexivity|]. split; [exact Hr'|]. rewrite Hs'. reflexivity.
Qed.

(** C15. The extent service over RPC refines the service called directly: any
    run of sendable calls of the client stubs completes, gives the caller the
    same statuses and results as the same calls on the server's object, and
    leaves that object in the same state. *)
Theorem rpc_refines_local n (cl : link extent_server) ks :
  rpc_ready (length ks + n) cl -> Forall sendable ks ->
  exists cl' ans, run_calls cl ks = Ok (cl', ans) /\ rpc_ready n cl' /\
    run_calls (s_app (l_server cl)) ks = Ok (s_app (l_server cl'), ans).
Proof.
  intros Hr Hks. revert cl Hr. induction Hks as [|k ks Hk _ IH]; intros cl Hr.
  { exists cl, []. done. }
  destruct (run_call_simulates (length ks + n) cl k Hr Hk) as (cl1 & an & E1 & Hr1 & L1).
  destruct (IH cl1 Hr1) as (cl2 & ans & E2 & Hr2 & L2).
  exists cl2, (an :: ans). cbn [run_calls]. rewrite E1, L1. cbn [mbind outcome_bind].
  rewrite E2, L2. split; [reflexivity|]. split; [exact Hr2|reflexivity].
Qed.

(** ** From the start of both processes *)

(** The server process with the client's connection accepted. *)
Definition extent_boot (random now fd : Z) : outcome (rpcs extent_server) :=
  s ← extent_smain random now;
  Ok (with_objs s {[env_conn := connection_new fd 0]}).

Lemma extent_boot_ok random now fd :
  exists s, extent_boot random now fd = Ok s /\ registered s /\ s_app s = extent_server_new now /\
    s_procs s !! rpc_bind = Some (h1_fn i32_c i32_c un_int un_int (rpcbind (s_nonce s))) /\
    s_nonce s = u32 random /\ s_conns s = ∅ /\ s_reply_window s = ∅ /\ live s env_conn 1.
Proof.
  unfold extent_boot, extent_smain, rpcs_start, reg1.
  cbn [s_procs rpcs_new mbind outcome_bind with_procs s_nonce].
  change (i32 rpc_bind) with rpc_bind. change (i32 proc_get) with proc_get.
  change (i32 proc_getattr) with proc_getattr. change (i32 proc_put) with proc_put.
  change (i32 proc_remove) with proc_remove. change (i32 proc_setattr) with proc_setattr.
  repeat (rewrite ?lookup_empty; rewrite ?lookup_insert_ne by done;
          cbn [s_procs mbind outcome_bind with_procs s_nonce]).
  eexists. split; [reflexivity|].
  unfold registered. cbn [s_procs with_objs s_app s_nonce s_conns s_reply_window with_procs].
  split_and!; try reflexivity;
    try (repeat first [rewrite lookup_insert_eq; reflexivity | rewrite lookup_insert_ne by done]).
  exists (connection_new fd 0). cbn [s_objs with_objs]. rewrite lookup_singleton_eq.
  split_and!; [reflexivity|reflexivity|done].
Qed.

Lemma extent_system_ready random now fd clt ch fd' :
  exists s cl, extent_boot random now fd = Ok s /\
    extent_client_new clt s (Some (ch, connection_new fd' 0)) = Ok cl /\
    s_app (l_server cl) = extent_server_new now /\ forall n, Z.of_nat n <= 2 ^ 31 - 2 -> rpc_ready n cl.
Proof.
  destruct (extent_boot_ok random now fd) as (s & E & Hreg & Happ & Hb & Hno & Hc & Hw & Hl).
  destruct (bind_ok true clt s (Some (ch, connection_new fd' 0)) un_int un_int un_int to_max)
    as (cl & Eb & Hs & Ha & Hp).
  - exact Hb.
  - rewrite Hno. apply u32_range.
  - exists ch, (connection_new fd' 0). done.
  - exact Hl.
  - done.
  - right. rewrite Hc, Hw. split; apply lookup_empty.
  - exists s, cl. split; [exact E|]. unfold extent_client_new. rewrite Eb. cbn [mbind outcome_bind].
    split; [reflexivity|]. rewrite Happ in Ha. split; [exact Ha|]. intros n Hn.
    split; [by apply Hs|]. unfold registered in *. rewrite Hp, Ha. split; [exact Hreg|].
    split; [apply server_new_ok|]. intros i e. cbn [extents extent_server_new].
    intros [_ <-]%lookup_singleton_Some. by vm_compute.
Qed.
End Refinement.

Module Demo.
#[export] Program Instance uninitialised : Uninitialised :=
  {| un_int := 7; un_attr := Attr 7 7 7 7 |}.
Next Obligation. unfold is_i32. lia. Qed.
Next Obligation. unfold is_attr, is_u32. cbn. lia. Qed.
End Demo.

#[local] Existing Instance zero_memory.
#[local] Existing Instance Session.Demo.environment.
#[local] Existing Instance Demo.uninitialised.

(** A freshly started system: put an extent, read it and one that is missing. *)
Lemma rpc_refines_local_witness :
  exists s cl cl' ans, extent_boot 77 100 3 = Ok s /\
    extent_client_new 9 s (Some (2, connection_new 5 0)) = Ok cl /\
    run_calls cl [CPut 6 (str "hi"); CGet 6; CGet 8] = Ok (cl', ans) /\
    ans = [Answer OK None None; Answer OK (Some (str "hi")) None; Answer NOENT None None].
Proof.
  destruct (extent_system_ready 77 100 3 9 2 5) as (s & cl & E1 & E2 & Ha & Hr).
  destruct (rpc_refines_local 0 cl [CPut 6 (str "hi"); CGet 6; CGet 8]) as (cl' & ans & E3 & _ & E4).
  - apply Hr. cbn [length Nat.add]. lia.
  - repeat constructor; by vm_compute.
  - exists s, cl, cl', ans. split; [exact E1|]. split; [exact E2|]. split; [exact E3|].
    rewrite Ha in E4.
    assert (is_ok (run_calls (extent_server_new 100) [CPut 6 (str "hi"); CGet 6; CGet 8]) = true) as Hok
      by (by vm_compute).
    assert (match run_calls (extent_server_new 100) [CPut 6 (str "hi"); CGet 6; CGet 8] with
      Ok (_, a) => a | Crash _ => [] end = ans) as <- by (by rewrite E4).
    by vm_compute.
Defined.
