(* ===== verification/Strings.v ===== *)
(** * std::string as the file system uses it

    find, substr, replace and the decimal conversions of yfs_client.cc, with
    the lemmas about strings cut into fields by a separator. *)

From S2P Require Import Prelude.
Local Open Scope Z_scope.

(** ** Searching and cutting *)

(** Offset of the first occurrence of [pat]. *)
Fixpoint find_at (pat s : bytes) : option nat :=
  if bool_decide (take (length pat) s = pat) then Some O
  else match s with [] => None | _ :: s => option_map S (find_at pat s) end.

(** [s.find(pat, pos)], [None] for npos *)
Definition string_find (s pat : bytes) (pos : Z) : option Z :=
  if zlen s <? pos then None
  else option_map (fun i => pos + Z.of_nat i) (find_at pat (drop (Z.to_nat pos) s)).

(** [s.substr(pos, n)] for [size_t] arguments *)
Definition string_substr (s : bytes) (pos n : Z) : outcome bytes :=
  if zlen s <? pos then Crash UncaughtException
  else Ok (take (Z.to_nat (Z.min n (zlen s))) (drop (Z.to_nat pos) s)).

(** [s.replace(pos, n, t)] for [size_t] arguments *)
Definition string_replace (s : bytes) (pos n : Z) (t : bytes) : outcome bytes :=
  if zlen s <? pos then Crash UncaughtException
  else Ok (take (Z.to_nat pos) s ++ t
           ++ drop (Z.to_nat (pos + Z.min n (zlen s))) s).

(** ** Numbers *)
Definition is_digit (c : Z) : bool := (48 <=? c) && (c <=? 57).
Definition is_space (c : Z) : bool := (c =? 32) || ((9 <=? c) && (c <=? 13)).

Fixpoint drop_while (p : Z -> bool) (s : bytes) : bytes :=
  match s with [] => [] | c :: s' => if p c then drop_while p s' else s end.
Fixpoint take_while (p : Z -> bool) (s : bytes) : bytes :=
  match s with [] => [] | c :: s' => if p c then c :: take_while p s' else [] end.

Definition decimal (ds : bytes) : Z := foldl (fun v c => v * 10 + (c - 48)) 0 ds.

(** Blanks, a sign, digits: how the library's readers take a number apart. *)
Definition scan (s : bytes) : bool * bytes :=
  let s := drop_while is_space s in
  let '(neg, s) := match s with
                   | 43 :: s' => (false, s')
                   | 45 :: s' => (true, s')
                   | _ => (false, s)
                   end in
  (neg, take_while is_digit s).

(** [istringstream(n) >> x] for an [unsigned long long] that is 0 when nothing
    can be read; too large a number reads as the largest one. *)
Definition read_ull (s : bytes) : Z :=
  let '(neg, ds) := scan s in
  match ds with
  | [] => 0
  | ds => let v := decimal ds in
          if 2 ^ 64 <=? v then 2 ^ 64 - 1 else if neg : bool then u64 (- v) else v
  end.

(** [atoi(s)]: strtol, which stops at the ends of [long], cut to [int]. *)
Definition atoi (s : bytes) : Z :=
  let '(neg, ds) := scan s in
  let v := decimal ds in
  i32 (if neg : bool then Z.max (- 2 ^ 63) (- v) else Z.min (2 ^ 63 - 1) v).

(** [ostringstream << x]; twenty digits are enough for 64 bits. *)
Fixpoint digits (fuel : nat) (n : Z) : bytes :=
  match fuel with
  | O => []
  | S fuel => if n <? 10 then [48 + n] else digits fuel (n / 10) ++ [48 + n mod 10]
  end.
Definition print_ull (n : Z) : bytes := digits 20 n.

Lemma digits_all_digits fuel n : 0 <= n -> Forall (fun c => is_digit c = true) (digits fuel n).
Proof.
  revert n. induction fuel as [|fuel IH]; simpl; intros n Hn; [constructor|].
  assert (forall d, 0 <= d < 10 -> is_digit (48 + d) = true) as Hd.
  { intros d Hd. unfold is_digit. apply andb_true_iff. rewrite !Z.leb_le. lia. }
  destruct (Z.ltb_spec n 10).
  - constructor; [apply Hd; lia|constructor].
  - apply Forall_app. split; [apply IH, Z.div_pos; lia|]. constructor; [|constructor].
    apply Hd, Z.mod_pos_bound. lia.
Qed.

Lemma digits_nonempty fuel n : digits (S fuel) n <> [].
Proof. simpl. destruct (n <? 10); [done|]. by destruct (digits fuel (n / 10)). Qed.

Lemma digits_length fuel n : (length (digits fuel n) <= fuel)%nat.
Proof.
  revert n. induction fuel as [|fuel IH]; intros n; simpl; [done|].
  destruct (n <? 10); [simpl; lia|]. rewrite length_app. specialize (IH (n / 10)). simpl. lia.
Qed.

Lemma decimal_snoc ds c : decimal (ds ++ [c]) = decimal ds * 10 + (c - 48).
Proof. unfold decimal. by rewrite foldl_app. Qed.

Lemma decimal_digits fuel n : 0 <= n < 10 ^ Z.of_nat fuel -> decimal (digits fuel n) = n.
Proof.
  revert n. induction fuel as [|fuel IH]; intros n Hn.
  { simpl in *. unfold decimal. simpl. lia. }
  cbn [digits]. destruct (Z.ltb_spec n 10).
  - unfold decimal. simpl. lia.
  - rewrite decimal_snoc, IH; [Z.div_mod_to_equations; lia|].
    rewrite Nat2Z.inj_succ, Z.pow_succ_r in Hn by lia. Z.div_mod_to_equations. lia.
Qed.

Lemma print_decimal n : is_u64 n -> decimal (print_ull n) = n.
Proof. intros Hn. apply decimal_digits. unfold is_u64 in Hn. simpl. lia. Qed.

Lemma take_while_all p s : Forall (fun c => p c = true) s -> take_while p s = s.
Proof. induction 1 as [|c s Hc _ IH]; simpl; [done|]. by rewrite Hc, IH. Qed.

Lemma digit_cases c : is_digit c = true -> 48 <= c <= 57.
Proof. unfold is_digit. rewrite andb_true_iff, !Z.leb_le. done. Qed.

(** A printed number is scanned as its digits. *)
Lemma scan_print n : 0 <= n -> scan (print_ull n) = (false, print_ull n).
Proof.
  intros Hn. pose proof (digits_all_digits 20 n Hn) as Hall.
  fold (print_ull n) in Hall. destruct (print_ull n) as [|c ds] eqn:E.
  { by destruct (digits_nonempty 19 n). }
  pose proof Hall as Hc. apply Forall_cons in Hc as [Hc%digit_cases _].
  unfold scan. cbn [drop_while].
  replace (is_space c) with false.
  2: { unfold is_space. symmetry. rewrite (proj2 (Z.eqb_neq _ _)), (proj2 (Z.leb_gt c 13)) by lia.
       by rewrite andb_false_r. }
  assert (forall (A : Type) (x y z : A), match c with 43 => x | 45 => y | _ => z end = z) as Hm.
  { intros. destruct c as [|q|q]; try lia; do 6 (destruct q as [q|q|]; try lia; try done). }
  replace (match c with 43 => (false, ds) | 45 => (true, ds) | _ => (false, c :: ds) end)
    with (false, c :: ds) by (by rewrite Hm).
  by rewrite take_while_all.
Qed.

(** Reading back a printed number. *)
Lemma read_print n : is_u64 n -> read_ull (print_ull n) = n.
Proof.
  intros Hn. pose proof (print_decimal n Hn) as Hd. unfold is_u64 in Hn.
  unfold read_ull. rewrite scan_print by lia. destruct (print_ull n) as [|c ds] eqn:E.
  { by destruct (digits_nonempty 19 n). }
  cbn zeta. rewrite Hd, (proj2 (Z.leb_gt _ _)) by lia. done.
Qed.

Lemma atoi_print n : 0 <= n < 2 ^ 31 -> atoi (print_ull n) = n.
Proof.
  intros Hn. unfold atoi. rewrite scan_print by lia. rewrite print_decimal by (unfold is_u64; lia).
  rewrite Z.min_r by lia. apply i32_small. unfold is_i32. lia.
Qed.

(** ** Fields *)
Definition colon : Z := 58.

Definition plain (f : bytes) : Prop := colon ∉ f.
#[export] Instance plain_dec f : Decision (plain f).
Proof. unfold plain. apply _. Defined.

(** Fields with a colon after each, and with one between any two. *)
Definition closed (fs : list bytes) : bytes := concat (map (fun f => f ++ [colon]) fs).
Fixpoint joined (fs : list bytes) : bytes :=
  match fs with
  | [] => []
  | [f] => f
  | f :: fs' => f ++ colon :: joined fs'
  end.

Lemma joined_closed fs : fs <> [] -> joined fs ++ [colon] = closed fs.
Proof.
  induction fs as [|f [|g fs] IH]; intros Hne; [done| |].
  - unfold closed. simpl. by rewrite app_nil_r.
  - change (joined (f :: g :: fs)) with (f ++ colon :: joined (g :: fs)).
    change (closed (f :: g :: fs)) with ((f ++ [colon]) ++ closed (g :: fs)).
    rewrite <- IH by done. by rewrite <- !(assoc_L (++)).
Qed.

Lemma joined_cons f fs : fs <> [] -> joined (f :: fs) = f ++ colon :: joined fs.
Proof. by destruct fs. Qed.

Lemma joined_app fs gs : fs <> [] -> gs <> [] -> joined (fs ++ gs) = joined fs ++ colon :: joined gs.
Proof.
  intros Hf Hg. induction fs as [|f [|g fs] IH]; [done| |].
  - cbn [app]. by rewrite joined_cons.
  - change ((f :: g :: fs) ++ gs) with (f :: (g :: fs) ++ gs).
    rewrite joined_cons by done. rewrite IH by done.
    rewrite (joined_cons f (g :: fs)) by done. by rewrite <- (assoc_L (++)).
Qed.

Lemma joined_last fs f : joined (fs ++ [f]) = closed fs ++ f.
Proof.
  destruct (decide (fs = [])) as [->|Hne]; [done|].
  rewrite joined_app by done. rewrite <- joined_closed by done. by rewrite <- (assoc_L (++)).
Qed.

Lemma plain_cons x f : plain (x :: f) -> x <> colon /\ plain f.
Proof. unfold plain. set_solver. Qed.

(** The next colon. *)
Lemma find_colon f tl : plain f -> find_at [colon] (f ++ colon :: tl) = Some (length f).
Proof.
  induction f as [|x f IH]; intros Hp; [done|]. apply plain_cons in Hp as [Hx Hp].
  cbn [app find_at]. rewrite bool_decide_false by (simpl; congruence). by rewrite IH.
Qed.
Lemma find_colon_none f : plain f -> find_at [colon] f = None.
Proof.
  induction f as [|x f IH]; intros Hp; [done|]. apply plain_cons in Hp as [Hx Hp].
  cbn [find_at]. rewrite bool_decide_false by (simpl; congruence). by rewrite IH.
Qed.

(** A name with its colon matches at the front of a field only as the whole. *)
Lemma name_matches name f tl :
  plain name -> plain f ->
  take (length (name ++ [colon])) (f ++ colon :: tl) = name ++ [colon] <-> name = f.
Proof.
  revert f. induction name as [|x name IH]; intros [|y f] Hn Hf; cbn [app length take].
  - done.
  - split; [|done]. intros [= E]. by apply plain_cons in Hf as [? _].
  - split; [|done]. intros [= E _]. by apply plain_cons in Hn as [? _].
  - apply plain_cons in Hn as [_ Hn]. apply plain_cons in Hf as [_ Hf].
    specialize (IH f Hn Hf). split.
    + intros [= -> E]. f_equal. by apply IH.
    + intros [= -> ->]. f_equal. by apply IH.
Qed.

Lemma suffix_cons_iff (name : bytes) x f : name `suffix_of` x :: f <-> name = x :: f \/ name `suffix_of` f.
Proof.
  split.
  - destruct name as [|y name]; [right; apply suffix_nil|]. apply suffix_cons_inv.
  - intros [->|H]; [done|]. by apply suffix_cons_r.
Qed.

(** Searching for a name with its colon: found at the end of the first field
    that ends with the name. *)
Lemma find_name name f tl :
  plain name -> name <> [] -> plain f ->
  find_at (name ++ [colon]) (f ++ colon :: tl) =
    if decide (name `suffix_of` f) then Some (length f - length name)%nat
    else option_map (fun i => length f + 1 + i)%nat (find_at (name ++ [colon]) tl).
Proof.
  intros Hn Hne. induction f as [|x f IH]; intros Hf.
  - cbn [app]. rewrite decide_False by (intros Hs%suffix_nil_inv; done).
    cbn [find_at]. rewrite bool_decide_false.
    + destruct (find_at (name ++ [colon]) tl); done.
    + intros E. apply (name_matches name [] tl) in E; [done|done|done].
  - pose proof Hf as [_ Hf']%plain_cons. cbn [app find_at].
    destruct (decide (name = x :: f)) as [->|Hx].
    + rewrite bool_decide_true by (by apply (name_matches (x :: f) (x :: f) tl)). rewrite decide_True by done.
      by rewrite Nat.sub_diag.
    + rewrite bool_decide_false by (intros E; by apply (name_matches name (x :: f) tl) in E).
      rewrite IH by done. destruct (decide (name `suffix_of` f)) as [Hs|Hs].
      * rewrite decide_True by (apply suffix_cons_iff; by right). apply suffix_length in Hs.
        cbn [option_map length]. f_equal. lia.
      * rewrite decide_False by (intros [?|?]%suffix_cons_iff; done).
        destruct (find_at (name ++ [colon]) tl); done.
Qed.

(** Digits are no colons. *)
Lemma print_plain n : 0 <= n -> plain (print_ull n).
Proof.
  intros Hn Hin. pose proof (digits_all_digits 20 n Hn) as Hall. rewrite Forall_forall in Hall.
  by specialize (Hall _ Hin).
Qed.

Lemma closed_cons f fs : closed (f :: fs) = f ++ colon :: closed fs.
Proof. unfold closed. simpl. by rewrite <- (assoc_L (++)). Qed.
Lemma closed_app fs gs : closed (fs ++ gs) = closed fs ++ closed gs.
Proof. unfold closed. by rewrite map_app, concat_app. Qed.
