(* ===== verification/Address.v ===== *)
(** * Addresses: make_sockaddr and operator< on sockaddr_in (rpc/rpc.cc)

    A C string is the bytes before its NUL. The resolver, inet_addr(3) and
    gethostbyname(3), is a parameter; exit(1) is the result [None]. *)

From S2P Require Import Prelude Marshall MarshallMap Strings.
Local Open Scope Z_scope.

Definition AF_INET : Z := 2.
Definition INADDR_NONE : Z := 2 ^ 32 - 1.

(** The fields the program sets; [s_addr] and [sin_port] are in network order. *)
Record sockaddr_in := Sockaddr { sin_family : Z; s_addr : Z; sin_port : Z }.
#[export] Instance sockaddr_eq_dec : EqDecision sockaddr_in.
Proof. solve_decision. Defined.

(** operator<(const sockaddr_in &, const sockaddr_in &) *)
Definition sockaddr_lt (a b : sockaddr_in) : bool :=
  (s_addr a <? s_addr b) || ((s_addr a =? s_addr b) && (sin_port a <? sin_port b)).

(** [htons] and [ntohs] on a little-endian machine, of an [int] argument. *)
Definition htons (x : Z) : Z := let x := u16 x in (x mod 2 ^ 8) * 2 ^ 8 + x / 2 ^ 8.
Definition ntohs (x : Z) : Z := htons x.

(** The argument of both server mains, a port; [None] is exit(1). *)
Definition server_args (argv : list bytes) : option Z :=
  if negb (zlen argv =? 2) then None else atoi <$> argv !! 1%nat.

Section Resolver.
Context (inet_addr : bytes -> Z) (gethostbyname : bytes -> option (Z * Z)).

(** make_sockaddr(host, port, dst); a host entry is its h_length and address. *)
Definition make_sockaddr2 (host port : bytes) : option sockaddr_in :=
  let a := inet_addr host in
  let addr := if negb (a =? INADDR_NONE) then Some a
              else match gethostbyname host with
                   | Some (h_length, ad) => if h_length =? 4 then Some ad else None
                   | None => None
                   end in
  match addr with
  | Some ad => Some (Sockaddr AF_INET ad (htons (atoi port)))
  | None => None
  end.

(** [memcpy] of [bs] and a NUL to the start of char host[200] *)
Definition host_buffer : Z := 200.
Definition fill_host (bs : bytes) : outcome bytes :=
  if zlen bs + 1 <=? host_buffer then Ok bs else Crash OutOfBounds.

(** make_sockaddr(hostandport, dst) *)
Definition make_sockaddr (hostandport : bytes) : outcome (option sockaddr_in) :=
  match find_at [colon] hostandport with
  | None =>
      host ← fill_host (str "127.0.0.1");
      Ok (make_sockaddr2 host hostandport)
  | Some i =>
      host ← fill_host (take i hostandport);
      Ok (make_sockaddr2 host (drop (S i) hostandport))
  end.

(** The address a host name stands for, if the resolver knows one. *)
Definition resolves (host : bytes) (ad : Z) : Prop :=
  inet_addr host = ad /\ ad <> INADDR_NONE \/
  inet_addr host = INADDR_NONE /\ gethostbyname host = Some (4, ad).

Lemma make_sockaddr2_resolves host port ad :
  resolves host ad -> make_sockaddr2 host port = Some (Sockaddr AF_INET ad (htons (atoi port))).
Proof.
  unfold make_sockaddr2. intros [[-> Hne]|[-> ->]]; [|done].
  by rewrite (proj2 (Z.eqb_neq _ _)).
Qed.
End Resolver.

Lemma htons_involutive x : is_u16 x -> htons (htons x) = x.
Proof.
  unfold is_u16, htons, u16. intros Hx. cbn zeta.
  change (2 ^ 16) with 65536 in *. change (2 ^ 8) with 256. Z.div_mod_to_equations. lia.
Qed.

(** operator< is a strict order on addresses of one family, so that they can be
    keys of a std::map. *)
Record inet_address := Inet { i_addr : Z; i_port : Z }.
Definition as_sockaddr (a : inet_address) : sockaddr_in := Sockaddr AF_INET (i_addr a) (i_port a).

#[export] Program Instance sockaddr_key : MapKey inet_address :=
  {| key_lt a b := sockaddr_lt (as_sockaddr a) (as_sockaddr b) |}.
Next Obligation. intros [a p]. unfold sockaddr_lt. cbn. by rewrite !Z.ltb_irrefl, andb_false_r. Qed.
Next Obligation. intros [a p] [b q] [c r]. unfold sockaddr_lt. cbn. lia. Qed.
Next Obligation.
  intros [a p] [b q]. unfold sockaddr_lt. cbn. intros H1 H2. f_equal; lia.
Qed.

(** C40. What make_sockaddr makes of its argument: a port alone is a port of the
    local host; "host:port" with a host name the resolver knows is that host's
    address with the port, which ntohs gives back for every port number; a name
    it does not know ends the process; and 200 or more characters before the
    colon are copied past the end of the host buffer. *)
Theorem make_sockaddr_spec inet_addr gethostbyname host ad n :
  resolves inet_addr gethostbyname host ad -> plain host -> is_u16 n ->
  let mk := make_sockaddr inet_addr gethostbyname in
  (exists port, ntohs port = n /\
     (zlen host < host_buffer -> mk (host ++ str ":" ++ print_ull n) = Ok (Some (Sockaddr AF_INET ad port))) /\
     (host = str "127.0.0.1" -> mk (print_ull n) = Ok (Some (Sockaddr AF_INET ad port)))) /\
  (forall port, host_buffer <= zlen host -> mk (host ++ str ":" ++ port) = Crash OutOfBounds) /\
  (forall name port, plain name -> zlen name < host_buffer ->
     inet_addr name = INADDR_NONE -> gethostbyname name = None ->
     mk (name ++ str ":" ++ port) = Ok None).
Proof.
  intros Hr Hp Hn mk. unfold mk, make_sockaddr.
  assert (forall f port, plain f -> find_at [colon] (f ++ str ":" ++ port) = Some (length f)) as Hf.
  { intros f port Hpl. exact (find_colon f port Hpl). }
  assert (forall f port, take (length f) (f ++ str ":" ++ port) = f /\
            drop (S (length f)) (f ++ str ":" ++ port) = port) as Hcut.
  { intros f port. rewrite take_app_length. split; [done|].
    replace (S (length f)) with (length (f ++ str ":")) by (rewrite length_app; simpl; lia).
    by rewrite (assoc_L (++)), drop_app_length. }
  split; [|split].
  - exists (htons n). split; [by apply htons_involutive|].
    assert (atoi (print_ull n) = n) as Ha by (apply atoi_print; unfold is_u16 in Hn; lia). split.
    + intros Hl. rewrite Hf by done. destruct (Hcut host (print_ull n)) as [-> ->]. unfold fill_host.
      rewrite (proj2 (Z.leb_le _ _)) by lia. cbn [mbind outcome_bind].
      rewrite (make_sockaddr2_resolves _ _ host _ ad) by done. by rewrite Ha.
    + intros ->. rewrite find_colon_none by (apply print_plain; unfold is_u16 in Hn; lia).
      cbn [mbind outcome_bind]. change (fill_host (str "127.0.0.1")) with (@Ok bytes (str "127.0.0.1")).
      cbn [mbind outcome_bind].
      rewrite (make_sockaddr2_resolves _ _ (str "127.0.0.1") _ ad) by done. by rewrite Ha.
  - intros port Hl. rewrite Hf by done. destruct (Hcut host port) as [-> _]. unfold fill_host.
    by rewrite (proj2 (Z.leb_gt _ _)) by lia.
  - intros name port Hpl Hl Hi Hg. rewrite Hf by done. destruct (Hcut name port) as [-> ->].
    unfold fill_host. rewrite (proj2 (Z.leb_le _ _)) by lia. cbn [mbind outcome_bind].
    unfold make_sockaddr2. by rewrite Hi, Z.eqb_refl, Hg.
Qed.

(** A resolver that knows the local host by its number and one name. *)
Module Demo.
Definition inet_addr (s : bytes) : Z :=
  if bool_decide (s = str "127.0.0.1") then 16777343 else INADDR_NONE.
Definition gethostbyname (s : bytes) : option (Z * Z) :=
  if bool_decide (s = str "server") then Some (4, 16777226) else None.
End Demo.

Lemma make_sockaddr_spec_witness :
  (exists port, ntohs port = 3772 /\
     make_sockaddr Demo.inet_addr Demo.gethostbyname (str "server:3772")
       = Ok (Some (Sockaddr AF_INET 16777226 port))) /\
  make_sockaddr Demo.inet_addr Demo.gethostbyname (replicate 200 97 ++ str ":1") = Crash OutOfBounds.
Proof.
  split.
  - destruct (make_sockaddr_spec Demo.inet_addr Demo.gethostbyname (str "server") 16777226 3772)
      as [(port & Hp & Hm & _) _]; [right; split; reflexivity|by apply (bool_decide_unpack _)|unfold is_u16; lia|].
    exists port. split; [exact Hp|]. by apply Hm.
  - reflexivity.
Defined.
