(* ===== verification/TesterMain.v ===== *)
(** * The lock tester's main: main of lock_tester.cc

    The main program checks its arguments, runs test1 itself and starts the
    threads of the other tests one test after another on the same server and
    with the same [ct], joining each test's threads before the next. *)

From S2P Require Import Prelude Strings LockServer LockLive LockTester.
Local Open Scope Z_scope.

(** The arguments of main say which tests to run; [None] is exit(1). *)
Definition selected (test : Z) (k : nat) : bool := (test =? 0) || (test =? Z.of_nat k).

Definition tester_args (argv : list bytes) : option (list nat) :=
  if zlen argv <? 2 then None
  else
    let run test := Some (filter (fun k => selected test k = true) [1; 2; 3; 4; 5]%nat) in
    match argv !! 2%nat with
    | Some arg =>
        let test := atoi arg in
        if (test <? 1) || (5 <? test) then None else run test
    | None => run 0
    end.

(** The threads of tests 2 to 5. *)
Definition test_threads (lc : nat -> Z) (k : nat) : gmap nat tthread :=
  match k with
  | 2%nat => started nt (test2 lc)
  | 3%nat => started nt (test3 lc)
  | 4%nat => started 2 (test4 lc)
  | _ => started nt (test5 lc)
  end.

(** What pthread_join waits for: the thread has returned. *)
Definition returned (th : tthread) : Prop := tt_phase th = T_next /\ tt_left th = O.

Inductive main_state :=
  | Between (todo : list nat) (ls : lock_server) (ct : list Z)
  | During (todo : list nat) (s : tester)
  | Exited.   (** exit(1) in a check *)

(** [nobody] of the server's thread ids from [t] on is in use. *)
Definition unused (ls : lock_server) (t : nat) : Prop := forall t', (t <= t')%nat -> threads ls !! t' = None.

Inductive main_step (lc : nat -> Z) : main_state -> main_state -> Prop :=
  | main_test1 todo ls ct t :
      unused ls t ->
      main_step lc (Between (1%nat :: todo) ls ct)
        (match run_test test1 (lc 0%nat) t ls ct with Some (ls, ct) => Between todo ls ct | None => Exited end)
  | main_create k todo ls ct :
      (2 <= k)%nat ->
      main_step lc (Between (k :: todo) ls ct) (During todo (Tester ls ct (test_threads lc k)))
  | main_run todo s s' : tester_step s s' -> main_step lc (During todo s) (During todo s')
  | main_grant_fails todo s k th :
      te_threads s !! k = Some th -> tt_phase th = T_granted -> check_grant (te_ct s) (tt_lid th) = None ->
      main_step lc (During todo s) Exited
  | main_release_fails todo s k th :
      te_threads s !! k = Some th -> tt_phase th = T_inside -> check_release (te_ct s) (tt_lid th) = None ->
      main_step lc (During todo s) Exited
  | main_join todo s :
      map_Forall (fun _ th => returned th) (te_threads s) ->
      main_step lc (During todo s) (Between todo (te_server s) (te_ct s)).

(** ** A test leaves the server as quiet as it found it *)
Lemma tester_step_calm s s' : tinv s -> tester_step s s' -> rtc calm_step (te_server s) (te_server s').
Proof.
  intros Hinv Hs. destruct Hs as [s k th n t Hk _ _ Ht| | | |s k th t Hk _ Ht| |s t pick ls Hrun]; cbn; try done.
  - apply rtc_once. by apply (enter_calm s k); [| | |left].
  - apply rtc_once. by apply (enter_calm s k); [| | |right].
  - apply rtc_once. by eapply calm_run.
Qed.

Lemma tester_step_locks s s' lid :
  tester_step s s' -> is_some (locks (te_server s) !! lid) = true -> is_some (locks (te_server s') !! lid) = true.
Proof. intros [] Hl; try done. by eapply run_thread_locks. Qed.

Lemma counts_none ct ts :
  counts_ok ct ts -> (forall k th, ts !! k = Some th -> inside th = false) -> ct = ct_new.
Proof.
  intros [Hlen _ Hout] Hno. apply list_eq. intros x. unfold ct_new.
  destruct (decide (x < 256)%nat) as [Hx|Hx].
  - rewrite (lookup_replicate_2 256) by done. apply Hout; [done|]. intros k th Hk Hi. by rewrite (Hno k th Hk) in Hi.
  - rewrite !lookup_ge_None_2; [done|rewrite length_replicate; lia|lia].
Qed.

(** Lock [a], which tests 2 to 5 use, is in the table. *)
Definition has_lock (ls : lock_server) : Prop := is_some (locks ls !! a) = true.

Definition during_ok (s : tester) : Prop :=
  tinv s /\ rtc calm_step lock_server_new (te_server s) /\ has_lock (te_server s).

Lemma during_ok_step s s' : during_ok s -> tester_step s s' -> during_ok s'.
Proof.
  intros (Hi & Hr & Hl) Hs. split; [by eapply tinv_step|]. split; [|by eapply tester_step_locks].
  etrans; [exact Hr|by apply tester_step_calm].
Qed.

Lemma during_ok_start ls lc k : quiet ls -> has_lock ls -> during_ok (Tester ls ct_new (test_threads lc k)).
Proof.
  intros Hq Hl. split; [|by split; [apply Hq|]].
  unfold test_threads. destruct k as [|[|[|[|[|k]]]]]; by apply tinv_start.
Qed.

Lemma during_ok_join s :
  during_ok s -> map_Forall (fun _ th => returned th) (te_threads s) ->
  quiet (te_server s) /\ te_ct s = ct_new /\ has_lock (te_server s).
Proof.
  intros ([_ Hreq _ Hct _ _] & Hr & Hl) Hdone. split; [split; [done|]|split; [|done]].
  - intros t sth Ht. destruct (r_idle _ _ Hreq t sth Ht) as [(k & th & Hk & E)|?]; [|done].
    destruct (Hdone k th Hk) as [Hp _]. unfold request in E. by rewrite Hp in E.
  - apply (counts_none _ _ Hct). intros k th Hk. destruct (Hdone k th Hk) as [Hp _]. unfold inside. by rewrite Hp.
Qed.

(** ** test1 does too *)

(** A request that is past the creation of its lock finds it in the table. *)
Definition made (s : lock_server) : Prop :=
  forall t th, threads s !! t = Some th ->
    match t_pc th with A_count | A_create | R_lock => True | _ => is_some (locks s !! t_lid th) = true end.

Lemma run_thread_made s t pick s' th p :
  made s -> run_thread s t pick = Some s' -> threads s !! t = Some th ->
  threads s' !! t = Some (Thread (t_clt th) (t_lid th) p) ->
  match p with A_count | A_create | R_lock => True | _ => is_some (locks s' !! t_lid th) = true end.
Proof.
  unfold run_thread. intros Hm Hrun Ht Ht'. specialize (Hm t th Ht). rewrite Ht in Hrun.
  destruct (t_pc th) eqn:Hp; try (destruct (mutex_lock _ t));
    try match type of Hrun with context [cond_signal s ?l ?k] => destruct (cond_signal s l k) as [s1|] eqn:Hs end;
    simplify_eq; cbn in Ht'; try (rewrite lookup_insert_eq in Ht'); simplify_eq; cbn; rewrite ?lookup_insert_eq; try done.
  - by destruct (is_some (locks s !! t_lid th)).
  - destruct (l_isLocked _); simplify_eq; cbn in Ht'; rewrite lookup_insert_eq in Ht'; simplify_eq; cbn;
      by rewrite lookup_insert_eq.
Qed.

Lemma made_step s s' : made s -> calm_step s s' -> made s'.
Proof.
  intros Hm Hs. destruct Hs as [s t clt lid p Hfree Hp _|s t pick s' Hrun].
  - intros u th. cbn. destruct (decide (t = u)) as [<-|]; [|rewrite lookup_insert_ne by done; apply Hm].
    rewrite lookup_insert_eq. intros [= <-]. by destruct Hp as [-> | ->].
  - destruct (run_thread_effect _ _ _ _ Hrun) as (th & p & Ht & Ht' & Hu & _).
    intros u thu Hthu. destruct (decide (u = t)) as [->|Hne].
    + rewrite Ht' in Hthu. injection Hthu as <-. exact (run_thread_made s t pick s' th p Hm Hrun Ht Ht').
    + destruct (Hu u Hne) as [E|(th1 & H1 & Hw & E)]; rewrite E in Hthu.
      * specialize (Hm u thu Hthu). destruct (t_pc thu); try done; by eapply run_thread_locks.
      * injection Hthu as <-. specialize (Hm u th1 H1). rewrite Hw in Hm. cbn. by eapply run_thread_locks.
Qed.

Lemma made_reachable s : rtc calm_step lock_server_new s -> made s.
Proof. intros Hr. apply (rtc_invariant calm_step made lock_server_new); [apply made_step|done|by intros t th]. Qed.

(** On a quiet server any request may come in. *)
Lemma quiet_enter ls t clt lid p :
  quiet ls -> threads ls !! t = None -> p = A_count \/ p = R_lock -> calm_step ls (enter ls t clt lid p).
Proof.
  intros [Hr Hq] Ht Hp. apply calm_enter; [done|done|].
  destruct (is_some (locks ls !! lid)) eqn:E; [by left|right]. intros u th Hu <-.
  pose proof (made_reachable ls Hr u th Hu) as Hm. destruct (Hq u th Hu) as [Hpc|Hpc]; rewrite Hpc in Hm; congruence.
Qed.

(** A call by itself: the others stay where they are. *)
Definition others_returned (t : nat) (ls : lock_server) : Prop :=
  forall u th, u <> t -> threads ls !! u = Some th -> t_pc th = A_return \/ t_pc th = R_return.

Lemma run_alone_quiet n ls t :
  others_returned t ls ->
  rtc calm_step ls (run_alone n ls t) /\ others_returned t (run_alone n ls t) /\
  forall u, u <> t -> threads ls !! u = None -> threads (run_alone n ls t) !! u = None.
Proof.
  revert ls. induction n as [|n IH]; intros ls Ho; [done|]. cbn [run_alone].
  destruct (run_thread ls t t) as [ls1|] eqn:Hrun; [|done].
  destruct (run_thread_effect _ _ _ _ Hrun) as (th & p & _ & _ & Hu & _).
  assert (forall u, u <> t -> threads ls1 !! u = threads ls !! u) as Hsame.
  { intros u Hne. destruct (Hu u Hne) as [|(th1 & H1 & Hw & _)]; [done|].
    destruct (Ho u th1 Hne H1); congruence. }
  destruct (IH ls1) as (Hr & Ho' & Hnone).
  { intros u thu Hne. rewrite (Hsame u Hne). by apply Ho. }
  split; [|split; [done|]].
  - eapply rtc_l; [by eapply calm_run|done].
  - intros u Hne HN. apply Hnone; [done|]. by rewrite Hsame.
Qed.

Lemma call_alone_quiet n ls t clt lid p ls' :
  quiet ls -> unused ls t -> p = A_count \/ p = R_lock -> call_alone n ls t clt lid p = Some ls' ->
  quiet ls' /\ unused ls' (S t).
Proof.
  intros Hq Hun Hp. unfold call_alone.
  destruct (run_alone_quiet n (enter ls t clt lid p) t) as (Hr & Ho & Hnone).
  { intros u th Hne. cbn. rewrite lookup_insert_ne by done. by apply Hq. }
  destruct (threads (run_alone n (enter ls t clt lid p) t) !! t) as [th|] eqn:Ht; [|done].
  case_bool_decide as Hret; [|done]. intros [= <-]. split; [split|].
  - etrans; [apply Hq|]. eapply rtc_l; [|exact Hr]. apply quiet_enter; [done|by apply Hun|done].
  - intros u thu Hu. destruct (decide (u = t)) as [->|Hne]; [|by apply (Ho u)]. rewrite Ht in Hu. by injection Hu as <-.
  - intros u Hle. apply Hnone; [lia|]. cbn. rewrite lookup_insert_ne by lia. apply Hun. lia.
Qed.

Lemma run_test_quiet prog clt t ls ct ls' ct' :
  quiet ls -> unused ls t -> run_test prog clt t ls ct = Some (ls', ct') -> quiet ls'.
Proof.
  revert t ls ct. induction prog as [|i prog IH]; intros t ls ct Hq Hu; cbn [run_test]; [by intros [= <- <-]|].
  destruct i as [lid|lid|lid|lid].
  - destruct (call_alone 6 ls t clt lid A_count) as [ls1|] eqn:E; [|done]. cbn.
    apply call_alone_quiet in E as [Hq' Hu']; [|done|done|by left]. by apply IH.
  - destruct (call_alone 6 ls t clt lid R_lock) as [ls1|] eqn:E; [|done]. cbn.
    apply call_alone_quiet in E as [Hq' Hu']; [|done|done|by right]. by apply IH.
  - destruct (check_grant ct lid); [|done]. cbn. by apply IH.
  - destruct (check_release ct lid); [|done]. cbn. by apply IH.
Qed.

(** ** The whole program *)

(** Between two tests the server is quiet and nothing is counted; test1, which
    needs its locks free to get through, can only come first, and lock [a] is there
    before any other test. *)
Definition main_ok (m : main_state) : Prop :=
  match m with
  | Between todo ls ct =>
      quiet ls /\ ct = ct_new /\ (1%nat ∉ tail todo) /\ (1%nat ∈ todo -> free_lock ls a /\ free_lock ls b) /\
      (1%nat ∈ todo \/ has_lock ls)
  | During todo s => during_ok s /\ (1%nat ∉ todo)
  | Exited => False
  end.

Lemma quiet_unattended ls t : quiet ls -> unused ls t -> unattended ls t.
Proof.
  intros [_ Hq] Hu. split; [done|]. intros lid u th Hth. unfold waiting.
  rewrite (bool_decide_false (t_pc th = A_wait)); [apply andb_false_r|]. destruct (Hq u th Hth); congruence.
Qed.

Lemma main_ok_step lc m m' : main_ok m -> main_step lc m m' -> main_ok m'.
Proof.
  intros Hok Hs. destruct Hs as [todo ls ct t Hu|k todo ls ct Hk|todo s s' Hs|todo s k th Hk Hp Hc|todo s k th Hk Hp Hc|todo s Hj].
  - destruct Hok as (Hq & -> & Ht & Hfree & _). destruct (Hfree ltac:(left)) as [Ha Hb].
    destruct (test1_passes (lc 0%nat) t ls (quiet_unattended ls t Hq Hu) Ha Hb) as (ls' & E & _ & _ & _ & Hl).
    rewrite E. cbn. split; [by eapply run_test_quiet|]. split; [done|]. cbn in Ht.
    split; [intros Hin; apply Ht; by destruct todo as [|x todo]; [|right]|]. split; [done|by right].
  - destruct Hok as (Hq & -> & Ht & _ & Hl). split; [|done]. apply during_ok_start; [done|].
    destruct Hl as [Hin|]; [|done]. apply elem_of_cons in Hin as [Hin|Hin]; [lia|by destruct Ht].
  - destruct Hok as [Hd Ht]. split; [by eapply during_ok_step|done].
  - destruct Hok as [[Hd _] _]. by rewrite (check_grant_ok s k th Hd Hk Hp) in Hc.
  - destruct Hok as [[Hd _] _]. by rewrite (check_release_ok s k th Hd Hk Hp) in Hc.
  - destruct Hok as [Hd Ht]. destruct (during_ok_join s Hd Hj) as (Hq & -> & Hl).
    split; [done|]. split; [done|]. split; [intros Hin; apply Ht; by destruct todo as [|x todo]; [|right]|].
    split; [done|by right].
Qed.

Lemma tester_args_spec argv todo :
  tester_args argv = Some todo ->
  todo = [1; 2; 3; 4; 5]%nat \/ exists k, (1 <= k <= 5)%nat /\ todo = [k].
Proof.
  unfold tester_args. destruct (zlen argv <? 2); [done|]. destruct (argv !! 2%nat) as [arg|]; [|intros [= <-]; by left].
  destruct ((atoi arg <? 1) || (5 <? atoi arg)) eqn:E; [done|].
  apply orb_false_iff in E as [H1%Z.ltb_ge H2%Z.ltb_ge]. intros [= <-]. right.
  assert (atoi arg = 1 \/ atoi arg = 2 \/ atoi arg = 3 \/ atoi arg = 4 \/ atoi arg = 5)
    as [E|[E|[E|[E|E]]]] by lia; rewrite E; [exists 1%nat|exists 2%nat|exists 3%nat|exists 4%nat|exists 5%nat]; split; (lia || done).
Qed.

(** C17. The lock tester passes, on a server that serves nobody else, has nothing in
    progress and has both locks free, if its arguments select all five tests or
    test1, or if lock [a] is in the server's table already: then no schedule of
    the tests' threads and the server's makes a check fail, from the first test to
    the last, and after each test no lock is counted and no request is in
    progress. The condition matters: on a server that has just started, one of
    tests 2 to 5 by itself can fail ([creation_race_fails_test2]). The arguments
    are refused if there are none, or if there is a second one and it is not a
    number from 1 to 5. *)
Theorem lock_tester_main_passes argv lc ls :
  quiet ls -> free_lock ls a -> free_lock ls b ->
  match tester_args argv with
  | Some todo =>
      (todo = [1; 2; 3; 4; 5]%nat \/ exists k, (1 <= k <= 5)%nat /\ todo = [k]) /\
      (1%nat ∈ todo \/ has_lock ls ->
       forall m, rtc (main_step lc) (Between todo ls ct_new) m ->
         match m with
         | Between _ ls' ct => quiet ls' /\ ct = ct_new
         | During _ s => tinv s
         | Exited => False
         end)
  | None => zlen argv < 2 \/ exists arg, argv !! 2%nat = Some arg /\ ~ (1 <= atoi arg <= 5)
  end.
Proof.
  intros Hq Ha Hb. destruct (tester_args argv) as [todo|] eqn:E.
  - pose proof (tester_args_spec argv todo E) as Htodo. split; [done|]. intros Hl m Hr.
    assert (main_ok m) as Hok.
    { apply (rtc_invariant (main_step lc) main_ok (Between todo ls ct_new)); [apply main_ok_step|done|].
      split; [done|]. split; [done|]. split; [|done].
      destruct Htodo as [->|(k & _ & ->)]; cbn; rewrite ?elem_of_cons, elem_of_nil; lia. }
    destruct m as [todo' ls' ct|todo' s|]; [by destruct Hok as (? & ? & _)|by destruct Hok as [[]]|done].
  - unfold tester_args in E. destruct (Z.ltb_spec (zlen argv) 2); [by left|right].
    destruct (argv !! 2%nat) as [arg|]; [|done]. exists arg. split; [done|].
    destruct ((atoi arg <? 1) || (5 <? atoi arg)) eqn:E'; [|done].
    apply orb_true_iff in E' as [H1%Z.ltb_lt|H1%Z.ltb_lt]; lia.
Qed.

(** The arguments "lock_tester 3772" and "lock_tester 3772 4". *)
Lemma lock_tester_main_passes_witness :
  tester_args [[108]; [51; 55; 55; 50]] = Some [1; 2; 3; 4; 5]%nat /\
  tester_args [[108]; [51; 55; 55; 50]; [52]] = Some [4]%nat /\
  forall m, rtc (main_step Demo.lc) (Between [1; 2; 3; 4; 5]%nat lock_server_new ct_new) m -> m <> Exited.
Proof.
  split; [reflexivity|]. split; [reflexivity|]. intros m Hr.
  pose proof (lock_tester_main_passes [[108]; [51; 55; 55; 50]] Demo.lc lock_server_new
    Demo.quiet_new ltac:(by left) ltac:(by left)) as H.
  change (tester_args [[108]; [51; 55; 55; 50]]) with (Some [1; 2; 3; 4; 5]%nat) in H.
  destruct H as [_ H]. specialize (H ltac:(left; left) m Hr). intros ->. exact H.
Defined.

(** ** Test 2 by itself on a new server

    Threads 0 and 1 both find the lock missing; the second to create it overwrites
    the one that the first has been granted, and is granted it too. *)
Definition race2 : lock_server :=
  default lock_server_new (run_schedule
    (enter (enter lock_server_new 1 (Demo.lc 0) a A_count) 2 (Demo.lc 1) a A_count) [1; 2; 1; 1; 1; 1; 1; 2; 2; 2; 2; 2]%nat).
Definition racing (ls : lock_server) (ct : list Z) (p0 p1 : phase) : tester :=
  Tester ls ct (<[1%nat := TThread (Demo.lc 1) a 0 p1]> (<[0%nat := TThread (Demo.lc 0) a 0 p0]>
    (test_threads Demo.lc 2))).

Lemma racing_fails :
  rtc tester_step (Tester lock_server_new ct_new (test_threads Demo.lc 2))
    (racing race2 (<[1%nat := 1]> ct_new) T_inside T_granted).
Proof.
  set (one := enter lock_server_new 1 (Demo.lc 0) a A_count). set (two := enter one 2 (Demo.lc 1) a A_count).
  set (t0 p := TThread (Demo.lc 0) a 0 p). set (t1 p := TThread (Demo.lc 1) a 0 p).
  set (s1 := Tester one ct_new (<[0%nat := t0 (T_acquiring 1)]> (test_threads Demo.lc 2))).
  set (s2 := racing two ct_new (T_acquiring 1) (T_acquiring 2)).
  assert (forall s s' s'', tester_step s s' -> s' = s'' -> tester_step s s'') as Hto by (by intros ? ? ? ? <-).
  eapply (rtc_l _ _ s1); [eapply Hto; [apply (t_acquire _ 0 (test2 Demo.lc 0) 0 1)|]; vm_compute; reflexivity|].
  eapply (rtc_l _ _ s2); [eapply Hto; [apply (t_acquire _ 1 (test2 Demo.lc 1) 0 2)|]; vm_compute; reflexivity|].
  etrans; [apply (server_runs s2 two [1; 2; 1; 1; 1; 1; 1; 2; 2; 2; 2; 2]%nat race2); vm_compute; reflexivity|].
  eapply (rtc_l _ _ (racing race2 ct_new T_granted (T_acquiring 2))).
  { eapply Hto; [apply (t_acquired _ 0 (t0 (T_acquiring 1)) 1 (Thread (Demo.lc 0) a A_return))|]; vm_compute; reflexivity. }
  eapply (rtc_l _ _ (racing race2 ct_new T_granted T_granted)).
  { eapply Hto; [apply (t_acquired _ 1 (t1 (T_acquiring 2)) 2 (Thread (Demo.lc 1) a A_return))|]; vm_compute; reflexivity. }
  apply rtc_once. eapply Hto; [apply (t_check_grant _ 0 (t0 T_granted) (<[1%nat := 1]> ct_new))|]; vm_compute; reflexivity.
Qed.

Example creation_race_fails_test2 : rtc (main_step Demo.lc) (Between [2]%nat lock_server_new ct_new) Exited.
Proof.
  eapply rtc_l; [by apply main_create|].
  etrans; [apply (rtc_congruence (R := tester_step) (During [])); [intros ? ?; apply main_run|apply racing_fails]|].
  apply rtc_once. by apply (main_grant_fails _ _ _ 1 (TThread (Demo.lc 1) a 0 T_granted)).
Qed.
