(* ===== verification/TesterEnds.v ===== *)
(** * The lock tester comes to its end

    The tests of lock_tester.cc loop a fixed number of times, but each round
    waits for a lock that other threads hold. Here it is shown that no schedule
    gets stuck or goes on for ever, as long as pthread_cond_wait returns only
    when signalled: a measure bounds the steps that are left, and while a thread
    has not returned some thread can make one. *)

From S2P Require Import Prelude Strings LockServer LockLive LockTester TesterMain.
Local Open Scope Z_scope.

(** The steps of a test, without spurious wake-ups: a client's step, or a step
    of a server thread that is not asleep. *)
Inductive prompt_step (s s' : tester) : Prop :=
  | prompt_client : tester_step s s' -> te_threads s' <> te_threads s -> prompt_step s s'
  | prompt_server t th pick ls :
      threads (te_server s) !! t = Some th -> t_pc th <> A_wait ->
      run_thread (te_server s) t pick = Some ls -> s' = with_server s ls -> prompt_step s s'.

Lemma prompt_tester_step s s' : prompt_step s s' -> tester_step s s'.
Proof. intros [Hs _|t th pick ls _ _ Hrun ->]; [done|by eapply t_server]. Qed.

(** ** The measure: what is left of the loops, and of the server's requests *)
Definition phase_weight (th : tthread) : nat :=
  20 * tt_left th +
  match tt_phase th with
  | T_next => 0 | T_acquiring _ => 11 | T_granted => 10 | T_inside => 9 | T_leaving => 8 | T_releasing _ => 1
  end.
Definition steps_left (s : tester) : nat :=
  total phase_weight (te_threads s) + total pc_weight (threads (te_server s)).

Lemma prompt_step_decreases s s' : prompt_step s s' -> (steps_left s' < steps_left s)%nat.
Proof.
  intros [Hs Hne|t th pick ls Ht Hnw Hrun ->]; unfold steps_left.
  2: { cbn [with_server te_threads te_server]. pose proof (run_thread_weight _ _ _ _ _ Ht Hnw Hrun). lia. }
  destruct Hs as [s k th n t Hk Hp Hl Ht|s k th t sth Hk Hp Hth Hret|s k th ct Hk Hp Hct|s k th ct Hk Hp Hct
                 |s k th t Hk Hp Ht|s k th t sth Hk Hp Hth Hret|s t pick ls Hrun]; [..|done];
    cbn [advance with_server with_ct te_threads te_server enter threads] in *;
    match goal with |- context [<[k := ?th']> _] =>
      pose proof (total_insert phase_weight _ k th th' Hk) as Hw end;
    unfold phase_weight in Hw at 2 4; cbn [set_phase tt_phase tt_left] in Hw; rewrite Hp in Hw;
    rewrite ?(total_insert_new pc_weight) by done; rewrite ?Hl in Hw; cbn [pc_weight t_pc]; lia.
Qed.

(** ** Somebody can go on *)

(** The lock [lid] is only held by threads of the tester. *)
Definition taken (lid : Z) (s : tester) : Prop :=
  held lid (events (te_server s)) = true ->
  exists k th, te_threads s !! k = Some th /\ tt_lid th = lid /\ holds (te_server s) th = true.

Lemma taken_advance lid s s' k th th' :
  taken lid s -> te_threads s !! k = Some th -> te_threads s' = <[k := th']> (te_threads s) ->
  tt_lid th' = tt_lid th -> holds (te_server s') th' = holds (te_server s) th ->
  events (te_server s') = events (te_server s) ->
  (forall k2 th2, te_threads s !! k2 = Some th2 -> holds (te_server s') th2 = holds (te_server s) th2) ->
  taken lid s'.
Proof.
  intros Ht Hk Hts Hl Hh He Hother. unfold taken. rewrite He, Hts. intros (k1 & th1 & H1 & Hl1 & Hh1)%Ht.
  destruct (decide (k = k1)) as [<-|Hne].
  - rewrite Hk in H1. injection H1 as <-. exists k, th'. rewrite lookup_insert_eq. split; [done|]. split; congruence.
  - exists k1, th1. rewrite lookup_insert_ne by done. split; [done|]. split; [done|]. by rewrite Hother with (k2 := k1).
Qed.

Lemma taken_run lid s t pick ls :
  tinv s -> taken lid s -> run_thread (te_server s) t pick = Some ls -> taken lid (with_server s ls).
Proof.
  intros Hinv Ht Hrun. unfold taken. cbn [with_server te_server te_threads].
  destruct (run_holds _ _ _ _ _ (j_requests s Hinv) Hrun) as (th & k0 & th0 & Hth & Hk0 & _ & Hl0 & Hother & Hpc).
  assert (holds ls th0 = holds (te_server s) th0 /\ events ls = events (te_server s) ->
    held lid (events ls) = true -> exists k th, te_threads s !! k = Some th /\ tt_lid th = lid /\ holds ls th = true) as Hsame.
  { intros [H0 He]. rewrite He. intros (k1 & th1 & H1 & Hl1 & Hh1)%Ht. exists k1, th1. split; [done|]. split; [done|].
    destruct (decide (k1 = k0)) as [->|Hne]; [|by rewrite (Hother k1)]. congruence. }
  destruct (t_pc th); try exact (Hsame Hpc).
  - destruct Hpc as [H0 He]. rewrite He. destruct (decide (t_lid th = lid)) as [<-|Hne].
    + intros _. by exists k0, th0.
    + rewrite (held_other (t_lid th)) by (done || (cbn; by rewrite Z.eqb_refl)).
      intros (k1 & th1 & H1 & Hl1 & Hh1)%Ht. exists k1, th1. split; [done|]. split; [done|].
      rewrite (Hother k1); [done|done|]. congruence.
  - destruct Hpc as (_ & H0 & He). rewrite He. destruct (decide (t_lid th = lid)) as [<-|Hne].
    + cbn [held about]. by rewrite Z.eqb_refl.
    + rewrite (held_other (t_lid th)) by (done || (cbn; by rewrite Z.eqb_refl)).
      intros (k1 & th1 & H1 & Hl1 & Hh1)%Ht. exists k1, th1. split; [done|]. split; [done|].
      rewrite (Hother k1); [done|done|]. congruence.
Qed.

Lemma taken_step lid s s' : tinv s -> taken lid s -> tester_step s s' -> taken lid s'.
Proof.
  intros Hinv Ht Hs. pose proof (j_requests s Hinv) as Hr.
  destruct Hs as [s k th n t Hk Hp Hl Hf|s k th t sth Hk Hp Hth Hret|s k th ct Hk Hp Hct|s k th ct Hk Hp Hct
                 |s k th t Hk Hp Hf|s k th t sth Hk Hp Hth Hret|s t pick ls Hrun]; [| | | | | |by eapply taken_run];
    (eapply taken_advance; [exact Ht|exact Hk|reflexivity|done| |done|]); cbn [advance with_server with_ct te_server];
    unfold holds; cbn [set_phase tt_phase enter threads]; rewrite ?Hp, ?Hth, ?Hret, ?lookup_insert_eq; try done.
  - intros k2 th2 H2. apply (holds_enter _ (te_threads s) k2); done.
  - intros k2 th2 H2. apply (holds_enter _ (te_threads s) k2); done.
Qed.

Lemma can_run_prompt s : can_run (te_server s) -> exists s', prompt_step s s'.
Proof. intros (u & thu & pick & ls & Hu & Hn & Hrun). eexists. by eapply prompt_server. Qed.

(** A request can always come in. *)
Lemma some_thread (ls : lock_server) : exists t, threads ls !! t = None.
Proof. exists (fresh (dom (threads ls))). apply not_elem_of_dom, is_fresh. Qed.

Lemma advance_ne s s1 k th p :
  te_threads s !! k = Some th -> te_threads s1 = te_threads s -> tt_phase th <> p ->
  forall th', te_threads (advance s1 k th' p) <> te_threads s.
Proof.
  intros Hk H1 Hp th' E. cbn in E. rewrite H1 in E. rewrite <- E, lookup_insert_eq in Hk. injection Hk as <-. done.
Qed.

Lemma client_prompt s s1 k th th' p :
  tester_step s (advance s1 k th' p) ->
  te_threads s !! k = Some th -> te_threads s1 = te_threads s -> tt_phase th <> p -> exists s', prompt_step s s'.
Proof. intros Hs Hk H1 Hp. eexists. eapply prompt_client; [exact Hs|]. by eapply advance_ne. Qed.

(** A thread that holds its lock can go on, or the request it waits for can. *)
Lemma holder_progress s k th :
  tinv s -> te_threads s !! k = Some th -> holds (te_server s) th = true ->
  exists s', prompt_step s s'.
Proof.
  intros Hinv Hk Hh. unfold holds in Hh. destruct (tt_phase th) as [|t| | | |t] eqn:Hp; [done|..].
  - destruct (threads (te_server s) !! t) as [sth|] eqn:Ht; [|done]. destruct (t_pc sth) eqn:Hpc; try done.
    + apply can_run_prompt, (mutex_owner_runs _ t sth); [done|by rewrite Hpc].
    + by eapply (client_prompt _ _ _ _ _ _ (t_acquired s k th t sth Hk Hp Ht Hpc)); [|done|rewrite Hp].
  - by eapply (client_prompt _ _ _ _ _ _ (t_check_grant s k th _ Hk Hp (check_grant_ok s k th Hinv Hk Hp))); [|done|rewrite Hp].
  - by eapply (client_prompt _ _ _ _ _ _ (t_check_release s k th _ Hk Hp (check_release_ok s k th Hinv Hk Hp))); [|done|rewrite Hp].
  - destruct (some_thread (te_server s)) as [t Ht].
    by eapply (client_prompt _ _ _ _ _ _ (t_release s k th t Hk Hp Ht)); [|done|rewrite Hp].
  - destruct (threads (te_server s) !! t) as [sth|] eqn:Ht; [|done].
    destruct (server_progress (te_server s) t sth (j_server s Hinv) Ht) as [?|[Hpc _]];
      [by intros Hpc; rewrite Hpc in Hh|by intros Hpc; rewrite Hpc in Hh|by apply can_run_prompt|].
    by rewrite Hpc in Hh.
Qed.

Lemma tester_progress s k th :
  tinv s -> te_threads s !! k = Some th -> taken (tt_lid th) s -> ~ returned th ->
  exists s', prompt_step s s'.
Proof.
  intros Hinv Hk Htaken Hret.
  assert (forall t, request th = Some t -> exists s', prompt_step s s') as Hreq.
  { intros t E. destruct (r_request _ _ (j_requests s Hinv) k th t Hk E) as (sth & Hs & Hl & Ha).
    destruct (decide (t_pc sth = A_return)) as [Hp|Hn1]; [|destruct (decide (t_pc sth = R_return)) as [Hp|Hn2]].
    - apply (holder_progress s k th); try done. unfold holds. rewrite Hp in Ha. unfold wants, request in *.
      destruct (tt_phase th); simplify_eq; try done. by rewrite Hs, Hp.
    - rewrite Hp in Ha. unfold wants, request in *. destruct (tt_phase th) as [| | | | |t'] eqn:Hph; simplify_eq; try done.
      by eapply (client_prompt _ _ _ _ _ _ (t_released s k th t sth Hk Hph Hs Hp)); [|done|rewrite Hph].
    - destruct (server_progress _ t sth (j_server s Hinv) Hs Hn1 Hn2) as [?|[_ Hheld]]; [by apply can_run_prompt|].
      rewrite Hl in Hheld. destruct (Htaken Hheld) as (k' & th' & Hk' & _ & Hh). by apply (holder_progress s k' th'). }
  unfold request in Hreq. destruct (tt_phase th) as [|t| | | |t] eqn:Hp; try (by eapply Hreq);
    try (apply (holder_progress s k th); try done; unfold holds; by rewrite Hp).
  destruct (tt_left th) as [|n] eqn:Hl; [by destruct Hret|].
  destruct (some_thread (te_server s)) as [t Ht].
  by eapply (client_prompt _ _ _ _ _ _ (t_acquire s k th n t Hk Hp Hl Ht)); [|done|rewrite Hp].
Qed.

#[local] Instance phase_eq_dec : EqDecision phase.
Proof. solve_decision. Defined.
#[local] Instance returned_dec th : Decision (returned th).
Proof. unfold returned. apply _. Defined.

(** C18. The lock tester ends. In each of tests 2 to 5, started on a server with
    nothing in progress that has the lock in its table, free, whatever the
    schedule has done so far, and with pthread_cond_wait returning only when
    signalled: every step takes something off a measure of the work left, and
    unless all threads have returned to pthread_join some thread can make a step.
    So on such a server every schedule runs the test to its end; no client waits
    for ever. *)
Theorem lock_tester_ends ls lc k s :
  quiet ls -> locks ls !! a = Some lock_t_new -> (2 <= k)%nat ->
  rtc tester_step (Tester ls ct_new (test_threads lc k)) s ->
  (forall s', prompt_step s s' -> tester_step s s' /\ (steps_left s' < steps_left s)%nat) /\
  (map_Forall (fun _ th => returned th) (te_threads s) \/ exists s', prompt_step s s').
Proof.
  intros Hq Hfree Hk Hr. split.
  { intros s' Hs. split; [by apply prompt_tester_step|by apply prompt_step_decreases]. }
  assert ((during_ok s /\ taken a s) /\ map_Forall (fun _ th => tt_lid th = a) (te_threads s)) as [[[Hinv _] Ht] Hlid].
  { apply (rtc_invariant tester_step (fun s => (during_ok s /\ taken a s) /\ map_Forall (fun _ th => tt_lid th = a) (te_threads s))
      (Tester ls ct_new (test_threads lc k))); [|done|].
    - intros x y [[Hx Htx] Hlx] Hs. split; [split; [by eapply during_ok_step|]|].
      + apply (taken_step a x y); [apply Hx|done|done].
      + destruct Hs; cbn [advance with_server with_ct te_threads]; try done;
          (apply map_Forall_insert_2; [cbn; by eapply (Hlx k0)|done]).
    - split; [split; [apply during_ok_start; [done|unfold has_lock; by rewrite Hfree]|]|].
      + unfold taken. cbn. rewrite <- (i_flag ls (calm_inv ls (proj1 Hq))). unfold lock_at.
        by rewrite Hfree.
      + cbn. unfold test_threads. intros i th. destruct k as [|[|[|[|[|k]]]]]; intros Hi%started_lookup; by subst th. }
  destruct (decide (map_Forall (fun _ th => returned th) (te_threads s))) as [|Hn]; [by left|right].
  apply map_not_Forall in Hn as (i & th & Hi & Hret); [|apply _].
  apply (tester_progress s i th Hinv Hi); [|done]. by rewrite (Hlid i th Hi).
Qed.

Lemma lock_tester_ends_witness :
  exists s', prompt_step (Tester Demo.used ct_new (test_threads Demo.lc 3)) s'.
Proof.
  destruct Demo.quiet_used as [Hq Hl].
  destruct (lock_tester_ends Demo.used Demo.lc 3 (Tester Demo.used ct_new (test_threads Demo.lc 3)))
    as [_ [Hall|Hs]].
  - exact Hq.
  - exact Hl.
  - lia.
  - done.
  - destruct (Hall 0%nat (test3 Demo.lc 0) eq_refl) as [_ Hn]. discriminate Hn.
  - exact Hs.
Defined.
