(* ===== verification/LockClient.v ===== *)
(** * The lock service over RPC: lock_client.cc, lock_smain.cc, lock_demo.cc

    The server process registers the methods of lock_server; the client calls
    them with the stubs of rpc.h. LockTester and LockPool have many requests
    interleaved in the server; here one client uses it by itself and the RPCs
    that carry its calls are run in full. A run of calls over RPC does what the
    same calls do on the server's object ([lock_rpc_refines]), so the tester's
    test1 and lock_demo work from the start of both processes. *)

From S2P Require Import Prelude Marshall Connection XidWindow TimeSpec Rpcs Serve Stubs Rpcc Remote Session.
From S2P Require Import Strings Address LockServer LockLive LockTester.
Local Open Scope Z_scope.

Section LockRpc.
(** [un] is what an uninitialised [int] holds. *)
Context `{Memory} `{Environment} (un : Z).

(** ** The server process *)

(** The registered methods, run by themselves: each request is a new thread of
    the server that runs to its end, or never gets there. [acquire] and
    [release] do not set their result. *)
Definition do_stat (clt lid r : Z) (s : lock_server) : outcome (lock_server * Z * Z) :=
  let '(r, _) := stat s clt lid r in Ok (s, r, 0).
Definition do_request (p : pc) (clt lid r : Z) (s : lock_server) : outcome (lock_server * Z * Z) :=
  match call_alone 6 s (size (threads s)) clt lid p with
  | Some s => Ok (s, r, 0)
  | None => Crash Deadlock
  end.
Definition do_acquire : Z -> Z -> Z -> lock_server -> outcome (lock_server * Z * Z) := do_request A_count.
Definition do_release : Z -> Z -> Z -> lock_server -> outcome (lock_server * Z * Z) := do_request R_lock.

(** main of lock_smain.cc, up to the endless sleep: [None] if it exits. *)
Definition lock_smain_main (argv : list bytes) (random : Z) : option (Z * outcome (rpcs lock_server)) :=
  match server_args argv with
  | None => None
  | Some port => Some (port,
      s ← rpcs_start random 0 un un lock_server_new;
      s ← reg1 s proc_stat (h1_fn2 i32_c u64_c i32_c un un un do_stat);
      s ← reg1 s proc_acquire (h1_fn2 i32_c u64_c i32_c un un un do_acquire);
      reg1 s proc_release (h1_fn2 i32_c u64_c i32_c un un un do_release))
  end.

(** ** lock_client *)
Abbreviation lock_link := (link lock_server).

(** The constructor: find the address, make a client endpoint, bind it; a failed
    bind is only printed. [connect] is what connect_to_dst makes. *)
Section Constructor.
Context (inet_addr : bytes -> Z) (gethostbyname : bytes -> option (Z * Z)).

Definition lock_client_new (dst : bytes) (random : Z) (s : rpcs lock_server)
    (connect : sockaddr_in -> option (Z * connection)) : outcome (option lock_link) :=
  dstsock ← make_sockaddr inet_addr gethostbyname dst;
  match dstsock with
  | None => Ok None
  | Some a => '(cl, _) ← bind (rpcc_new true random) s (connect a) un to_max; Ok (Some cl)
  end.

(** The destructor. *)
Definition lock_client_delete (cl : lock_link) : outcome lock_link :=
  c ← rpcc_delete (l_client cl); Ok (Link c (l_server cl)).

(** [cl->call(proc, cl->id(), lid, r)] and the assertion on its status *)
Definition client_op (proc : Z) (cl : lock_link) (lid : Z) : outcome (lock_link * Z) :=
  '(cl, r, ret) ← call2 u32_c u64_c i32_c cl proc (k_clt_nonce (l_client cl)) lid un to_max;
  _ ← cassert (ret =? 0);
  Ok (cl, r).
Definition lock_client_stat : lock_link -> Z -> outcome (lock_link * Z) := client_op proc_stat.
Definition lock_client_acquire : lock_link -> Z -> outcome (lock_link * Z) := client_op proc_acquire.
Definition lock_client_release : lock_link -> Z -> outcome (lock_link * Z) := client_op proc_release.

(** ** lock_demo *)

(** main: what it prints, or [None] if it exits. *)
Definition lock_demo (argv : list bytes) (random : Z) (s : rpcs lock_server)
    (connect : sockaddr_in -> option (Z * connection)) : outcome (option Z) :=
  if negb (zlen argv =? 2) then Ok None
  else
    lc ← lock_client_new (default [] (argv !! 1%nat)) random s connect;
    match lc with
    | None => Ok None
    | Some cl => '(cl, r) ← lock_client_stat cl 1; Ok (Some r)
    end.
End Constructor.

(** The programs of the tester's main thread, with its calls over RPC. *)
Fixpoint run_remote (prog : list instr) (cl : lock_link) (ct : list Z) : outcome (option (lock_link * list Z)) :=
  match prog with
  | [] => Ok (Some (cl, ct))
  | Acquire lid :: prog => '(cl, _) ← lock_client_acquire cl lid; run_remote prog cl ct
  | Release lid :: prog => '(cl, _) ← lock_client_release cl lid; run_remote prog cl ct
  | CheckGrant lid :: prog =>
      match check_grant ct lid with None => Ok None | Some ct => run_remote prog cl ct end
  | CheckRelease lid :: prog =>
      match check_release ct lid with None => Ok None | Some ct => run_remote prog cl ct end
  end.

(** ** Calls *)
Context (un_ok : is_i32 un).

Definition registered (s : rpcs lock_server) : Prop :=
  s_procs s !! proc_stat = Some (h1_fn2 i32_c u64_c i32_c un un un do_stat) /\
  s_procs s !! proc_acquire = Some (h1_fn2 i32_c u64_c i32_c un un un do_acquire) /\
  s_procs s !! proc_release = Some (h1_fn2 i32_c u64_c i32_c un un un do_release).

(** The client's id is an [unsigned int] on one side and an [int] on the other. *)
Lemma client_op_ok n (cl : lock_link) proc meth lid app' r :
  session (S n) cl -> is_i32 proc -> proc <> rpc_bind ->
  s_procs (l_server cl) !! proc = Some (h1_fn2 i32_c u64_c i32_c un un un meth) -> is_u64 lid ->
  meth (i32 (k_clt_nonce (l_client cl))) lid un (s_app (l_server cl)) = Ok (app', r, 0) -> is_i32 r ->
  exists cl', client_op proc cl lid = Ok (cl', r) /\ session n cl' /\
    s_app (l_server cl') = app' /\ s_procs (l_server cl') = s_procs (l_server cl) /\
    k_clt_nonce (l_client cl') = k_clt_nonce (l_client cl).
Proof.
  intros Hs Hproc Hnb Hp Hlid Hmeth Hr. set (id := k_clt_nonce (l_client cl)) in *.
  assert (is_u32 id) as Hid by apply (ss_clt _ _ Hs).
  assert (be32 id = be32 (i32 id)) as Hbe by (by rewrite <- (be32_u32 (i32 id)), u32_i32, be32_u32).
  destruct (call_args1_ok (pair_c u32_c u64_c) (id, lid)) as (m & Em & Hm); [by split|by rewrite MAX_PDU_val|].
  destruct (call_m_served i32_c n cl proc m (image (pair_c u32_c u64_c) (id, lid))
    (h1_fn2 i32_c u64_c i32_c un un un meth) app' (image i32_c r) 0 r un 0 to_max)
    as (cl' & Ec & Hs' & Ha & Hp' & Hid');
    [exact Hs|exact Hproc|exact Hnb|exact Hp|by unfold to_max|exact Hm|by rewrite MAX_PDU_val| |by left; lia
    |by rewrite MAX_PDU_val| |].
  - cbn [image pair_wire u32_wire u64_wire fst snd]. rewrite Hbe.
    change (be32 (i32 id) ++ be64 lid) with (image (pair_c i32_c u64_c) (i32 id, lid)).
    eapply serves_ext; [intros; apply h1_fn2_tuple|].
    apply (h1_fn_serves (pair_c i32_c u64_c) i32_c (i32 id, lid) (un, un));
      [split; [apply i32_range|exact Hlid]|split; exact I|exact Hmeth|exact Hr|by vm_compute].
  - intros u Hu. apply (call_m_result i32_c); [exact Hr|exact I|lia|exact Hu].
  - exists cl'. unfold client_op, call2. fold id. rewrite call_args2_tuple. unfold call_args1 in Em. rewrite Em.
    cbn [mbind outcome_bind]. rewrite Ec. cbn [mbind outcome_bind]. split; [reflexivity|].
    split; [exact Hs'|]. split; [exact Ha|]. split; [exact Hp'|exact Hid'].
Qed.

Definition lock_ready (n : nat) (cl : lock_link) : Prop := session n cl /\ registered (l_server cl).

Lemma lock_ready_next n m cl cl' :
  lock_ready m cl -> session n cl' -> s_procs (l_server cl') = s_procs (l_server cl) -> lock_ready n cl'.
Proof. intros [_ Hreg] Hs Hp. split; [done|]. unfold registered. by rewrite Hp. Qed.

Lemma request_ok n (cl : lock_link) proc p lid ls' :
  lock_ready (S n) cl -> (proc = proc_acquire /\ p = A_count) \/ (proc = proc_release /\ p = R_lock) -> is_u64 lid ->
  call_alone 6 (s_app (l_server cl)) (size (threads (s_app (l_server cl)))) (i32 (k_clt_nonce (l_client cl))) lid p
    = Some ls' ->
  exists cl', client_op proc cl lid = Ok (cl', un) /\ lock_ready n cl' /\ s_app (l_server cl') = ls' /\
    k_clt_nonce (l_client cl') = k_clt_nonce (l_client cl).
Proof.
  intros Hrdy Hproc Hlid Hcall. pose proof Hrdy as (Hs & Hst & Hacq & Hrel).
  assert (exists cl', client_op proc cl lid = Ok (cl', un) /\ session n cl' /\
    s_app (l_server cl') = ls' /\ s_procs (l_server cl') = s_procs (l_server cl) /\
    k_clt_nonce (l_client cl') = k_clt_nonce (l_client cl)) as (cl' & E & Hs' & Ha & Hp & Hid).
  { destruct Hproc as [[-> ->]|[-> ->]];
      [apply (client_op_ok n cl proc_acquire do_acquire)|apply (client_op_ok n cl proc_release do_release)]; try done;
      unfold do_acquire, do_release, do_request; by rewrite Hcall. }
  exists cl'. split; [done|]. split; [by eapply lock_ready_next|done].
Qed.

(** The locks a program names. *)
Definition names_u64 (prog : list instr) : Prop :=
  Forall (fun i => match i with Acquire lid | Release lid | CheckGrant lid | CheckRelease lid => is_u64 lid end) prog.

(** A request adds one thread to the server. *)
Lemma run_thread_dom ls t pick ls' : run_thread ls t pick = Some ls' -> dom (threads ls') = dom (threads ls).
Proof.
  intros (th & p & Ht & Ht' & Hu & _)%run_thread_effect. apply set_eq. intros u. rewrite !elem_of_dom.
  destruct (decide (u = t)) as [->|Hne]; [rewrite Ht, Ht'; by split|].
  destruct (Hu u Hne) as [->|(th1 & -> & _ & ->)]; [done|by split].
Qed.

Lemma run_alone_dom n ls t : dom (threads (run_alone n ls t)) = dom (threads ls).
Proof.
  revert ls. induction n as [|n IH]; intros ls; [done|]. cbn [run_alone].
  destruct (run_thread ls t t) as [ls1|] eqn:E; [|done]. rewrite IH. by eapply run_thread_dom.
Qed.

Lemma call_alone_size n ls t clt lid p ls' :
  threads ls !! t = None -> call_alone n ls t clt lid p = Some ls' ->
  size (threads ls') = S (size (threads ls)) /\ dom (threads ls') = {[t]} ∪ dom (threads ls).
Proof.
  intros Ht. unfold call_alone. pose proof (run_alone_dom n (enter ls t clt lid p) t) as Hd.
  destruct (threads (run_alone n (enter ls t clt lid p) t) !! t) as [th|]; [|done]. case_bool_decide; [|done].
  intros [= <-]. rewrite <- size_dom, Hd. cbn [enter threads]. rewrite size_dom, map_size_insert_None by done.
  split; [done|]. apply dom_insert_L.
Qed.

(** Threads are numbered in the order they come. *)
Definition numbered (ls : lock_server) : Prop := forall t, (size (threads ls) <= t)%nat -> threads ls !! t = None.

Lemma call_alone_numbered n ls clt lid p ls' :
  numbered ls -> call_alone n ls (size (threads ls)) clt lid p = Some ls' ->
  size (threads ls') = S (size (threads ls)) /\ numbered ls'.
Proof.
  intros Hn E. destruct (call_alone_size n ls _ clt lid p ls' (Hn _ (le_n _)) E) as [Hsz Hd]. split; [done|].
  intros t Ht. apply not_elem_of_dom. rewrite Hd, elem_of_union, elem_of_singleton.
  rewrite Hsz in Ht. intros [->|Hin]; [lia|]. apply elem_of_dom in Hin as [x Hx]. rewrite Hn in Hx by lia. done.
Qed.

Lemma lock_rpc_core n (cl : lock_link) prog ct ls' ct' :
  let clt := i32 (k_clt_nonce (l_client cl)) in
  lock_ready (length prog + n) cl -> numbered (s_app (l_server cl)) -> names_u64 prog ->
  run_test prog clt (size (threads (s_app (l_server cl)))) (s_app (l_server cl)) ct = Some (ls', ct') ->
  exists cl', run_remote prog cl ct = Ok (Some (cl', ct')) /\ s_app (l_server cl') = ls' /\ lock_ready n cl'.
Proof.
  cbn. revert cl ct. induction prog as [|i prog IH]; intros cl ct Hrdy Hnum Hnames Hrun.
  { cbn in Hrun. injection Hrun as <- <-. by exists cl. }
  apply Forall_cons in Hnames as [Hi Hnames].
  assert (lock_ready (length prog + n) cl) as Hless by (destruct Hrdy as [Hs ?]; split; [by apply session_less|done]).
  assert (forall proc p lid, (proc = proc_acquire /\ p = A_count) \/ (proc = proc_release /\ p = R_lock) -> is_u64 lid ->
    (ls ← call_alone 6 (s_app (l_server cl)) (size (threads (s_app (l_server cl)))) (i32 (k_clt_nonce (l_client cl))) lid p;
     run_test prog (i32 (k_clt_nonce (l_client cl))) (S (size (threads (s_app (l_server cl))))) ls ct) = Some (ls', ct') ->
    exists cl', ('(cl, _) ← client_op proc cl lid; run_remote prog cl ct) = Ok (Some (cl', ct')) /\
      s_app (l_server cl') = ls' /\ lock_ready n cl') as Hcall.
  { intros proc p lid Hproc Hlid E.
    destruct (call_alone 6 _ _ _ lid p) as [ls1|] eqn:E1; [|done]. cbn in E.
    destruct (request_ok (length prog + n) cl proc p lid ls1 Hrdy Hproc Hlid E1) as (cl1 & Ec & Hr1 & Ha1 & Hid).
    destruct (call_alone_numbered _ _ _ _ _ _ Hnum E1) as [Hsz Hn1]. rewrite Ec. cbn [mbind outcome_bind].
    apply IH; [exact Hr1|by rewrite Ha1|done|]. rewrite Ha1, Hsz, Hid. exact E. }
  destruct i as [lid|lid|lid|lid]; cbn [run_test run_remote] in *.
  - apply (Hcall proc_acquire A_count lid); [by left|done|exact Hrun].
  - apply (Hcall proc_release R_lock lid); [by right|done|exact Hrun].
  - destruct (check_grant ct lid) as [ct1|]; [|done]. by apply IH.
  - destruct (check_release ct lid) as [ct1|]; [|done]. by apply IH.
Qed.

(** C16. The lock service over RPC refines the service called directly. A program
    of acquires, releases and checks that one client runs on the server by itself
    comes to the same end, check by check, when every call is an RPC: no
    assertion of lock_client fails, and the server's object and the counts are
    the same. *)
Theorem lock_rpc_refines n (cl : lock_link) prog ct ls' ct' :
  let clt := i32 (k_clt_nonce (l_client cl)) in
  lock_ready (length prog + n) cl -> numbered (s_app (l_server cl)) -> names_u64 prog ->
  run_test prog clt (size (threads (s_app (l_server cl)))) (s_app (l_server cl)) ct = Some (ls', ct') ->
  exists cl', run_remote prog cl ct = Ok (Some (cl', ct')) /\ s_app (l_server cl') = ls' /\ lock_ready n cl'.
Proof. apply lock_rpc_core. Qed.

(** ** From the start of both processes *)

(** The server process with the client's connection accepted. *)
Definition lock_boot (argv : list bytes) (random fd : Z) : outcome (option (rpcs lock_server)) :=
  match lock_smain_main argv random with
  | None => Ok None
  | Some (_, s) => s ← s; Ok (Some (with_objs s {[env_conn := connection_new fd 0]}))
  end.

Lemma lock_boot_ok name port random fd :
  exists s, lock_boot [name; port] random fd = Ok (Some s) /\ registered s /\ s_app s = lock_server_new /\
    s_procs s !! rpc_bind = Some (h1_fn i32_c i32_c un un (rpcbind (s_nonce s))) /\
    s_nonce s = u32 random /\ s_conns s = ∅ /\ s_reply_window s = ∅ /\ live s env_conn 1.
Proof.
  unfold lock_boot, lock_smain_main. change (server_args [name; port]) with (Some (atoi port)).
  cbv beta iota. unfold rpcs_start, reg1.
  cbn [s_procs rpcs_new mbind outcome_bind with_procs s_nonce].
  change (i32 rpc_bind) with rpc_bind. change (i32 proc_stat) with proc_stat.
  change (i32 proc_acquire) with proc_acquire. change (i32 proc_release) with proc_release.
  repeat (rewrite ?lookup_empty; rewrite ?lookup_insert_ne by done;
          cbn [s_procs mbind outcome_bind with_procs s_nonce]).
  eexists. split; [reflexivity|].
  unfold registered. cbn [s_procs with_objs s_app s_nonce s_conns s_reply_window with_procs].
  split_and!; try reflexivity;
    try (repeat first [rewrite lookup_insert_eq; reflexivity | rewrite lookup_insert_ne by done]).
  exists (connection_new fd 0). cbn [s_objs with_objs]. rewrite lookup_singleton_eq.
  split_and!; [reflexivity|reflexivity|done].
Qed.

Lemma a_u64 : is_u64 a.
Proof. by vm_compute. Qed.

Section Deployed.
Context (inet_addr : bytes -> Z) (gethostbyname : bytes -> option (Z * Z)).

(** The destination resolves, and connecting to it makes a connection. *)
Definition reachable_at (dst : bytes) (connect : sockaddr_in -> option (Z * connection)) : Prop :=
  exists a ch fd, make_sockaddr inet_addr gethostbyname dst = Ok (Some a) /\ connect a = Some (ch, connection_new fd 0).

Lemma lock_system_ready name port random fd dst clt connect :
  reachable_at dst connect ->
  exists s cl, lock_boot [name; port] random fd = Ok (Some s) /\
    lock_client_new inet_addr gethostbyname dst clt s connect = Ok (Some cl) /\
    s_app (l_server cl) = lock_server_new /\ forall n, Z.of_nat n <= 2 ^ 31 - 2 -> lock_ready n cl.
Proof.
  intros (a & ch & fd' & Ea & Ec).
  destruct (lock_boot_ok name port random fd) as (s & E & Hreg & Happ & Hb & Hno & Hc & Hw & Hl).
  destruct (bind_ok true clt s (Some (ch, connection_new fd' 0)) un un un to_max) as (cl & Eb & Hs & Ha & Hp).
  - exact Hb.
  - rewrite Hno. apply u32_range.
  - exists ch, (connection_new fd' 0). done.
  - exact Hl.
  - done.
  - right. rewrite Hc, Hw. split; apply lookup_empty.
  - exists s, cl. split; [exact E|]. unfold lock_client_new. rewrite Ea. cbn [mbind outcome_bind]. rewrite Ec, Eb.
    cbn [mbind outcome_bind]. split; [reflexivity|]. rewrite Happ in Ha. split; [exact Ha|]. intros n Hn.
    split; [by apply Hs|]. unfold registered in *. rewrite Hp. exact Hreg.
Qed.

(** C26. The lock service from the start of both processes. Start the server as
    lock_smain does; a client that can reach it binds, and then lock_demo prints
    0 (the count of acquires, which the server never raises), and the tester's
    test1, with each of its eight calls an RPC, passes all its checks and leaves
    both locks free. The status acquire returns is not the server's: it is what
    the server's uninitialised result variable held. Without exactly one argument all three programs exit. *)
Theorem lock_service_deployed name port random fd dst clt connect :
  reachable_at dst connect ->
  (exists s, lock_boot [name; port] random fd = Ok (Some s) /\
     lock_demo inet_addr gethostbyname [name; dst] clt s connect = Ok (Some 0) /\
     exists cl cl', lock_client_new inet_addr gethostbyname dst clt s connect = Ok (Some cl) /\
       run_remote test1 cl ct_new = Ok (Some (cl', ct_new)) /\
       free_lock (s_app (l_server cl')) a /\ free_lock (s_app (l_server cl')) b /\
       exists cl1, lock_client_acquire cl a = Ok (cl1, un)) /\
  (forall argv s, zlen argv <> 2 ->
     lock_boot argv random fd = Ok None /\ lock_demo inet_addr gethostbyname argv clt s connect = Ok None).
Proof.
  intros Hr. split.
  - destruct (lock_system_ready name port random fd dst clt connect Hr) as (s & cl & E & Ec & Ha & Hrdy).
    exists s. split; [exact E|]. split.
    + unfold lock_demo. change (negb (zlen [name; dst] =? 2)) with false. cbv beta iota.
      change (default [] ([name; dst] !! 1%nat)) with dst. rewrite Ec. cbn [mbind outcome_bind].
      destruct (Hrdy 1%nat ltac:(lia)) as [Hs (Hst & _)].
      destruct (client_op_ok 0 cl proc_stat do_stat 1 lock_server_new 0) as (cl' & E1 & _);
        [exact Hs|by vm_compute|done|exact Hst|by vm_compute|by rewrite Ha|by vm_compute|].
      unfold lock_client_stat. rewrite E1. reflexivity.
    + destruct (test1_passes (i32 (k_clt_nonce (l_client cl))) 0 lock_server_new) as (ls' & E1 & _ & Hfa & Hfb & _).
      { split; [done|]. intros lid. apply map_Forall_empty. }
      { by left. }
      { by left. }
      destruct (lock_rpc_core 0 cl test1 ct_new ls' ct_new) as (cl' & E2 & Ha' & _).
      { apply Hrdy. cbn. lia. }
      { rewrite Ha. by intros t _. }
      { repeat constructor; by vm_compute. }
      { rewrite Ha. exact E1. }
      exists cl, cl'. rewrite Ha'. split; [exact Ec|]. split; [exact E2|].
      split; [exact Hfa|]. split; [exact Hfb|].
      assert (lock_ready 1 cl) as H1 by (apply Hrdy; lia).
      pose proof (acquire_alone lock_server_new 0 (i32 (k_clt_nonce (l_client cl))) a (or_introl eq_refl)) as Halone.
      destruct (request_ok 0 cl proc_acquire A_count a (served lock_server_new 0 (i32 (k_clt_nonce (l_client cl))) a
        A_return true (Granted (i32 (k_clt_nonce (l_client cl))) a)) H1 (or_introl (conj eq_refl eq_refl)) a_u64) as (cl1 & E3 & _).
      { rewrite Ha. exact Halone. }
      exists cl1. exact E3.
  - intros argv s Hne. unfold lock_boot, lock_smain_main, lock_demo, server_args.
    rewrite (proj2 (Z.eqb_neq _ _) Hne). done.
Qed.
End Deployed.
End LockRpc.

#[local] Existing Instance zero_memory.
#[local] Existing Instance Session.Demo.environment.

Lemma demo_reachable :
  reachable_at Address.Demo.inet_addr Address.Demo.gethostbyname (str "server:3772")
    (fun _ => Some (2, connection_new 5 0)).
Proof. eexists _, 2, 5. split; reflexivity. Qed.

Lemma lock_service_deployed_witness :
  exists s, lock_boot 7 [str "lock_server"; str "3772"] 77 3 = Ok (Some s) /\
    lock_demo 7 Address.Demo.inet_addr Address.Demo.gethostbyname [str "lock_server"; str "server:3772"] 9 s
      (fun _ => Some (2, connection_new 5 0)) = Ok (Some 0).
Proof.
  destruct (lock_service_deployed 7 ltac:(unfold is_i32; lia) Address.Demo.inet_addr Address.Demo.gethostbyname
    (str "lock_server") (str "3772") 77 3 (str "server:3772") 9 (fun _ => Some (2, connection_new 5 0)) demo_reachable)
    as [(s & E1 & E2 & _) _].
  exists s. split; [exact E1|exact E2].
Defined.

(** One client takes a lock and gives it back. *)
Lemma lock_rpc_refines_witness :
  exists s cl cl', lock_boot 7 [str "lock_server"; str "3772"] 77 3 = Ok (Some s) /\
    lock_client_new 7 Address.Demo.inet_addr Address.Demo.gethostbyname (str "server:3772") 9 s
      (fun _ => Some (2, connection_new 5 0)) = Ok (Some cl) /\
    run_remote 7 [Acquire 5; CheckGrant 5; Release 5; CheckRelease 5] cl ct_new = Ok (Some (cl', ct_new)).
Proof.
  destruct (lock_system_ready 7 Address.Demo.inet_addr Address.Demo.gethostbyname (str "lock_server") (str "3772") 77 3
    (str "server:3772") 9 (fun _ => Some (2, connection_new 5 0)) demo_reachable) as (s & cl & E1 & E2 & Ha & Hr).
  set (clt := i32 (k_clt_nonce (l_client cl))).
  set (prog := [Acquire 5; CheckGrant 5; Release 5; CheckRelease 5]).
  destruct (run_test prog clt 0 lock_server_new ct_new) as [[ls ct]|] eqn:Erun.
  2: { unfold prog in Erun. clearbody clt. exfalso. revert Erun. cbn. discriminate. }
  destruct (lock_rpc_refines 7 ltac:(unfold is_i32; lia) 0 cl prog ct_new ls ct) as (cl' & E3 & _).
  - apply Hr. cbn. lia.
  - rewrite Ha. by intros t _.
  - repeat constructor; by vm_compute.
  - rewrite Ha. exact Erun.
  - exists s, cl, cl'. split; [exact E1|]. split; [exact E2|]. rewrite E3.
    assert (ct = ct_new) as ->; [|reflexivity].
    unfold prog in Erun. clearbody clt. revert Erun. cbn. intros [= <- <-]. reflexivity.
Defined.
