(* ===== verification/YfsClient.v ===== *)
(** * The file system client: yfs_client.h and yfs_client.cc

    Files and directories over an extent service, written against the
    interface [ExtentService]. A directory is an extent whose content is
    [name:id:name:id...]; its abstract meaning is the list of its entries. *)

From S2P Require Import Prelude Strings ExtentServer.
Local Open Scope Z_scope.

Record fileinfo := Fileinfo { f_size : Z; f_atime : Z; f_mtime : Z; f_ctime : Z }.
Record dirinfo := Dirinfo { d_atime : Z; d_mtime : Z; d_ctime : Z }.
Record dirent := Dirent { e_name : bytes; e_inum : Z }.
#[export] Instance dirent_eq_dec : EqDecision dirent.
Proof. solve_decision. Defined.

Definition n2i (n : bytes) : Z := read_ull n.
Definition filename (inum : Z) : bytes := print_ull inum.

Definition isfile (inum : Z) : bool := negb (Z.land inum (2 ^ 31) =? 0).
Definition isdir (inum : Z) : bool := negb (isfile inum).

(** [ret = ret * 10 + s.at(i) - '0'] in [unsigned long long]; [s.at(i)] is a
    signed [char]. *)
Definition stringToid (s : bytes) : Z :=
  foldl (fun ret c => u64 (ret * 10 + i8 c - 48)) 0 s.

Section Operations.
Context `{ExtentService St}.

(** What an uninitialised [attr] or [std::string] holds on entry does not
    matter; strings start out empty. *)
Definition attr_junk : attr := Attr 0 0 0 0.

Definition getfile (s : St) (inum : Z) (fin : fileinfo) : outcome (St * fileinfo * Z) :=
  '(s, a, st) ← ec_getattr s inum attr_junk;
  if negb (st =? OK) then Ok (s, fin, IOERR)
  else Ok (s, Fileinfo (a_size a) (a_atime a) (a_mtime a) (a_ctime a), OK).

Definition getdir (s : St) (inum : Z) (din : dirinfo) : outcome (St * dirinfo * Z) :=
  '(s, a, st) ← ec_getattr s inum attr_junk;
  if negb (st =? OK) then Ok (s, din, IOERR)
  else Ok (s, Dirinfo (a_atime a) (a_mtime a) (a_ctime a), OK).

Definition create (s : St) (parentID inum : Z) (name : bytes) : outcome (St * Z) :=
  '(s, dirContent, st) ← ec_get s parentID [];
  if negb (st =? OK) then Ok (s, IOERR)
  else
    '(s, failed) ← (if isfile inum
                    then '(s, st) ← ec_put s inum []; Ok (s, negb (st =? OK))
                    else Ok (s, false));
    if failed : bool then Ok (s, IOERR)
    else
      let dirContent := if bool_decide (dirContent = []) then dirContent else dirContent ++ [colon] in
      let dirContent := dirContent ++ name ++ [colon] ++ filename inum in
      '(s, st) ← ec_put s parentID dirContent;
      if negb (st =? OK) then Ok (s, IOERR) else Ok (s, OK).

(** The while loop of [getDirContent], at most [fuel] rounds ([None] when they
    are not enough): [begin], [end], the name read last and the entries. *)
Fixpoint dir_loop (fuel : nat) (cont : bytes) (begin en cycleTime : Z) (tempName : bytes)
    (dirContent : list (bytes * Z)) : outcome (option (Z * Z * bytes * list (bytes * Z))) :=
  match fuel with
  | O => Ok None
  | S fuel =>
      if negb (en <? zlen cont) then Ok (Some (begin, en, tempName, dirContent))
      else
        match string_find cont [colon] begin with
        | None => Ok (Some (begin, en, tempName, dirContent))
        | Some pos =>
            let en := i32 pos in
            let cycleTime := cycleTime + 1 in
            sub ← string_substr cont begin (en - begin);
            if Z.rem cycleTime 2 =? 1
            then dir_loop fuel cont (en + 1) en cycleTime sub dirContent
            else dir_loop fuel cont (en + 1) en cycleTime tempName
                   (dirContent ++ [(tempName, stringToid sub)])
        end
  end.

(** Every round but the last passes a colon of the content. *)
Definition getDirContent (s : St) (inum : Z) (dirContent : list (bytes * Z))
    : outcome (St * list (bytes * Z) * Z) :=
  '(s, cont, st) ← ec_get s inum [];
  if negb (st =? OK) then Ok (s, dirContent, IOERR)
  else
    match string_find cont [colon] 0 with
    | None => Ok (s, dirContent, OK)
    | Some _ =>
        r ← dir_loop (S (length cont)) cont 0 0 0 [] dirContent;
        match r with
        | None => Crash AssertFailed
        | Some (begin, en, tempName, dirContent) =>
            sub ← string_substr cont begin en;
            Ok (s, dirContent ++ [(tempName, stringToid sub)], OK)
        end
    end.

(** [readSize] is a [size_t], [offset] an [off_t]. *)
Definition read (s : St) (inum readSize offset : Z) (retString : bytes) : outcome (St * bytes * Z) :=
  '(s, cont, st) ← ec_get s inum [];
  if negb (st =? OK) then Ok (s, retString, IOERR)
  else if offset <? 0 then Ok (s, retString, IOERR)
  else if zlen cont <=? offset then Ok (s, [], OK)
  else sub ← string_substr cont offset readSize; Ok (s, sub, OK).

Definition ilookup (s : St) (parentID : Z) (name : bytes) : outcome (St * Z) :=
  '(s, dirContent, st) ← ec_get s parentID [];
  if negb (st =? OK) then Ok (s, 0)
  else
    let content_cp := dirContent ++ [colon] in
    let name_cp := name ++ [colon] in
    match string_find content_cp name_cp 0 with
    | None => Ok (s, 0)
    | Some head =>
        let head := head + zlen name_cp in
        (* npos - head when there is no further colon *)
        let n := match string_find content_cp [colon] head with
                 | Some tail => tail - head
                 | None => 2 ^ 64 - 1 - head
                 end in
        id_str ← string_substr content_cp head n;
        Ok (s, n2i id_str)
    end.

Definition setattr (s : St) (fileID : Z) (fin : fileinfo) : outcome (St * Z) :=
  let a := Attr 0 0 0 (u32 (f_size fin)) in
  '(s, st) ← ec_setattr s fileID a;
  if negb (st =? OK) then Ok (s, IOERR) else Ok (s, OK).

(** [size] and [off] are [int]s, converted to [size_t] by the string calls. *)
Definition write (s : St) (fileID : Z) (buf : bytes) (size off : Z) : outcome (St * Z) :=
  '(s, cont, st) ← ec_get s fileID [];
  if negb (st =? OK) then Ok (s, IOERR)
  else
    let content_size := i32 (zlen cont) in
    sub ← string_substr buf 0 (u64 size);
    cont ← (if content_size <=? off then Ok (cont ++ sub)
            else string_replace cont (u64 off) (u64 size) sub);
    '(s, st) ← ec_put s fileID cont;
    if negb (st =? OK) then Ok (s, IOERR) else Ok (s, OK).
End Operations.

(** ** Directories *)
Definition fields (es : list dirent) : list bytes :=
  concat (map (fun e => [e_name e; filename (e_inum e)]) es).
Definition encode (es : list dirent) : bytes := joined (fields es).
Definition good_entry (e : dirent) : Prop := plain (e_name e) /\ is_u64 (e_inum e).

Lemma fields_snoc es e : fields (es ++ [e]) = fields es ++ [e_name e; filename (e_inum e)].
Proof. unfold fields. by rewrite map_app, concat_app. Qed.

Lemma fields_nil es : fields es = [] <-> es = [].
Proof. destruct es; [done|]. split; done. Qed.

Lemma encode_nil es : encode es = [] <-> es = [].
Proof.
  split; [|by intros ->]. destruct es as [|e es]; [done|]. unfold encode.
  change (fields (e :: es)) with (e_name e :: (filename (e_inum e) :: fields es)).
  rewrite joined_cons by done. by destruct (e_name e).
Qed.

Lemma encode_snoc es e :
  encode (es ++ [e]) = (if bool_decide (encode es = []) then encode es else encode es ++ [colon])
    ++ e_name e ++ [colon] ++ filename (e_inum e).
Proof.
  destruct (decide (es = [])) as [->|Hne]; [done|].
  rewrite bool_decide_false by (by rewrite encode_nil). unfold encode at 1.
  rewrite fields_snoc, joined_app by (by rewrite ?fields_nil). by rewrite <- !(assoc_L (++)).
Qed.

Lemma fields_plain es : Forall good_entry es -> Forall plain (fields es).
Proof.
  induction 1 as [|e es [Hn Hi] _ IH]; [constructor|]. constructor; [done|]. constructor; [|done].
  apply print_plain. apply Hi.
Qed.

(** The first field that ends with [name] decides: the field after it is read
    as a number. *)
Fixpoint lookup_fields (name : bytes) (fs : list bytes) : Z :=
  match fs with
  | [] => 0
  | f :: fs => if decide (name `suffix_of` f) then n2i (default [] (head fs)) else lookup_fields name fs
  end.

(** *** Searching a closed list of fields *)
Lemma find_name_closed name fs :
  plain name -> name <> [] -> Forall plain fs ->
  match find_at (name ++ [colon]) (closed fs) with
  | None => lookup_fields name fs = 0
  | Some i => exists fs1 fs2, (i + length name + 1)%nat = length (closed fs1) /\ fs = fs1 ++ fs2 /\
      lookup_fields name fs = n2i (default [] (head fs2))
  end.
Proof.
  intros Hn Hne. induction fs as [|f fs IH]; intros Hfs.
  { replace (find_at (name ++ [colon]) (closed [])) with (@None nat); [done|].
    destruct name as [|x name]; [done|]. cbn. by rewrite bool_decide_false. }
  apply Forall_cons in Hfs as [Hf Hfs]. rewrite closed_cons, find_name by done. cbn [lookup_fields].
  destruct (decide (name `suffix_of` f)) as [Hs|Hs].
  - exists [f], fs. apply suffix_length in Hs. split; [|done].
    unfold closed. cbn. rewrite app_nil_r, length_app. cbn. lia.
  - specialize (IH Hfs). destruct (find_at (name ++ [colon]) (closed fs)) as [i|]; cbn [option_map]; [|done].
    destruct IH as (fs1 & fs2 & Hi & -> & Hl). exists (f :: fs1), fs2. split; [|done].
    rewrite closed_cons, length_app. cbn [length]. lia.
Qed.

(** The field that starts after some closed ones. *)
Lemma next_field fs1 fs2 :
  Forall plain fs2 ->
  match string_find (closed (fs1 ++ fs2)) [colon] (zlen (closed fs1)) with
  | Some tail => take (Z.to_nat (tail - zlen (closed fs1))) (closed fs2) = default [] (head fs2) /\
                 zlen (closed fs1) <= tail <= zlen (closed (fs1 ++ fs2))
  | None => fs2 = []
  end.
Proof.
  intros Hfs. unfold string_find. rewrite closed_app.
  rewrite (proj2 (Z.ltb_ge _ _)) by (rewrite zlen_app; pose proof (zlen_nonneg (closed fs2)); lia).
  replace (Z.to_nat (zlen (closed fs1))) with (length (closed fs1)) by (unfold zlen; lia).
  rewrite drop_app_length. destruct fs2 as [|f fs2].
  - done.
  - apply Forall_cons in Hfs as [Hf _]. rewrite closed_cons, find_colon by done. cbn [option_map].
    split.
    + replace (Z.to_nat _) with (length f) by lia. rewrite take_app_length. done.
    + rewrite zlen_app. rewrite zlen_app, zlen_cons. pose proof (zlen_nonneg (closed fs2)).
      unfold zlen in *. lia.
Qed.

Lemma take_short (l : bytes) n : zlen l <= n -> take (Z.to_nat n) l = l.
Proof. intros. apply take_ge. unfold zlen in *. lia. Qed.

Section Directories.
Context `{ExtentService St}.

(** Reading a directory's content. *)
Lemma ec_get_some n s id e :
  ec_ready (S n) s -> is_u64 id -> ec_model s !! id = Some e ->
  exists s', ec_get s id [] = Ok (s', content e, OK) /\ ec_ready n s' /\ ec_model s' = ec_model s.
Proof.
  intros Hr Hid He. destruct (ec_get_law n s id [] Hr Hid) as (s' & Hr' & Hm & Hg).
  rewrite He in Hg. by exists s'.
Qed.

Lemma ec_put_small n s id buf :
  ec_ready (S n) s -> is_u64 id -> zlen buf <= maxextent ->
  exists s' t, ec_put s id buf = Ok (s', OK) /\ ec_ready n s' /\
    ec_model s' = <[id := ExtentInfo (Attr t t t (zlen buf)) buf]> (ec_model s).
Proof.
  intros Hr Hid Hb. destruct (ec_put_law n s id buf Hr Hid) as (s' & Hr' & Hp).
  { pose proof ec_limit_ok. lia. }
  rewrite (proj2 (Z.ltb_ge _ _)) in Hp by lia. destruct Hp as (Hp & t & Hm). by exists s', t.
Qed.

Lemma ilookup_fields n s parent name fs e :
  ec_ready (S n) s -> is_u64 parent -> ec_model s !! parent = Some e ->
  content e ++ [colon] = closed fs -> zlen (content e) < 2 ^ 63 ->
  Forall plain fs -> plain name -> name <> [] ->
  exists s', ilookup s parent name = Ok (s', lookup_fields name fs) /\
    ec_ready n s' /\ ec_model s' = ec_model s.
Proof.
  intros Hr Hid He Hc Hsz Hfs Hn Hne.
  destruct (ec_get_some n s parent e Hr Hid He) as (s' & Hg & Hr' & Hm).
  exists s'. split; [|done]. unfold ilookup. rewrite Hg. cbn [mbind outcome_bind Z.eqb negb OK]. rewrite Hc.
  unfold string_find at 1. rewrite (proj2 (Z.ltb_ge _ 0)) by apply zlen_nonneg.
  change (drop (Z.to_nat 0) (closed fs)) with (closed fs).
  pose proof (find_name_closed name fs Hn Hne Hfs) as Hf.
  destruct (find_at (name ++ [colon]) (closed fs)) as [i|]; cbn [option_map]; [|by rewrite Hf].
  destruct Hf as (fs1 & fs2 & Hi & Efs & ->).
  assert (0 + Z.of_nat i + zlen (name ++ [colon]) = zlen (closed fs1)) as ->.
  { rewrite zlen_app. unfold zlen. cbn [length]. lia. }
  assert (Forall plain fs2) as Hfs2 by (rewrite Efs in Hfs; by apply Forall_app in Hfs as [_ ?]).
  pose proof (next_field fs1 fs2 Hfs2) as Hnext. rewrite <- Efs in Hnext.
  assert (zlen (closed fs1) <= zlen (closed fs)) as Hle.
  { rewrite Efs, closed_app, zlen_app. pose proof (zlen_nonneg (closed fs2)). lia. }
  assert (drop (Z.to_nat (zlen (closed fs1))) (closed fs) = closed fs2) as Hdrop.
  { rewrite Efs, closed_app. unfold zlen. rewrite Nat2Z.id. apply drop_app_length. }
  unfold string_substr. rewrite (proj2 (Z.ltb_ge _ _)) by lia. rewrite Hdrop.
  destruct (string_find (closed fs) [colon] (zlen (closed fs1))) as [tail|]; cbn [mbind outcome_bind].
  - destruct Hnext as [Ht Hb]. rewrite <- Ht. do 3 f_equal. f_equal. f_equal.
    pose proof (zlen_nonneg (closed fs1)). lia.
  - subst fs2. cbn. by rewrite take_nil.
Qed.

(** What looking up a name returns. In a well-formed directory [ilookup]
    finds the first field, be it a name or the digits of an id, that ends with
    the name, and returns the number that follows it (0 for none); nothing is
    changed. *)
Theorem ilookup_spec n s parent name es e :
  ec_ready (S n) s -> is_u64 parent -> ec_model s !! parent = Some e -> content e = encode es ->
  zlen (content e) < 2 ^ 63 -> Forall good_entry es -> plain name -> name <> [] ->
  exists s', ilookup s parent name = Ok (s', lookup_fields name (fields es)) /\
    ec_model s' = ec_model s.
Proof.
  intros Hr Hid He Hc Hsz Hes Hn Hne. destruct (decide (es = [])) as [->|Hes0].
  - destruct (ilookup_fields n s parent name [[]] e) as (s' & E & _ & Hm); try done.
    + by rewrite Hc.
    + repeat constructor. unfold plain. set_solver.
    + exists s'. split; [|done]. rewrite E. cbn. rewrite decide_False; [done|].
      by intros ?%suffix_nil_inv.
  - destruct (ilookup_fields n s parent name (fields es) e) as (s' & E & _ & Hm); try done.
    + rewrite Hc. apply joined_closed. by rewrite fields_nil.
    + by apply fields_plain.
    + by exists s'.
Qed.
End Directories.

Lemma lookup_fields_skip name fs1 f fs2 :
  Forall (fun f => ~ name `suffix_of` f) fs1 -> name `suffix_of` f ->
  lookup_fields name (fs1 ++ f :: fs2) = n2i (default [] (head fs2)).
Proof.
  intros Hfs Hf. induction Hfs as [|g fs1 Hg _ IH]; cbn [app lookup_fields].
  - by rewrite decide_True.
  - by rewrite decide_False.
Qed.

Section Create.
Context `{ExtentService St}.

(** What [create] leaves behind when it succeeds. *)
Lemma create_ok n s parent inum name es e :
  ec_ready (S (S (S n))) s -> is_u64 parent -> is_u64 inum -> parent <> inum ->
  ec_model s !! parent = Some e -> content e = encode es ->
  zlen (encode (es ++ [Dirent name inum])) <= maxextent ->
  exists s' e', create s parent inum name = Ok (s', OK) /\ ec_ready n s' /\
    ec_model s' !! parent = Some e' /\ content e' = encode (es ++ [Dirent name inum]) /\
    a_size (eAttr e') = zlen (content e') /\
    (isfile inum = true -> content <$> ec_model s' !! inum = Some []) /\
    (forall id, id <> parent -> (isfile inum = true -> id <> inum) -> ec_model s' !! id = ec_model s !! id).
Proof.
  intros Hr Hp Hi Hne He Hc Hsz.
  destruct (ec_get_some _ s parent e Hr Hp He) as (s1 & Hg & Hr1 & Hm1).
  assert (exists s2 m, (if isfile inum
      then '(s, st) ← ec_put s1 inum []; Ok (s, negb (st =? OK)) else Ok (s1, false)) = Ok (s2, false) /\
    ec_ready (S n) s2 /\ ec_model s2 = m /\
    (isfile inum = true -> content <$> m !! inum = Some []) /\
    (forall id, (isfile inum = true -> id <> inum) -> m !! id = ec_model s !! id)) as
    (s2 & m & Ep & Hr2 & Hm2 & Hfile & Hsame).
  { destruct (isfile inum).
    - destruct (ec_put_small _ s1 inum [] Hr1 Hi) as (s2 & t & E & Hr2 & Hm2); [done|].
      exists s2. eexists. rewrite E. split; [done|].
      split; [exact Hr2|]. split; [exact Hm2|]. split.
      + intros _. by rewrite lookup_insert, decide_True.
      + intros id Hid. rewrite lookup_insert, decide_False by (intros ->; by apply Hid). by rewrite Hm1.
    - exists s1, (ec_model s1). split; [done|]. split; [by apply ec_ready_less|].
      split; [done|]. split; [done|]. intros id _. by rewrite Hm1. }
  destruct (ec_put_small _ s2 parent (encode (es ++ [Dirent name inum])) Hr2 Hp Hsz)
    as (s3 & t & E3 & Hr3 & Hm3).
  exists s3, (ExtentInfo (Attr t t t (zlen (encode (es ++ [Dirent name inum])))) (encode (es ++ [Dirent name inum]))).
  split.
  { unfold create. rewrite Hg. cbn [mbind outcome_bind OK Z.eqb negb].
    match goal with |- context [if isfile inum then ?x else ?y] =>
      change (if isfile inum then x else y) with (if isfile inum
      then '(s, st) ← ec_put s1 inum []; Ok (s, negb (st =? OK)) else Ok (s1, false)) end.
    rewrite Ep. cbn [mbind outcome_bind]. rewrite Hc.
    rewrite encode_snoc in E3. cbn [e_name e_inum] in E3. rewrite E3. done. }
  split; [done|]. rewrite Hm3. rewrite lookup_insert, decide_True by done. split; [done|]. split; [done|].
  split; [done|]. split.
  - intros Hf. rewrite lookup_insert, decide_False by done. rewrite Hm2. by apply Hfile.
  - intros id H1 H2. rewrite lookup_insert, decide_False by congruence. rewrite Hm2. by apply Hsame.
Qed.

(** A new file comes with an extent that is empty and says so. *)
Lemma create_new_file n s parent inum name es e :
  ec_ready (S (S (S n))) s -> is_u64 parent -> is_u64 inum -> parent <> inum -> isfile inum = true ->
  ec_model s !! parent = Some e -> content e = encode es ->
  zlen (encode (es ++ [Dirent name inum])) <= maxextent ->
  exists s' e' ef, create s parent inum name = Ok (s', OK) /\ ec_ready n s' /\
    ec_model s' !! parent = Some e' /\ content e' = encode (es ++ [Dirent name inum]) /\
    ec_model s' !! inum = Some ef /\ a_size (eAttr ef) = 0 /\ content ef = [] /\
    (forall id, id <> parent -> id <> inum -> ec_model s' !! id = ec_model s !! id).
Proof.
  intros Hr Hp Hi Hne Hf He Hc Hsz.
  destruct (ec_get_some _ s parent e Hr Hp He) as (s1 & Hg & Hr1 & Hm1).
  destruct (ec_put_small _ s1 inum [] Hr1 Hi) as (s2 & t & E2 & Hr2 & Hm2); [done|].
  destruct (ec_put_small _ s2 parent (encode (es ++ [Dirent name inum])) Hr2 Hp Hsz)
    as (s3 & t' & E3 & Hr3 & Hm3).
  eexists s3, _, _. split_and!.
  - unfold create. rewrite Hg. cbn [mbind outcome_bind OK Z.eqb negb]. rewrite Hf, E2.
    cbn [mbind outcome_bind OK Z.eqb negb]. rewrite Hc.
    rewrite encode_snoc in E3. cbn [e_name e_inum] in E3. rewrite E3. reflexivity.
  - done.
  - by rewrite Hm3, lookup_insert, decide_True.
  - done.
  - rewrite Hm3, lookup_insert, decide_False by done. by rewrite Hm2, lookup_insert, decide_True.
  - done.
  - done.
  - intros id H1 H2. by rewrite Hm3, lookup_insert_ne, Hm2, lookup_insert_ne, Hm1 by congruence.
Qed.

(** Creating a file or directory entry. On a directory that holds the entries
    [es], [create] succeeds (if the directory still fits an extent), the
    directory then holds [es] followed by the new entry, its recorded size is
    right, a new file is an empty extent, and no other extent changes. *)
Theorem create_appends_entry n s parent inum name es e :
  ec_ready (S (S (S n))) s -> is_u64 parent -> is_u64 inum -> parent <> inum ->
  ec_model s !! parent = Some e -> content e = encode es ->
  zlen (encode (es ++ [Dirent name inum])) <= maxextent ->
  exists s' e', create s parent inum name = Ok (s', OK) /\
    ec_model s' !! parent = Some e' /\ content e' = encode (es ++ [Dirent name inum]) /\
    a_size (eAttr e') = zlen (content e') /\
    (isfile inum = true -> content <$> ec_model s' !! inum = Some []) /\
    (forall id, id <> parent -> (isfile inum = true -> id <> inum) -> ec_model s' !! id = ec_model s !! id).
Proof.
  intros. destruct (create_ok n s parent inum name es e) as (s' & e' & E & _ & ?); try done. by exists s', e'.
Qed.

(** A file can be looked up once it is created: [ilookup] of the name that
    [create] added returns the new inode number, provided no earlier field of
    the directory ends with the name. *)
Theorem create_then_lookup n s parent inum name es e :
  ec_ready (S (S (S (S n)))) s -> is_u64 parent -> is_u64 inum -> parent <> inum ->
  ec_model s !! parent = Some e -> content e = encode es ->
  zlen (encode (es ++ [Dirent name inum])) <= maxextent ->
  Forall good_entry es -> plain name -> name <> [] ->
  Forall (fun f => ~ name `suffix_of` f) (fields es) ->
  exists s' s'', create s parent inum name = Ok (s', OK) /\ ilookup s' parent name = Ok (s'', inum).
Proof.
  intros Hr Hp Hi Hne He Hc Hsz Hes Hn Hn0 Hsuf.
  destruct (create_ok (S n) s parent inum name es e) as (s' & e' & E & Hr' & He' & Hc' & _); try done.
  assert (Forall plain (fields (es ++ [Dirent name inum]))) as Hpl.
  { apply fields_plain, Forall_app. split; [done|]. constructor; [by split|constructor]. }
  destruct (ilookup_fields n s' parent name (fields (es ++ [Dirent name inum])) e')
    as (s'' & El & _); try done.
  - rewrite Hc'. apply joined_closed. rewrite fields_nil. by destruct es.
  - rewrite Hc'. unfold maxextent in Hsz. lia.
  - exists s', s''. split; [done|]. rewrite El. do 2 f_equal.
    rewrite fields_snoc, lookup_fields_skip by done. cbn. by apply read_print.
Qed.

(** [ilookup] also finds names that are not there: if the first entry's name
    merely ends with the name looked up, its inode number is returned. *)
Theorem ilookup_matches_suffix n s parent x name id es e :
  ec_ready (S n) s -> is_u64 parent -> ec_model s !! parent = Some e ->
  content e = encode (Dirent (x ++ name) id :: es) -> zlen (content e) < 2 ^ 63 ->
  Forall good_entry (Dirent (x ++ name) id :: es) -> name <> [] ->
  exists s', ilookup s parent name = Ok (s', id).
Proof.
  intros Hr Hp He Hc Hsz Hes Hne. pose proof Hes as [[Hx Hid] _]%Forall_cons.
  destruct (ilookup_fields n s parent name (fields (Dirent (x ++ name) id :: es)) e) as (s' & E & _); try done.
  - rewrite Hc. by apply joined_closed.
  - by apply fields_plain.
  - unfold plain in *. cbn in Hx. set_solver.
  - exists s'. rewrite E. do 2 f_equal.
    change (fields (Dirent (x ++ name) id :: es)) with ([] ++ (x ++ name) :: filename id :: fields es).
    rewrite lookup_fields_skip; [|constructor|by exists x]. cbn. by apply read_print.
Qed.
End Create.

(** A server whose root directory holds "ab" (file 2147483649). *)
Definition demo_dir (es : list dirent) : extent_server :=
  ExtentServer {[1 := ExtentInfo (Attr 0 0 0 (zlen (encode es))) (encode es)]} 100.
Definition demo_es : list dirent := [Dirent (str "ab") 2147483649].

Lemma demo_es_good : Forall good_entry demo_es.
Proof. constructor; [|constructor]. split; [by apply (bool_decide_unpack _)|by vm_compute]. Qed.

Lemma ilookup_spec_witness :
  exists s', ilookup (demo_dir demo_es) 1 (str "ab") = Ok (s', lookup_fields (str "ab") (fields demo_es)) /\
    extents s' = extents (demo_dir demo_es) /\ lookup_fields (str "ab") (fields demo_es) = 2147483649.
Proof.
  destruct (ilookup_spec 0 (demo_dir demo_es) 1 (str "ab") demo_es
    (ExtentInfo (Attr 0 0 0 (zlen (encode demo_es))) (encode demo_es))) as (s' & E & Hm).
  - done.
  - by vm_compute.
  - apply lookup_singleton_eq.
  - done.
  - by vm_compute.
  - apply demo_es_good.
  - by apply (bool_decide_unpack _).
  - done.
  - exists s'. split; [exact E|]. split; [exact Hm|by vm_compute].
Defined.

Lemma create_appends_entry_witness :
  exists s' e', create (demo_dir demo_es) 1 2147483650 (str "c") = Ok (s', OK) /\
    extents s' !! 1 = Some e' /\ content e' = str "ab:2147483649:c:2147483650".
Proof.
  destruct (create_appends_entry 0 (demo_dir demo_es) 1 2147483650 (str "c") demo_es
    (ExtentInfo (Attr 0 0 0 (zlen (encode demo_es))) (encode demo_es))) as (s' & e' & E & He & Hc & _).
  - done.
  - by vm_compute.
  - by vm_compute.
  - done.
  - apply lookup_singleton_eq.
  - done.
  - by vm_compute.
  - exists s', e'. split; [exact E|]. split; [exact He|]. rewrite Hc. by vm_compute.
Defined.

Lemma create_then_lookup_witness :
  exists s' s'', create (demo_dir demo_es) 1 2147483650 (str "c") = Ok (s', OK) /\
    ilookup s' 1 (str "c") = Ok (s'', 2147483650).
Proof.
  apply (create_then_lookup 0 (demo_dir demo_es) 1 2147483650 (str "c") demo_es
    (ExtentInfo (Attr 0 0 0 (zlen (encode demo_es))) (encode demo_es))).
  - done.
  - by vm_compute.
  - by vm_compute.
  - done.
  - apply lookup_singleton_eq.
  - done.
  - by vm_compute.
  - apply demo_es_good.
  - by apply (bool_decide_unpack _).
  - done.
  - apply Forall_cons. split; [by apply (bool_decide_unpack _)|].
    apply Forall_cons. split; [by apply (bool_decide_unpack _)|constructor].
Defined.

(** There is no "b", only "ab". *)
Lemma ilookup_matches_suffix_witness :
  exists s', ilookup (demo_dir demo_es) 1 (str "b") = Ok (s', 2147483649).
Proof.
  apply (ilookup_matches_suffix 0 (demo_dir demo_es) 1 (str "a") (str "b") 2147483649 []
    (ExtentInfo (Attr 0 0 0 (zlen (encode demo_es))) (encode demo_es))).
  - done.
  - by vm_compute.
  - apply lookup_singleton_eq.
  - done.
  - by vm_compute.
  - apply demo_es_good.
  - done.
Defined.

(** ** Listing a directory *)

(** What the loop makes of the fields before the last one. *)
Fixpoint scan (fs : list bytes) (odd : bool) (tempName : bytes) (acc : list (bytes * Z))
    : bytes * list (bytes * Z) :=
  match fs with
  | [] => (tempName, acc)
  | f :: fs => if odd then scan fs false f acc
               else scan fs true tempName (acc ++ [(tempName, stringToid f)])
  end.

(** The loop passes the fields [fs] and stops before the last one. *)
Lemma dir_loop_scan pre fs lastf fuel cycle tn acc cont en :
  cont = closed pre ++ closed fs ++ lastf -> zlen cont < 2 ^ 31 ->
  Forall plain fs -> plain lastf -> 0 <= cycle -> (length fs < fuel)%nat ->
  0 <= en < zlen cont -> (pre <> [] -> en = zlen (closed pre) - 1) ->
  dir_loop fuel cont (zlen (closed pre)) en cycle tn acc =
    Ok (Some (zlen (closed (pre ++ fs)),
              (if decide (fs = []) then en else zlen (closed (pre ++ fs)) - 1),
              (scan fs (Z.rem cycle 2 =? 0) tn acc).1, (scan fs (Z.rem cycle 2 =? 0) tn acc).2)).
Proof.
  intros Hc Hsz Hfs Hl. revert pre fuel cycle tn acc en Hc.
  induction fs as [|f fs IH]; intros pre fuel cycle tn acc en Hc Hcy Hfuel Hen Hpre;
    (destruct fuel as [|fuel]; [simpl in Hfuel; lia|]); cbn [dir_loop];
    rewrite (proj2 (Z.ltb_lt en _)) by lia; cbn [negb]; unfold string_find.
  - rewrite (proj2 (Z.ltb_ge _ _)) by (rewrite Hc, zlen_app; pose proof (zlen_nonneg (closed [] ++ lastf)); lia).
    replace (drop (Z.to_nat (zlen (closed pre))) cont) with lastf.
    2: { rewrite Hc. unfold zlen. rewrite Nat2Z.id, drop_app_length. done. }
    rewrite find_colon_none by done. rewrite app_nil_r. by destruct (decide _).
  - pose proof Hfs as [Hf Hfs']%Forall_cons.
    assert (zlen cont = zlen (closed pre) + zlen f + 1 + zlen (closed fs ++ lastf)) as Hz.
    { rewrite Hc, closed_cons, !zlen_app, zlen_cons. lia. }
    pose proof (zlen_nonneg (closed fs ++ lastf)). pose proof (zlen_nonneg f). pose proof (zlen_nonneg (closed pre)).
    rewrite (proj2 (Z.ltb_ge _ _)) by lia.
    assert (drop (Z.to_nat (zlen (closed pre))) cont = f ++ colon :: (closed fs ++ lastf)) as Hd.
    { rewrite Hc, closed_cons. unfold zlen. rewrite Nat2Z.id, drop_app_length. by rewrite <- !(assoc_L (++)). }
    rewrite Hd, find_colon by done. cbn [option_map].
    rewrite i32_small by (unfold is_i32, zlen in *; lia).
    unfold string_substr. rewrite (proj2 (Z.ltb_ge _ _)) by lia. rewrite Hd.
    replace (take _ (f ++ _)) with f.
    2: { replace (Z.to_nat _) with (length f) by (unfold zlen in *; lia). by rewrite take_app_length. }
    cbn [mbind outcome_bind].
    assert (zlen (closed (pre ++ [f])) = zlen (closed pre) + Z.of_nat (length f) + 1) as Hpf.
    { rewrite closed_app, zlen_app, closed_cons, zlen_app, zlen_cons. unfold zlen. cbn. lia. }
    rewrite <- Hpf.
    assert (Z.rem (cycle + 1) 2 = 1 - Z.rem cycle 2) as Hrem.
    { rewrite !Z.rem_mod_nonneg by lia. Z.div_mod_to_equations. lia. }
    assert (Z.rem cycle 2 = 0 \/ Z.rem cycle 2 = 1) as Hpar.
    { rewrite Z.rem_mod_nonneg by lia. pose proof (Z.mod_pos_bound cycle 2). lia. }
    assert (forall tn' acc', dir_loop fuel cont (zlen (closed (pre ++ [f])))
        (zlen (closed pre) + Z.of_nat (length f)) (cycle + 1) tn' acc' =
      Ok (Some (zlen (closed (pre ++ f :: fs)), zlen (closed (pre ++ f :: fs)) - 1,
        (scan fs (Z.rem (cycle + 1) 2 =? 0) tn' acc').1, (scan fs (Z.rem (cycle + 1) 2 =? 0) tn' acc').2))) as Hrec.
    { intros tn' acc'. rewrite (IH Hfs' (pre ++ [f]) fuel (cycle + 1) tn' acc').
      - rewrite <- (assoc_L (++)). cbn [app]. destruct (decide (fs = [])) as [->|]; [|done].
        rewrite Hpf. do 5 f_equal. lia.
      - rewrite Hc, closed_app, closed_cons, (closed_cons f []). by rewrite <- !(assoc_L (++)).
      - lia.
      - cbn in Hfuel. lia.
      - unfold zlen in *. lia.
      - intros _. lia. }
    rewrite (decide_False (P := f :: fs = [])) by done. rewrite Hrem in Hrec |- *.
    destruct Hpar as [Hp|Hp]; rewrite Hp in Hrec |- *.
    + change (1 - 0 =? 1) with true. cbn iota. rewrite Hrec. done.
    + change (1 - 1 =? 1) with false. cbn iota. rewrite Hrec. done.
Qed.

Lemma stringToid_decimal ds :
  Forall (fun c => is_digit c = true) ds -> stringToid ds = u64 (decimal ds).
Proof.
  induction ds as [|c ds IH] using rev_ind; intros Hd; [done|].
  apply Forall_app in Hd as [Hd Hc]. apply Forall_cons in Hc as [Hc%digit_cases _].
  unfold stringToid. rewrite foldl_app. cbn [foldl]. fold (stringToid ds). rewrite IH by done.
  rewrite decimal_snoc, (i8_small c) by (unfold is_i8; lia). unfold u64.
  rewrite <- (Z.add_mod_idemp_l _ _ (2 ^ 64)) at 1 by lia.
  replace (decimal ds mod 2 ^ 64 * 10 + c - 48) with (decimal ds mod 2 ^ 64 * 10 + (c - 48)) by lia.
  rewrite <- Z.add_mod_idemp_l, Z.mul_mod_idemp_l by lia. by rewrite Z.add_mod_idemp_l by lia.
Qed.

(** An id read back from a directory. *)
Lemma stringToid_filename id : is_u64 id -> stringToid (filename id) = id.
Proof.
  intros Hid. unfold filename. rewrite stringToid_decimal by (apply digits_all_digits; apply Hid).
  rewrite print_decimal by done. by apply u64_small.
Qed.

Definition listing (es : list dirent) : list (bytes * Z) := map (fun e => (e_name e, e_inum e)) es.

Lemma scan_fields es name tn acc :
  Forall good_entry es -> scan (fields es ++ [name]) true tn acc = (name, acc ++ listing es).
Proof.
  intros Hes. revert tn acc. induction Hes as [|e es [_ He] _ IH]; intros tn acc.
  - cbn. by rewrite app_nil_r.
  - change (fields (e :: es) ++ [name]) with (e_name e :: filename (e_inum e) :: (fields es ++ [name])).
    cbn [scan]. rewrite IH, stringToid_filename by done. by rewrite <- (assoc_L (++)).
Qed.

Lemma closed_length fs : (length fs <= length (closed fs))%nat.
Proof.
  induction fs as [|f fs IH]; [done|]. rewrite closed_cons, length_app. cbn [length]. lia.
Qed.

Section Listing.
Context `{ExtentService St}.

(** The content of a directory with a last entry: the closed fields before its
    id, then the id. *)
Lemma encode_last es name id :
  encode (es ++ [Dirent name id]) = closed (fields es ++ [name]) ++ filename id.
Proof.
  unfold encode. rewrite fields_snoc. cbn [e_name e_inum].
  replace (fields es ++ [name; filename id]) with ((fields es ++ [name]) ++ [filename id])
    by (by rewrite <- (assoc_L (++))).
  apply joined_last.
Qed.

Lemma find_colon_closed fs rest :
  fs <> [] -> Forall plain fs -> exists i, string_find (closed fs ++ rest) [colon] 0 = Some i.
Proof.
  intros Hne Hfs. unfold string_find. rewrite (proj2 (Z.ltb_ge _ _)) by apply zlen_nonneg.
  change (drop (Z.to_nat 0) (closed fs ++ rest)) with (closed fs ++ rest). destruct fs as [|f fs']; [done|].
  apply Forall_cons in Hfs as [Hf _]. rewrite closed_cons, <- (assoc_L (++)). cbn [app].
  rewrite find_colon by done. by eexists.
Qed.

(** The loop over the colons, then the last id, cut to [room] characters. *)
Lemma getDirContent_scan s s' inum es name id :
  let fs := fields es ++ [name] in
  let cont := closed fs ++ filename id in
  ec_get s inum [] = Ok (s', cont, OK) -> zlen cont < 2 ^ 31 ->
  Forall good_entry es -> plain name -> is_u64 id ->
  getDirContent s inum [] =
    Ok (s', listing es ++ [(name, stringToid (take (Z.to_nat (zlen (closed fs) - 1)) (filename id)))], OK).
Proof.
  intros fs cont Hg Hsz Hes Hn Hid.
  assert (Forall plain fs) as Hfs by (apply Forall_app; split; [by apply fields_plain|by constructor]).
  assert (fs <> []) as Hne by (subst fs; by destruct (fields es)).
  assert (zlen cont = zlen (closed fs) + zlen (filename id)) as Hlen by (subst cont; apply zlen_app).
  pose proof (closed_length fs) as Hcl. pose proof (zlen_nonneg (filename id)) as Hnn.
  unfold getDirContent. rewrite Hg. cbn [mbind outcome_bind OK Z.eqb negb].
  destruct (find_colon_closed fs (filename id) Hne Hfs) as [i Hi]. fold cont in Hi. rewrite Hi.
  pose proof (dir_loop_scan [] fs (filename id) (S (length cont)) 0 [] [] cont 0) as Hloop.
  change (closed []) with (@nil Z) in Hloop. change (zlen []) with 0 in Hloop. cbn [app] in Hloop.
  rewrite Hloop; [|done|done|done|by apply print_plain; apply Hid|done| | |done].
  - cbn [Z.rem Z.quotrem Z.eqb snd]. change (Z.rem 0 2 =? 0) with true.
    rewrite (decide_False (P := fs = [])) by done. unfold fs at 3 4. rewrite !scan_fields by done.
    cbn [fst snd mbind outcome_bind app].
    unfold string_substr. rewrite (proj2 (Z.ltb_ge _ _)) by lia.
    replace (drop (Z.to_nat (zlen (closed fs))) cont) with (filename id).
    2: { subst cont. unfold zlen. by rewrite Nat2Z.id, drop_app_length. }
    by replace (Z.min (zlen (closed fs) - 1) (zlen cont)) with (zlen (closed fs) - 1) by lia.
  - subst cont. rewrite length_app. lia.
  - assert (length fs <> 0%nat) by (by destruct fs). unfold zlen in *. lia.
Qed.

(** Listing a directory. [getDirContent] terminates and returns the entries in
    order with their ids, except that the digits of the last id are cut off
    after as many characters as come before the last colon; the listing is
    exact when the last id is no longer than that. An empty directory gives an
    empty listing and a missing one IOERR. *)
Theorem getDirContent_spec n s inum :
  ec_ready (S n) s -> is_u64 inum ->
  exists s', ec_model s' = ec_model s /\
  match ec_model s !! inum with
  | None => getDirContent s inum [] = Ok (s', [], IOERR)
  | Some e =>
      (content e = [] -> getDirContent s inum [] = Ok (s', [], OK)) /\
      (forall es name id, content e = encode (es ++ [Dirent name id]) -> zlen (content e) < 2 ^ 31 ->
         Forall good_entry (es ++ [Dirent name id]) ->
         let room := zlen (content e) - zlen (filename id) - 1 in
         getDirContent s inum [] =
           Ok (s', listing es ++ [(name, stringToid (take (Z.to_nat room) (filename id)))], OK) /\
         (zlen (filename id) <= room ->
          getDirContent s inum [] = Ok (s', listing (es ++ [Dirent name id]), OK)))
  end.
Proof.
  intros Hr Hi. destruct (ec_get_law n s inum [] Hr Hi) as (s' & _ & Hm & Hg).
  exists s'. split; [done|]. destruct (ec_model s !! inum) as [e|].
  2: { destruct Hg as (d' & Hg). unfold getDirContent. by rewrite Hg. }
  split.
  { intros He. unfold getDirContent. rewrite Hg, He. done. }
  intros es name id Hc Hsz Hes room.
  apply Forall_app in Hes as [Hes Hlast]. apply Forall_cons in Hlast as [[Hn Hid] _].
  rewrite encode_last in Hc. rewrite Hc in Hg, Hsz.
  assert (room = zlen (closed (fields es ++ [name])) - 1) as Hroom
    by (subst room; rewrite Hc, zlen_app; lia).
  pose proof (getDirContent_scan s s' inum es name id Hg Hsz Hes Hn Hid) as E. rewrite <- Hroom in E.
  split; [done|]. intros Hle. rewrite E, take_short, stringToid_filename by done.
  unfold listing. by rewrite map_app.
Qed.
End Listing.

(** A directory with the one entry "f" (file 2147483649) lists it as inode 2. *)
Lemma getDirContent_spec_witness :
  exists s', getDirContent (demo_dir [Dirent (str "f") 2147483649]) 1 [] = Ok (s', [(str "f", 2)], OK).
Proof.
  destruct (getDirContent_spec 0 (demo_dir [Dirent (str "f") 2147483649]) 1) as (s' & _ & Hs).
  - done.
  - by vm_compute.
  - exists s'. cbn [ec_model local_service extents demo_dir] in Hs. rewrite lookup_singleton_eq in Hs.
    destruct Hs as [_ Hs]. destruct (Hs [] (str "f") 2147483649) as [E _].
    + done.
    + by vm_compute.
    + constructor; [|constructor]. split; [by apply (bool_decide_unpack _)|by vm_compute].
    + rewrite E. by vm_compute.
Defined.

(** ** File contents *)
Section Files.
Context `{ExtentService St}.

(** The content after a write. *)
Definition written (cont buf : bytes) (size off : Z) : bytes :=
  if zlen cont <=? off then cont ++ take (Z.to_nat size) buf
  else take (Z.to_nat off) cont ++ take (Z.to_nat size) buf ++ drop (Z.to_nat (off + size)) cont.

Lemma take_min {A} (l : list A) n m : zlen l <= m -> take (Z.to_nat (Z.min n m)) l = take (Z.to_nat n) l.
Proof.
  intros Hm. destruct (Z.le_ge_cases n m); [by rewrite Z.min_l|]. rewrite Z.min_r by done.
  rewrite !take_ge; [done| |]; unfold zlen in *; lia.
Qed.
Lemma drop_min {A} (l : list A) p n :
  0 <= p -> 0 <= n -> drop (Z.to_nat (p + Z.min n (zlen l))) l = drop (Z.to_nat (p + n)) l.
Proof.
  intros Hp Hn. destruct (Z.le_ge_cases n (zlen l)); [by rewrite Z.min_l|]. rewrite Z.min_r by done.
  rewrite !drop_ge; [done| |]; unfold zlen in *; lia.
Qed.

Lemma write_ok n s id buf size off e :
  ec_ready (S (S n)) s -> is_u64 id -> ec_model s !! id = Some e -> zlen (content e) < 2 ^ 31 ->
  0 <= size < 2 ^ 31 -> 0 <= off < 2 ^ 31 -> zlen (written (content e) buf size off) <= maxextent ->
  exists s' t, write s id buf size off = Ok (s', OK) /\ ec_ready n s' /\
    ec_model s' = <[id := ExtentInfo (Attr t t t (zlen (written (content e) buf size off)))
                            (written (content e) buf size off)]> (ec_model s).
Proof.
  intros Hr Hi He Hsz Hsize Hoff Hmax.
  destruct (ec_get_some _ s id e Hr Hi He) as (s1 & Hg & Hr1 & Hm1).
  destruct (ec_put_small _ s1 id _ Hr1 Hi Hmax) as (s2 & t & Hp & Hr2 & Hm2).
  exists s2, t. rewrite <- Hm1. split; [|done].
  unfold write. rewrite Hg. cbn [mbind outcome_bind OK Z.eqb negb].
  pose proof (zlen_nonneg buf). pose proof (zlen_nonneg (content e)).
  rewrite i32_small, !u64_small by (unfold is_i32, is_u64; lia).
  unfold string_substr. rewrite (proj2 (Z.ltb_ge _ _)) by lia. cbn [mbind outcome_bind].
  change (drop (Z.to_nat 0) buf) with buf. rewrite take_min by lia.
  unfold written in Hp. destruct (Z.leb_spec (zlen (content e)) off).
  - cbn [mbind outcome_bind]. rewrite Hp. done.
  - unfold string_replace. rewrite (proj2 (Z.ltb_ge _ _)), drop_min by lia.
    cbn [mbind outcome_bind]. rewrite Hp. done.
Qed.

Lemma read_ok n s id size off e :
  ec_ready (S n) s -> is_u64 id -> ec_model s !! id = Some e -> 0 <= off -> 0 <= size ->
  exists s', read s id size off [] =
    Ok (s', take (Z.to_nat size) (drop (Z.to_nat off) (content e)), OK) /\
    ec_ready n s' /\ ec_model s' = ec_model s.
Proof.
  intros Hr Hi He Hoff Hsize. destruct (ec_get_some _ s id e Hr Hi He) as (s1 & Hg & Hr1 & Hm1).
  exists s1. split; [|done]. unfold read. rewrite Hg. cbn [mbind outcome_bind OK Z.eqb negb].
  rewrite (proj2 (Z.ltb_ge _ _)) by lia. destruct (Z.leb_spec (zlen (content e)) off).
  - rewrite drop_ge by (unfold zlen in *; lia). by rewrite take_nil.
  - unfold string_substr. rewrite (proj2 (Z.ltb_ge _ _)) by lia. cbn [mbind outcome_bind].
    rewrite take_min; [done|]. unfold zlen. rewrite length_drop. lia.
Qed.

Lemma written_read cont buf size off :
  0 <= off <= zlen cont -> size = zlen buf ->
  take (Z.to_nat size) (drop (Z.to_nat off) (written cont buf size off)) = buf.
Proof.
  intros Hoff ->. unfold written. rewrite (take_ge buf) by (unfold zlen; lia).
  destruct (Z.leb_spec (zlen cont) off).
  - replace (Z.to_nat off) with (length cont) by (unfold zlen in *; lia). rewrite drop_app_length.
    apply take_ge. unfold zlen. lia.
  - assert (length (take (Z.to_nat off) cont) = Z.to_nat off) as Hl by (rewrite length_take; unfold zlen in *; lia).
    rewrite drop_app_length' by done. replace (Z.to_nat (zlen buf)) with (length buf) by (unfold zlen; lia).
    apply take_app_length.
Qed.

(** C14. What is written is read back. A write of a whole buffer at an offset
    inside the file, or right at its end, succeeds if the file still fits an
    extent; reading the same range then returns exactly the buffer, the bytes
    before and after the range are what they were, the recorded size is the
    new length, and no other extent changes. *)
Theorem write_then_read n s id buf off e :
  ec_ready (S (S (S n))) s -> is_u64 id -> ec_model s !! id = Some e -> zlen (content e) < 2 ^ 31 ->
  0 <= off <= zlen (content e) -> zlen buf < 2 ^ 31 -> off < 2 ^ 31 ->
  zlen (written (content e) buf (zlen buf) off) <= maxextent ->
  exists s' s'' e', write s id buf (zlen buf) off = Ok (s', OK) /\
    read s' id (zlen buf) off [] = Ok (s'', buf, OK) /\
    ec_model s' !! id = Some e' /\ a_size (eAttr e') = zlen (content e') /\
    take (Z.to_nat off) (content e') = take (Z.to_nat off) (content e) /\
    drop (Z.to_nat (off + zlen buf)) (content e') = drop (Z.to_nat (off + zlen buf)) (content e) /\
    (forall id', id' <> id -> ec_model s' !! id' = ec_model s !! id').
Proof.
  intros Hr Hi He Hsz Hoff Hbuf Hoff31 Hmax. pose proof (zlen_nonneg buf).
  destruct (write_ok (S n) s id buf (zlen buf) off e) as (s' & t & Ew & Hr' & Hm); try done; try lia.
  set (w := written (content e) buf (zlen buf) off) in *.
  assert (ec_model s' !! id = Some (ExtentInfo (Attr t t t (zlen w)) w)) as Hl.
  { by rewrite Hm, lookup_insert, decide_True. }
  destruct (read_ok n s' id (zlen buf) off _ Hr' Hi Hl) as (s'' & Er & _); [lia|lia|].
  cbn [content] in Er. unfold w in Er. rewrite written_read in Er by done.
  eexists s', s'', _. split; [done|]. split; [done|]. split; [done|]. split; [done|]. cbn [content].
  assert (zlen (content e) = Z.of_nat (length (content e))) by done.
  assert (zlen buf = Z.of_nat (length buf)) by done. split_and!.
  - unfold w, written. destruct (Z.leb_spec (zlen (content e)) off).
    + by rewrite take_app_le by lia.
    + rewrite take_app_le by (rewrite length_take; lia). rewrite take_take. f_equal. lia.
  - unfold w, written. rewrite (take_ge buf) by lia. destruct (Z.leb_spec (zlen (content e)) off).
    + rewrite !drop_ge; [done|lia|rewrite length_app; lia].
    + rewrite (assoc_L (++)). rewrite drop_app_length'; [done|].
      rewrite length_app, length_take. lia.
  - intros id' Hne. by rewrite Hm, lookup_insert, decide_False by congruence.
Qed.

(** A write past the end of the file goes to the wrong place: it is appended
    right after the old content, with no gap, so the data is found at the old
    end of the file and a read at the offset it was written to returns
    something shorter. *)
Theorem write_past_end_is_appended n s id buf off e :
  ec_ready (S (S (S n))) s -> is_u64 id -> ec_model s !! id = Some e ->
  zlen (content e) < off < 2 ^ 31 -> buf <> [] -> zlen (content e ++ buf) <= maxextent ->
  exists s' s'' s3 short, write s id buf (zlen buf) off = Ok (s', OK) /\
    content <$> ec_model s' !! id = Some (content e ++ buf) /\
    read s' id (zlen buf) (zlen (content e)) [] = Ok (s'', buf, OK) /\
    read s' id (zlen buf) off [] = Ok (s3, short, OK) /\ zlen short < zlen buf.
Proof.
  intros Hr Hi He Hoff Hne Hmax. pose proof (zlen_nonneg (content e)). pose proof (zlen_nonneg buf).
  assert (zlen buf = Z.of_nat (length buf)) as Hb by done.
  assert (written (content e) buf (zlen buf) off = content e ++ buf) as Hw.
  { unfold written. rewrite (proj2 (Z.leb_le _ _)) by lia. by rewrite (take_ge buf) by lia. }
  rewrite zlen_app in Hmax. unfold maxextent in Hmax.
  destruct (write_ok (S n) s id buf (zlen buf) off e) as (s' & t & Ew & Hr' & Hm); try done; try lia.
  { rewrite Hw, zlen_app. unfold maxextent. lia. }
  rewrite Hw in Hm.
  assert (ec_model s' !! id = Some (ExtentInfo (Attr t t t (zlen (content e ++ buf))) (content e ++ buf))) as Hl.
  { by rewrite Hm, lookup_insert, decide_True. }
  destruct (read_ok n s' id (zlen buf) (zlen (content e)) _ Hr' Hi Hl) as (s'' & Er & _); [lia|lia|].
  destruct (read_ok n s' id (zlen buf) off _ Hr' Hi Hl) as (s3 & Er3 & _); [lia|lia|].
  eexists s', s'', s3, _. split; [done|]. split; [by rewrite Hl|]. split.
  - rewrite Er. cbn [content]. unfold zlen. rewrite !Nat2Z.id, drop_app_length. by rewrite take_ge.
  - split; [exact Er3|]. cbn [content]. unfold zlen in *. rewrite length_take, length_drop, length_app.
    destruct buf; [done|]. cbn [length] in *. lia.
Qed.

(** Changing a file's size. [setattr] cuts the content off or pads it with NUL
    bytes to the new size (taken modulo 2^32), if the service can carry that
    much, and [getfile] then reports that size; on a missing file it is IOERR and nothing changes. *)
Theorem setattr_resizes n s id fin :
  ec_ready (S (S n)) s -> is_u64 id -> u32 (f_size fin) <= ec_limit ->
  (forall i e, ec_model s !! i = Some e -> a_size (eAttr e) = zlen (content e)) ->
  exists s', match ec_model s !! id with
  | None => setattr s id fin = Ok (s', IOERR) /\ ec_model s' = ec_model s
  | Some e =>
      setattr s id fin = Ok (s', OK) /\
      content <$> ec_model s' !! id = Some (string_resize (content e) (u32 (f_size fin))) /\
      (forall i, i <> id -> ec_model s' !! i = ec_model s !! i) /\
      forall fin0, exists s'' f, getfile s' id fin0 = Ok (s'', f, OK) /\ f_size f = u32 (f_size fin)
  end.
Proof.
  intros Hr Hi Hlim Hok. pose proof (u32_range (f_size fin)) as Hu.
  destruct (ec_setattr_law (S n) s id (Attr 0 0 0 (u32 (f_size fin))) Hr Hi) as (s' & Hr' & Hs).
  { repeat split; cbn; try lia; apply Hu. } { done. }
  exists s'. unfold setattr. destruct (ec_model s !! id) as [e|] eqn:He.
  - destruct Hs as (-> & at' & Hsz & Hm). cbn in Hsz, Hm. split; [done|].
    assert (string_resize (content e) (u32 (f_size fin)) =
      if u32 (f_size fin) =? a_size (eAttr e) then content e
      else string_resize (content e) (u32 (f_size fin))) as Hres.
    { destruct (Z.eqb_spec (u32 (f_size fin)) (a_size (eAttr e))) as [->|]; [|done].
      rewrite (Hok id e He). unfold string_resize, zlen. rewrite Nat2Z.id, firstn_all, Nat.sub_diag.
      by rewrite app_nil_r. }
    assert (ec_model s' !! id = Some (ExtentInfo at' (string_resize (content e) (u32 (f_size fin))))) as Hl.
    { by rewrite Hm, lookup_insert, decide_True, <- Hres. }
    split; [by rewrite Hl|]. split.
    + intros i Hne. by rewrite Hm, lookup_insert, decide_False.
    + intros fin0. destruct (ec_getattr_law n s' id attr_junk Hr' Hi) as (s'' & _ & _ & Hg).
      rewrite Hl in Hg. eexists s'', _. unfold getfile. rewrite Hg. split; [done|]. done.
  - destruct Hs as (-> & Hm). done.
Qed.
End Files.

(** File 2147483649 with the content "hello". *)
Definition demo_file : extent_server :=
  ExtentServer {[2147483649 := ExtentInfo (Attr 0 0 0 5) (str "hello")]} 100.

Lemma write_then_read_witness :
  exists s' s'' e', write demo_file 2147483649 (str "y!") 2 4 = Ok (s', OK) /\
    read s' 2147483649 2 4 [] = Ok (s'', str "y!", OK) /\
    extents s' !! 2147483649 = Some e' /\ take 4 (content e') = str "hell".
Proof.
  destruct (write_then_read 0 demo_file 2147483649 (str "y!") 4 (ExtentInfo (Attr 0 0 0 5) (str "hello")))
    as (s' & s'' & e' & H1 & H2 & H3 & _ & H4 & _); try done.
  exists s', s'', e'. split; [exact H1|]. split; [exact H2|]. split; [exact H3|exact H4].
Defined.

Lemma write_past_end_is_appended_witness :
  exists s', write demo_file 2147483649 (str "!") 1 9 = Ok (s', OK) /\
    content <$> extents s' !! 2147483649 = Some (str "hello!").
Proof.
  destruct (write_past_end_is_appended 0 demo_file 2147483649 (str "!") 9 (ExtentInfo (Attr 0 0 0 5) (str "hello")))
    as (s' & s'' & s3 & short & H1 & H2 & _); try done.
  exists s'. split; [exact H1|exact H2].
Defined.

Lemma setattr_resizes_witness :
  exists s', setattr demo_file 2147483649 (Fileinfo 7 0 0 0) = Ok (s', OK) /\
    content <$> extents s' !! 2147483649 = Some (str "hello" ++ [0; 0]).
Proof.
  destruct (setattr_resizes 0 demo_file 2147483649 (Fileinfo 7 0 0 0)) as (s' & Hs).
  - done.
  - by vm_compute.
  - by vm_compute.
  - intros i e. cbn [ec_model local_service extents demo_file]. intros Hi.
    apply lookup_singleton_Some in Hi as [_ <-]. done.
  - exists s'. cbn [ec_model local_service extents demo_file] in Hs. rewrite lookup_singleton_eq in Hs.
    destruct Hs as (H1 & H2 & _). split; [exact H1|exact H2].
Defined.
