(* ===== verification/Concurrent.v ===== *)
(** * Two clients creating files in one directory

    [yfs_client::create] split at its calls of the extent service, where the
    calls of another client's [create] may come in between: the file system
    client takes no lock. Each creator writes back the directory it read with
    its own entry appended, so creators that overlap lose an entry. *)

From S2P Require Import Prelude Strings ExtentServer YfsClient.
Local Open Scope Z_scope.

(** Where a call of [create] stands: before its [ec->get], before the [ec->put]
    of the new file, before the [ec->put] of the directory, or returned. *)
Inductive create_pc :=
  | Cr_get
  | Cr_file (dirContent : bytes)
  | Cr_dir (dirContent : bytes)
  | Cr_ret (r : Z).

(** The directory's new content: what is in front of the second [ec->put]. *)
Definition append_entry (dirContent : bytes) (inum : Z) (name : bytes) : bytes :=
  let dirContent := if bool_decide (dirContent = []) then dirContent else dirContent ++ [colon] in
  dirContent ++ name ++ [colon] ++ filename inum.

Section Steps.
Context `{ExtentService St}.

(** One call of the extent service and the code up to the next. *)
Definition create_step (s : St) (parentID inum : Z) (name : bytes) (pc : create_pc) : outcome (St * create_pc) :=
  match pc with
  | Cr_get =>
      '(s, dirContent, st) ← ec_get s parentID [];
      Ok (s, if negb (st =? OK) then Cr_ret IOERR
             else if isfile inum then Cr_file dirContent else Cr_dir dirContent)
  | Cr_file dirContent =>
      '(s, st) ← ec_put s inum [];
      Ok (s, if negb (st =? OK) then Cr_ret IOERR else Cr_dir dirContent)
  | Cr_dir dirContent =>
      '(s, st) ← ec_put s parentID (append_entry dirContent inum name);
      Ok (s, Cr_ret (if negb (st =? OK) then IOERR else OK))
  | Cr_ret r => Ok (s, Cr_ret r)
  end.

(** The two halves of a pair by the name of a creator. *)
Definition pick {A} (b : bool) (p : A * A) : A := if b then p.1 else p.2.
Definition set {A} (b : bool) (x : A) (p : A * A) : A * A := if b then (x, p.2) else (p.1, x).

(** Two creators in one directory; the schedule says whose step comes next. *)
Fixpoint creators (parentID : Z) (new : dirent * dirent) (sched : list bool) (s : St)
    (pcs : create_pc * create_pc) : outcome (St * (create_pc * create_pc)) :=
  match sched with
  | [] => Ok (s, pcs)
  | b :: sched =>
      '(s, pc) ← create_step s parentID (e_inum (pick b new)) (e_name (pick b new)) (pick b pcs);
      creators parentID new sched s (set b pc pcs)
  end.
End Steps.

(** ** What two creators do to the entries of the directory *)
Inductive entries_pc :=
  | En_get
  | En_file (es : list dirent)
  | En_dir (es : list dirent)
  | En_done.

Definition entries_step (e : dirent) (dir : list dirent) (pc : entries_pc) : list dirent * entries_pc :=
  match pc with
  | En_get => (dir, En_file dir)
  | En_file es => (dir, En_dir es)
  | En_dir es => (es ++ [e], En_done)
  | En_done => (dir, En_done)
  end.

Fixpoint entries_run (new : dirent * dirent) (sched : list bool) (dir : list dirent)
    (pcs : entries_pc * entries_pc) : list dirent * (entries_pc * entries_pc) :=
  match sched with
  | [] => (dir, pcs)
  | b :: sched =>
      let '(dir, pc) := entries_step (pick b new) dir (pick b pcs) in
      entries_run new sched dir (set b pc pcs)
  end.

(** The steps a creator has left. *)
Definition todo (pc : entries_pc) : nat :=
  match pc with En_get => 3 | En_file _ => 2 | En_dir _ => 1 | En_done => 0 end.
Definition turns (b : bool) (sched : list bool) : nat := length (filter (b =.) sched).

(** One creator is done before the other begins. *)
Fixpoint leading (b : bool) (sched : list bool) : nat :=
  match sched with
  | [] => 0
  | c :: sched => if eqb b c then S (leading b sched) else 0
  end.
Definition one_after_the_other (sched : list bool) : bool :=
  (3 <=? leading true sched)%nat || (3 <=? leading false sched)%nat.

Lemma pick_set {A} b (x : A) p : pick b (set b x p) = x.
Proof. by destruct b. Qed.
Lemma pick_set_other {A} b (x : A) p : pick (negb b) (set b x p) = pick (negb b) p.
Proof. by destruct b. Qed.
Lemma pick_set_negb {A} b (x : A) p : pick b (set (negb b) x p) = pick b p.
Proof. by destruct b. Qed.
Lemma turns_self b sched : turns b (b :: sched) = S (turns b sched).
Proof. unfold turns. by rewrite filter_cons_True. Qed.
Lemma turns_other b sched : turns b (negb b :: sched) = turns b sched.
Proof. unfold turns. rewrite filter_cons_False; [done|]. by destruct b. Qed.
Lemma turns_negb b sched : turns (negb b) (b :: sched) = turns (negb b) sched.
Proof. rewrite <- (negb_involutive b) at 2. apply turns_other. Qed.
Lemma leading_self b sched : leading b (b :: sched) = S (leading b sched).
Proof. cbn. by rewrite eqb_reflx. Qed.
Lemma leading_other b sched : leading b (negb b :: sched) = 0%nat.
Proof. by destruct b. Qed.

Lemma either (b c : bool) : c = b \/ c = negb b.
Proof. destruct b, c; auto. Qed.

Create Rewrite HintDb creators.
#[local] Hint Rewrite @pick_set @pick_set_other @pick_set_negb turns_self turns_other turns_negb leading_self
  leading_other negb_involutive : creators.
Ltac creators := autorewrite with creators in *; try done; try lia.

(** The entries a creator has yet to write back extended. *)
Definition view (dir : list dirent) (pc : entries_pc) : list dirent :=
  match pc with En_file es | En_dir es => es | _ => dir end.
Definition has_read (pc : entries_pc) : Prop := todo pc = 1%nat \/ todo pc = 2%nat.

Section Entries.
Variable new : dirent * dirent.

Lemma run_both_done sched dir pcs b :
  pick b pcs = En_done -> pick (negb b) pcs = En_done ->
  entries_run new sched dir pcs = (dir, (En_done, En_done)).
Proof.
  revert pcs. induction sched as [|c sched IH]; intros [p q] Hb Hn.
  - destruct b; cbn in *; congruence.
  - assert (p = En_done /\ q = En_done) as [-> ->] by (by destruct b).
    by destruct c, b; cbn; apply IH.
Qed.

(** With the other creator done, this one's write decides. *)
Lemma run_other_done b sched dir pcs :
  pick (negb b) pcs = En_done -> pick b pcs <> En_done -> (todo (pick b pcs) <= turns b sched)%nat ->
  entries_run new sched dir pcs = (view dir (pick b pcs) ++ [pick b new], (En_done, En_done)).
Proof.
  revert dir pcs. induction sched as [|c sched IH]; intros dir pcs Hn Hb Ht.
  { destruct (pick b pcs); cbn in Ht; by try lia. }
  cbn [entries_run]. destruct (either b c) as [-> | ->].
  - creators. destruct (pick b pcs) eqn:E; cbn [entries_step todo view] in *; [..|done].
    1,2: rewrite IH; creators; cbn; lia.
    apply (run_both_done _ _ _ b); creators.
  - creators. rewrite Hn. cbn [entries_step]. rewrite IH; creators.
Qed.

(** Creators that have both read the directory: the later write wins. *)
Lemma run_overlap sched dir es pcs :
  (forall b, has_read (pick b pcs) /\ view dir (pick b pcs) = es /\ (todo (pick b pcs) <= turns b sched)%nat) ->
  exists b, entries_run new sched dir pcs = (es ++ [pick b new], (En_done, En_done)).
Proof.
  revert dir pcs. induction sched as [|c sched IH]; intros dir pcs Hp.
  { destruct (Hp true) as (Hr & _ & Ht). unfold has_read in Hr. change (turns true []) with 0%nat in Ht. lia. }
  cbn [entries_run]. destruct (Hp c) as (Hr & Hv & Ht), (Hp (negb c)) as (Hr' & Hv' & Ht').
  unfold has_read in Hr, Hr'. destruct (pick c pcs) as [|v|v|] eqn:E; cbn [todo view entries_step] in *; try lia.
  - apply IH. intros d. destruct (either c d) as [-> | ->]; creators.
    split; [by left|]. split; [done|]. cbn. lia.
  - exists (negb c). rewrite (run_other_done (negb c)); creators.
    + do 2 f_equal. subst es. by destruct (pick (negb c) pcs); cbn in *; try lia.
    + intros Hd. rewrite Hd in Hr'. cbn in Hr'. lia.
Qed.

(** One creator has read the directory, the other has not begun. *)
Lemma run_one_ahead b sched dir pcs :
  has_read (pick b pcs) -> view dir (pick b pcs) = dir -> pick (negb b) pcs = En_get ->
  (todo (pick b pcs) <= turns b sched)%nat -> (3 <= turns (negb b) sched)%nat ->
  if (todo (pick b pcs) <=? leading b sched)%nat
  then entries_run new sched dir pcs = (dir ++ [pick b new; pick (negb b) new], (En_done, En_done))
  else exists c, entries_run new sched dir pcs = (dir ++ [pick c new], (En_done, En_done)).
Proof.
  revert pcs. induction sched as [|c sched IH]; intros pcs Hr Hv Hn Ht Ht'; [cbn in Ht'; lia|].
  cbn [entries_run]. unfold has_read in Hr. destruct (either b c) as [-> | ->].
  - creators. destruct (pick b pcs) as [|v|v|] eqn:E; cbn [todo view entries_step] in *; try lia; subst v.
    + specialize (IH (set b (En_dir dir) pcs)). creators. apply IH; creators; [by left|cbn; lia].
    + cbn [Nat.leb]. rewrite (run_other_done (negb b)); creators.
      * rewrite Hn. cbn [view]. by rewrite <- (assoc_L (++)).
      * by rewrite Hn.
      * by rewrite Hn.
  - creators. rewrite Hn. cbn [entries_step]. rewrite (proj2 (Nat.leb_gt _ _)) by lia.
    apply run_overlap. intros d. destruct (either b d) as [-> | ->]; creators.
    split; [by right|]. split; [done|]. cbn. lia.
Qed.

(** Both entries are there exactly if the creators did not overlap. *)
Lemma entries_run_spec sched dir :
  (3 <= turns true sched)%nat -> (3 <= turns false sched)%nat ->
  exists b, entries_run new sched dir (En_get, En_get) =
    (dir ++ (if one_after_the_other sched then [pick b new; pick (negb b) new] else [pick b new]),
     (En_done, En_done)) /\
    (one_after_the_other sched = true -> head sched = Some b).
Proof.
  destruct sched as [|b sched]; [cbn; lia|]. intros Ht Hf.
  assert (one_after_the_other (b :: sched) = (2 <=? leading b sched)%nat) as ->.
  { unfold one_after_the_other. by destruct b; cbn; rewrite ?orb_false_r. }
  assert (forall c, 3 <= turns c (b :: sched))%nat as Hc by (by intros []).
  pose proof (Hc b). pose proof (Hc (negb b)).
  creators. pose proof (run_one_ahead b sched dir (set b (En_file dir) (En_get, En_get))) as Hrun. creators.
  replace (entries_run new (b :: sched) dir (En_get, En_get))
    with (entries_run new sched dir (set b (En_file dir) (En_get, En_get))) by (by destruct b).
  cbn [todo view] in Hrun. destruct (2 <=? leading b sched)%nat.
  - exists b. split; [|done]. apply Hrun; first [done|by right|lia|by destruct b].
  - destruct Hrun as [c Hrc]; first [by exists c|done|by right|lia|by destruct b].
Qed.
End Entries.

(** ** The creators refine the entries machine *)
Definition concrete (pc : entries_pc) : create_pc :=
  match pc with
  | En_get => Cr_get
  | En_file es => Cr_file (encode es)
  | En_dir es => Cr_dir (encode es)
  | En_done => Cr_ret OK
  end.

(** What an entry adds to a directory, at most. *)
Definition cost (e : dirent) : Z := zlen (e_name e) + 2 + zlen (filename (e_inum e)).

Lemma append_entry_encode es e : append_entry (encode es) (e_inum e) (e_name e) = encode (es ++ [e]).
Proof. symmetry. apply encode_snoc. Qed.

Lemma encode_cost es e : zlen (encode (es ++ [e])) <= zlen (encode es) + cost e.
Proof. rewrite encode_snoc. unfold cost. case_bool_decide; autorewrite with zlen; unfold zlen; cbn; lia. Qed.

Lemma cost_nonneg e : 0 <= cost e.
Proof. unfold cost, zlen. lia. Qed.

Section Refinement.
Context `{ExtentService St}.
Variables (parent : Z) (new : dirent * dirent) (m0 : gmap Z extentInfo).
Hypothesis parent_u64 : is_u64 parent.
Hypothesis new_files : forall b, is_u64 (e_inum (pick b new)) /\ isfile (e_inum (pick b new)) = true /\
  e_inum (pick b new) <> parent.

(** The room the creators still need, and their steps. *)
Definition needs (b : bool) (pc : entries_pc) : Z := if (todo pc =? 0)%nat then 0 else cost (pick b new).
Definition spare (pcs : entries_pc * entries_pc) : Z := needs true pcs.1 + needs false pcs.2.
Definition left (pcs : entries_pc * entries_pc) : nat := todo pcs.1 + todo pcs.2.

Lemma spare_set b pc pcs : spare (set b pc pcs) = spare pcs - needs b (pick b pcs) + needs b pc.
Proof. unfold spare. destruct b; cbn; lia. Qed.
Lemma spare_nonneg pcs : 0 <= spare pcs.
Proof.
  unfold spare, needs. pose proof (cost_nonneg new.1). pose proof (cost_nonneg new.2).
  cbn. repeat case_match; lia.
Qed.
Lemma left_set b pc pcs : todo (pick b pcs) = S (todo pc) -> left pcs = S (left (set b pc pcs)).
Proof. unfold left. destruct b; cbn; lia. Qed.

Record holds (s : St) (dir : list dirent) (pcs : entries_pc * entries_pc) : Prop := {
  h_ready : ec_ready (left pcs) s;
  h_dir : content <$> ec_model s !! parent = Some (encode dir);
  h_room b : zlen (encode (view dir (pick b pcs))) + spare pcs <= maxextent;
  h_files b : (todo (pick b pcs) <= 1)%nat -> content <$> ec_model s !! e_inum (pick b new) = Some [];
  h_frame id : id <> parent -> (forall b, id <> e_inum (pick b new)) -> ec_model s !! id = m0 !! id }.

Definition step_ok (s : St) (dir : list dirent) (pcs : entries_pc * entries_pc) (b : bool) : Prop :=
  let '(dir', pc) := entries_step (pick b new) dir (pick b pcs) in
  exists s', create_step s parent (e_inum (pick b new)) (e_name (pick b new)) (concrete (pick b pcs))
               = Ok (s', concrete pc) /\ holds s' dir' (set b pc pcs).

Lemma get_refines s dir pcs b : holds s dir pcs -> pick b pcs = En_get -> step_ok s dir pcs b.
Proof.
  intros [Hr Hd Hm Hf Hfr] E. unfold step_ok. rewrite E. cbn [entries_step concrete create_step].
  rewrite (left_set b (En_file dir)) in Hr by (by rewrite E).
  apply fmap_Some in Hd as (e & He & Hc).
  destruct (ec_get_some _ _ _ _ Hr parent_u64 He) as (s' & -> & Hr' & Hmod).
  destruct (new_files b) as (_ & Hfile & _). exists s'. cbn [mbind outcome_bind]. rewrite Hfile, <- Hc.
  split; [done|]. constructor; rewrite ?Hmod; [done|by rewrite He, Hc| | |done].
  - intros c. rewrite spare_set, E. specialize (Hm c). unfold needs. cbn.
    destruct (either b c) as [-> | ->]; creators. rewrite E in Hm. cbn in *. lia.
  - intros c. destruct (either b c) as [-> | ->]; creators; [cbn; lia|apply Hf].
Qed.

Lemma file_refines s dir pcs b es : holds s dir pcs -> pick b pcs = En_file es -> step_ok s dir pcs b.
Proof.
  intros [Hr Hd Hm Hf Hfr] E. unfold step_ok. rewrite E. cbn [entries_step concrete create_step].
  rewrite (left_set b (En_dir es)) in Hr by (by rewrite E). destruct (new_files b) as (Hi & _ & Hne).
  destruct (ec_put_small _ _ _ [] Hr Hi) as (s' & t & -> & Hr' & Hmod); [done|].
  exists s'. split; [done|]. constructor; rewrite ?Hmod; [done|by rewrite lookup_insert_ne| | |].
  - intros c. rewrite spare_set, E. specialize (Hm c). unfold needs. cbn.
    destruct (either b c) as [-> | ->]; creators. rewrite E in Hm. cbn in *. lia.
  - intros c Hc. destruct (decide (e_inum (pick c new) = e_inum (pick b new))) as [->|Hcb].
    + by rewrite lookup_insert_eq.
    + rewrite lookup_insert_ne by done. apply Hf. destruct (either b c) as [-> | ->]; creators.
  - intros id Hid Hids. rewrite lookup_insert_ne by (by apply not_eq_sym). by apply Hfr.
Qed.

Lemma dir_refines s dir pcs b es : holds s dir pcs -> pick b pcs = En_dir es -> step_ok s dir pcs b.
Proof.
  intros [Hr Hd Hm Hf Hfr] E. unfold step_ok. rewrite E. cbn [entries_step concrete create_step].
  rewrite (left_set b En_done) in Hr by (by rewrite E). rewrite append_entry_encode.
  pose proof (Hm b) as Hmb. rewrite E in Hmb. cbn [view] in Hmb.
  pose proof (encode_cost es (pick b new)) as Hcost.
  pose proof (spare_set b En_done pcs) as Hsp. rewrite E in Hsp. unfold needs in Hsp. cbn [todo Nat.eqb] in Hsp.
  pose proof (spare_nonneg (set b En_done pcs)).
  destruct (ec_put_small _ _ _ (encode (es ++ [pick b new])) Hr parent_u64) as (s' & t & -> & Hr' & Hmod); [lia|].
  exists s'. split; [done|]. constructor; rewrite ?Hmod; [done|by rewrite lookup_insert_eq| | |].
  - intros c. destruct (either b c) as [-> | ->]; creators; [cbn [view]; lia|].
    specialize (Hm (negb b)). pose proof (cost_nonneg (pick b new)). destruct (pick (negb b) pcs); cbn [view] in *; lia.
  - intros c Hc. rewrite lookup_insert_ne by (apply not_eq_sym, (new_files c)). apply Hf.
    destruct (either b c) as [-> | ->]; creators. rewrite E. cbn. lia.
  - intros id Hid Hids. rewrite lookup_insert_ne by done. by apply Hfr.
Qed.

Lemma done_refines s dir pcs b : holds s dir pcs -> pick b pcs = En_done -> step_ok s dir pcs b.
Proof.
  intros Hh E. unfold step_ok. rewrite E. exists s. split; [done|].
  by replace (set b _ pcs) with pcs by (destruct pcs, b; cbn in *; congruence).
Qed.

Lemma run_refines sched s dir pcs :
  holds s dir pcs ->
  exists s', let '(dir', pcs') := entries_run new sched dir pcs in
    creators parent new sched s (concrete pcs.1, concrete pcs.2) = Ok (s', (concrete pcs'.1, concrete pcs'.2)) /\
    holds s' dir' pcs'.
Proof.
  revert s dir pcs. induction sched as [|b sched IH]; intros s dir pcs Hh; [by exists s|].
  assert (step_ok s dir pcs b) as Hstep.
  { destruct (pick b pcs) eqn:E; [eapply get_refines|eapply file_refines|eapply dir_refines|eapply done_refines]; done. }
  unfold step_ok in Hstep. cbn [entries_run creators].
  replace (pick b (concrete pcs.1, concrete pcs.2)) with (concrete (pick b pcs)) by (by destruct b).
  destruct (entries_step _ _ _) as [dir' pc]. destruct Hstep as (s' & -> & Hh').
  cbn [mbind outcome_bind]. destruct (IH _ _ _ Hh') as (s'' & Hrun). exists s''.
  by replace (set b (concrete pc) _) with (concrete (set b pc pcs).1, concrete (set b pc pcs).2) by (by destruct b).
Qed.
End Refinement.

Section Creators.
Context `{ExtentService St}.

(** Undisturbed, the steps are [create]: three of them always reach its return. *)
Theorem create_in_steps (s : St) parentID inum name :
  create s parentID inum name =
    ('(s, pc) ← create_step s parentID inum name Cr_get;
     '(s, pc) ← create_step s parentID inum name pc;
     '(s, pc) ← create_step s parentID inum name pc;
     match pc with Cr_ret r => Ok (s, r) | _ => Crash AssertFailed end).
Proof.
  unfold create. cbn [create_step]. destruct (ec_get s parentID []) as [[[s1 d] st]|]; [|done].
  cbn [mbind outcome_bind]. destruct (negb (st =? OK)); [done|].
  destruct (isfile inum); cbn [create_step mbind outcome_bind].
  - destruct (ec_put s1 inum []) as [[s2 st2]|]; [|done]. cbn [mbind outcome_bind].
    destruct (negb (st2 =? OK)); [done|]. cbn [create_step]. unfold append_entry.
    destruct (ec_put s2 parentID _) as [[s3 st3]|]; [|done]. cbn. by destruct (negb (st3 =? OK)).
  - unfold append_entry. destruct (ec_put s1 parentID _) as [[s3 st3]|]; [|done].
    cbn. by destruct (negb (st3 =? OK)).
Qed.

(** C30. Two clients that create a file each in one directory, their calls of the
    extent server interleaved in any order that lets both finish, both return
    OK, and both files are empty extents. If one began after the other had
    finished the directory has gained both entries in that order; in every other
    interleaving it has gained only one of them, and the other file is lost. No
    other extent changes. *)
Theorem concurrent_creates (s : St) parent es (new : dirent * dirent) sched :
  ec_ready 6 s -> is_u64 parent ->
  (forall b, is_u64 (e_inum (pick b new)) /\ isfile (e_inum (pick b new)) = true /\
             e_inum (pick b new) <> parent) ->
  content <$> ec_model s !! parent = Some (encode es) ->
  zlen (encode es) + cost new.1 + cost new.2 <= maxextent ->
  (3 <= turns true sched)%nat -> (3 <= turns false sched)%nat ->
  exists s' b, creators parent new sched s (Cr_get, Cr_get) = Ok (s', (Cr_ret OK, Cr_ret OK)) /\
    content <$> ec_model s' !! parent =
      Some (encode (es ++ (if one_after_the_other sched then [pick b new; pick (negb b) new]
                           else [pick b new]))) /\
    (one_after_the_other sched = true -> head sched = Some b) /\
    (forall c, content <$> ec_model s' !! e_inum (pick c new) = Some []) /\
    (forall id, id <> parent -> (forall c, id <> e_inum (pick c new)) -> ec_model s' !! id = ec_model s !! id).
Proof.
  intros Hr Hp Hn Hd Hsz Ht Hf.
  destruct (entries_run_spec new sched es Ht Hf) as (b & Hrun & Hhead).
  destruct (run_refines parent new (ec_model s) Hp Hn sched s es (En_get, En_get)) as (s' & Hs).
  { constructor; [done|done| | |done].
    - intros []; cbn [view pick fst snd]; unfold spare, needs; cbn [todo Nat.eqb fst snd pick]; lia.
    - intros []; cbn; lia. }
  rewrite Hrun in Hs. destruct Hs as [Hs [_ Hd' _ Hf' Hfr]]. exists s', b. split; [exact Hs|].
  split; [exact Hd'|]. split; [exact Hhead|]. split; [|exact Hfr]. intros c. apply Hf'. destruct c; cbn; lia.
Qed.
End Creators.

(** ** Witness: the directory of one entry and two clients that overlap *)
Definition demo_new : dirent * dirent := (Dirent (str "c") 2147483650, Dirent (str "d") 2147483651).
Definition overlapping : list bool := [true; false; true; true; false; false].

Lemma concurrent_creates_witness :
  exists s' b, creators 1 demo_new overlapping (demo_dir demo_es) (Cr_get, Cr_get)
      = Ok (s', (Cr_ret OK, Cr_ret OK)) /\
    content <$> extents s' !! 1 = Some (encode (demo_es ++ [pick b demo_new])).
Proof.
  destruct (concurrent_creates (demo_dir demo_es) 1 demo_es demo_new overlapping) as (s' & b & E & Hd & _).
  - exact I.
  - by vm_compute.
  - intros []; by vm_compute.
  - by vm_compute.
  - by vm_compute.
  - by vm_compute; lia.
  - by vm_compute; lia.
  - exists s', b. split; [exact E|exact Hd].
Defined.
