(* ===== verification/Fuse.v ===== *)
(** * The FUSE server: fuse.cc

    The handlers FUSE calls, over the file system client. A handler is a
    function from the state to the new state and the list of replies it sends
    (FUSE requires exactly one). What fuse_dirent_size and fuse_add_dirent
    write is a parameter; random() results are arguments. A field of a reply
    that the code never sets is [None]. *)

From S2P Require Import Prelude Strings ExtentServer YfsClient.
Local Open Scope Z_scope.

Definition ENOENT : Z := 2.
Definition ENOTDIR : Z := 20.
Definition ENOSYS : Z := 38.
Definition S_IFREG : Z := 32768.       (** 0100000 *)
Definition S_IFDIR : Z := 16384.       (** 0040000 *)
Definition FUSE_SET_ATTR_SIZE : Z := 8.  (** 1 << 3 *)

(** The fields of struct stat the code uses. *)
Record stat := Stat {
  st_ino : option Z; st_mode : option Z; st_nlink : option Z;
  st_atime : option Z; st_mtime : option Z; st_ctime : option Z; st_size : option Z }.
Definition stat_zero : stat :=
  Stat (Some 0) (Some 0) (Some 0) (Some 0) (Some 0) (Some 0) (Some 0).

(** struct fuse_entry_param *)
Record entry_param := Entry { e_ino : Z; e_attr : stat }.

Inductive reply :=
  | ReplyErr (errno : Z)
  | ReplyAttr (st : stat)
  | ReplyBuf (b : bytes)
  | ReplyWrite (size : Z)
  | ReplyCreate (e : entry_param)
  | ReplyEntry (e : entry_param)
  | ReplyOpen
  | ReplyStatfs (f_namemax f_bsize : Z).

(** A C string: the bytes up to the first NUL; without one, reading it leaves
    the buffer. *)
Fixpoint c_string (mem : bytes) : outcome bytes :=
  match mem with
  | [] => Crash OutOfBounds
  | c :: mem => if c =? 0 then Ok [] else s ← c_string mem; Ok (c :: s)
  end.

Section Handlers.
Context `{ExtentService St}.
(** Uninitialised structs. *)
Context (junk_file : fileinfo) (junk_dir : dirinfo).

Definition file_stat (ino : option Z) (info : fileinfo) : stat :=
  Stat ino (Some (Z.lor S_IFREG 438)) (Some 1)
    (Some (f_atime info)) (Some (f_mtime info)) (Some (f_ctime info)) (Some (f_size info)).
Definition dir_stat (ino : option Z) (info : dirinfo) (size : option Z) : stat :=
  Stat ino (Some (Z.lor S_IFDIR 511)) (Some 2)
    (Some (d_atime info)) (Some (d_mtime info)) (Some (d_ctime info)) size.

(** The helper [getattr]; [st] starts as zeroes. *)
Definition fs_getattr (s : St) (inum : Z) : outcome (St * stat * Z) :=
  if isfile inum then
    '(s, info, ret) ← getfile s inum junk_file;
    if negb (ret =? OK) then Ok (s, stat_zero, ret) else Ok (s, file_stat (Some inum) info, OK)
  else
    '(s, info, ret) ← getdir s inum junk_dir;
    if negb (ret =? OK) then Ok (s, stat_zero, ret) else Ok (s, dir_stat (Some inum) info (Some 0), OK).

Definition fuseserver_getattr (s : St) (ino : Z) : outcome (St * list reply) :=
  '(s, st, ret) ← fs_getattr s ino;
  if negb (ret =? OK) then Ok (s, [ReplyErr ENOENT]) else Ok (s, [ReplyAttr st]).

(** [size] is the [off_t] attr->st_size, stored in an [unsigned long long]. *)
Definition fuseserver_setattr (s : St) (ino size to_set : Z) : outcome (St * list reply) :=
  if negb (Z.land FUSE_SET_ATTR_SIZE to_set =? 0) then
    let info := Fileinfo (u64 size) (f_atime junk_file) (f_mtime junk_file) (f_ctime junk_file) in
    '(s, ret) ← setattr s ino info;
    if negb (ret =? OK) then Ok (s, [ReplyErr ENOSYS])
    else
      '(s, info, ret) ← getfile s ino info;
      if negb (ret =? OK) then Ok (s, [ReplyErr ENOSYS])
      else Ok (s, [ReplyAttr (file_stat None info)])
  else Ok (s, [ReplyErr ENOSYS]).

Definition fuseserver_read (s : St) (ino size off : Z) : outcome (St * list reply) :=
  '(s, retString, ret) ← read s ino size off [];
  if negb (ret =? OK) then Ok (s, [ReplyErr ENOSYS]) else Ok (s, [ReplyBuf retString]).

(** [buf] points to [size] bytes followed in memory by [after]; it is passed on
    as a C string. *)
Definition fuseserver_write (s : St) (ino : Z) (buf after : bytes) (size off : Z)
    : outcome (St * list reply) :=
  str ← c_string (buf ++ after);
  '(s, ret) ← write s ino str (i32 size) (i32 off);
  if negb (ret =? OK) then Ok (s, [ReplyErr ENOSYS]) else Ok (s, [ReplyWrite size]).

Definition fuseserver_createhelper (s : St) (parent : Z) (name : bytes) (random : Z)
    : outcome (St * option entry_param * Z) :=
  let fileID := Z.lor random (2 ^ 31) in
  '(s, ret) ← create s parent fileID name;
  if negb (ret =? OK) then Ok (s, None, ret)
  else
    '(s, info, ret) ← getfile s fileID junk_file;
    if negb (ret =? OK) then Ok (s, None, ret)
    else Ok (s, Some (Entry fileID (file_stat (Some fileID) info)), OK).

Definition fuseserver_create (s : St) (parent : Z) (name : bytes) (random : Z)
    : outcome (St * list reply) :=
  '(s, e, ret) ← fuseserver_createhelper s parent name random;
  match (if ret =? OK then e else None) with
  | Some e => Ok (s, [ReplyCreate e])
  | None => Ok (s, [ReplyErr ENOENT])
  end.

Definition fuseserver_mknod (s : St) (parent : Z) (name : bytes) (random : Z)
    : outcome (St * list reply) :=
  '(s, e, ret) ← fuseserver_createhelper s parent name random;
  match (if ret =? OK then e else None) with
  | Some e => Ok (s, [ReplyEntry e])
  | None => Ok (s, [ReplyErr ENOENT])
  end.

(** The entry is sent after the error too: there is no return between them. *)
Definition fuseserver_lookup (s : St) (parent : Z) (name : bytes) : outcome (St * list reply) :=
  '(s, inum) ← ilookup s parent name;
  if inum =? 0 then Ok (s, [ReplyErr ENOENT])
  else if isfile inum then
    '(s, info, ret) ← getfile s inum junk_file;
    let err := if negb (ret =? OK) then [ReplyErr ENOENT] else [] in
    Ok (s, err ++ [ReplyEntry (Entry inum (file_stat None info))])
  else
    '(s, info, ret) ← getdir s inum junk_dir;
    let err := if negb (ret =? OK) then [ReplyErr ENOENT] else [] in
    Ok (s, err ++ [ReplyEntry (Entry inum (dir_stat None info None))]).

(** [if (off < bufsize)] compares an [off_t] as a [size_t]. *)
Definition reply_buf_limited (buf : bytes) (off maxsize : Z) : reply :=
  if u64 off <? zlen buf
  then ReplyBuf (take (Z.to_nat (Z.min (zlen buf - u64 off) maxsize)) (drop (Z.to_nat (u64 off)) buf))
  else ReplyBuf [].

(** What fuse_add_dirent writes for a name, an inode and the offset of the next
    entry. *)
Context (dirent_bytes : bytes -> Z -> Z -> bytes) (fuse_dirent_size : Z -> Z).

Definition dirbuf_add (p : bytes) (name : bytes) (ino : Z) : bytes :=
  let size := zlen p + fuse_dirent_size (zlen name) in
  p ++ dirent_bytes name ino size.

(** The loop pops entries from the back of the vector. *)
Definition dirbuf_fill (dirContent : list (bytes * Z)) : outcome bytes :=
  foldr (fun output b => p ← b; name ← c_string (output.1 ++ [0]); Ok (dirbuf_add p name output.2))
    (Ok []) dirContent.

Definition fuseserver_readdir (s : St) (ino size off : Z) : outcome (St * list reply) :=
  if negb (isdir ino) then Ok (s, [ReplyErr ENOTDIR])
  else
    '(s, dirContent, ret) ← getDirContent s ino [];
    if negb (ret =? OK) then Ok (s, [])
    else b ← dirbuf_fill dirContent; Ok (s, [reply_buf_limited b off size]).

Definition fuseserver_open (s : St) (ino : Z) : outcome (St * list reply) :=
  Ok (s, (if isdir ino then [ReplyErr ENOSYS] else []) ++ [ReplyOpen]).

Definition fuseserver_mkdir (s : St) (parent : Z) (name : bytes) (random : Z)
    : outcome (St * list reply) :=
  let dirID := random in
  '(s, ret) ← create s parent dirID name;
  if negb (ret =? OK) then Ok (s, [ReplyErr ENOSYS])
  else
    '(s, info, ret) ← getfile s dirID junk_file;
    if negb (ret =? OK) then Ok (s, [ReplyErr ENOSYS])
    else
      let di := Dirinfo (f_atime info) (f_mtime info) (f_ctime info) in
      Ok (s, [ReplyEntry (Entry dirID (dir_stat (Some dirID) di None))]).

Definition fuseserver_unlink (s : St) (parent : Z) (name : bytes) : outcome (St * list reply) :=
  Ok (s, [ReplyErr ENOSYS]).

Definition fuseserver_statfs (s : St) : outcome (St * list reply) := Ok (s, [ReplyStatfs 255 512]).
End Handlers.

(** ** How often a handler replies *)
Section Replies.
Context `{ExtentService St}.
Context (jf : fileinfo) (jd : dirinfo) (db : bytes -> Z -> Z -> bytes) (ds : Z -> Z).

(** The calls of FUSE. *)
Inductive call :=
  | Getattr (ino : Z) | Setattr (ino size to_set : Z) | Read (ino size off : Z)
  | Write (ino : Z) (buf after : bytes) (size off : Z)
  | Create (parent : Z) (name : bytes) (random : Z) | Mknod (parent : Z) (name : bytes) (random : Z)
  | Lookup (parent : Z) (name : bytes) | Readdir (ino size off : Z) | Open (ino : Z)
  | Mkdir (parent : Z) (name : bytes) (random : Z) | Unlink (parent : Z) (name : bytes) | Statfs.

Definition handle (s : St) (c : call) : outcome (St * list reply) :=
  match c with
  | Getattr ino => fuseserver_getattr jf jd s ino
  | Setattr ino size to_set => fuseserver_setattr jf s ino size to_set
  | Read ino size off => fuseserver_read s ino size off
  | Write ino buf after size off => fuseserver_write s ino buf after size off
  | Create parent name random => fuseserver_create jf s parent name random
  | Mknod parent name random => fuseserver_mknod jf s parent name random
  | Lookup parent name => fuseserver_lookup jf jd s parent name
  | Readdir ino size off => fuseserver_readdir db ds s ino size off
  | Open ino => fuseserver_open s ino
  | Mkdir parent name random => fuseserver_mkdir jf s parent name random
  | Unlink parent name => fuseserver_unlink s parent name
  | Statfs => fuseserver_statfs s
  end.

(** The calls whose handlers always reply exactly once. *)
Definition disciplined (c : call) : bool :=
  match c with Lookup _ _ | Readdir _ _ _ => false | Open ino => isfile ino | _ => true end.

Ltac handler_cases :=
  repeat match goal with
  | H : mbind _ ?m = Ok _ |- _ => destruct m as [?|] eqn:?; cbn [mbind outcome_bind] in H; [|done]
  | H : context [match ?p with (_, _) => _ end] |- _ => is_var p; destruct p
  | H : (if ?b then _ else _) = Ok _ |- _ => destruct b eqn:?
  | H : Ok _ = Ok _ |- _ => injection H as <- <-
  | H : match ?o with Some _ => _ | None => _ end = Ok _ |- _ => destruct o eqn:?
  end.

(** Reply discipline. Whatever the state and the arguments, if the handler
    does not crash: every handler but lookup, readdir and open of a directory
    sends exactly one reply, as FUSE requires; lookup sends one or two, readdir
    none or one, and open of a directory always two (an error and a success). *)
Theorem reply_counts s c s' rs :
  handle s c = Ok (s', rs) ->
  (disciplined c = true -> length rs = 1%nat) /\
  match c with
  | Lookup _ _ => (1 <= length rs <= 2)%nat
  | Readdir _ _ _ => (length rs <= 1)%nat
  | Open ino => length rs = if isdir ino then 2%nat else 1%nat
  | _ => True
  end.
Proof.
  intros Hh. destruct c; cbn [handle disciplined] in *;
    unfold fuseserver_getattr, fuseserver_setattr, fuseserver_read, fuseserver_write, fuseserver_create,
      fuseserver_mknod, fuseserver_lookup, fuseserver_readdir, fuseserver_open, fuseserver_mkdir,
      fuseserver_unlink, fuseserver_statfs in Hh; handler_cases; cbn; try (split; [done|lia]); try done.
  - destruct (negb _); (split; [done|cbn; lia]).
  - destruct (negb _); (split; [done|cbn; lia]).
  - unfold isdir. by destruct (isfile ino).
Qed.
End Replies.

(** Opening a directory. *)
Lemma reply_counts_witness :
  exists s' rs, handle (Fileinfo 0 0 0 0) (Dirinfo 0 0 0) (fun _ _ _ => []) (fun _ => 0)
      (extent_server_new 100) (Open 1) = Ok (s', rs) /\ length rs = 2%nat.
Proof.
  eexists _, _. split; [reflexivity|].
  eapply (reply_counts (Fileinfo 0 0 0 0) (Dirinfo 0 0 0) (fun _ _ _ => []) (fun _ => 0)
    (extent_server_new 100) (Open 1)). reflexivity.
Defined.

(** ** Creating and looking up *)
Section CreateLookup.
Context `{ExtentService St}.
Context (jf : fileinfo) (jd : dirinfo).

Lemma random_file_id random : 0 <= random < 2 ^ 31 ->
  isfile (Z.lor random (2 ^ 31)) = true /\ is_u64 (Z.lor random (2 ^ 31)) /\ 2 ^ 31 <= Z.lor random (2 ^ 31).
Proof.
  intros Hr. assert (Z.lor random (2 ^ 31) = 2 ^ 31 + random) as ->.
  { rewrite Z.lor_comm. apply (lor_add 1 random 31); lia. }
  split; [|unfold is_u64; lia]. unfold isfile. apply negb_true_iff, Z.eqb_neq. intros E.
  assert (Z.testbit (Z.land (2 ^ 31 + random) (2 ^ 31)) 31 = true) as Hbit.
  { rewrite Z.land_spec, Z.pow2_bits_true by lia. rewrite andb_true_r.
    rewrite Z.testbit_true by lia.
    replace ((2 ^ 31 + random) / 2 ^ 31) with 1 by (Z.div_mod_to_equations; lia). done. }
  rewrite E in Hbit. done.
Qed.

Lemma getfile_some n s inum fin e :
  ec_ready (S n) s -> is_u64 inum -> ec_model s !! inum = Some e ->
  exists s', getfile s inum fin = Ok (s', Fileinfo (a_size (eAttr e)) (a_atime (eAttr e))
      (a_mtime (eAttr e)) (a_ctime (eAttr e)), OK) /\ ec_ready n s' /\ ec_model s' = ec_model s.
Proof.
  intros Hr Hi He. destruct (ec_getattr_law n s inum attr_junk Hr Hi) as (s' & Hr' & Hm & Hg).
  rewrite He in Hg. exists s'. unfold getfile. by rewrite Hg.
Qed.

Lemma getfile_none n s inum fin :
  ec_ready (S n) s -> is_u64 inum -> ec_model s !! inum = None ->
  exists s', getfile s inum fin = Ok (s', fin, IOERR) /\ ec_ready n s' /\ ec_model s' = ec_model s.
Proof.
  intros Hr Hi He. destruct (ec_getattr_law n s inum attr_junk Hr Hi) as (s' & Hr' & Hm & Hg).
  rewrite He in Hg. destruct Hg as (d' & Hg). exists s'. unfold getfile. by rewrite Hg.
Qed.

Lemma getdir_none n s inum din :
  ec_ready (S n) s -> is_u64 inum -> ec_model s !! inum = None ->
  exists s', getdir s inum din = Ok (s', din, IOERR) /\ ec_ready n s' /\ ec_model s' = ec_model s.
Proof.
  intros Hr Hi He. destruct (ec_getattr_law n s inum attr_junk Hr Hi) as (s' & Hr' & Hm & Hg).
  rewrite He in Hg. destruct Hg as (d' & Hg). exists s'. unfold getdir. by rewrite Hg.
Qed.

(** Looking up the entry that was just added. *)
Lemma ilookup_first n s parent x name inum es1 es2 e :
  let es := es1 ++ Dirent (x ++ name) inum :: es2 in
  ec_ready (S n) s -> is_u64 parent -> ec_model s !! parent = Some e ->
  content e = encode es -> zlen (content e) <= maxextent -> Forall good_entry es -> name <> [] ->
  Forall (fun f => ~ name `suffix_of` f) (fields es1) ->
  exists s', ilookup s parent name = Ok (s', inum) /\ ec_ready n s' /\ ec_model s' = ec_model s.
Proof.
  intros es Hr Hp He Hc Hsz Hes Hn0 Hsuf.
  assert (good_entry (Dirent (x ++ name) inum)) as [Hpl Hi] by (apply (Forall_app _ es1), proj2, Forall_cons in Hes as [? _]; done).
  destruct (ilookup_fields n s parent name (fields es) e) as (s' & El & Hr' & Hm); try done.
  - rewrite Hc. apply joined_closed. rewrite fields_nil. by destruct es1.
  - unfold maxextent in Hsz. lia.
  - by apply fields_plain.
  - unfold plain in *. cbn in Hpl. set_solver.
  - exists s'. split; [|done]. rewrite El. do 2 f_equal. unfold es, fields. rewrite map_app, concat_app.
    change (lookup_fields name (fields es1 ++ (x ++ name) :: filename inum :: fields es2) = inum).
    rewrite lookup_fields_skip; [cbn; by apply read_print|done|by exists x].
Qed.

(** The name that [create] appended is found if no earlier field ends with it. *)
Lemma ilookup_last n s parent inum name es e :
  ec_ready (S n) s -> is_u64 parent -> is_u64 inum -> ec_model s !! parent = Some e ->
  content e = encode (es ++ [Dirent name inum]) -> zlen (content e) <= maxextent ->
  Forall good_entry es -> plain name -> name <> [] ->
  Forall (fun f => ~ name `suffix_of` f) (fields es) ->
  exists s', ilookup s parent name = Ok (s', inum) /\ ec_ready n s' /\ ec_model s' = ec_model s.
Proof.
  intros Hr Hp Hi He Hc Hsz Hes Hn Hn0 Hsuf.
  apply (ilookup_first n s parent [] name inum es [] e); try done.
  apply Forall_app. split; [done|]. by apply Forall_singleton.
Qed.

(** [fuseserver_lookup] of a name that [ilookup] takes to an existing file. *)
Lemma lookup_file n s s1 parent name inum f :
  ilookup s parent name = Ok (s1, inum) -> ec_ready (S n) s1 -> is_u64 inum -> isfile inum = true ->
  ec_model s1 !! inum = Some f ->
  exists s' ep, fuseserver_lookup jf jd s parent name = Ok (s', [ReplyEntry ep]) /\
    e_ino ep = inum /\ st_size (e_attr ep) = Some (a_size (eAttr f)) /\
    st_mode (e_attr ep) = Some (Z.lor S_IFREG 438).
Proof.
  intros E Hr Hi Hf Hm. destruct (getfile_some n s1 inum jf f Hr Hi Hm) as (s2 & E2 & _ & _).
  eexists s2, _. unfold fuseserver_lookup. rewrite E. cbn [mbind outcome_bind].
  destruct (Z.eqb_spec inum 0) as [->|_]; [done|]. rewrite Hf, E2. by split.
Qed.

Lemma directory_not_file parent : is_u64 parent -> parent < 2 ^ 31 -> isfile parent = false.
Proof.
  intros [H0 _] H31. unfold isfile. apply negb_false_iff, Z.eqb_eq, Z.bits_inj_0. intros k.
  destruct (decide (k = 31)) as [->|Hk].
  - rewrite Z.land_spec, (Z.bits_above_log2 parent); [done|done|].
    destruct (decide (parent = 0)) as [->|]; [done|]. apply Z.log2_lt_pow2; lia.
  - destruct (decide (0 <= k)); [|apply Z.testbit_neg_r; lia].
    rewrite Z.land_spec, Z.pow2_bits_false by lia. apply andb_false_r.
Qed.


(** Making a directory never works. Unless its random id happens to be in use,
    [fuseserver_mkdir] answers ENOSYS -- no extent is created for the
    directory, so asking for its attributes fails -- but the entry has already
    been added to the parent; looking it up afterwards sends two replies, an
    error and an entry with indeterminate times. *)
Theorem mkdir_never_succeeds n s parent name random es e :
  ec_ready (6 + n) s -> is_u64 parent -> 0 < random < 2 ^ 31 -> parent <> random ->
  ec_model s !! parent = Some e -> ec_model s !! random = None -> content e = encode es ->
  zlen (encode (es ++ [Dirent name random])) <= maxextent ->
  Forall good_entry es -> plain name -> name <> [] ->
  Forall (fun f => ~ name `suffix_of` f) (fields es) ->
  exists s' s'' e', fuseserver_mkdir jf s parent name random = Ok (s', [ReplyErr ENOSYS]) /\
    ec_model s' !! parent = Some e' /\ content e' = encode (es ++ [Dirent name random]) /\
    fuseserver_lookup jf jd s' parent name =
      Ok (s'', [ReplyErr ENOENT; ReplyEntry (Entry random (dir_stat None jd None))]).
Proof.
  intros Hr Hp Hrand Hne He Hnone Hc Hsz Hes Hn Hn0 Hsuf.
  assert (isfile random = false) as Hdir.
  { unfold isfile. apply negb_false_iff, Z.eqb_eq. apply Z.bits_inj'. intros i Hi.
    rewrite Z.land_spec, Z.bits_0. destruct (decide (i = 31)) as [->|Hi31].
    - rewrite <- (Z.mod_small random (2 ^ 31)), Z.mod_pow2_bits_high by lia. done.
    - rewrite Z.pow2_bits_false by lia. apply andb_false_r. }
  assert (is_u64 random) as Hu by (unfold is_u64; lia).
  destruct (create_ok (3 + n) s parent random name es e) as (s1 & e1 & E1 & Hr1 & He1 & Hc1 & _ & _ & Hsame); try done.
  assert (ec_model s1 !! random = None) as Hnone1.
  { rewrite Hsame; [done|congruence|]. rewrite Hdir. done. }
  destruct (getfile_none (2 + n) s1 random jf Hr1 Hu Hnone1) as (s2 & E2 & Hr2 & Hm2).
  destruct (ilookup_last (1 + n) s2 parent random name es e1) as (s3 & E3 & Hr3 & Hm3); try done.
  { by rewrite Hm2. } { by rewrite Hc1. }
  destruct (getdir_none n s3 random jd Hr3 Hu) as (s4 & E4 & _ & _).
  { by rewrite Hm3, Hm2. }
  exists s2, s4, e1. split_and!.
  - unfold fuseserver_mkdir. rewrite E1. cbn [mbind outcome_bind OK Z.eqb negb]. rewrite E2. reflexivity.
  - by rewrite Hm2.
  - done.
  - unfold fuseserver_lookup. rewrite E3. cbn [mbind outcome_bind].
    rewrite (proj2 (Z.eqb_neq random 0)), Hdir by lia. rewrite E4. reflexivity.
Qed.
End CreateLookup.

(** ** Writing *)
Lemma c_string_prefix a b : 0 ∉ a -> c_string (a ++ 0 :: b) = Ok a.
Proof.
  induction a as [|x a IH]; intros Ha; [done|]. apply not_elem_of_cons in Ha as [Hx Ha].
  cbn [app c_string]. rewrite (proj2 (Z.eqb_neq x 0)) by congruence. by rewrite IH.
Qed.

Lemma written_length cont buf size off :
  0 <= size -> 0 <= off -> zlen (written cont buf size off) <= zlen cont + size.
Proof.
  intros Hs Ho. unfold written. destruct (zlen cont <=? off); rewrite !zlen_app; unfold zlen;
    rewrite ?length_take, ?length_drop; lia.
Qed.

Section Writing.
Context `{ExtentService St}.

Lemma fuse_write_ok n s ino buf after str size off e :
  ec_ready (S (S n)) s -> is_u64 ino -> ec_model s !! ino = Some e -> zlen (content e) < 2 ^ 31 ->
  0 <= size < 2 ^ 31 -> 0 <= off < 2 ^ 31 -> c_string (buf ++ after) = Ok str ->
  zlen (written (content e) str size off) <= maxextent ->
  exists s', fuseserver_write s ino buf after size off = Ok (s', [ReplyWrite size]) /\
    content <$> ec_model s' !! ino = Some (written (content e) str size off).
Proof.
  intros Hr Hi He Hsz Hsize Hoff Hs Hmax.
  destruct (write_ok n s ino str size off e) as (s' & t & E & _ & Hm); try done.
  exists s'. split.
  - unfold fuseserver_write. rewrite Hs. cbn [mbind outcome_bind].
    rewrite !i32_small by (unfold is_i32; lia). rewrite E. done.
  - by rewrite Hm, lookup_insert, decide_True.
Qed.

(** Writing through FUSE, on a file with room. Data without a NUL byte is
    stored as given. Data with one is cut there, as [write] takes the buffer
    for a C string: a write of [size] bytes inside the file, whose first NUL is
    at [k], replaces [size] bytes by [k], so the file gets shorter and what
    follows moves, while the reply says [size] bytes were written. *)
Theorem fuse_write_stops_at_nul n s ino (buf after : bytes) off e :
  ec_ready (S (S n)) s -> is_u64 ino -> ec_model s !! ino = Some e -> zlen (content e) < 2 ^ 31 ->
  zlen buf < 2 ^ 31 -> 0 <= off < 2 ^ 31 ->
  zlen (content e) + zlen buf <= maxextent ->
  (0 ∉ buf -> forall rest a, after = a ++ 0 :: rest -> 0 ∉ a ->
     exists s', fuseserver_write s ino buf after (zlen buf) off = Ok (s', [ReplyWrite (zlen buf)]) /\
       content <$> ec_model s' !! ino = Some (written (content e) buf (zlen buf) off)) /\
  (forall b1 b2, buf = b1 ++ 0 :: b2 -> 0 ∉ b1 -> off + zlen buf <= zlen (content e) ->
     exists s' c', fuseserver_write s ino buf after (zlen buf) off = Ok (s', [ReplyWrite (zlen buf)]) /\
       content <$> ec_model s' !! ino = Some c' /\
       c' = take (Z.to_nat off) (content e) ++ b1 ++ drop (Z.to_nat (off + zlen buf)) (content e) /\
       zlen c' = zlen (content e) - (zlen buf - zlen b1)).
Proof.
  intros Hr Hi He Hsz Hb Hoff Hroom. pose proof (zlen_nonneg buf).
  assert (forall str, zlen (written (content e) str (zlen buf) off) <= maxextent) as Hmax.
  { intros str. pose proof (written_length (content e) str (zlen buf) off). lia. }
  split.
  - intros Hnul rest a -> Ha.
    destruct (fuse_write_ok n s ino buf (a ++ 0 :: rest) (buf ++ a) (zlen buf) off e) as (s' & E & Hc); try done.
    { rewrite (assoc_L (++)). apply c_string_prefix. set_solver. }
    exists s'. split; [done|]. rewrite Hc. f_equal. unfold written.
    assert (take (Z.to_nat (zlen buf)) (buf ++ a) = take (Z.to_nat (zlen buf)) buf) as ->; [|done].
    unfold zlen. rewrite Nat2Z.id, take_app_length, firstn_all. done.
  - intros b1 b2 Hbuf Hb1 Hin.
    destruct (fuse_write_ok n s ino buf after b1 (zlen buf) off e) as (s' & E & Hc); try done.
    { rewrite Hbuf, <- (assoc_L (++)). by apply c_string_prefix. }
    assert (zlen b1 < zlen buf) as Hlt.
    { rewrite Hbuf, zlen_app, zlen_cons. pose proof (zlen_nonneg b2). lia. }
    pose proof (zlen_nonneg b1). eexists s', _. split; [done|]. split; [exact Hc|].
    assert (written (content e) b1 (zlen buf) off =
      take (Z.to_nat off) (content e) ++ b1 ++ drop (Z.to_nat (off + zlen buf)) (content e)) as ->.
    { unfold written. rewrite (proj2 (Z.leb_gt _ _)) by lia. by rewrite (take_ge b1) by (unfold zlen in *; lia). }
    split; [done|]. rewrite !zlen_app. unfold zlen in *. rewrite length_take, length_drop. lia.
Qed.
End Writing.

(** "hello" with two bytes, the second one NUL, written over "el". *)
Lemma fuse_write_stops_at_nul_witness :
  exists s' c', fuseserver_write demo_file 2147483649 [69; 0] [] 2 1 = Ok (s', [ReplyWrite 2]) /\
    content <$> extents s' !! 2147483649 = Some c' /\ c' = str "hElo".
Proof.
  destruct (fuse_write_stops_at_nul 0 demo_file 2147483649 [69; 0] [] 1 (ExtentInfo (Attr 0 0 0 5) (str "hello")))
    as [_ H2]; try done.
  destruct (H2 [69] []) as (s' & c' & E & Hc & Hc' & _); try done; [set_solver by lia|].
  exists s', c'. split; [exact E|]. split; [exact Hc|]. rewrite Hc'. by vm_compute.
Defined.

(** The root holds "ab", a file of five bytes: a new "c" is found, and a new "b"
    is taken for "ab". *)
Definition demo_root : extent_server :=
  ExtentServer (<[2147483649 := ExtentInfo (Attr 0 0 0 5) (str "hello")]> (extents (demo_dir demo_es))) 100.


Lemma mkdir_never_succeeds_witness :
  exists s' s'', fuseserver_mkdir (Fileinfo 0 0 0 0) (demo_dir demo_es) 1 (str "d") 7 = Ok (s', [ReplyErr ENOSYS]) /\
    fuseserver_lookup (Fileinfo 0 0 0 0) (Dirinfo 0 0 0) s' 1 (str "d") =
      Ok (s'', [ReplyErr ENOENT; ReplyEntry (Entry 7 (dir_stat None (Dirinfo 0 0 0) None))]).
Proof.
  destruct (mkdir_never_succeeds (Fileinfo 0 0 0 0) (Dirinfo 0 0 0) 0 (demo_dir demo_es) 1 (str "d") 7 demo_es
    (ExtentInfo (Attr 0 0 0 (zlen (encode demo_es))) (encode demo_es)))
    as (s' & s'' & e' & H1 & _ & _ & H2).
  - done.
  - by vm_compute.
  - lia.
  - done.
  - apply lookup_singleton_eq.
  - by apply lookup_singleton_ne.
  - done.
  - by vm_compute.
  - apply demo_es_good.
  - by apply (bool_decide_unpack _).
  - done.
  - apply Forall_cons. split; [by apply (bool_decide_unpack _)|].
    apply Forall_cons. split; [by apply (bool_decide_unpack _)|constructor].
  - exists s', s''. split; [exact H1|exact H2].
Defined.
