(* ===== verification/Deployment.v ===== *)
(** * The whole stack: yfs_client over extent_client over RPC over extent_server

    The file system client is written against [ExtentService]; over the RPC
    stubs its theorems are about the deployed system. *)

From S2P Require Import Prelude Marshall Connection Rpcs Rpcc Session ExtentServer ExtentClient Strings YfsClient.
Local Open Scope Z_scope.

Section Deployed.
Context `{Mem : Memory} `{Env : Environment} `{Un : Uninitialised}.

(** extent_smain and a client: the server process started, the client's
    connection accepted, extent_client's constructor run. *)
Definition deploy (random now fd clt ch fd' : Z) : outcome (link extent_server) :=
  s ← extent_boot random now fd;
  extent_client_new clt s (Some (ch, connection_new fd' 0)).

(** C24. Files over the network. Start a server process as extent_smain does and
    let a client bind to it. Then creating a file in the root directory, writing
    a buffer to it, looking its name up and reading it back, all through RPCs
    that the network delivers, returns the inode number and exactly the bytes
    written. *)
Theorem file_system_over_rpc random now fd clt ch fd' inum name buf :
  is_u64 inum -> isfile inum = true -> plain name -> name <> [] ->
  zlen name <= 8000000 -> zlen buf <= maxextent ->
  exists cl cl1 cl2 cl3 cl4,
    deploy random now fd clt ch fd' = Ok cl /\
    create cl 1 inum name = Ok (cl1, OK) /\
    write cl1 inum buf (zlen buf) 0 = Ok (cl2, OK) /\
    ilookup cl2 1 name = Ok (cl3, inum) /\
    read cl3 inum (zlen buf) 0 [] = Ok (cl4, buf, OK).
Proof.
  assert (is_u64 1) as H1 by (by vm_compute). intros Hi Hf Hn Hn0 Hlen Hbuf. pose proof (zlen_nonneg buf) as Hb0.
  assert (written [] buf (zlen buf) 0 = buf) as Hwr
    by (unfold written; cbn [zlen length Z.of_nat Z.leb Z.compare app]; apply take_ge; unfold zlen; lia).
  assert (1 <> inum) as Hne by (intros <-; by vm_compute in Hf).
  destruct (extent_system_ready random now fd clt ch fd') as (s & cl & E1 & E2 & Ha & Hr).
  assert (zlen (encode ([] ++ [Dirent name inum])) <= maxextent) as Hsz.
  { change (zlen (name ++ [colon] ++ print_ull inum) <= maxextent). rewrite !zlen_app.
    change (zlen [colon]) with 1. pose proof (digits_length 20 inum) as Hd. fold (print_ull inum) in Hd.
    unfold maxextent. unfold zlen in *. lia. }
  assert (rpc_ready 9 cl) as Hr9 by (apply Hr; lia).
  destruct (create_ok 6 cl 1 inum name [] (ExtentInfo (Attr (u32 now) (u32 now) (u32 now) 0) []))
    as (cl1 & e1 & Ec & Hr1 & He1 & Hc1 & _ & Hnew & _);
    [exact Hr9|exact H1|exact Hi|exact Hne| |reflexivity|exact Hsz|].
  { cbn [ec_model rpc_service]. rewrite Ha. apply lookup_singleton_eq. }
  specialize (Hnew Hf). destruct (ec_model cl1 !! inum) as [ef|] eqn:Hef; [|done]. injection Hnew as Hef0.
  destruct (write_ok 4 cl1 inum buf (zlen buf) 0 ef Hr1 Hi Hef) as (cl2 & t & Ew & Hr2 & Hm2);
    [rewrite Hef0; done|unfold maxextent in *; lia|lia| |].
  { rewrite Hef0, Hwr. exact Hbuf. }
  destruct (ilookup_fields 3 cl2 1 name (fields ([] ++ [Dirent name inum])) e1) as (cl3 & El & Hr3 & Hm3);
    [exact Hr2|exact H1| | | | |exact Hn|exact Hn0|].
  { rewrite Hm2, lookup_insert_ne by congruence. exact He1. }
  { rewrite Hc1. by apply joined_closed. }
  { rewrite Hc1. unfold maxextent in Hsz. lia. }
  { apply fields_plain. constructor; [by split|constructor]. }
  destruct (read_ok 2 cl3 inum (zlen buf) 0 (ExtentInfo
      (Attr t t t (zlen (written (content ef) buf (zlen buf) 0))) (written (content ef) buf (zlen buf) 0)) Hr3 Hi)
    as (cl4 & Er & _); [by rewrite Hm3, Hm2, lookup_insert_eq|lia|lia|].
  exists cl, cl1, cl2, cl3, cl4. split_and!; [unfold deploy; rewrite E1; exact E2|exact Ec|exact Ew| |].
  - rewrite El. do 2 f_equal. change (fields ([] ++ [Dirent name inum])) with ([] ++ name :: [filename inum]).
    rewrite lookup_fields_skip; [|constructor|done]. cbn. by apply read_print.
  - rewrite Er. do 3 f_equal. cbn [content]. rewrite Hef0, Hwr. cbn [Z.to_nat drop].
    apply take_ge. unfold zlen. lia.
Qed.
End Deployed.

#[local] Existing Instance zero_memory.
#[local] Existing Instance Session.Demo.environment.
#[local] Existing Instance ExtentClient.Demo.uninitialised.

(** File 2147483649, "f", with the content "hello". *)
Lemma file_system_over_rpc_witness :
  exists cl cl1 cl2 cl3 cl4,
    deploy 77 100 3 9 2 5 = Ok cl /\
    create cl 1 2147483649 (str "f") = Ok (cl1, OK) /\
    write cl1 2147483649 (str "hello") 5 0 = Ok (cl2, OK) /\
    ilookup cl2 1 (str "f") = Ok (cl3, 2147483649) /\
    read cl3 2147483649 5 0 [] = Ok (cl4, str "hello", OK).
Proof.
  apply (file_system_over_rpc 77 100 3 9 2 5 2147483649 (str "f") (str "hello")).
  - by vm_compute.
  - by vm_compute.
  - by apply (bool_decide_unpack _).
  - done.
  - by vm_compute.
  - by vm_compute.
Defined.
