(* ===== verification/FsMain.v ===== *)
(** * The mains of the file system: main of fuse.cc and of extent_smain.cc

    main of fuse.cc makes the file system client, mounts through libfuse and
    runs libfuse's session loop with the handlers of Fuse. libfuse is an
    argument; of its loop the theorem takes the documented behaviour of the
    single-threaded loop, that it hands the requests to the handlers one after
    the other, as a named hypothesis ([serves]). *)

From S2P Require Import Prelude Marshall Connection XidWindow TimeSpec Rpcs Serve Stubs Rpcc Remote Session.
From S2P Require Import Strings Address ExtentServer ExtentClient YfsClient Fuse.
Local Open Scope Z_scope.

(** ** extent_smain.cc and the constructors *)
Section Constructors.
Context `{Memory} `{Environment} `{Uninitialised}.

(** main of extent_smain.cc, up to the endless sleep: [None] if it exits. *)
Definition extent_smain_main (argv : list bytes) (random now : Z) : option (Z * outcome (rpcs extent_server)) :=
  match server_args argv with
  | None => None
  | Some port => Some (port, extent_smain random now)
  end.

(** extent_client's constructor from a destination; [None] if make_sockaddr
    exits. [connect] is what connect_to_dst makes. *)
Definition extent_client_open (inet_addr : bytes -> Z) (gethostbyname : bytes -> option (Z * Z))
    (connect : sockaddr_in -> option (Z * connection)) (random : Z) (s : rpcs extent_server) (dst : bytes)
    : outcome (option (link extent_server)) :=
  dstsock ← make_sockaddr inet_addr gethostbyname dst;
  match dstsock with
  | None => Ok None
  | Some a => cl ← extent_client_new random s (connect a); Ok (Some cl)
  end.

(** yfs_client's constructor; it has no use for the lock server. *)
Definition yfs_client_new (extent_client : bytes -> outcome (option (link extent_server))) (extent_dst lock_dst : bytes)
    : outcome (option (link extent_server)) := extent_client extent_dst.
End Constructors.

(** ** main of fuse.cc *)

(** libfuse: the mount point fuse_parse_cmdline finds, fuse_mount's descriptor,
    whether fuse_lowlevel_new and fuse_kern_chan_new succeed, and
    fuse_session_loop, which calls the handlers it was given on the file
    system's state: the final state, the replies to each request, and the
    loop's own return value. *)
Record libfuse (St : Type) := Libfuse {
  fuse_parse_cmdline : list bytes -> option bytes;
  fuse_mount : bytes -> Z;
  fuse_lowlevel_new : bool;
  fuse_kern_chan_new : bool;
  fuse_session_loop : (St -> call -> outcome (St * list reply)) -> St -> outcome (St * list (list reply) * Z) }.
Arguments Libfuse {St}.
Arguments fuse_parse_cmdline {St}.
Arguments fuse_mount {St}.
Arguments fuse_lowlevel_new {St}.
Arguments fuse_kern_chan_new {St}.
Arguments fuse_session_loop {St}.

(** Requests handled one after the other. *)
Fixpoint one_by_one {St} (handler : St -> call -> outcome (St * list reply)) (s : St) (cs : list call)
    : outcome (St * list (list reply)) :=
  match cs with
  | [] => Ok (s, [])
  | c :: cs => '(s, r) ← handler s c; '(s, rs) ← one_by_one handler s cs; Ok (s, r :: rs)
  end.

(** The loop passes on the requests [cs] one after the other and then returns [err]. *)
Definition serves {St} (lib : libfuse St) (cs : list call) (err : Z) : Prop :=
  forall handler s, fuse_session_loop lib handler s = ('(s, rs) ← one_by_one handler s cs; Ok (s, rs, err)).

(** The process's exit code, where it mounted, and the replies it sent to each
    request; a mount point that was not unmounted again is [Some]. *)
Record ended := Ended { exit_code : Z; still_mounted : option bytes; replies : list (list reply) }.

Section Main.
Context `{ExtentService St}.
Context (jf : fileinfo) (jd : dirinfo) (db : bytes -> Z -> Z -> bytes) (ds : Z -> Z).

(** main; [yfs] makes the yfs_client. *)
Definition fuse_main (lib : libfuse St) (yfs : bytes -> bytes -> outcome (option St)) (argv : list bytes)
    : outcome ended :=
  match argv with
  | [name; mountpoint; extent_dst; lock_dst] =>
      y ← yfs extent_dst lock_dst;
      match y with
      | None => Ok (Ended 1 None [])
      | Some s =>
          match fuse_parse_cmdline lib [name; mountpoint; str "-d"] with
          | None => Ok (Ended 0 None [])
          | Some mountpoint =>
              if fuse_mount lib mountpoint =? -1 then Ok (Ended 1 None [])
              else if negb (fuse_lowlevel_new lib) || negb (fuse_kern_chan_new lib)
              then Ok (Ended 1 (Some mountpoint) [])
              else
                '(s, rs, err) ← fuse_session_loop lib (handle jf jd db ds) s;
                Ok (Ended (if err =? 0 then 0 else 1) None rs)
          end
      end
  | _ => Ok (Ended 1 None [])
  end.
End Main.

(** ** A session *)
Section Session.
Context `{ExtentService St}.
Context (jf : fileinfo) (jd : dirinfo) (db : bytes -> Z -> Z -> bytes) (ds : Z -> Z).

(** A new file is created, found, written and read. *)
Definition file_session (name : bytes) (random : Z) (buf after : bytes) : list call :=
  let id := Z.lor random (2 ^ 31) in
  [Create 1 name random; Lookup 1 name; Write id buf after (zlen buf) 0; Read id (zlen buf) 0].

Definition is_new_file (id : Z) (ep : entry_param) : Prop :=
  e_ino ep = id /\ st_size (e_attr ep) = Some 0 /\ st_mode (e_attr ep) = Some (Z.lor S_IFREG 438).

Lemma file_is_new id ino info : f_size info = 0 -> is_new_file id (Entry id (file_stat ino info)).
Proof. intros E. split; [done|]. split; [|done]. cbn. by rewrite E. Qed.

Lemma root_room name id : zlen name <= 8000000 -> zlen (encode ([] ++ [Dirent name id])) <= maxextent.
Proof.
  intros Hn. change (zlen (name ++ [colon] ++ print_ull id) <= maxextent). rewrite !zlen_app.
  change (zlen [colon]) with 1. pose proof (digits_length 20 id) as Hd. fold (print_ull id) in Hd.
  unfold maxextent. unfold zlen in *. lia.
Qed.

(** What write keeps of a buffer: the handler passes it on as a C string. *)
Fixpoint up_to_nul (buf : bytes) : bytes :=
  match buf with
  | [] => []
  | c :: buf => if c =? 0 then [] else c :: up_to_nul buf
  end.

Lemma up_to_nul_iff buf : up_to_nul buf = buf <-> 0 ∉ buf.
Proof.
  induction buf as [|c buf IH]; cbn [up_to_nul]; [set_solver|].
  rewrite not_elem_of_cons, <- IH. destruct (Z.eqb_spec c 0) as [->|Hc]; split; [done|by intros []| |].
  - by intros [= ->].
  - by intros [_ ->].
Qed.

Lemma up_to_nul_length buf : (length (up_to_nul buf) <= length buf)%nat.
Proof. induction buf as [|c buf IH]; cbn [up_to_nul]; [done|]. destruct (c =? 0); cbn [length]; lia. Qed.

(** The C string starts with the buffer up to its NUL, and is no longer than
    that if the buffer has one. *)
Lemma c_string_buffer buf after :
  0 ∈ buf ++ after ->
  exists str, c_string (buf ++ after) = Ok str /\ take (length buf) str = up_to_nul buf.
Proof.
  induction buf as [|c buf IH]; cbn [app up_to_nul length].
  - intros Ha. apply list_elem_of_split in Ha as (l1 & l2 & Ha). clear -Ha. revert l1 Ha.
    induction after as [|x after IH]; intros l1 Ha; [by destruct l1|]. cbn [c_string].
    destruct (Z.eqb_spec x 0) as [_|Hx]; [by exists []|].
    destruct l1 as [|y l1]; [by injection Ha as ->|]. injection Ha as _ Ha.
    destruct (IH l1 Ha) as (str & -> & _). by exists (x :: str).
  - intros Ha. cbn [c_string]. destruct (Z.eqb_spec c 0) as [_|Hc]; [by exists []|].
    apply elem_of_cons in Ha as [Ha|Ha]; [congruence|]. destruct (IH Ha) as (str & -> & Hstr).
    exists (c :: str). split; [done|]. cbn [take]. by rewrite Hstr.
Qed.

Lemma c_string_unterminated mem : 0 ∉ mem -> c_string mem = Crash OutOfBounds.
Proof.
  induction mem as [|c mem IH]; intros Hm; [done|]. apply not_elem_of_cons in Hm as [Hc Hm].
  cbn [c_string]. rewrite (proj2 (Z.eqb_neq c 0)) by congruence. by rewrite IH.
Qed.

(** The session up to the write. *)
Lemma session_created n s e name random buf after :
  ec_ready (9 + n) s -> ec_model s !! 1 = Some e -> content e = [] -> 0 <= random < 2 ^ 31 ->
  plain name -> name <> [] -> zlen name <= 8000000 ->
  let id := Z.lor random (2 ^ 31) in
  exists s' ep ep' ef,
    one_by_one (handle jf jd db ds) s (file_session name random buf after) =
      ('(s', rs) ← one_by_one (handle jf jd db ds) s' [Write id buf after (zlen buf) 0; Read id (zlen buf) 0];
       Ok (s', [ReplyCreate ep] :: [ReplyEntry ep'] :: rs)) /\
    is_new_file id ep /\ is_new_file id ep' /\
    ec_ready (3 + n) s' /\ is_u64 id /\ ec_model s' !! id = Some ef /\ content ef = [].
Proof.
  intros Hr He Hc Hrand Hn Hn0 Hlen id.
  destruct (random_file_id random Hrand) as (Hf & Hi & Hbig). fold id in Hf, Hi, Hbig.
  assert (is_u64 1) as H1 by (by vm_compute). pose proof (root_room name id Hlen) as Hsz.
  destruct (create_new_file (6 + n) s 1 id name [] e)
    as (s1 & e1 & ef & E1 & Hr1 & He1 & Hc1 & Hef & Hsz0 & Hcf & _); try done; [lia|].
  destruct (getfile_some (5 + n) s1 id jf ef Hr1 Hi Hef) as (s2 & E2 & Hr2 & Hm2).
  destruct (ilookup_last (4 + n) s2 1 id name [] e1) as (s3 & E3 & Hr3 & Hm3);
    [exact Hr2|exact H1|exact Hi|by rewrite Hm2|exact Hc1|by rewrite Hc1|apply Forall_nil_2|exact Hn|exact Hn0|apply Forall_nil_2|].
  destruct (getfile_some (3 + n) s3 id jf ef Hr3 Hi) as (s4 & E4 & Hr4 & Hm4); [by rewrite Hm3, Hm2|].
  eexists s4, _, _, ef. split; [|split; [|split; [|split; [|split; [|split]]]]].
  - unfold file_session. fold id. cbn [one_by_one handle].
    unfold fuseserver_create, fuseserver_createhelper. fold id. rewrite E1. cbn [mbind outcome_bind OK Z.eqb negb].
    rewrite E2. cbn [mbind outcome_bind OK Z.eqb negb].
    unfold fuseserver_lookup. rewrite E3. cbn [mbind outcome_bind].
    rewrite (proj2 (Z.eqb_neq id 0)), Hf by lia. rewrite E4. cbn [mbind outcome_bind OK Z.eqb negb app].
    destruct (fuseserver_write s4 id buf after (zlen buf) 0) as [[s5 r5]|]; cbn [mbind outcome_bind]; [|done].
    destruct (fuseserver_read s5 id (zlen buf) 0) as [[s6 r6]|]; reflexivity.
  - apply file_is_new. exact Hsz0.
  - apply file_is_new. exact Hsz0.
  - exact Hr4.
  - exact Hi.
  - by rewrite Hm4, Hm3, Hm2.
  - exact Hcf.
Qed.

(** The write and the read of the new file. *)
Lemma session_data n s id ef buf after :
  ec_ready (3 + n) s -> is_u64 id -> ec_model s !! id = Some ef -> content ef = [] -> zlen buf <= maxextent ->
  let run := one_by_one (handle jf jd db ds) s [Write id buf after (zlen buf) 0; Read id (zlen buf) 0] in
  (0 ∈ buf ++ after -> exists s', run = Ok (s', [[ReplyWrite (zlen buf)]; [ReplyBuf (up_to_nul buf)]])) /\
  (0 ∉ buf ++ after -> run = Crash OutOfBounds).
Proof.
  intros Hr Hi He Hc Hbuf run. unfold run. cbn [one_by_one handle].
  pose proof (zlen_nonneg buf) as Hb0. unfold maxextent in Hbuf. split.
  - intros Hnul. destruct (c_string_buffer buf after Hnul) as (str & Estr & Htake).
    assert (written (content ef) str (zlen buf) 0 = up_to_nul buf) as Hwr.
    { rewrite Hc, <- Htake. unfold written. cbn [zlen length Z.of_nat Z.leb Z.compare app]. f_equal. unfold zlen; lia. }
    pose proof (up_to_nul_length buf) as Hle.
    destruct (write_ok (1 + n) s id str (zlen buf) 0 ef Hr Hi He) as (s5 & t & E5 & Hr5 & Hm5);
      [by rewrite Hc|lia|lia|rewrite Hwr; unfold maxextent, zlen in *; lia|].
    rewrite Hwr in Hm5.
    destruct (read_ok n s5 id (zlen buf) 0 (ExtentInfo (Attr t t t (zlen (up_to_nul buf))) (up_to_nul buf)) Hr5 Hi)
      as (s6 & E6 & _ & _); [by rewrite Hm5, lookup_insert_eq|lia|lia|].
    exists s6. unfold fuseserver_write. rewrite Estr. cbn [mbind outcome_bind].
    rewrite !i32_small by (unfold is_i32; lia). rewrite E5. cbn [mbind outcome_bind OK Z.eqb negb].
    unfold fuseserver_read. rewrite ?i32_small by (unfold is_i32; lia). rewrite E6.
    cbn [mbind outcome_bind OK Z.eqb negb content].
    change (drop (Z.to_nat 0) (up_to_nul buf)) with (up_to_nul buf).
    rewrite (take_ge (up_to_nul buf)) by (unfold zlen; lia). reflexivity.
  - intros Hnul. unfold fuseserver_write. by rewrite c_string_unterminated.
Qed.

(** The whole session. *)
Lemma session_replies n s e name random buf after :
  ec_ready (9 + n) s -> ec_model s !! 1 = Some e -> content e = [] -> 0 <= random < 2 ^ 31 ->
  plain name -> name <> [] -> zlen name <= 8000000 -> zlen buf <= maxextent ->
  let id := Z.lor random (2 ^ 31) in
  let run := one_by_one (handle jf jd db ds) s (file_session name random buf after) in
  (0 ∈ buf ++ after ->
   exists s' ep ep',
     run = Ok (s', [[ReplyCreate ep]; [ReplyEntry ep']; [ReplyWrite (zlen buf)]; [ReplyBuf (up_to_nul buf)]]) /\
     is_new_file id ep /\ is_new_file id ep') /\
  (0 ∉ buf ++ after -> run = Crash OutOfBounds).
Proof.
  intros Hr He Hc Hrand Hn Hn0 Hlen Hbuf id run. unfold run.
  destruct (session_created n s e name random buf after Hr He Hc Hrand Hn Hn0 Hlen)
    as (s' & ep & ep' & ef & -> & H1 & H2 & Hr' & Hi & Hef & Hcf). fold id in H1, H2, Hi, Hef |- *.
  destruct (session_data n s' id ef buf after Hr' Hi Hef Hcf Hbuf) as [Hgood Hbad]. split.
  - intros Hnul. destruct (Hgood Hnul) as (s'' & ->). by exists s'', ep, ep'.
  - intros Hnul. by rewrite (Hbad Hnul).
Qed.
End Session.

(** ** The file system as a program *)
Section Program.
Context `{ExtentService St}.
Context (jf : fileinfo) (jd : dirinfo) (db : bytes -> Z -> Z -> bytes) (ds : Z -> Z).

(** C25. main of fuse.cc. It is given its three arguments, an extent service with
    an empty root directory, and a libfuse that mounts and passes on, one after
    the other, the requests to create a file, look it up, write a buffer to it
    and read it back. If there is a NUL somewhere in the buffer or in the memory
    behind it, the program answers each request with one reply: the new inode
    twice, the number of bytes libfuse passed to write, and the bytes of the
    buffer up to its first NUL, which are all of it only if it has none; it
    exits with 0 if the loop ended without an error, and unmounts. If there is
    no NUL in the memory, the program reads past it in the write and crashes.
    With any other number of arguments, or if mounting fails, it exits with 1 and
    nothing is mounted; if a later call of libfuse fails it exits with 1 and
    stays mounted; and if libfuse does not understand its arguments it exits
    with 0. *)
Theorem fuse_main_spec n s e (yfs : bytes -> bytes -> outcome (option St)) argv0 mnt edst ldst lib :
  ec_ready (9 + n) s -> ec_model s !! 1 = Some e -> content e = [] -> yfs edst ldst = Ok (Some s) ->
  let argv := [argv0; mnt; edst; ldst] in
  let run lib argv := fuse_main jf jd db ds lib yfs argv in
  (forall m name random buf after err,
     fuse_parse_cmdline lib [argv0; mnt; str "-d"] = Some m -> fuse_mount lib m <> -1 ->
     fuse_lowlevel_new lib = true -> fuse_kern_chan_new lib = true ->
     serves lib (file_session name random buf after) err -> 0 <= random < 2 ^ 31 ->
     plain name -> name <> [] -> zlen name <= 8000000 -> zlen buf <= maxextent ->
     (0 ∈ buf ++ after ->
      exists ep ep', run lib argv = Ok (Ended (if err =? 0 then 0 else 1) None
          [[ReplyCreate ep]; [ReplyEntry ep']; [ReplyWrite (zlen buf)]; [ReplyBuf (up_to_nul buf)]]) /\
        is_new_file (Z.lor random (2 ^ 31)) ep /\ is_new_file (Z.lor random (2 ^ 31)) ep' /\
        (up_to_nul buf = buf <-> 0 ∉ buf)) /\
     (0 ∉ buf ++ after -> run lib argv = Crash OutOfBounds)) /\
  (forall lib args, zlen args <> 4 -> run lib args = Ok (Ended 1 None [])) /\
  (fuse_parse_cmdline lib [argv0; mnt; str "-d"] = None -> run lib argv = Ok (Ended 0 None [])) /\
  (forall m, fuse_parse_cmdline lib [argv0; mnt; str "-d"] = Some m ->
     (fuse_mount lib m = -1 -> run lib argv = Ok (Ended 1 None [])) /\
     (fuse_mount lib m <> -1 -> fuse_lowlevel_new lib && fuse_kern_chan_new lib = false ->
      run lib argv = Ok (Ended 1 (Some m) []))).
Proof.
  intros Hr He Hc Hy argv run. unfold run, argv.
  assert (fuse_main jf jd db ds lib yfs [argv0; mnt; edst; ldst] =
    match fuse_parse_cmdline lib [argv0; mnt; str "-d"] with
    | None => Ok (Ended 0 None [])
    | Some m =>
        if fuse_mount lib m =? -1 then Ok (Ended 1 None [])
        else if negb (fuse_lowlevel_new lib) || negb (fuse_kern_chan_new lib) then Ok (Ended 1 (Some m) [])
        else '(_, rs, err) ← fuse_session_loop lib (handle jf jd db ds) s;
             Ok (Ended (if err =? 0 then 0 else 1) None rs)
    end) as Hmain by (unfold fuse_main; rewrite Hy; reflexivity).
  split; [|split; [|split]].
  - intros m name random buf after err Hp Hm Hl Hk Hserves Hrand Hn Hn0 Hlen Hbuf.
    destruct (session_replies jf jd db ds n s e name random buf after Hr He Hc Hrand Hn Hn0 Hlen Hbuf) as [Hgood Hbad].
    rewrite Hmain, Hp, (proj2 (Z.eqb_neq _ _) Hm), Hl, Hk. cbn [negb orb].
    pose proof (Hserves (handle jf jd db ds) s) as Hloop. split.
    + intros Hnul. destruct (Hgood Hnul) as (s' & ep & ep' & E & H1 & H2). exists ep, ep'. rewrite Hloop, E.
      split; [done|]. split; [done|]. split; [done|]. apply up_to_nul_iff.
    + intros Hnul. by rewrite Hloop, (Hbad Hnul).
  - intros lib' args Hne. unfold fuse_main.
    destruct args as [|x1 [|x2 [|x3 [|x4 [|x5 args]]]]]; try reflexivity. by destruct Hne.
  - intros Hp. by rewrite Hmain, Hp.
  - intros m Hp. rewrite Hmain, Hp. split; [intros ->; reflexivity|].
    intros Hm Hf. rewrite (proj2 (Z.eqb_neq _ _) Hm). by destruct (fuse_lowlevel_new lib), (fuse_kern_chan_new lib).
Qed.
End Program.

#[local] Existing Instance zero_memory.
#[local] Existing Instance Session.Demo.environment.
#[local] Existing Instance ExtentClient.Demo.uninitialised.

(** A libfuse that mounts, and passes on one session's requests. *)
Definition demo_libfuse (St : Type) (buf after : bytes) : libfuse St :=
  Libfuse (fun argv => argv !! 1%nat) (fun _ => 3) true true
    (fun handler s => '(s, rs) ← one_by_one handler s (file_session (str "f") 7 buf after); Ok (s, rs, 0)).

(** The program on an extent server it reaches over RPC; the buffers are "hello",
    with more of the request behind it, and "hi", a NUL and "x". *)
Lemma fuse_main_spec_witness :
  exists s, extent_boot 77 100 3 = Ok s /\
    let main buf after := fuse_main (Fileinfo 0 0 0 0) (Dirinfo 0 0 0) (fun _ _ _ => []) (fun _ => 0)
      (demo_libfuse _ buf after)
      (yfs_client_new (extent_client_open Address.Demo.inet_addr Address.Demo.gethostbyname
         (fun _ => Some (2, connection_new 5 0)) 9 s))
      [str "yfs_client"; str "/mnt"; str "server:3772"; str "server:3773"] in
    (exists ep ep', main (str "hello") (str "more" ++ [0]) =
       Ok (Ended 0 None [[ReplyCreate ep]; [ReplyEntry ep']; [ReplyWrite 5]; [ReplyBuf (str "hello")]])) /\
    (exists ep ep', main (str "hi" ++ 0 :: str "x") [] =
       Ok (Ended 0 None [[ReplyCreate ep]; [ReplyEntry ep']; [ReplyWrite 4]; [ReplyBuf (str "hi")]])) /\
    main (str "hello") [] = Crash OutOfBounds.
Proof.
  destruct (extent_system_ready 77 100 3 9 2 5) as (s & cl & E1 & E2 & Ha & Hr).
  set (yfs := yfs_client_new (extent_client_open Address.Demo.inet_addr Address.Demo.gethostbyname
         (fun _ => Some (2, connection_new 5 0)) 9 s)).
  assert (yfs (str "server:3772") (str "server:3773") = Ok (Some cl)) as Hy.
  { unfold yfs, yfs_client_new, extent_client_open.
    change (make_sockaddr Address.Demo.inet_addr Address.Demo.gethostbyname (str "server:3772"))
      with (Ok (A := option sockaddr_in) (Some (Sockaddr AF_INET 16777226 (htons 3772)))).
    cbn [mbind outcome_bind]. rewrite E2. reflexivity. }
  assert (ec_ready (9 + 0) cl) as Hr9 by (apply Hr; lia).
  assert (ec_model cl !! 1 = Some (ExtentInfo (Attr (u32 100) (u32 100) (u32 100) 0) [])) as He.
  { cbn [ec_model rpc_service]. rewrite Ha. reflexivity. }
  assert (forall buf after, zlen buf <= maxextent ->
    let run := fuse_main (Fileinfo 0 0 0 0) (Dirinfo 0 0 0) (fun _ _ _ => []) (fun _ => 0) (demo_libfuse _ buf after) yfs
      [str "yfs_client"; str "/mnt"; str "server:3772"; str "server:3773"] in
    (0 ∈ buf ++ after -> exists ep ep', run =
       Ok (Ended 0 None [[ReplyCreate ep]; [ReplyEntry ep']; [ReplyWrite (zlen buf)]; [ReplyBuf (up_to_nul buf)]])) /\
    (0 ∉ buf ++ after -> run = Crash OutOfBounds)) as Hrun.
  { intros buf after Hbuf.
    destruct (fuse_main_spec (Fileinfo 0 0 0 0) (Dirinfo 0 0 0) (fun _ _ _ => []) (fun _ => 0) 0 cl _ yfs
      (str "yfs_client") (str "/mnt") (str "server:3772") (str "server:3773") (demo_libfuse _ buf after)
      Hr9 He eq_refl Hy) as [Hs _].
    assert (plain (str "f")) as Hf by (by apply (bool_decide_unpack _)).
    destruct (Hs (str "/mnt") (str "f") 7 buf after 0) as [Hgood Hbad];
      [reflexivity|discriminate|reflexivity|reflexivity|intros handler s0; reflexivity|lia|exact Hf|discriminate
      |discriminate|exact Hbuf|].
    split; [|exact Hbad]. intros Hnul. destruct (Hgood Hnul) as (ep & ep' & E & _). exists ep, ep'. exact E. }
  exists s. split; [exact E1|]. split; [|split].
  - apply (Hrun (str "hello") (str "more" ++ [0])); [discriminate|]. by apply (bool_decide_unpack _).
  - apply (Hrun (str "hi" ++ 0 :: str "x") []); [discriminate|]. by apply (bool_decide_unpack _).
  - apply (Hrun (str "hello") []); [discriminate|]. by apply (bool_decide_unpack _).
Defined.
